(** * isuconquest: the reward, token, lottery and login-bonus core of [go/main.go]

    A shallow embedding of the Go handlers into Rocq.  Go's [int] and
    [int64] are 64-bit two's-complement integers, modelled as [Z] with the
    wrap-around written out ([wrap64]).  Every MySQL server is a record of
    tables, a table is the list of its rows in storage order, and the
    handlers run in a state-and-error monad over the process state (the
    servers, the open transaction, the two caches, the snowflake generator,
    the random source and a schedule saying which store round trips fail). *)

From stdpp Require Import gmap strings list fin_maps sorting.
From Stdlib Require Import ZArith Lia.

Local Open Scope Z_scope.

(** ** Machine integers *)

Definition wrap64 (z : Z) : Z := (z + 2 ^ 63) mod 2 ^ 64 - 2 ^ 63.
Definition add64 (a b : Z) : Z := wrap64 (a + b).
Definition in_int64 (z : Z) : Prop := - 2 ^ 63 ≤ z < 2 ^ 63.

(** ** Entities (the structs at the end of main.go) *)

Module User.
Record t := mk {
  ID : Z; IsuCoin : Z; LastGetRewardAt : Z; LastActivatedAt : Z;
    RegisteredAt : Z; CreatedAt : Z; UpdatedAt : Z; DeletedAt : option Z }.
Definition with_IsuCoin (c : Z) (u : t) : t :=
  mk (ID u) c (LastGetRewardAt u) (LastActivatedAt u) (RegisteredAt u)
     (CreatedAt u) (UpdatedAt u) (DeletedAt u).
End User.

Module UserDevice.
Record t := mk {
  ID : Z; UserID : Z; PlatformID : string; PlatformType : Z;
    CreatedAt : Z; UpdatedAt : Z; DeletedAt : option Z }.
End UserDevice.

Module UserCard.
Record t := mk {
  ID : Z; UserID : Z; CardID : Z; AmountPerSec : Z; Level : Z;
    TotalExp : Z; CreatedAt : Z; UpdatedAt : Z; DeletedAt : option Z }.
End UserCard.

Module UserItem.
Record t := mk {
  ID : Z; UserID : Z; ItemType : Z; ItemID : Z; Amount : Z;
    CreatedAt : Z; UpdatedAt : Z; DeletedAt : option Z }.
Definition with_Amount (a upd : Z) (i : t) : t :=
  mk (ID i) (UserID i) (ItemType i) (ItemID i) a (CreatedAt i) upd (DeletedAt i).
End UserItem.

Module UserLoginBonus.
Record t := mk {
  ID : Z; UserID : Z; LoginBonusID : Z; LastRewardSequence : Z;
    LoopCount : Z; CreatedAt : Z; UpdatedAt : Z; DeletedAt : option Z }.
Definition with_progress (seq loop upd : Z) (b : t) : t :=
  mk (ID b) (UserID b) (LoginBonusID b) seq loop (CreatedAt b) upd (DeletedAt b).
End UserLoginBonus.

Module UserPresent.
Record t := mk {
  ID : Z; UserID : Z; SentAt : Z; ItemType : Z; ItemID : Z; Amount : Z;
    PresentMessage : string; CreatedAt : Z; UpdatedAt : Z; DeletedAt : option Z }.
Definition with_deleted (upd : Z) (del : option Z) (p : t) : t :=
  mk (ID p) (UserID p) (SentAt p) (ItemType p) (ItemID p) (Amount p)
     (PresentMessage p) (CreatedAt p) upd del.
End UserPresent.

Module UserOneTimeToken.
Record t := mk {
  ID : Z; UserID : Z; Token : string; TokenType : Z; ExpiredAt : Z;
    CreatedAt : Z; UpdatedAt : Z; DeletedAt : option Z }.
Definition with_deleted (del : option Z) (k : t) : t :=
  mk (ID k) (UserID k) (Token k) (TokenType k) (ExpiredAt k)
     (CreatedAt k) (UpdatedAt k) del.
End UserOneTimeToken.

(** ** Master entities *)

Module GachaMaster.
Record t := mk {
  ID : Z; Name : string; StartAt : Z; EndAt : Z; DisplayOrder : Z; CreatedAt : Z }.
End GachaMaster.

Module GachaItemMaster.
Record t := mk {
  ID : Z; GachaID : Z; ItemType : Z; ItemID : Z; Amount : Z; Weight : Z;
    CreatedAt : Z }.
End GachaItemMaster.

Module ItemMaster.
Record t := mk {
  ID : Z; ItemType : Z; Name : string; Description : string;
    AmountPerSec : option Z; MaxLevel : option Z; MaxAmountPerSec : option Z;
    BaseExpPerLevel : option Z; GainedExp : option Z; ShorteningMin : option Z }.
End ItemMaster.

Module LoginBonusMaster.
Record t := mk {
  ID : Z; StartAt : Z; EndAt : Z; ColumnCount : Z; Looped : bool; CreatedAt : Z }.
End LoginBonusMaster.

Module LoginBonusRewardMaster.
Record t := mk {
  ID : Z; LoginBonusID : Z; RewardSequence : Z; ItemType : Z; ItemID : Z;
    Amount : Z; CreatedAt : Z }.
End LoginBonusRewardMaster.

Module TokenInfo.
Record t := mk { UserID : Z; TokenType : Z; ExpiredAt : Z; CreatedAt : Z }.
End TokenInfo.

(** ** The handler and the shard router

    A [*sqlx.DB] is a connection pool to one MySQL server; two pools opened
    on the same host see the same data, so a pool is modelled by the index
    of its server. *)

Definition Host := nat.

Record Handler := { DBs : list Host; DB : Host }.

(** [index := int(userID>>23) % len(h.DBs)]: Go's [>>] on a signed integer
    is the arithmetic shift and [%] truncates towards zero. *)
Definition shardIndex (userID : Z) (n : nat) : Z :=
  Z.rem (Z.shiftr userID 23) (Z.of_nat n).

(** [None] is the run-time panic of [h.DBs[index]] on an index out of
    range. *)
Definition getDBForUserID (h : Handler) (userID : Z) : option Host :=
  if (length (DBs h) =? 0)%nat then Some (DB h)
  else
    let index := shardIndex userID (length (DBs h)) in
    if index <? 0 then None else DBs h !! Z.to_nat index.

(** ** The lottery of drawGacha *)

(** The loop of [SetGachaItems] (and of the cache-miss branch of
    [drawGacha]): [weightSum += int64(item.Weight)]. *)
Definition sumWeights (items : list GachaItemMaster.t) : Z :=
  fold_left (λ weightSum item, add64 weightSum (GachaItemMaster.Weight item)) items 0.

(** The inner loop of the draw: [boundary += v.Weight; if random <
    int64(boundary) { result = append(result, v); break }].  [None] means
    the loop ran off the end of the pool without appending. *)
Fixpoint pickFrom (boundary random : Z) (gachaItemList : list GachaItemMaster.t)
  : option GachaItemMaster.t :=
  match gachaItemList with
  | [] => None
  | v :: rest =>
      let boundary := add64 boundary (GachaItemMaster.Weight v) in
      if random <? boundary then Some v else pickFrom boundary random rest
  end.

Definition pick (random : Z) (gachaItemList : list GachaItemMaster.t) :=
  pickFrom 0 random gachaItemList.

(** ** The store *)

(** One MySQL server: the tables the modelled handlers touch, each as the
    list of its rows. *)
Record Database := mkDatabase {
  users : list User.t;
  user_devices : list UserDevice.t;
  user_cards : list UserCard.t;
  user_items : list UserItem.t;
  user_presents : list UserPresent.t;
  user_login_bonuses : list UserLoginBonus.t;
  user_one_time_tokens : list UserOneTimeToken.t;
  item_masters : list ItemMaster.t;
  gacha_masters : list GachaMaster.t;
  gacha_item_masters : list GachaItemMaster.t;
  login_bonus_masters : list LoginBonusMaster.t;
  login_bonus_reward_masters : list LoginBonusRewardMaster.t }.

Definition with_users (f : list User.t → list User.t) (d : Database) : Database :=
  mkDatabase (f (users d)) (user_devices d) (user_cards d) (user_items d)
    (user_presents d) (user_login_bonuses d) (user_one_time_tokens d)
    (item_masters d) (gacha_masters d) (gacha_item_masters d)
    (login_bonus_masters d) (login_bonus_reward_masters d).

Definition with_user_cards (f : list UserCard.t → list UserCard.t) (d : Database) : Database :=
  mkDatabase (users d) (user_devices d) (f (user_cards d)) (user_items d)
    (user_presents d) (user_login_bonuses d) (user_one_time_tokens d)
    (item_masters d) (gacha_masters d) (gacha_item_masters d)
    (login_bonus_masters d) (login_bonus_reward_masters d).

Definition with_user_items (f : list UserItem.t → list UserItem.t) (d : Database) : Database :=
  mkDatabase (users d) (user_devices d) (user_cards d) (f (user_items d))
    (user_presents d) (user_login_bonuses d) (user_one_time_tokens d)
    (item_masters d) (gacha_masters d) (gacha_item_masters d)
    (login_bonus_masters d) (login_bonus_reward_masters d).

Definition with_user_presents (f : list UserPresent.t → list UserPresent.t) (d : Database)
  : Database :=
  mkDatabase (users d) (user_devices d) (user_cards d) (user_items d)
    (f (user_presents d)) (user_login_bonuses d) (user_one_time_tokens d)
    (item_masters d) (gacha_masters d) (gacha_item_masters d)
    (login_bonus_masters d) (login_bonus_reward_masters d).

Definition with_user_login_bonuses
  (f : list UserLoginBonus.t → list UserLoginBonus.t) (d : Database) : Database :=
  mkDatabase (users d) (user_devices d) (user_cards d) (user_items d)
    (user_presents d) (f (user_login_bonuses d)) (user_one_time_tokens d)
    (item_masters d) (gacha_masters d) (gacha_item_masters d)
    (login_bonus_masters d) (login_bonus_reward_masters d).

Definition with_user_one_time_tokens
  (f : list UserOneTimeToken.t → list UserOneTimeToken.t) (d : Database) : Database :=
  mkDatabase (users d) (user_devices d) (user_cards d) (user_items d)
    (user_presents d) (user_login_bonuses d) (f (user_one_time_tokens d))
    (item_masters d) (gacha_masters d) (gacha_item_masters d)
    (login_bonus_masters d) (login_bonus_reward_masters d).

(** [MasterDataCache].  The login-bonus rewards are keyed in Go by the
    string [fmt.Sprintf("%d_%d", loginBonusID, sequence)], which is
    one-to-one on pairs of integers; the pair itself is the key here.
    [lastUpdated] and [masterVersion] are written by [Clear] only and are
    left out. *)
Record MasterDataCache := mkCache {
  gachaItems : gmap Z (list GachaItemMaster.t);
  gachaWeightSums : gmap Z Z;
  loginBonusRewards : gmap (Z * Z) LoginBonusRewardMaster.t;
  itemMasters : gmap Z ItemMaster.t }.

(** The state of one server process and of the MySQL servers it talks to.
    [tx] is the working copy of the transaction the running handler has
    open; [faults n] says whether the [n]-th store round trip fails;
    [random n] is the [n]-th sample of [rand.Int63n]; [rangeOrder] is the
    order in which [range] walks a Go map (Go leaves it unspecified). *)
Record World := mkWorld {
  servers : list Database;
  tx : Database;
  Cache : MasterDataCache;
  TokenCache : gmap string TokenInfo.t;
  snowflakeNode : Z;
  faults : nat → bool;
  storeCalls : nat;
  random : nat → Z;
  randCalls : nat;
  rangeOrder : list (Z * Z) → list (Z * Z) }.

Definition with_servers (f : list Database → list Database) (w : World) : World :=
  mkWorld (f (servers w)) (tx w) (Cache w) (TokenCache w) (snowflakeNode w)
    (faults w) (storeCalls w) (random w) (randCalls w) (rangeOrder w).
Definition with_tx (f : Database → Database) (w : World) : World :=
  mkWorld (servers w) (f (tx w)) (Cache w) (TokenCache w) (snowflakeNode w)
    (faults w) (storeCalls w) (random w) (randCalls w) (rangeOrder w).
Definition with_Cache (f : MasterDataCache → MasterDataCache) (w : World) : World :=
  mkWorld (servers w) (tx w) (f (Cache w)) (TokenCache w) (snowflakeNode w)
    (faults w) (storeCalls w) (random w) (randCalls w) (rangeOrder w).
Definition with_TokenCache
  (f : gmap string TokenInfo.t → gmap string TokenInfo.t) (w : World) : World :=
  mkWorld (servers w) (tx w) (Cache w) (f (TokenCache w)) (snowflakeNode w)
    (faults w) (storeCalls w) (random w) (randCalls w) (rangeOrder w).
Definition with_snowflakeNode (f : Z → Z) (w : World) : World :=
  mkWorld (servers w) (tx w) (Cache w) (TokenCache w) (f (snowflakeNode w))
    (faults w) (storeCalls w) (random w) (randCalls w) (rangeOrder w).
Definition with_storeCalls (f : nat → nat) (w : World) : World :=
  mkWorld (servers w) (tx w) (Cache w) (TokenCache w) (snowflakeNode w)
    (faults w) (f (storeCalls w)) (random w) (randCalls w) (rangeOrder w).
Definition with_randCalls (f : nat → nat) (w : World) : World :=
  mkWorld (servers w) (tx w) (Cache w) (TokenCache w) (snowflakeNode w)
    (faults w) (storeCalls w) (random w) (f (randCalls w)) (rangeOrder w).

(** ** Errors, responses and the monad *)

Inductive error :=
| ErrInvalidItemType
| ErrInvalidToken
| ErrUserNotFound
| ErrUserDeviceNotFound
| ErrItemNotFound
| ErrLoginBonusRewardNotFound
| ErrNoRows                  (* sql.ErrNoRows *)
| ErrStore                   (* any other error of the driver or the server *)
| Errorf (msg : string)      (* fmt.Errorf(msg) *)
| Panic.                     (* a run-time panic, caught by middleware.Recover *)

Definition StatusBadRequest : Z := 400.
Definition StatusNotFound : Z := 404.
Definition StatusConflict : Z := 409.
Definition StatusUnprocessableEntity : Z := 422.
Definition StatusInternalServerError : Z := 500.

Inductive Response (A : Type) :=
| successResponse (v : A)
| errorResponse (statusCode : Z) (err : error).
Arguments successResponse {A} v.
Arguments errorResponse {A} statusCode err.

Inductive result (E A : Type) :=
| Ok (a : A)
| Err (e : E).
Arguments Ok {E A} a.
Arguments Err {E A} e.

Definition M (E A : Type) : Type := World → result E A * World.

Definition ret {E A} (a : A) : M E A := λ w, (Ok a, w).
Definition throw {E A} (e : E) : M E A := λ w, (Err e, w).
Definition bind {E A B} (m : M E A) (k : A → M E B) : M E B :=
  λ w, match m w with
       | (Ok a, w') => k a w'
       | (Err e, w') => (Err e, w')
       end.

Notation "'let*' x ':=' m 'in' k" := (bind m (λ x, k))
  (at level 10, x name, m at level 100, k at level 200).
Notation "m ';;' k" := (bind m (λ _, k))
  (at level 100, k at level 200, right associativity).

(** [if err := m; err != nil { return handle(err) }] *)
Definition orReturn {E E' A} (m : M E A) (handle : E → E') : M E' A :=
  λ w, match m w with
       | (Ok a, w') => (Ok a, w')
       | (Err e, w') => (Err (handle e), w')
       end.

(** A call whose error the caller drops. *)
Definition ignoreErr {E E' A} (m : M E A) : M E' unit :=
  λ w, (Ok tt, snd (m w)).

Definition get {E} : M E World := λ w, (Ok w, w).
Definition modify {E} (f : World → World) : M E unit := λ w, (Ok tt, f w).

(** The response a handler ends with: its own [return], or the response
    of the Recover middleware when it panicked. *)
Definition respond {A} (m : M (Response A) A) : World → Response A * World :=
  λ w, match m w with
       | (Ok v, w') => (successResponse v, w')
       | (Err r, w') => (r, w')
       end.

(** ** Store primitives *)

(** One round trip to a server; it fails when the schedule says so. *)
Definition storeCall : M error unit :=
  λ w, let w' := with_storeCalls S w in
       if faults w (storeCalls w) then (Err ErrStore, w') else (Ok tt, w').

(** [db.Select], [db.Get] and [db.Exec] on the pool of server [db]: they
    act on the committed state of that server. *)
Definition dbSelect {A} (db : Host) (query : Database → list A) : M error (list A) :=
  storeCall;;
  let* w := get in
  match servers w !! db with
  | Some d => ret (query d)
  | None => throw ErrStore
  end.

Definition dbGet {A} (db : Host) (query : Database → option A) : M error A :=
  storeCall;;
  let* w := get in
  match servers w !! db with
  | Some d => match query d with Some row => ret row | None => throw ErrNoRows end
  | None => throw ErrStore
  end.

Definition dbExec (db : Host) (stmt : Database → Database) : M error unit :=
  storeCall;;
  let* w := get in
  match servers w !! db with
  | Some d => modify (with_servers (λ l, <[db := stmt d]> l))
  | None => throw ErrStore
  end.

(** [db.Beginx()], then [tx.Select], [tx.Get], [tx.Exec] / [tx.NamedExec]
    on the transaction's working copy, and [tx.Commit()].  The deferred
    [tx.Rollback()] drops the working copy: nothing is to be done for it. *)
Definition Beginx (db : Host) : M error unit :=
  storeCall;;
  let* w := get in
  match servers w !! db with
  | Some d => modify (with_tx (λ _, d))
  | None => throw ErrStore
  end.

Definition txSelect {A} (query : Database → list A) : M error (list A) :=
  storeCall;;
  let* w := get in ret (query (tx w)).

Definition txGet {A} (query : Database → option A) : M error A :=
  storeCall;;
  let* w := get in
  match query (tx w) with Some row => ret row | None => throw ErrNoRows end.

(** [tx.Get] where the caller turns [sql.ErrNoRows] into a nil row. *)
Definition txFind {A} (query : Database → option A) : M error (option A) :=
  storeCall;;
  let* w := get in ret (query (tx w)).

Definition txExec (stmt : Database → Database) : M error unit :=
  storeCall;; modify (with_tx stmt).

Definition Commit (db : Host) : M error unit :=
  storeCall;;
  let* w := get in
  modify (with_servers (λ l, <[db := tx w]> l)).

(** [h.generateID()]: the snowflake node hands out increasing ids and never
    fails. *)
Definition generateID {E} : M E Z :=
  λ w, (Ok (snowflakeNode w), with_snowflakeNode (λ n, n + 1) w).

(** [h.getDBForUserID(userID)] inside a handler. *)
Definition dbForUserID (h : Handler) (userID : Z) : M error Host :=
  match getDBForUserID h userID with
  | Some db => ret db
  | None => throw Panic
  end.

(** [rand.Int63n(n)] panics unless [n > 0]. *)
Definition Int63n (n : Z) : M error Z :=
  if n <=? 0 then throw Panic
  else λ w, (Ok (random w (randCalls w)), with_randCalls S w).

(** ** TokenCache and MasterDataCache methods *)

Definition SetToken (token : string) (userID tokenType expiredAt createdAt : Z)
  : M error unit :=
  modify (with_TokenCache
            (λ tokens, <[token := TokenInfo.mk userID tokenType expiredAt createdAt]> tokens)).

Definition GetToken (token : string) : M error (option TokenInfo.t) :=
  let* w := get in ret (TokenCache w !! token).

Definition DeleteToken (token : string) : M error unit :=
  modify (with_TokenCache (λ tokens, delete token tokens)).

Definition GetGachaItems (gachaID : Z) : M error (option (list GachaItemMaster.t * Z)) :=
  let* w := get in
  match gachaItems (Cache w) !! gachaID with
  | None => ret None
  | Some items =>
      match gachaWeightSums (Cache w) !! gachaID with
      | None => ret None
      | Some weightSum => ret (Some (items, weightSum))
      end
  end.

Definition SetGachaItems (gachaID : Z) (items : list GachaItemMaster.t) : M error unit :=
  let weightSum := sumWeights items in
  modify (with_Cache (λ c, mkCache (<[gachaID := items]> (gachaItems c))
                                   (<[gachaID := weightSum]> (gachaWeightSums c))
                                   (loginBonusRewards c) (itemMasters c))).

Definition GetLoginBonusReward (loginBonusID sequence : Z)
  : M error (option LoginBonusRewardMaster.t) :=
  let* w := get in ret (loginBonusRewards (Cache w) !! (loginBonusID, sequence)).

Definition SetLoginBonusReward (reward : LoginBonusRewardMaster.t) : M error unit :=
  modify (with_Cache (λ c,
    mkCache (gachaItems c) (gachaWeightSums c)
            (<[(LoginBonusRewardMaster.LoginBonusID reward,
                LoginBonusRewardMaster.RewardSequence reward) := reward]>
               (loginBonusRewards c))
            (itemMasters c))).

Definition GetItemMaster (itemID : Z) : M error (option ItemMaster.t) :=
  let* w := get in ret (itemMasters (Cache w) !! itemID).

Definition SetItemMaster (item : ItemMaster.t) : M error unit :=
  modify (with_Cache (λ c,
    mkCache (gachaItems c) (gachaWeightSums c) (loginBonusRewards c)
            (<[ItemMaster.ID item := item]> (itemMasters c)))).

(** ** One-time tokens *)

Definition isNil {A} (p : option A) : bool :=
  match p with None => true | Some _ => false end.

Definition inZ (x : Z) (l : list Z) : bool := existsb (Z.eqb x) l.

(** [UPDATE user_one_time_tokens SET deleted_at=? WHERE token=?] *)
Definition expireToken (requestAt : Z) (token : string) : Database → Database :=
  with_user_one_time_tokens
    (map (λ k, if String.eqb (UserOneTimeToken.Token k) token
               then UserOneTimeToken.with_deleted (Some requestAt) k else k)).

(** [SELECT * FROM user_one_time_tokens WHERE token=? AND token_type=? AND
    deleted_at IS NULL] *)
Definition selectToken (token : string) (tokenType : Z) (d : Database)
  : option UserOneTimeToken.t :=
  List.find (λ k, String.eqb (UserOneTimeToken.Token k) token
                  && (UserOneTimeToken.TokenType k =? tokenType)
                  && isNil (UserOneTimeToken.DeletedAt k))
            (user_one_time_tokens d).

Definition checkOneTimeToken (h : Handler) (userID : Z) (token : string)
  (tokenType requestAt : Z) : M error unit :=
  let* cached := GetToken token in
  match cached with
  | Some tokenInfo =>
      if negb (TokenInfo.TokenType tokenInfo =? tokenType) then throw ErrInvalidToken
      else if TokenInfo.ExpiredAt tokenInfo <? requestAt then
        DeleteToken token;;
        let* db := dbForUserID h userID in
        ignoreErr (dbExec db (expireToken requestAt token));;
        throw ErrInvalidToken
      else
        DeleteToken token;;
        let* db := dbForUserID h userID in
        dbExec db (expireToken requestAt token)
  | None =>
      let* db := dbForUserID h userID in
      let* tk := orReturn (dbGet db (selectToken token tokenType))
                   (λ err, match err with ErrNoRows => ErrInvalidToken | _ => err end) in
      if UserOneTimeToken.ExpiredAt tk <? requestAt then
        dbExec db (expireToken requestAt token);;
        throw ErrInvalidToken
      else
        dbExec db (expireToken requestAt token)
  end.

(** [SELECT * FROM user_devices WHERE user_id=? AND platform_id=?] *)
Definition selectDevice (userID : Z) (viewerID : string) (d : Database)
  : option UserDevice.t :=
  List.find (λ dev, (UserDevice.UserID dev =? userID)
                    && String.eqb (UserDevice.PlatformID dev) viewerID)
            (user_devices d).

Definition checkViewerID (h : Handler) (userID : Z) (viewerID : string) : M error unit :=
  let* db := dbForUserID h userID in
  orReturn (dbGet db (selectDevice userID viewerID))
    (λ err, match err with ErrNoRows => ErrUserDeviceNotFound | _ => err end);;
  ret tt.

(** ** listGacha: the catalogue and the issue of a draw token

    Path parameters and the request clock are taken as the middleware
    parsed them; the UUID of the new token is the argument [tk]. *)

(** [ORDER BY key ASC]. *)
Definition byKey {A} (key : A → Z) (a b : A) : Prop := key a ≤ key b.
#[global] Instance byKey_dec {A} (key : A → Z) : RelDecision (byKey key) :=
  λ a b, Z_le_dec (key a) (key b).
Definition orderBy {A} (key : A → Z) (rows : list A) : list A :=
  merge_sort (byKey key) rows.

(** [SELECT * FROM gacha_masters WHERE start_at <= ? AND end_at >= ? ORDER
    BY display_order ASC] *)
Definition activeGachas (requestAt : Z) (d : Database) : list GachaMaster.t :=
  orderBy GachaMaster.DisplayOrder
    (List.filter (λ g, (GachaMaster.StartAt g <=? requestAt)
                       && (requestAt <=? GachaMaster.EndAt g))
                 (gacha_masters d)).

(** [SELECT * FROM gacha_item_masters WHERE gacha_id=? ORDER BY id ASC] *)
Definition selectGachaItems (gachaID : Z) (d : Database) : list GachaItemMaster.t :=
  orderBy GachaItemMaster.ID
    (List.filter (λ i, GachaItemMaster.GachaID i =? gachaID) (gacha_item_masters d)).

Fixpoint listGachaItems (h : Handler) (gachaMasterList : list GachaMaster.t)
  : M (Response (string * list (GachaMaster.t * list GachaItemMaster.t)))
      (list (GachaMaster.t * list GachaItemMaster.t)) :=
  match gachaMasterList with
  | [] => ret []
  | v :: rest =>
      let* gachaItem := orReturn (dbSelect (DB h) (selectGachaItems (GachaMaster.ID v)))
                          (errorResponse StatusInternalServerError) in
      if (length gachaItem =? 0)%nat
      then throw (errorResponse StatusNotFound (Errorf "not found gacha item"))
      else
        let* more := listGachaItems h rest in
        ret ((v, gachaItem) :: more)
  end.

(** [UPDATE user_one_time_tokens SET deleted_at=? WHERE user_id=? AND
    deleted_at IS NULL] *)
Definition expireTokensOf (requestAt userID : Z) : Database → Database :=
  with_user_one_time_tokens
    (map (λ k, if (UserOneTimeToken.UserID k =? userID) && isNil (UserOneTimeToken.DeletedAt k)
               then UserOneTimeToken.with_deleted (Some requestAt) k else k)).

Definition insertToken (token : UserOneTimeToken.t) : Database → Database :=
  with_user_one_time_tokens (λ rows, rows ++ [token]).

Definition listGacha (h : Handler) (userID requestAt : Z) (tk : string)
  : World → Response (string * list (GachaMaster.t * list GachaItemMaster.t)) * World :=
  respond (
    let* gachaMasterList := orReturn (dbSelect (DB h) (activeGachas requestAt))
                              (errorResponse StatusInternalServerError) in
    if (length gachaMasterList =? 0)%nat then ret (""%string, [])
    else
      let* gachaDataList := listGachaItems h gachaMasterList in
      orReturn (dbExec (DB h) (expireTokensOf requestAt userID))
        (errorResponse StatusInternalServerError);;
      let* tID := generateID in
      let token := UserOneTimeToken.mk tID userID tk 1 (add64 requestAt 600)
                     requestAt requestAt None in
      orReturn (dbExec (DB h) (insertToken token))
        (errorResponse StatusInternalServerError);;
      orReturn (SetToken (UserOneTimeToken.Token token) (UserOneTimeToken.UserID token)
                  (UserOneTimeToken.TokenType token) (UserOneTimeToken.ExpiredAt token)
                  (UserOneTimeToken.CreatedAt token))
        (errorResponse StatusInternalServerError);;
      ret (UserOneTimeToken.Token token, gachaDataList)).

(** ** Granting items *)

(** [SELECT * FROM users WHERE id=?] *)
Definition selectUser (userID : Z) (d : Database) : option User.t :=
  List.find (λ u, User.ID u =? userID) (users d).

(** [UPDATE users SET isu_coin=? WHERE id=?] *)
Definition setIsuCoin (totalCoin userID : Z) : Database → Database :=
  with_users (map (λ u, if User.ID u =? userID then User.with_IsuCoin totalCoin u else u)).

(** [UPDATE users SET isu_coin = isu_coin + ? WHERE id = ?].  The sum is
    SQL arithmetic, hence exact; a sum the column cannot hold makes MySQL
    refuse the statement, one of the failures [faults] stands for. *)
Definition addIsuCoin (coinTotal userID : Z) : Database → Database :=
  with_users (map (λ u, if User.ID u =? userID
                        then User.with_IsuCoin (User.IsuCoin u + coinTotal) u else u)).

(** [SELECT * FROM item_masters WHERE id=? AND item_type=?] *)
Definition selectItemMaster (itemID itemType : Z) (d : Database) : option ItemMaster.t :=
  List.find (λ m, (ItemMaster.ID m =? itemID) && (ItemMaster.ItemType m =? itemType))
            (item_masters d).

(** [SELECT * FROM user_items WHERE user_id=? AND item_id=?] *)
Definition selectUserItem (userID itemID : Z) (d : Database) : option UserItem.t :=
  List.find (λ i, (UserItem.UserID i =? userID) && (UserItem.ItemID i =? itemID))
            (user_items d).

Definition insertCards (cards : list UserCard.t) : Database → Database :=
  with_user_cards (λ rows, rows ++ cards).

Definition insertItems (items : list UserItem.t) : Database → Database :=
  with_user_items (λ rows, rows ++ items).

(** [UPDATE user_items SET amount=?, updated_at=? WHERE id=?] *)
Definition setItemAmount (amount updatedAt id : Z) : Database → Database :=
  with_user_items (map (λ i, if UserItem.ID i =? id
                             then UserItem.with_Amount amount updatedAt i else i)).

Definition newCard (cID userID : Z) (master : ItemMaster.t) (amountPerSec requestAt : Z)
  : UserCard.t :=
  UserCard.mk cID userID (ItemMaster.ID master) amountPerSec 1 0 requestAt requestAt None.

(** [obtainItem]: the grant of one item.  Its three result slices are
    returned as a triple. *)
Definition obtainItem (h : Handler) (userID itemID itemType obtainAmount requestAt : Z)
  : M error (list Z * list UserCard.t * list UserItem.t) :=
  if itemType =? 1 then
    let* user := orReturn (txGet (selectUser userID))
                   (λ err, match err with ErrNoRows => ErrUserNotFound | _ => err end) in
    let totalCoin := add64 (User.IsuCoin user) obtainAmount in
    txExec (setIsuCoin totalCoin (User.ID user));;
    ret ([obtainAmount], [], [])
  else if itemType =? 2 then
    let* item := orReturn (txGet (selectItemMaster itemID itemType))
                   (λ err, match err with ErrNoRows => ErrItemNotFound | _ => err end) in
    let* cID := generateID in
    match ItemMaster.AmountPerSec item with
    | None => throw Panic
    | Some amountPerSec =>
        let card := newCard cID userID item amountPerSec requestAt in
        txExec (insertCards [card]);;
        ret ([], [card], [])
    end
  else if (itemType =? 3) || (itemType =? 4) then
    let* item := orReturn (txGet (selectItemMaster itemID itemType))
                   (λ err, match err with ErrNoRows => ErrItemNotFound | _ => err end) in
    let* found := txFind (selectUserItem userID (ItemMaster.ID item)) in
    match found with
    | None =>
        let* uitemID := generateID in
        let uitem := UserItem.mk uitemID userID (ItemMaster.ItemType item)
                       (ItemMaster.ID item) obtainAmount requestAt requestAt None in
        txExec (insertItems [uitem]);;
        ret ([], [], [uitem])
    | Some uitem =>
        let uitem := UserItem.with_Amount (add64 (UserItem.Amount uitem) obtainAmount)
                       requestAt uitem in
        txExec (setItemAmount (UserItem.Amount uitem) (UserItem.UpdatedAt uitem)
                  (UserItem.ID uitem));;
        ret ([], [], [uitem])
    end
  else throw ErrInvalidItemType.

(** *** obtainItemsBatch *)

(** The first loop: the presents grouped by kind.  [materialItems] is the
    Go map from item id to the summed amount. *)
Definition groupPresent (acc : Z * list UserPresent.t * gmap Z Z) (present : UserPresent.t)
  : Z * list UserPresent.t * gmap Z Z :=
  let '(coinTotal, cardItems, materialItems) := acc in
  let itemType := UserPresent.ItemType present in
  if itemType =? 1 then
    (add64 coinTotal (UserPresent.Amount present), cardItems, materialItems)
  else if itemType =? 2 then
    (coinTotal, cardItems ++ [present], materialItems)
  else if (itemType =? 3) || (itemType =? 4) then
    (coinTotal, cardItems,
     <[UserPresent.ItemID present :=
         add64 (default 0 (materialItems !! UserPresent.ItemID present))
               (UserPresent.Amount present)]> materialItems)
  else acc.

Definition groupPresents (presents : list UserPresent.t)
  : Z * list UserPresent.t * gmap Z Z :=
  fold_left groupPresent presents (0, [], ∅).

(** The cache pass over the card presents: masters found in the cache go
    to [masterMap], the ids of the others to [missingCardIDs].  The cache
    is not written during the pass, so it is read once. *)
Definition lookupCardMasters (cached : gmap Z ItemMaster.t) (cardItems : list UserPresent.t)
  : gmap Z ItemMaster.t * list Z :=
  fold_left
    (λ '(masterMap, missingCardIDs) item,
       match cached !! UserPresent.ItemID item with
       | Some cachedMaster => (<[UserPresent.ItemID item := cachedMaster]> masterMap,
                               missingCardIDs)
       | None => (masterMap, missingCardIDs ++ [UserPresent.ItemID item])
       end)
    cardItems (∅, []).

(** [SELECT * FROM item_masters WHERE id IN (?) AND item_type = 2] *)
Definition selectCardMasters (ids : list Z) (d : Database) : list ItemMaster.t :=
  List.filter (λ m, inZ (ItemMaster.ID m) ids && (ItemMaster.ItemType m =? 2))
              (item_masters d).

Fixpoint cacheCardMasters (itemMasters : list ItemMaster.t) (masterMap : gmap Z ItemMaster.t)
  : M error (gmap Z ItemMaster.t) :=
  match itemMasters with
  | [] => ret masterMap
  | master :: rest =>
      SetItemMaster master;;
      cacheCardMasters rest (<[ItemMaster.ID master := master]> masterMap)
  end.

(** [for i := 0; i < item.Amount; i++]: one new card per unit. *)
Fixpoint expandCard (n : nat) (userID requestAt : Z) (master : ItemMaster.t)
  : M error (list UserCard.t) :=
  match n with
  | O => ret []
  | S n' =>
      let* cID := generateID in
      match ItemMaster.AmountPerSec master with
      | None => throw Panic
      | Some amountPerSec =>
          let* more := expandCard n' userID requestAt master in
          ret (newCard cID userID master amountPerSec requestAt :: more)
      end
  end.

Fixpoint buildCardInserts (cardItems : list UserPresent.t) (masterMap : gmap Z ItemMaster.t)
  (userID requestAt : Z) : M error (list UserCard.t) :=
  match cardItems with
  | [] => ret []
  | item :: rest =>
      match masterMap !! UserPresent.ItemID item with
      | None => throw ErrItemNotFound
      | Some master =>
          let* cards := expandCard (Z.to_nat (UserPresent.Amount item)) userID requestAt master in
          let* more := buildCardInserts rest masterMap userID requestAt in
          ret (cards ++ more)
      end
  end.

(** [SELECT * FROM user_items WHERE user_id = ? AND item_id IN (?)] *)
Definition selectUserItems (userID : Z) (itemIDs : list Z) (d : Database) : list UserItem.t :=
  List.filter (λ i, (UserItem.UserID i =? userID) && inZ (UserItem.ItemID i) itemIDs)
              (user_items d).

(** [SELECT * FROM item_masters WHERE id IN (?) AND item_type IN (3, 4)] *)
Definition selectMaterialMasters (itemIDs : list Z) (d : Database) : list ItemMaster.t :=
  List.filter (λ m, inZ (ItemMaster.ID m) itemIDs
                    && ((ItemMaster.ItemType m =? 3) || (ItemMaster.ItemType m =? 4)))
              (item_masters d).

Definition indexUserItems (rows : list UserItem.t) : gmap Z UserItem.t :=
  fold_left (λ existingMap item, <[UserItem.ItemID item := item]> existingMap) rows ∅.

Definition indexItemMasters (rows : list ItemMaster.t) : gmap Z ItemMaster.t :=
  fold_left (λ masterMap master, <[ItemMaster.ID master := master]> masterMap) rows ∅.

(** The loop over [materialItems]: rows to update and rows to insert. *)
Fixpoint splitMaterials (materials : list (Z * Z)) (masterMap : gmap Z ItemMaster.t)
  (existingMap : gmap Z UserItem.t) (userID requestAt : Z)
  : M error (list UserItem.t * list UserItem.t) :=
  match materials with
  | [] => ret ([], [])
  | (itemID, amount) :: rest =>
      match masterMap !! itemID with
      | None => throw ErrItemNotFound
      | Some master =>
          match existingMap !! itemID with
          | Some existingItem =>
              let existingItem :=
                UserItem.with_Amount (add64 (UserItem.Amount existingItem) amount)
                  requestAt existingItem in
              let* more := splitMaterials rest masterMap existingMap userID requestAt in
              ret (existingItem :: fst more, snd more)
          | None =>
              let* uitemID := generateID in
              let uitem := UserItem.mk uitemID userID (ItemMaster.ItemType master) itemID
                             amount requestAt requestAt None in
              let* more := splitMaterials rest masterMap existingMap userID requestAt in
              ret (fst more, uitem :: snd more)
          end
      end
  end.

(** [UPDATE user_items SET amount = CASE id WHEN .. THEN .. END, updated_at
    = CASE id WHEN .. THEN .. END WHERE id IN (?)]: a row whose id is
    listed takes the values of the first [WHEN] naming it. *)
Definition updateItems (updateItems : list UserItem.t) : Database → Database :=
  with_user_items
    (map (λ row, match List.find (λ item, UserItem.ID item =? UserItem.ID row) updateItems with
                 | Some item => UserItem.with_Amount (UserItem.Amount item)
                                  (UserItem.UpdatedAt item) row
                 | None => row
                 end)).

(** The three sections of the function body, in order: the coins, the
    cards, the materials. *)
Definition grantCoins (coinTotal userID : Z) : M error unit :=
  if 0 <? coinTotal then txExec (addIsuCoin coinTotal userID) else ret tt.

Definition grantCards (cardItems : list UserPresent.t) (userID requestAt : Z)
  : M error unit :=
  if (0 <? length cardItems)%nat then
    let* w := get in
    let '(masterMap, missingCardIDs) := lookupCardMasters (itemMasters (Cache w)) cardItems in
    let* masterMap :=
      if (0 <? length missingCardIDs)%nat then
        let* itemMasters := txSelect (selectCardMasters missingCardIDs) in
        cacheCardMasters itemMasters masterMap
      else ret masterMap in
    let* cardInserts := buildCardInserts cardItems masterMap userID requestAt in
    if (0 <? length cardInserts)%nat then txExec (insertCards cardInserts) else ret tt
  else ret tt.

Definition grantMaterials (materialItems : gmap Z Z) (userID requestAt : Z)
  : M error unit :=
  if (0 <? size materialItems)%nat then
    let* w := get in
    let materials := rangeOrder w (map_to_list materialItems) in
    let itemIDs := map fst materials in
    let* existingItems := txSelect (selectUserItems userID itemIDs) in
    let existingMap := indexUserItems existingItems in
    let* itemMasters := txSelect (selectMaterialMasters itemIDs) in
    let masterMap := indexItemMasters itemMasters in
    let* split := splitMaterials materials masterMap existingMap userID requestAt in
    (if (0 <? length (fst split))%nat then txExec (updateItems (fst split)) else ret tt);;
    (if (0 <? length (snd split))%nat then txExec (insertItems (snd split)) else ret tt)
  else ret tt.

Definition obtainItemsBatch (h : Handler) (presents : list UserPresent.t)
  (userID requestAt : Z) : M error unit :=
  let '(coinTotal, cardItems, materialItems) := groupPresents presents in
  grantCoins coinTotal userID;;
  grantCards cardItems userID requestAt;;
  grantMaterials materialItems userID requestAt.

(** ** receivePresent *)

Module ReceivePresentRequest.
Record t := mk { ViewerID : string; PresentIDs : list Z }.
End ReceivePresentRequest.

(** [SELECT * FROM user_presents WHERE id IN (?) AND deleted_at IS NULL] *)
Definition selectUnreceived (presentIDs : list Z) (d : Database) : list UserPresent.t :=
  List.filter (λ p, inZ (UserPresent.ID p) presentIDs && isNil (UserPresent.DeletedAt p))
              (user_presents d).

(** The loop over the loaded presents: a present with [DeletedAt] set ends
    the request, the others are stamped. *)
Fixpoint stampReceived (requestAt : Z) (obtainPresent : list UserPresent.t)
  : M error (list UserPresent.t) :=
  match obtainPresent with
  | [] => ret []
  | p :: rest =>
      if negb (isNil (UserPresent.DeletedAt p)) then throw (Errorf "received present")
      else
        let* more := stampReceived requestAt rest in
        ret (UserPresent.with_deleted requestAt (Some requestAt) p :: more)
  end.

(** [UPDATE user_presents SET deleted_at=?, updated_at=? WHERE id IN (?)] *)
Definition markReceived (requestAt : Z) (presentIDs : list Z) : Database → Database :=
  with_user_presents
    (map (λ p, if inZ (UserPresent.ID p) presentIDs
               then UserPresent.with_deleted requestAt (Some requestAt) p else p)).

(** The response carries [UpdatedResources.UserPresents]; the other
    fields of [UpdatedResource] are nil in this handler. *)
Definition receivePresent (h : Handler) (userID requestAt : Z) (req : ReceivePresentRequest.t)
  : World → Response (list UserPresent.t) * World :=
  respond (
    if (length (ReceivePresentRequest.PresentIDs req) =? 0)%nat
    then throw (errorResponse StatusUnprocessableEntity (Errorf "presentIds is empty"))
    else
      orReturn (checkViewerID h userID (ReceivePresentRequest.ViewerID req))
        (λ err, match err with
                | ErrUserDeviceNotFound => errorResponse StatusNotFound err
                | _ => errorResponse StatusInternalServerError err
                end);;
      let* db := orReturn (dbForUserID h userID) (errorResponse StatusInternalServerError) in
      let* obtainPresent :=
        orReturn (dbSelect db (selectUnreceived (ReceivePresentRequest.PresentIDs req)))
          (errorResponse StatusBadRequest) in
      if (length obtainPresent =? 0)%nat then ret []
      else
        orReturn (Beginx db) (errorResponse StatusInternalServerError);;
        let* obtainPresent := orReturn (stampReceived requestAt obtainPresent)
                                (errorResponse StatusInternalServerError) in
        let presentIDs := map UserPresent.ID obtainPresent in
        orReturn (txExec (markReceived requestAt presentIDs))
          (errorResponse StatusInternalServerError);;
        orReturn (obtainItemsBatch h obtainPresent userID requestAt)
          (λ err, match err with
                  | ErrUserNotFound | ErrItemNotFound => errorResponse StatusNotFound err
                  | ErrInvalidItemType => errorResponse StatusBadRequest err
                  | _ => errorResponse StatusInternalServerError err
                  end);;
        orReturn (Commit db) (errorResponse StatusInternalServerError);;
        ret obtainPresent).

(** ** drawGacha *)

Module DrawGachaRequest.
Record t := mk { ViewerID : string; OneTimeToken : string }.
End DrawGachaRequest.

(** [SELECT * FROM gacha_masters WHERE id=? AND start_at <= ? AND end_at >= ?] *)
Definition selectGacha (gachaID requestAt : Z) (d : Database) : option GachaMaster.t :=
  List.find (λ g, (GachaMaster.ID g =? gachaID) && (GachaMaster.StartAt g <=? requestAt)
                  && (requestAt <=? GachaMaster.EndAt g))
            (gacha_masters d).

(** The draw loop: [gachaCount] samples, each appending the item it
    selects, if any. *)
Fixpoint lottery (gachaCount : nat) (sum : Z) (gachaItemList : list GachaItemMaster.t)
  : M error (list GachaItemMaster.t) :=
  match gachaCount with
  | O => ret []
  | S n =>
      let* random := Int63n sum in
      let* more := lottery n sum gachaItemList in
      ret (match pick random gachaItemList with
           | Some v => v :: more
           | None => more
           end)
  end.

Fixpoint makePresents (result : list GachaItemMaster.t) (userID requestAt : Z)
  (presentMessage : string) : M error (list UserPresent.t) :=
  match result with
  | [] => ret []
  | v :: rest =>
      let* pID := generateID in
      let present := UserPresent.mk pID userID requestAt (GachaItemMaster.ItemType v)
                       (GachaItemMaster.ItemID v) (GachaItemMaster.Amount v)
                       presentMessage requestAt requestAt None in
      let* more := makePresents rest userID requestAt presentMessage in
      ret (present :: more)
  end.

Fixpoint insertPresents (presents : list UserPresent.t) : M error unit :=
  match presents with
  | [] => ret tt
  | present :: rest =>
      txExec (with_user_presents (λ rows, rows ++ [present]));;
      insertPresents rest
  end.

(** Path parameters are taken as parsed: [gachaID] and [gachaCount] are
    the integers the route carries. *)
Definition drawGacha (h : Handler) (userID gachaID gachaCount requestAt : Z)
  (req : DrawGachaRequest.t) : World → Response (list UserPresent.t) * World :=
  respond (
    if negb (gachaCount =? 1) && negb (gachaCount =? 10)
    then throw (errorResponse StatusBadRequest (Errorf "invalid draw gacha times"))
    else
      orReturn (checkOneTimeToken h userID (DrawGachaRequest.OneTimeToken req) 1 requestAt)
        (λ err, match err with
                | ErrInvalidToken => errorResponse StatusBadRequest err
                | _ => errorResponse StatusInternalServerError err
                end);;
      orReturn (checkViewerID h userID (DrawGachaRequest.ViewerID req))
        (λ err, match err with
                | ErrUserDeviceNotFound => errorResponse StatusNotFound err
                | _ => errorResponse StatusInternalServerError err
                end);;
      let consumedCoin := wrap64 (gachaCount * 1000) in
      let* user :=
        orReturn (let* db := dbForUserID h userID in dbGet db (selectUser userID))
          (λ err, match err with
                  | ErrNoRows => errorResponse StatusNotFound ErrUserNotFound
                  | _ => errorResponse StatusInternalServerError err
                  end) in
      if User.IsuCoin user <? consumedCoin
      then throw (errorResponse StatusConflict (Errorf "not enough isucon"))
      else
        let* gachaInfo :=
          orReturn (dbGet (DB h) (selectGacha gachaID requestAt))
            (λ err, match err with
                    | ErrNoRows => errorResponse StatusNotFound (Errorf "not found gacha")
                    | _ => errorResponse StatusInternalServerError err
                    end) in
        let* cached := orReturn (GetGachaItems gachaID)
                         (errorResponse StatusInternalServerError) in
        let* pool :=
          match cached with
          | Some (gachaItemList, sum) => ret (gachaItemList, sum)
          | None =>
              let* gachaItemList :=
                orReturn (dbSelect (DB h) (selectGachaItems gachaID))
                  (errorResponse StatusInternalServerError) in
              if (length gachaItemList =? 0)%nat
              then throw (errorResponse StatusNotFound (Errorf "not found gacha item"))
              else
                orReturn (SetGachaItems gachaID gachaItemList)
                  (errorResponse StatusInternalServerError);;
                ret (gachaItemList, sumWeights gachaItemList)
          end in
        let gachaItemList := fst pool in
        let sum := snd pool in
        if sum =? 0
        then throw (errorResponse StatusInternalServerError
                      (Errorf "invalid gacha weight sum"))
        else
          let* result := orReturn (lottery (Z.to_nat gachaCount) sum gachaItemList)
                           (errorResponse StatusInternalServerError) in
          let* db := orReturn (dbForUserID h userID)
                       (errorResponse StatusInternalServerError) in
          orReturn (Beginx db) (errorResponse StatusInternalServerError);;
          let presentMessage := (GachaMaster.Name gachaInfo ++ "の付与アイテムです")%string in
          let* presents :=
            orReturn (makePresents result userID requestAt presentMessage)
              (errorResponse StatusInternalServerError) in
          orReturn (insertPresents presents) (errorResponse StatusInternalServerError);;
          let totalCoin := wrap64 (User.IsuCoin user - consumedCoin) in
          orReturn (txExec (setIsuCoin totalCoin (User.ID user)))
            (errorResponse StatusInternalServerError);;
          orReturn (Commit db) (errorResponse StatusInternalServerError);;
          ret presents).

(** ** obtainLoginBonus *)

(** [SELECT * FROM login_bonus_masters WHERE start_at <= ? AND end_at >= ?] *)
Definition activeLoginBonuses (requestAt : Z) (d : Database) : list LoginBonusMaster.t :=
  List.filter (λ b, (LoginBonusMaster.StartAt b <=? requestAt)
                    && (requestAt <=? LoginBonusMaster.EndAt b))
              (login_bonus_masters d).

(** [SELECT * FROM user_login_bonuses WHERE user_id=? AND login_bonus_id IN (?)] *)
Definition selectUserLoginBonuses (userID : Z) (bonusIDs : list Z) (d : Database)
  : list UserLoginBonus.t :=
  List.filter (λ b, (UserLoginBonus.UserID b =? userID)
                    && inZ (UserLoginBonus.LoginBonusID b) bonusIDs)
              (user_login_bonuses d).

Definition indexUserLoginBonuses (rows : list UserLoginBonus.t) : gmap Z UserLoginBonus.t :=
  fold_left (λ existingMap bonus, <[UserLoginBonus.LoginBonusID bonus := bonus]> existingMap)
            rows ∅.

(** The progress update of one bonus ([// ボーナス進捗更新]); [None] is the
    [continue] of an exhausted bonus that does not loop. *)
Definition advanceBonus (bonus : LoginBonusMaster.t) (requestAt : Z)
  (userBonus : UserLoginBonus.t) : option UserLoginBonus.t :=
  if UserLoginBonus.LastRewardSequence userBonus <? LoginBonusMaster.ColumnCount bonus then
    Some (UserLoginBonus.with_progress
            (add64 (UserLoginBonus.LastRewardSequence userBonus) 1)
            (UserLoginBonus.LoopCount userBonus) requestAt userBonus)
  else if LoginBonusMaster.Looped bonus then
    Some (UserLoginBonus.with_progress 1
            (add64 (UserLoginBonus.LoopCount userBonus) 1) requestAt userBonus)
  else None.

Definition insertUserLoginBonus (userBonus : UserLoginBonus.t) : Database → Database :=
  with_user_login_bonuses (λ rows, rows ++ [userBonus]).

(** [UPDATE user_login_bonuses SET last_reward_sequence=?, loop_count=?,
    updated_at=? WHERE id=?] *)
Definition updateUserLoginBonus (userBonus : UserLoginBonus.t) : Database → Database :=
  with_user_login_bonuses
    (map (λ row, if UserLoginBonus.ID row =? UserLoginBonus.ID userBonus
                 then UserLoginBonus.with_progress
                        (UserLoginBonus.LastRewardSequence userBonus)
                        (UserLoginBonus.LoopCount userBonus)
                        (UserLoginBonus.UpdatedAt userBonus) row
                 else row)).

(** The loop over the active bonuses.  It returns [sendLoginBonuses] and
    [rewardItems], the latter as pairs (login bonus id, reward sequence).
    [login_bonus_masters.id] is the primary key, so every row of
    [existingMap] is visited at most once. *)
Fixpoint advanceLoginBonuses (loginBonuses : list LoginBonusMaster.t)
  (existingMap : gmap Z UserLoginBonus.t) (userID requestAt : Z)
  : M error (list UserLoginBonus.t * list (Z * Z)) :=
  match loginBonuses with
  | [] => ret ([], [])
  | bonus :: rest =>
      let* start :=
        match existingMap !! LoginBonusMaster.ID bonus with
        | Some userBonus => ret (userBonus, false)
        | None =>
            let* ubID := generateID in
            ret (UserLoginBonus.mk ubID userID (LoginBonusMaster.ID bonus) 0 1
                   requestAt requestAt None, true)
        end in
      let initBonus := snd start in
      match advanceBonus bonus requestAt (fst start) with
      | None => advanceLoginBonuses rest existingMap userID requestAt
      | Some userBonus =>
          (if initBonus then txExec (insertUserLoginBonus userBonus)
           else txExec (updateUserLoginBonus userBonus));;
          let* more := advanceLoginBonuses rest existingMap userID requestAt in
          ret (userBonus :: fst more,
               (LoginBonusMaster.ID bonus, UserLoginBonus.LastRewardSequence userBonus)
                 :: snd more)
      end
  end.

(** The cache pass over [rewardItems]. *)
Definition lookupRewards (cached : gmap (Z * Z) LoginBonusRewardMaster.t)
  (rewardItems : list (Z * Z))
  : gmap (Z * Z) LoginBonusRewardMaster.t * list (Z * Z) :=
  fold_left
    (λ '(rewardMap, missingRewards) reward,
       match cached !! reward with
       | Some cachedReward => (<[reward := cachedReward]> rewardMap, missingRewards)
       | None => (rewardMap, missingRewards ++ [reward])
       end)
    rewardItems (∅, []).

(** [SELECT * FROM login_bonus_reward_masters WHERE (login_bonus_id=? AND
    reward_sequence=?) OR ...] *)
Definition selectRewards (missingRewards : list (Z * Z)) (d : Database)
  : list LoginBonusRewardMaster.t :=
  List.filter
    (λ r, existsb (λ key, (LoginBonusRewardMaster.LoginBonusID r =? fst key)
                          && (LoginBonusRewardMaster.RewardSequence r =? snd key))
                  missingRewards)
    (login_bonus_reward_masters d).

Fixpoint cacheRewards (actualRewards : list LoginBonusRewardMaster.t)
  (rewardMap : gmap (Z * Z) LoginBonusRewardMaster.t)
  : M error (gmap (Z * Z) LoginBonusRewardMaster.t) :=
  match actualRewards with
  | [] => ret rewardMap
  | reward :: rest =>
      SetLoginBonusReward reward;;
      cacheRewards rest
        (<[(LoginBonusRewardMaster.LoginBonusID reward,
            LoginBonusRewardMaster.RewardSequence reward) := reward]> rewardMap)
  end.

(** The presents handed to the batch grant carry the item type, the item
    id and the amount; every other field keeps Go's zero value. *)
Fixpoint rewardPresents (sendLoginBonuses : list UserLoginBonus.t)
  (rewardMap : gmap (Z * Z) LoginBonusRewardMaster.t) : M error (list UserPresent.t) :=
  match sendLoginBonuses with
  | [] => ret []
  | userBonus :: rest =>
      match rewardMap !! (UserLoginBonus.LoginBonusID userBonus,
                          UserLoginBonus.LastRewardSequence userBonus) with
      | None => throw ErrLoginBonusRewardNotFound
      | Some rewardItem =>
          let* more := rewardPresents rest rewardMap in
          ret (UserPresent.mk 0 0 0 (LoginBonusRewardMaster.ItemType rewardItem)
                 (LoginBonusRewardMaster.ItemID rewardItem)
                 (LoginBonusRewardMaster.Amount rewardItem) "" 0 0 None :: more)
      end
  end.

Definition obtainLoginBonus (h : Handler) (userID requestAt : Z)
  : M error (list UserLoginBonus.t) :=
  let* loginBonuses := txSelect (activeLoginBonuses requestAt) in
  if (length loginBonuses =? 0)%nat then ret []
  else
    let bonusIDs := map LoginBonusMaster.ID loginBonuses in
    let* existingBonuses := txSelect (selectUserLoginBonuses userID bonusIDs) in
    let existingMap := indexUserLoginBonuses existingBonuses in
    let* advanced := advanceLoginBonuses loginBonuses existingMap userID requestAt in
    let sendLoginBonuses := fst advanced in
    let rewardItems := snd advanced in
    (if (0 <? length rewardItems)%nat then
       let* w := get in
       let '(rewardMap, missingRewards) :=
         lookupRewards (loginBonusRewards (Cache w)) rewardItems in
       let* rewardMap :=
         if (0 <? length missingRewards)%nat then
           let* actualRewards := txSelect (selectRewards missingRewards) in
           cacheRewards actualRewards rewardMap
         else ret rewardMap in
       let* presents := rewardPresents sendLoginBonuses rewardMap in
       if (0 <? length presents)%nat
       then obtainItemsBatch h presents userID requestAt
       else ret tt
     else ret tt);;
    ret sendLoginBonuses.

(** ** Observations of the state, for the proofs *)

(** The states that agree on an observation [proj]. *)
Definition sameOn {T} (proj : World → T) : relation World :=
  λ w w', proj w' = proj w.

(** [frame proj m]: whatever [m] returns, it leaves the observation [proj]
    of the state as it found it. *)
Definition frame {E A T} (proj : World → T) (m : M E A) : Prop :=
  ∀ w, sameOn proj w (snd (m w)).

(** [raises X m]: every error [m] returns satisfies [X]. *)
Definition raises {E A} (X : E → Prop) (m : M E A) : Prop :=
  ∀ w e w', m w = (Err e, w') → X e.

(** ** The grant, stated without the code

    What a batch is expected to hand out, read off the presents: the
    total of the coin entries, the card entries, and for every item id the
    total of the material entries naming it. *)
Definition isCoin (p : UserPresent.t) : bool := UserPresent.ItemType p =? 1.
Definition isCard (p : UserPresent.t) : bool := UserPresent.ItemType p =? 2.
Definition isMaterial (p : UserPresent.t) : bool :=
  (UserPresent.ItemType p =? 3) || (UserPresent.ItemType p =? 4).
Definition knownKind (p : UserPresent.t) : bool := isCoin p || isCard p || isMaterial p.

Definition sum64 (amounts : list Z) : Z := fold_left add64 amounts 0.

Definition coinTotalOf (presents : list UserPresent.t) : Z :=
  sum64 (map UserPresent.Amount (List.filter isCoin presents)).

Definition materialEntries (itemID : Z) (presents : list UserPresent.t) : list UserPresent.t :=
  List.filter (λ p, isMaterial p && (UserPresent.ItemID p =? itemID)) presents.

Definition materialTotal (itemID : Z) (presents : list UserPresent.t) : option Z :=
  match materialEntries itemID presents with
  | [] => None
  | entries => Some (sum64 (map UserPresent.Amount entries))
  end.

(** The errors of a grant: a failed round trip, a missing master row, or a
    nil [AmountPerSec] dereferenced. *)
Definition grantError (e : error) : Prop :=
  e = ErrStore ∨ e = ErrItemNotFound ∨ e = Panic.

(** Everything a batch grant leaves alone: the committed servers, the
    tables of the open transaction other than users, cards and items, the
    token cache and the schedules. *)
Definition grantFootprint (w : World) :=
  (servers w, user_devices (tx w), user_presents (tx w), user_login_bonuses (tx w),
   user_one_time_tokens (tx w), item_masters (tx w), gacha_masters (tx w),
   gacha_item_masters (tx w), login_bonus_masters (tx w),
   login_bonus_reward_masters (tx w), TokenCache w, faults w, random w, randCalls w,
   rangeOrder w).

(** Everything the loops of a batch grant leave alone: all but the master
    cache and the id generator. *)
Definition loopFootprint (w : World) :=
  (servers w, tx w, TokenCache w, faults w, storeCalls w, random w, randCalls w,
   rangeOrder w).

(** The cache of item masters is keyed by the id of the row it holds (the
    only writer is [SetItemMaster]). *)
Definition cacheKeyed (w : World) : Prop :=
  ∀ itemID master, itemMasters (Cache w) !! itemID = Some master →
                   ItemMaster.ID master = itemID.

(** [range] visits every entry of a map exactly once. *)
Definition rangesOnce (w : World) : Prop := ∀ l, rangeOrder w l ≡ₚ l.

(** A card as the grant creates it for [userID] at [requestAt]. *)
Definition freshCard (userID requestAt cardID : Z) (c : UserCard.t) : Prop :=
  UserCard.UserID c = userID ∧ UserCard.CardID c = cardID ∧ UserCard.Level c = 1 ∧
  UserCard.TotalExp c = 0 ∧ UserCard.CreatedAt c = requestAt ∧
  UserCard.UpdatedAt c = requestAt ∧ UserCard.DeletedAt c = None.

(** The cards a batch creates for its card entries: for every entry, as
    many fresh cards of that card id as its amount says. *)
Definition cardsFor (userID requestAt : Z) (cardItems : list UserPresent.t)
  (cards : list UserCard.t) : Prop :=
  ∃ chunks,
    cards = concat chunks ∧
    Forall2 (λ item chunk,
               length chunk = Z.to_nat (UserPresent.Amount item) ∧
               Forall (freshCard userID requestAt (UserPresent.ItemID item)) chunk)
            cardItems chunks.

(** The row a batch writes for a material whose row exists, and the row
    it creates for one that has none. *)
Definition mergedItem (requestAt amount : Z) (existingItem : UserItem.t) : UserItem.t :=
  UserItem.with_Amount (add64 (UserItem.Amount existingItem) amount) requestAt existingItem.

Definition freshItem (userID requestAt : Z) (r : UserItem.t) (material : Z * Z) : Prop :=
  UserItem.UserID r = userID ∧ UserItem.ItemID r = fst material ∧
  UserItem.Amount r = snd material ∧ UserItem.CreatedAt r = requestAt ∧
  UserItem.UpdatedAt r = requestAt ∧ UserItem.DeletedAt r = None.

Definition keyed (masterMap : gmap Z ItemMaster.t) : Prop :=
  ∀ itemID master, masterMap !! itemID = Some master → ItemMaster.ID master = itemID.

(** A server with its one-time tokens blanked out: what is left is every
    other table. *)
Definition eraseTokens : Database → Database :=
  with_user_one_time_tokens (λ _, []).

(** A token is spent on server [db] when the cache does not hold it and no
    live row of that server carries it. *)
Definition spent (token : string) (db : Host) (w : World) : Prop :=
  TokenCache w !! token = None ∧
  ∀ d tokenType, servers w !! db = Some d → selectToken token tokenType d = None.

(** A token that [checkOneTimeToken] will accept at [requestAt]: the cache
    entry if there is one, else the first live row of the caller's shard. *)
Definition usableToken (token : string) (tokenType requestAt : Z) (d : Database)
  (w : World) : Prop :=
  match TokenCache w !! token with
  | Some tokenInfo =>
      TokenInfo.TokenType tokenInfo = tokenType ∧ requestAt ≤ TokenInfo.ExpiredAt tokenInfo
  | None =>
      ∃ tk, selectToken token tokenType d = Some tk ∧
            requestAt ≤ UserOneTimeToken.ExpiredAt tk
  end.

(** ** Concrete scenarios *)

Definition emptyDatabase : Database := mkDatabase [] [] [] [] [] [] [] [] [] [] [] [].
Definition emptyCache : MasterDataCache := mkCache ∅ ∅ ∅ ∅.

(** A freshly started process in front of the given servers: empty caches,
    no store failure, every random sample equal to 2. *)
Definition freshWorld (servers : list Database) : World :=
  mkWorld servers emptyDatabase emptyCache ∅ 1000 (λ _, false) 0 (λ _, 2) 0 id.

(** Two shards; the unsharded pool [DB] is opened on the first server. *)
Definition twoShards : Handler := {| DBs := [0; 1]%nat; DB := 0%nat |}.
Definition oneShard : Handler := {| DBs := [0]%nat; DB := 0%nat |}.

(** Alice is routed to shard 1, Bob to shard 0. *)
Definition alice : Z := 8388608.
Definition bob : Z := 16777216.

Definition demoGacha : GachaMaster.t := GachaMaster.mk 1 "gacha" 0 1000 1 0.
Definition demoGachaItems : list GachaItemMaster.t :=
  [GachaItemMaster.mk 1 1 1 1 100 1 0; GachaItemMaster.mk 2 1 1 1 500 3 0].

Definition demoUser (userID isuCoin : Z) : User.t :=
  User.mk userID isuCoin 0 0 0 0 0 None.
Definition demoDevice (userID : Z) (viewerID : string) : UserDevice.t :=
  UserDevice.mk userID userID viewerID 1 0 0 None.

Definition shard0 : Database :=
  mkDatabase [demoUser bob 5000] [demoDevice bob "bob-phone"] [] [] [] [] [] []
    [demoGacha] demoGachaItems [] [].
Definition shard1 : Database :=
  mkDatabase [demoUser alice 5000] [demoDevice alice "alice-phone"] [] [] [] [] [] []
    [demoGacha] demoGachaItems [] [].

(** Bob, on a single server, holding 5000 coins and a draw token. *)
Definition bobWithToken : World :=
  snd (listGacha oneShard bob 10 "tok-b" (freshWorld [shard0])).
Definition bobDraws : DrawGachaRequest.t := DrawGachaRequest.mk "bob-phone" "tok-b".

Definition plainError (e : error) : Prop := ∀ msg, e ≠ Errorf msg.


Definition hammer : ItemMaster.t :=
  ItemMaster.mk 2 2 "hammer" "" (Some 1) (Some 50) (Some 100) (Some 10) None None.
Definition stone (itemID : Z) : ItemMaster.t :=
  ItemMaster.mk itemID 3 "stone" "" None None None None (Some 10) None.

Definition gift (id itemType itemID amount : Z) (deletedAt : option Z) : UserPresent.t :=
  UserPresent.mk id bob 1 itemType itemID amount "gift" 1 1 deletedAt.

(** Bob's shard: 5000 coins, ten stones of item 8, and six presents, the
    first of which he has received already. *)
Definition giftShard : Database :=
  mkDatabase [demoUser bob 5000] [demoDevice bob "bob-phone"] []
    [UserItem.mk 500 bob 3 8 10 0 0 None]
    [gift 1 1 1 100 (Some 5); gift 2 1 1 300 None; gift 3 2 2 2 None;
     gift 4 3 7 2 None; gift 5 3 7 2 None; gift 6 3 8 5 None]
    [] [] [hammer; stone 7; stone 8] [] [] [] [].
Definition giftWorld : World := freshWorld [giftShard].
Definition allGifts : ReceivePresentRequest.t :=
  ReceivePresentRequest.mk "bob-phone" [1; 2; 3; 4; 5; 6].

(** The key of a user_items row, and what the batched UPDATE does to one
    row. *)
Definition itemKey (r : UserItem.t) : Z * Z := (UserItem.UserID r, UserItem.ItemID r).

Definition updateRow (updateItems : list UserItem.t) (row : UserItem.t) : UserItem.t :=
  match List.find (λ item, UserItem.ID item =? UserItem.ID row) updateItems with
  | Some item => UserItem.with_Amount (UserItem.Amount item) (UserItem.UpdatedAt item) row
  | None => row
  end.

(** Bob's transaction, opened on his shard. *)
Definition giftTx : World := with_tx (λ _, giftShard) giftWorld.
Definition twoStones : list UserPresent.t :=
  [gift 4 3 7 2 None; gift 5 3 7 2 None; gift 6 3 8 5 None].

(** Bob's shard with two presents, the first of an item kind the game does
    not have. *)
Definition oddShard : Database :=
  mkDatabase [demoUser bob 5000] [demoDevice bob "bob-phone"] [] []
    [gift 9 5 1 1 None; gift 10 1 1 100 None] [] [] [hammer; stone 7; stone 8] [] [] [] [].
Definition oddTx : World := with_tx (λ _, oddShard) (freshWorld [oddShard]).
Definition oddGifts : ReceivePresentRequest.t :=
  ReceivePresentRequest.mk "bob-phone" [9; 10].

(** The progress of a streak, and the two tables the login bonus reads and
    writes. *)
Definition progress (b : UserLoginBonus.t) : Z * Z :=
  (UserLoginBonus.LastRewardSequence b, UserLoginBonus.LoopCount b).

Definition bonusTables (w : World) :=
  (user_login_bonuses (tx w), login_bonus_masters (tx w)).

(** The streak a user starts from when no row exists yet. *)
Definition newUserLoginBonus (ubID userID loginBonusID requestAt : Z) : UserLoginBonus.t :=
  UserLoginBonus.mk ubID userID loginBonusID 0 1 requestAt requestAt None.

(** A looping bonus of three columns paying 10, 20 and 30 coins, and Bob's
    four logins inside the transaction opened on his shard. *)
Definition bonusShard : Database :=
  mkDatabase [demoUser bob 0] [demoDevice bob "bob-phone"] [] [] [] [] [] [] [] []
    [LoginBonusMaster.mk 1 0 1000 3 true 0]
    [LoginBonusRewardMaster.mk 1 1 1 1 1 10 0; LoginBonusRewardMaster.mk 2 1 2 1 1 20 0;
     LoginBonusRewardMaster.mk 3 1 3 1 1 30 0].
Definition bonusTx : World := with_tx (λ _, bonusShard) (freshWorld [bonusShard]).

Definition okOr {E A} (d : A) (r : result E A) : A :=
  match r with Ok a => a | Err _ => d end.

Definition login1 := obtainLoginBonus oneShard bob 10 bonusTx.
Definition login2 := obtainLoginBonus oneShard bob 20 (snd login1).
Definition login3 := obtainLoginBonus oneShard bob 30 (snd login2).
Definition login4 := obtainLoginBonus oneShard bob 40 (snd login3).

(** ** addExpToCard: the level-up loop *)
Module TargetUserCardData.
Record t := mk {
  ID : Z; UserID : Z; CardID : Z; AmountPerSec : Z; Level : Z; TotalExp : Z;
  BaseAmountPerSec : Z; MaxLevel : Z; MaxAmountPerSec : Z; BaseExpPerLevel : Z }.
Definition levelled (level amountPerSec : Z) (c : t) : t :=
  mk (ID c) (UserID c) (CardID c) amountPerSec level (TotalExp c)
     (BaseAmountPerSec c) (MaxLevel c) (MaxAmountPerSec c) (BaseExpPerLevel c).
End TargetUserCardData.

(** The card after one pass through the loop body: [card.Level += 1;
    card.AmountPerSec += (card.MaxAmountPerSec - card.BaseAmountPerSec) /
    (card.MaxLevel - 1)].  Go's [/] on integers truncates. *)
Definition levelledUp (card : TargetUserCardData.t) : TargetUserCardData.t :=
  TargetUserCardData.levelled
    (add64 (TargetUserCardData.Level card) 1)
    (add64 (TargetUserCardData.AmountPerSec card)
       (wrap64 (Z.quot (wrap64 (TargetUserCardData.MaxAmountPerSec card
                                - TargetUserCardData.BaseAmountPerSec card))
                       (wrap64 (TargetUserCardData.MaxLevel card - 1)))))
    card.

(** How the loop ends: by [break], by the panic of an integer division by
    zero, or not within the iterations looked at. *)
Inductive LoopEnd :=
| Break (card : TargetUserCardData.t)
| DivideByZero
| StillLooping.

(** [for { nextLvThreshold := int(float64(card.BaseExpPerLevel) *
    math.Pow(1.2, float64(card.Level-1))); if nextLvThreshold >
    card.TotalExp { break }; ... }].  The threshold is computed in binary
    floating point by Go's [math.Pow] and converted back to [int];
    whatever that computation is, it is a function of the two integers it
    reads and its result is an [int]: the loop is modelled over any such
    function, [nextLvThreshold]. *)
Fixpoint levelUp (nextLvThreshold : Z → Z → Z) (iterations : nat)
  (card : TargetUserCardData.t) : LoopEnd :=
  match iterations with
  | O => StillLooping
  | S n =>
      if TargetUserCardData.TotalExp card
         <? nextLvThreshold (TargetUserCardData.BaseExpPerLevel card)
              (TargetUserCardData.Level card)
      then Break card
      else if wrap64 (TargetUserCardData.MaxLevel card - 1) =? 0 then DivideByZero
      else levelUp nextLvThreshold n (levelledUp card)
  end.

(** A level-1 card of a master with [BaseExpPerLevel] 10 and [MaxLevel] 50
    whose experience has reached the largest [int]. *)
Definition saturatedCard : TargetUserCardData.t :=
  TargetUserCardData.mk 1 bob 2 1 1 (2 ^ 63 - 1) 1 50 100 10.

(** [rollsBack proj m]: when [m] fails, the observation [proj] of the
    state is as [m] found it. *)
Definition rollsBack {E A T} (proj : World → T) (m : M E A) : Prop :=
  ∀ w e w', m w = (Err e, w') → proj w' = proj w.

(** The responses a handler ends with when it does not succeed. *)
Definition isErrorResponse {A} (r : Response A) : Prop :=
  ∃ statusCode err, r = errorResponse statusCode err.

(** Every table of every server but the one-time tokens. *)
Definition allButTokens (w : World) : list Database := map eraseTokens (servers w).


(** ** listPresent *)

Definition PresentCountPerPage : Z := 100.

(** [ORDER BY created_at DESC, id]. *)
Definition newestFirst (a b : UserPresent.t) : Prop :=
  UserPresent.CreatedAt b < UserPresent.CreatedAt a ∨
  (UserPresent.CreatedAt a = UserPresent.CreatedAt b ∧ UserPresent.ID a ≤ UserPresent.ID b).
#[global] Instance newestFirst_dec : RelDecision newestFirst.
Proof. intros a b. unfold newestFirst. apply _. Defined.

(** [WHERE user_id = ? AND deleted_at IS NULL] on user_presents. *)
Definition unreceivedOf (userID : Z) (d : Database) : list UserPresent.t :=
  List.filter (λ p, (UserPresent.UserID p =? userID) && isNil (UserPresent.DeletedAt p))
              (user_presents d).

(** [SELECT * FROM user_presents WHERE user_id = ? AND deleted_at IS NULL
    ORDER BY created_at DESC, id LIMIT ? OFFSET ?] *)
Definition selectPresentPage (userID limit offset : Z) (d : Database) : list UserPresent.t :=
  take (Z.to_nat limit) (drop (Z.to_nat offset) (merge_sort newestFirst (unreceivedOf userID d))).

(** [SELECT COUNT( * ) FROM user_presents WHERE user_id = ? AND deleted_at IS
    NULL] *)
Definition countUnreceived (userID : Z) (d : Database) : option Z :=
  Some (Z.of_nat (length (unreceivedOf userID d))).

(** The path parameter [n] is taken as [strconv.Atoi] parsed it.  MySQL
    refuses a negative [OFFSET]: the page query of a negative [n] fails
    like any other refused statement. *)
Definition listPresent (h : Handler) (userID n : Z)
  : World → Response (list UserPresent.t * bool) * World :=
  respond (
    if n =? 0
    then throw (errorResponse StatusBadRequest
                  (Errorf "index number (n) should be more than or equal to 1"))
    else
      let offset := wrap64 (PresentCountPerPage * (n - 1)) in
      let* db := orReturn (dbForUserID h userID) (errorResponse StatusInternalServerError) in
      let* presentList :=
        orReturn (if offset <? 0 then storeCall;; throw ErrStore
                  else dbSelect db (selectPresentPage userID PresentCountPerPage offset))
          (errorResponse StatusInternalServerError) in
      let* presentCount :=
        orReturn (dbGet db (countUnreceived userID))
          (errorResponse StatusInternalServerError) in
      let isNext := add64 offset PresentCountPerPage <? presentCount in
      ret (presentList, isNext)).

(** Bob's shard with 150 presents waiting, created at times 1 to 150. *)
Definition crowdedShard : Database :=
  mkDatabase [demoUser bob 0] [demoDevice bob "bob-phone"] [] []
    (map (λ i, UserPresent.mk i bob i 1 1 1 "gift" i i None) (seqZ 1 150))
    [] [] [] [] [] [] [].

(** ** listItem *)

Module ListItemResponse.
Record t := mk {
  OneTimeToken : string; User : User.t; Items : list UserItem.t; Cards : list UserCard.t }.
End ListItemResponse.

(** [SELECT * FROM user_items WHERE user_id = ?] *)
Definition selectItemsOf (userID : Z) (d : Database) : list UserItem.t :=
  List.filter (λ i, UserItem.UserID i =? userID) (user_items d).

(** [SELECT * FROM user_cards WHERE user_id=?] *)
Definition selectCardsOf (userID : Z) (d : Database) : list UserCard.t :=
  List.filter (λ c, UserCard.UserID c =? userID) (user_cards d).

(** The UUID of the new token is the argument [tk].  The caller's old
    tokens are marked deleted on the caller's shard; the new row is written
    through the unsharded pool. *)
Definition listItem (h : Handler) (userID requestAt : Z) (tk : string)
  : World → Response ListItemResponse.t * World :=
  respond (
    let* db := orReturn (dbForUserID h userID) (errorResponse StatusInternalServerError) in
    let* user :=
      orReturn (dbGet db (selectUser userID))
        (λ err, match err with
                | ErrNoRows => errorResponse StatusNotFound ErrUserNotFound
                | _ => errorResponse StatusInternalServerError err
                end) in
    let* itemList := orReturn (dbSelect db (selectItemsOf userID))
                       (errorResponse StatusInternalServerError) in
    let* cardList := orReturn (dbSelect db (selectCardsOf userID))
                       (errorResponse StatusInternalServerError) in
    orReturn (dbExec db (expireTokensOf requestAt userID))
      (errorResponse StatusInternalServerError);;
    let* tID := generateID in
    let token := UserOneTimeToken.mk tID userID tk 2 (add64 requestAt 600)
                   requestAt requestAt None in
    orReturn (dbExec (DB h) (insertToken token))
      (errorResponse StatusInternalServerError);;
    orReturn (SetToken (UserOneTimeToken.Token token) (UserOneTimeToken.UserID token)
                (UserOneTimeToken.TokenType token) (UserOneTimeToken.ExpiredAt token)
                (UserOneTimeToken.CreatedAt token))
      (errorResponse StatusInternalServerError);;
    ret (ListItemResponse.mk (UserOneTimeToken.Token token) user itemList cardList)).

(** ** The remaining cache methods *)

(** [for token, info := range tc.tokens { if info.ExpiredAt < currentTime {
    delete(tc.tokens, token) } }].  The loop deletes no entry but the one
    it is visiting, so it visits every entry of the map once, in an order
    Go does not fix; the list of the map's entries stands for that order. *)
Definition CleanupExpiredTokens (currentTime : Z) : M error unit :=
  modify (with_TokenCache (λ tokens,
    fold_left (λ tokens entry,
                 if TokenInfo.ExpiredAt (snd entry) <? currentTime
                 then delete (fst entry) tokens else tokens)
              (map_to_list tokens) tokens)).

(** [Clear]: the four maps are replaced by empty ones. *)
Definition Clear : M error unit := modify (with_Cache (λ _, mkCache ∅ ∅ ∅ ∅)).

(** The gacha cache is coherent when every pool it holds comes with the
    sum of its weights. *)
Definition gachaCacheCoherent (c : MasterDataCache) : Prop :=
  ∀ gachaID items,
    gachaItems c !! gachaID = Some items →
    gachaWeightSums c !! gachaID = Some (sumWeights items).

(** [preserves P m]: [m] keeps the property [P] of the state, however it
    ends. *)
Definition preserves {E A} (P : World → Prop) (m : M E A) : Prop :=
  ∀ w, P w → P (snd (m w)).

(** ** The rest of the schema

    The entities and tables that the handlers above never touch, and the
    state of the process extended with them. *)

Module UserDeck.
Record t := mk {
  ID : Z; UserID : Z; CardID1 : Z; CardID2 : Z; CardID3 : Z;
    CreatedAt : Z; UpdatedAt : Z; DeletedAt : option Z }.
Definition with_deleted (upd : Z) (del : option Z) (k : t) : t :=
  mk (ID k) (UserID k) (CardID1 k) (CardID2 k) (CardID3 k) (CreatedAt k) upd del.
End UserDeck.

Module Session.
Record t := mk {
  ID : Z; UserID : Z; SessionID : string; ExpiredAt : Z;
    CreatedAt : Z; UpdatedAt : Z; DeletedAt : option Z }.
Definition with_deleted (del : option Z) (k : t) : t :=
  mk (ID k) (UserID k) (SessionID k) (ExpiredAt k) (CreatedAt k) (UpdatedAt k) del.
End Session.

Module UserBan.
Record t := mk {
  ID : Z; UserID : Z; CreatedAt : Z; UpdatedAt : Z; DeletedAt : option Z }.
End UserBan.

Module UserPresentAllReceivedHistory.
Record t := mk {
  ID : Z; UserID : Z; PresentAllID : Z; ReceivedAt : Z;
    CreatedAt : Z; UpdatedAt : Z; DeletedAt : option Z }.
End UserPresentAllReceivedHistory.

Module PresentAllMaster.
Record t := mk {
  ID : Z; RegisteredStartAt : Z; RegisteredEndAt : Z; ItemType : Z; ItemID : Z;
    Amount : Z; PresentMessage : string; CreatedAt : Z }.
End PresentAllMaster.

Module VersionMaster.
Record t := mk { ID : Z; Status : Z; MasterVersion : string }.
End VersionMaster.

(** The remaining tables of one MySQL server, kept beside its [Database]. *)
Record Annex := mkAnnex {
  user_decks : list UserDeck.t;
  user_sessions : list Session.t;
  user_bans : list UserBan.t;
  user_present_all_received_history : list UserPresentAllReceivedHistory.t;
  present_all_masters : list PresentAllMaster.t;
  version_masters : list VersionMaster.t }.

Definition with_user_decks (f : list UserDeck.t → list UserDeck.t) (a : Annex) : Annex :=
  mkAnnex (f (user_decks a)) (user_sessions a) (user_bans a)
    (user_present_all_received_history a) (present_all_masters a) (version_masters a).

Definition with_user_sessions (f : list Session.t → list Session.t) (a : Annex) : Annex :=
  mkAnnex (user_decks a) (f (user_sessions a)) (user_bans a)
    (user_present_all_received_history a) (present_all_masters a) (version_masters a).

Definition with_history
  (f : list UserPresentAllReceivedHistory.t → list UserPresentAllReceivedHistory.t)
  (a : Annex) : Annex :=
  mkAnnex (user_decks a) (user_sessions a) (user_bans a)
    (f (user_present_all_received_history a)) (present_all_masters a) (version_masters a).

(** The process and its servers with all their tables: [annexes] lists the
    remaining tables of the servers, in the order of [servers]; [txAnnex]
    is their working copy in the open transaction. *)
Record System := mkSystem {
  world : World;
  annexes : list Annex;
  txAnnex : Annex }.

Definition with_world (f : World → World) (s : System) : System :=
  mkSystem (f (world s)) (annexes s) (txAnnex s).
Definition with_annexes (f : list Annex → list Annex) (s : System) : System :=
  mkSystem (world s) (f (annexes s)) (txAnnex s).
Definition with_txAnnex (f : Annex → Annex) (s : System) : System :=
  mkSystem (world s) (annexes s) (f (txAnnex s)).

(** The monad of the handlers that use these tables, and the embedding of
    the code modelled so far. *)
Definition MS (E A : Type) : Type := System → result E A * System.

Definition retS {E A} (a : A) : MS E A := λ s, (Ok a, s).
Definition throwS {E A} (e : E) : MS E A := λ s, (Err e, s).
Definition bindS {E A B} (m : MS E A) (k : A → MS E B) : MS E B :=
  λ s, match m s with
       | (Ok a, s') => k a s'
       | (Err e, s') => (Err e, s')
       end.

Notation "'let+' x ':=' m 'in' k" := (bindS m (λ x, k))
  (at level 10, x name, m at level 100, k at level 200).
Notation "m ';;+' k" := (bindS m (λ _, k))
  (at level 100, k at level 200, right associativity).

Definition orReturnS {E E' A} (m : MS E A) (handle : E → E') : MS E' A :=
  λ s, match m s with
       | (Ok a, s') => (Ok a, s')
       | (Err e, s') => (Err (handle e), s')
       end.

Definition getS {E} : MS E System := λ s, (Ok s, s).
Definition modifyS {E} (f : System → System) : MS E unit := λ s, (Ok tt, f s).

Definition respondS {A} (m : MS (Response A) A) : System → Response A * System :=
  λ s, match m s with
       | (Ok v, s') => (successResponse v, s')
       | (Err r, s') => (r, s')
       end.

Definition lift {E A} (m : M E A) : MS E A :=
  λ s, (fst (m (world s)), with_world (λ _, snd (m (world s))) s).

(** The pool and transaction primitives on the remaining tables.  A
    transaction covers all tables of its server. *)
Definition annexSelect {A} (db : Host) (query : Annex → list A) : MS error (list A) :=
  lift storeCall;;+
  let+ s := getS in
  match annexes s !! db with
  | Some a => retS (query a)
  | None => throwS ErrStore
  end.

Definition annexGet {A} (db : Host) (query : Annex → option A) : MS error A :=
  lift storeCall;;+
  let+ s := getS in
  match annexes s !! db with
  | Some a => match query a with Some row => retS row | None => throwS ErrNoRows end
  | None => throwS ErrStore
  end.

Definition annexExec (db : Host) (stmt : Annex → Annex) : MS error unit :=
  lift storeCall;;+
  let+ s := getS in
  match annexes s !! db with
  | Some a => modifyS (with_annexes (λ l, <[db := stmt a]> l))
  | None => throwS ErrStore
  end.

Definition BeginxS (db : Host) : MS error unit :=
  lift (Beginx db);;+
  let+ s := getS in
  match annexes s !! db with
  | Some a => modifyS (with_txAnnex (λ _, a))
  | None => throwS ErrStore
  end.

Definition txAnnexSelect {A} (query : Annex → list A) : MS error (list A) :=
  lift storeCall;;+
  let+ s := getS in retS (query (txAnnex s)).

Definition txAnnexExec (stmt : Annex → Annex) : MS error unit :=
  lift storeCall;;+ modifyS (with_txAnnex stmt).

Definition CommitS (db : Host) : MS error unit :=
  lift (Commit db);;+
  modifyS (λ s, with_annexes (λ l, <[db := txAnnex s]> l) s).

(** ** obtainPresent *)

(** [SELECT * FROM present_all_masters WHERE registered_start_at <= ? AND
    registered_end_at >= ?] *)
Definition activePresentAll (requestAt : Z) (a : Annex) : list PresentAllMaster.t :=
  List.filter (λ np, (PresentAllMaster.RegisteredStartAt np <=? requestAt)
                     && (requestAt <=? PresentAllMaster.RegisteredEndAt np))
              (present_all_masters a).

(** [SELECT present_all_id FROM user_present_all_received_history WHERE
    user_id=? AND present_all_id IN (?)] *)
Definition selectReceivedIDs (userID : Z) (presentIDs : list Z) (a : Annex) : list Z :=
  map UserPresentAllReceivedHistory.PresentAllID
    (List.filter (λ r, (UserPresentAllReceivedHistory.UserID r =? userID)
                       && inZ (UserPresentAllReceivedHistory.PresentAllID r) presentIDs)
                 (user_present_all_received_history a)).

(** [receivedMap[id] = true] for every received id; a Go map of booleans
    answers [false] for a missing key. *)
Definition indexReceived (receivedIDs : list Z) : gmap Z bool :=
  fold_left (λ receivedMap id, <[id := true]> receivedMap) receivedIDs ∅.

(** The loop over the active masters: a present and a history row for
    every master the user has not received. *)
Fixpoint preparePresents (normalPresents : list PresentAllMaster.t)
  (receivedMap : gmap Z bool) (userID requestAt : Z)
  : MS error (list UserPresent.t * list UserPresentAllReceivedHistory.t) :=
  match normalPresents with
  | [] => retS ([], [])
  | np :: rest =>
      if default false (receivedMap !! PresentAllMaster.ID np)
      then preparePresents rest receivedMap userID requestAt
      else
        let+ pID := lift generateID in
        let up := UserPresent.mk pID userID requestAt (PresentAllMaster.ItemType np)
                    (PresentAllMaster.ItemID np) (PresentAllMaster.Amount np)
                    (PresentAllMaster.PresentMessage np) requestAt requestAt None in
        let+ phID := lift generateID in
        let history := UserPresentAllReceivedHistory.mk phID userID (PresentAllMaster.ID np)
                         requestAt requestAt requestAt None in
        let+ more := preparePresents rest receivedMap userID requestAt in
        retS (up :: fst more, history :: snd more)
  end.

Fixpoint insertHistories (histories : list UserPresentAllReceivedHistory.t)
  : MS error unit :=
  match histories with
  | [] => retS tt
  | history :: rest =>
      txAnnexExec (with_history (λ rows, rows ++ [history]));;+
      insertHistories rest
  end.

Definition obtainPresent (h : Handler) (userID requestAt : Z)
  : MS error (list UserPresent.t) :=
  let+ normalPresents := txAnnexSelect (activePresentAll requestAt) in
  if (length normalPresents =? 0)%nat then retS []
  else
    let presentIDs := map PresentAllMaster.ID normalPresents in
    let+ receivedIDs := txAnnexSelect (selectReceivedIDs userID presentIDs) in
    let receivedMap := indexReceived receivedIDs in
    let+ prepared := preparePresents normalPresents receivedMap userID requestAt in
    let obtainPresents := fst prepared in
    let histories := snd prepared in
    (if (0 <? length obtainPresents)%nat
     then lift (insertPresents obtainPresents);;+ insertHistories histories
     else retS tt);;+
    retS obtainPresents.

(** ** loginProcess *)

(** [user.UpdatedAt = requestAt; user.LastActivatedAt = requestAt] *)
Definition activated (requestAt : Z) (u : User.t) : User.t :=
  User.mk (User.ID u) (User.IsuCoin u) (User.LastGetRewardAt u) requestAt
    (User.RegisteredAt u) (User.CreatedAt u) requestAt (User.DeletedAt u).

(** [UPDATE users SET updated_at=?, last_activated_at=? WHERE id=?] *)
Definition touchUser (requestAt userID : Z) : Database → Database :=
  with_users (map (λ u, if User.ID u =? userID then activated requestAt u else u)).

(** [SELECT isu_coin FROM users WHERE id=?] *)
Definition selectIsuCoin (userID : Z) (d : Database) : option Z :=
  User.IsuCoin <$> selectUser userID d.

Definition userNotFound (err : error) : error :=
  match err with ErrNoRows => ErrUserNotFound | _ => err end.

Definition loginProcess (h : Handler) (userID requestAt : Z)
  : MS error (User.t * list UserLoginBonus.t * list UserPresent.t) :=
  let+ user := orReturnS (lift (txGet (selectUser userID))) userNotFound in
  let+ loginBonuses := lift (obtainLoginBonus h userID requestAt) in
  let+ allPresents := obtainPresent h userID requestAt in
  let+ isuCoin := orReturnS (lift (txGet (selectIsuCoin (User.ID user)))) userNotFound in
  let user := activated requestAt (User.with_IsuCoin isuCoin user) in
  lift (txExec (touchUser requestAt userID));;+
  retS (user, loginBonuses, allPresents).

(** The masters active at a time that a user has no history row for. *)
Definition receivedAll (userID presentAllID : Z) (a : Annex) : bool :=
  existsb (λ r, (UserPresentAllReceivedHistory.UserID r =? userID)
                && (UserPresentAllReceivedHistory.PresentAllID r =? presentAllID))
          (user_present_all_received_history a).

Definition pendingPresentAll (userID requestAt : Z) (a : Annex) : list PresentAllMaster.t :=
  List.filter (λ np, negb (receivedAll userID (PresentAllMaster.ID np) a))
              (activePresentAll requestAt a).

(** The present and the history row made for a master. *)
Definition presentOf (userID requestAt : Z) (np : PresentAllMaster.t) (up : UserPresent.t)
  : Prop :=
  UserPresent.UserID up = userID ∧ UserPresent.SentAt up = requestAt ∧
  UserPresent.ItemType up = PresentAllMaster.ItemType np ∧
  UserPresent.ItemID up = PresentAllMaster.ItemID np ∧
  UserPresent.Amount up = PresentAllMaster.Amount np ∧
  UserPresent.PresentMessage up = PresentAllMaster.PresentMessage np ∧
  UserPresent.CreatedAt up = requestAt ∧ UserPresent.UpdatedAt up = requestAt ∧
  UserPresent.DeletedAt up = None.

Definition historyOf (userID requestAt : Z) (np : PresentAllMaster.t)
  (r : UserPresentAllReceivedHistory.t) : Prop :=
  UserPresentAllReceivedHistory.UserID r = userID ∧
  UserPresentAllReceivedHistory.PresentAllID r = PresentAllMaster.ID np ∧
  UserPresentAllReceivedHistory.ReceivedAt r = requestAt ∧
  UserPresentAllReceivedHistory.DeletedAt r = None.


(** ** A server with all its tables

    Bob's shard of the login-bonus scenario, with three presents for
    everybody (the third not yet open at time 50), the first of which Bob
    has received, inside the transaction opened on it. *)
Definition emptyAnnex : Annex := mkAnnex [] [] [] [] [] [].

Definition welcome (id startAt endAt amount : Z) : PresentAllMaster.t :=
  PresentAllMaster.mk id startAt endAt 1 1 amount "welcome" 0.

Definition bonusAnnex : Annex :=
  mkAnnex [] [] [] [UserPresentAllReceivedHistory.mk 1 bob 1 5 5 5 None]
    [welcome 1 0 100 10; welcome 2 0 100 20; welcome 3 200 300 30]
    [VersionMaster.mk 1 1 "v1"].

Definition bonusSystem : System := mkSystem bonusTx [bonusAnnex] bonusAnnex.

Definition bonusPresent := obtainPresent oneShard bob 50 bonusSystem.
Definition bonusLogin := loginProcess oneShard bob 50 bonusSystem.

(** ** The middlewares

    A middleware wraps the handler [next] of the route.  The headers and
    the path parameter are arguments: [sessID] is the [x-session] header,
    [masterVersion] the [x-master-version] header, [userID] what
    [getUserID] returned ([strconv.ParseInt] on the path parameter, an
    error on the routes that have none), and the request clock set by
    [apiMiddleware] is already given to [next]. *)

Definition StatusUnauthorized : Z := 401.
Definition StatusForbidden : Z := 403.

Definition ErrExpiredSession : error := Errorf "session expired".
Definition ErrUnauthorized : error := Errorf "unauthorized user".
Definition ErrForbidden : error := Errorf "forbidden".
Definition ErrInvalidMasterVersion : error := Errorf "invalid master version".
Definition ErrInvalidRequestBody : error := Errorf "invalid request body".

(** [db.Get] where the caller turns [sql.ErrNoRows] into a nil row. *)
Definition annexFind {A} (db : Host) (query : Annex → option A) : MS error (option A) :=
  lift storeCall;;+
  let+ s := getS in
  match annexes s !! db with
  | Some a => retS (query a)
  | None => throwS ErrStore
  end.

(** [SELECT * FROM user_bans WHERE user_id=?] *)
Definition selectBan (userID : Z) (a : Annex) : option UserBan.t :=
  List.find (λ b, UserBan.UserID b =? userID) (user_bans a).

Definition checkBan (h : Handler) (userID : Z) : MS error bool :=
  let+ db := lift (dbForUserID h userID) in
  let+ banUser := annexFind db (selectBan userID) in
  retS (negb (isNil banUser)).

(** [SELECT * FROM version_masters WHERE status=1] *)
Definition selectActiveVersion (a : Annex) : option VersionMaster.t :=
  List.find (λ v, VersionMaster.Status v =? 1) (version_masters a).

Definition apiMiddleware {A} (h : Handler) (next : MS (Response A) A)
  (masterVersion : string) (userID : result error Z) : MS (Response A) A :=
  let+ activeVersion :=
    orReturnS (annexGet (DB h) selectActiveVersion)
      (λ err, match err with
              | ErrNoRows => errorResponse StatusNotFound
                               (Errorf "active master version is not found")
              | _ => errorResponse StatusInternalServerError err
              end) in
  if negb (String.eqb (VersionMaster.MasterVersion activeVersion) masterVersion)
  then throwS (errorResponse StatusUnprocessableEntity ErrInvalidMasterVersion)
  else
    match userID with
    | Ok userID =>
        if negb (userID =? 0) then
          let+ isBan := orReturnS (checkBan h userID)
                          (errorResponse StatusInternalServerError) in
          if isBan then throwS (errorResponse StatusForbidden ErrForbidden)
          else retS tt
        else retS tt
    | Err _ => retS tt
    end;;+
    next.

(** [SELECT * FROM user_sessions WHERE session_id=? AND deleted_at IS NULL] *)
Definition selectSession (sessID : string) (a : Annex) : option Session.t :=
  List.find (λ k, String.eqb (Session.SessionID k) sessID && isNil (Session.DeletedAt k))
            (user_sessions a).

(** [UPDATE user_sessions SET deleted_at=? WHERE session_id=?] *)
Definition expireSession (requestAt : Z) (sessID : string) : Annex → Annex :=
  with_user_sessions
    (map (λ k, if String.eqb (Session.SessionID k) sessID
               then Session.with_deleted (Some requestAt) k else k)).

Definition checkSessionMiddleware {A} (h : Handler) (next : MS (Response A) A)
  (sessID : string) (userID : result error Z) (requestAt : Z) : MS (Response A) A :=
  if String.eqb sessID "" then throwS (errorResponse StatusUnauthorized ErrUnauthorized)
  else
    match userID with
    | Err err => throwS (errorResponse StatusBadRequest err)
    | Ok userID =>
        let+ db := orReturnS (lift (dbForUserID h userID))
                     (errorResponse StatusInternalServerError) in
        let+ userSession :=
          orReturnS (annexGet db (selectSession sessID))
            (λ err, match err with
                    | ErrNoRows => errorResponse StatusUnauthorized ErrUnauthorized
                    | _ => errorResponse StatusInternalServerError err
                    end) in
        if negb (Session.UserID userSession =? userID)
        then throwS (errorResponse StatusForbidden ErrForbidden)
        else if Session.ExpiredAt userSession <? requestAt then
          orReturnS (annexExec db (expireSession requestAt sessID))
            (errorResponse StatusInternalServerError);;+
          throwS (errorResponse StatusUnauthorized ErrExpiredSession)
        else next
    end.

(** ** login *)

Module LoginRequest.
Record t := mk { ViewerID : string; UserID : Z }.
End LoginRequest.

(** [LoginResponse] with the resources [makeUpdatedResources] is given;
    a nil slice is the empty list. *)
Module LoginResponse.
Record t := mk {
  ViewerID : string; SessionID : string; Now : Z; User : User.t;
    UserLoginBonuses : list UserLoginBonus.t; UserPresents : list UserPresent.t }.
End LoginResponse.

(** [isCompleteTodayLogin(time.Unix(lastActivatedAt, 0), time.Unix(requestAt,
    0))]; [date t] is the year, month and day of [time.Unix(t, 0)] in
    [time.Local]. *)
Definition isCompleteTodayLogin (date : Z → Z * Z * Z) (lastActivatedAt requestAt : Z)
  : bool :=
  let '(year1, month1, day1) := date lastActivatedAt in
  let '(year2, month2, day2) := date requestAt in
  (year1 =? year2) && (month1 =? month2) && (day1 =? day2).

(** [UPDATE user_sessions SET deleted_at=? WHERE user_id=? AND deleted_at
    IS NULL] *)
Definition revokeSessions (requestAt userID : Z) : Annex → Annex :=
  with_user_sessions
    (map (λ k, if (Session.UserID k =? userID) && isNil (Session.DeletedAt k)
               then Session.with_deleted (Some requestAt) k else k)).

Definition insertSession (sess : Session.t) : Annex → Annex :=
  with_user_sessions (λ rows, rows ++ [sess]).

(** The response to an error of [loginProcess]. *)
Definition loginError {A} (err : error) : Response A :=
  match err with
  | ErrUserNotFound | ErrItemNotFound | ErrLoginBonusRewardNotFound =>
      errorResponse StatusNotFound err
  | ErrInvalidItemType => errorResponse StatusBadRequest err
  | _ => errorResponse StatusInternalServerError err
  end.

(** [sessID] is the UUID drawn for the new session. *)
Definition login (date : Z → Z * Z * Z) (h : Handler) (requestAt : Z)
  (req : LoginRequest.t) (sessID : string) : MS (Response LoginResponse.t) LoginResponse.t :=
  let+ db := orReturnS (lift (dbForUserID h (LoginRequest.UserID req)))
               (errorResponse StatusInternalServerError) in
  let+ user :=
    orReturnS (lift (dbGet db (selectUser (LoginRequest.UserID req))))
      (λ err, match err with
              | ErrNoRows => errorResponse StatusNotFound ErrUserNotFound
              | _ => errorResponse StatusInternalServerError err
              end) in
  let+ isBan := orReturnS (checkBan h (User.ID user))
                  (errorResponse StatusInternalServerError) in
  if isBan then throwS (errorResponse StatusForbidden ErrForbidden)
  else
    orReturnS (lift (checkViewerID h (User.ID user) (LoginRequest.ViewerID req)))
      (λ err, match err with
              | ErrUserDeviceNotFound => errorResponse StatusNotFound err
              | _ => errorResponse StatusInternalServerError err
              end);;+
    orReturnS (BeginxS db) (errorResponse StatusInternalServerError);;+
    orReturnS (txAnnexExec (revokeSessions requestAt (LoginRequest.UserID req)))
      (errorResponse StatusInternalServerError);;+
    let+ sID := lift generateID in
    let sess := Session.mk sID (LoginRequest.UserID req) sessID (add64 requestAt 86400)
                  requestAt requestAt None in
    orReturnS (txAnnexExec (insertSession sess))
      (errorResponse StatusInternalServerError);;+
    if isCompleteTodayLogin date (User.LastActivatedAt user) requestAt then
      let user := activated requestAt user in
      orReturnS (lift (txExec (touchUser requestAt (LoginRequest.UserID req))))
        (errorResponse StatusInternalServerError);;+
      orReturnS (CommitS db) (errorResponse StatusInternalServerError);;+
      retS (LoginResponse.mk (LoginRequest.ViewerID req) (Session.SessionID sess)
              requestAt user [] [])
    else
      let+ processed := orReturnS (loginProcess h (LoginRequest.UserID req) requestAt)
                          loginError in
      let '(user, loginBonuses, presents) := processed in
      orReturnS (CommitS db) (errorResponse StatusInternalServerError);;+
      retS (LoginResponse.mk (LoginRequest.ViewerID req) (Session.SessionID sess)
              requestAt user loginBonuses presents).

(** ** createUser *)

Module CreateUserRequest.
Record t := mk { ViewerID : string; PlatformType : Z }.
End CreateUserRequest.

Module CreateUserResponse.
Record t := mk {
  UserID : Z; ViewerID : string; SessionID : string; CreatedAt : Z;
    User : User.t; UserDevice : UserDevice.t; UserCards : list UserCard.t;
    UserDecks : list UserDeck.t; UserLoginBonuses : list UserLoginBonus.t;
    UserPresents : list UserPresent.t }.
End CreateUserResponse.

Definition insertUser (user : User.t) : Database → Database :=
  with_users (λ rows, rows ++ [user]).

Definition insertDevice (userDevice : UserDevice.t) : Database → Database :=
  λ d, mkDatabase (users d) (user_devices d ++ [userDevice]) (user_cards d) (user_items d)
         (user_presents d) (user_login_bonuses d) (user_one_time_tokens d)
         (item_masters d) (gacha_masters d) (gacha_item_masters d)
         (login_bonus_masters d) (login_bonus_reward_masters d).

Definition insertDeck (deck : UserDeck.t) : Annex → Annex :=
  with_user_decks (λ rows, rows ++ [deck]).

(** [SELECT * FROM item_masters WHERE id=?] *)
Definition selectItemMasterByID (itemID : Z) (d : Database) : option ItemMaster.t :=
  List.find (λ m, ItemMaster.ID m =? itemID) (item_masters d).

(** The loop [for i := 0; i < 3; i++] that makes and inserts the initial
    cards; [*initCard.AmountPerSec] panics on a nil pointer. *)
Fixpoint insertInitCards (n : nat) (initCard : ItemMaster.t) (userID requestAt : Z)
  : M error (list UserCard.t) :=
  match n with
  | O => ret []
  | S n =>
      let* cID := generateID in
      match ItemMaster.AmountPerSec initCard with
      | None => throw Panic
      | Some amountPerSec =>
          let card := UserCard.mk cID userID (ItemMaster.ID initCard) amountPerSec 1 0
                        requestAt requestAt None in
          txExec (insertCards [card]);;
          let* initCards := insertInitCards n initCard userID requestAt in
          ret (card :: initCards)
      end
  end.

(** [initCards[i]]: an index out of range panics. *)
Definition cardAt (initCards : list UserCard.t) (i : nat) : M error UserCard.t :=
  match initCards !! i with
  | Some card => ret card
  | None => throw Panic
  end.

Definition createUser (h : Handler) (requestAt : Z) (req : CreateUserRequest.t)
  (sessID : string) : MS (Response CreateUserResponse.t) CreateUserResponse.t :=
  if String.eqb (CreateUserRequest.ViewerID req) ""
     || (CreateUserRequest.PlatformType req <? 1)
     || (3 <? CreateUserRequest.PlatformType req)
  then throwS (errorResponse StatusBadRequest ErrInvalidRequestBody)
  else
    let+ uID := lift generateID in
    let+ db := orReturnS (lift (dbForUserID h uID))
                 (errorResponse StatusInternalServerError) in
    orReturnS (BeginxS db) (errorResponse StatusInternalServerError);;+
    let user := User.mk uID 0 requestAt requestAt requestAt requestAt requestAt None in
    orReturnS (lift (txExec (insertUser user)))
      (errorResponse StatusInternalServerError);;+
    let+ udID := lift generateID in
    let userDevice := UserDevice.mk udID (User.ID user) (CreateUserRequest.ViewerID req)
                        (CreateUserRequest.PlatformType req) requestAt requestAt None in
    orReturnS (lift (txExec (insertDevice userDevice)))
      (errorResponse StatusInternalServerError);;+
    let+ initCard :=
      orReturnS (lift (txGet (selectItemMasterByID 2)))
        (λ err, match err with
                | ErrNoRows => errorResponse StatusNotFound ErrItemNotFound
                | _ => errorResponse StatusInternalServerError err
                end) in
    let+ initCards := orReturnS (lift (insertInitCards 3 initCard (User.ID user) requestAt))
                        (errorResponse StatusInternalServerError) in
    let+ deckID := lift generateID in
    let+ card1 := orReturnS (lift (cardAt initCards 0))
                    (errorResponse StatusInternalServerError) in
    let+ card2 := orReturnS (lift (cardAt initCards 1))
                    (errorResponse StatusInternalServerError) in
    let+ card3 := orReturnS (lift (cardAt initCards 2))
                    (errorResponse StatusInternalServerError) in
    let initDeck := UserDeck.mk deckID (User.ID user) (UserCard.ID card1) (UserCard.ID card2)
                      (UserCard.ID card3) requestAt requestAt None in
    orReturnS (txAnnexExec (insertDeck initDeck))
      (errorResponse StatusInternalServerError);;+
    let+ processed := orReturnS (loginProcess h (User.ID user) requestAt) loginError in
    let '(user, loginBonuses, presents) := processed in
    let+ sID := lift generateID in
    let sess := Session.mk sID (User.ID user) sessID (add64 requestAt 86400)
                  requestAt requestAt None in
    orReturnS (txAnnexExec (insertSession sess))
      (errorResponse StatusInternalServerError);;+
    orReturnS (CommitS db) (errorResponse StatusInternalServerError);;+
    retS (CreateUserResponse.mk (User.ID user) (CreateUserRequest.ViewerID req)
            (Session.SessionID sess) requestAt user userDevice initCards [initDeck]
            loginBonuses presents).

(** ** updateDeck, reward and home *)

Definition DeckCardNumber : nat := 3.

Module UpdateDeckRequest.
Record t := mk { ViewerID : string; CardIDs : list Z }.
End UpdateDeckRequest.

(** [SELECT * FROM user_cards WHERE id IN (?)] *)
Definition selectCardsByID (cardIDs : list Z) (d : Database) : list UserCard.t :=
  List.filter (λ c, inZ (UserCard.ID c) cardIDs) (user_cards d).

(** [UPDATE user_decks SET updated_at=?, deleted_at=? WHERE user_id=? AND
    deleted_at IS NULL] *)
Definition retireDecks (requestAt userID : Z) : Annex → Annex :=
  with_user_decks
    (map (λ k, if (UserDeck.UserID k =? userID) && isNil (UserDeck.DeletedAt k)
               then UserDeck.with_deleted requestAt (Some requestAt) k else k)).

(** [req.CardIDs[i]]: an index out of range panics. *)
Definition cardIDAt (cardIDs : list Z) (i : nat) : M error Z :=
  match cardIDs !! i with
  | Some cardID => ret cardID
  | None => throw Panic
  end.

Definition viewerError {A} (err : error) : Response A :=
  match err with
  | ErrUserDeviceNotFound => errorResponse StatusNotFound err
  | _ => errorResponse StatusInternalServerError err
  end.

Definition updateDeck (h : Handler) (userID requestAt : Z) (req : UpdateDeckRequest.t)
  : MS (Response UserDeck.t) UserDeck.t :=
  if negb (length (UpdateDeckRequest.CardIDs req) =? DeckCardNumber)%nat
  then throwS (errorResponse StatusBadRequest (Errorf "invalid number of cards"))
  else
    orReturnS (lift (checkViewerID h userID (UpdateDeckRequest.ViewerID req)))
      viewerError;;+
    let+ db := orReturnS (lift (dbForUserID h userID))
                 (errorResponse StatusInternalServerError) in
    let+ cards :=
      orReturnS (lift (dbSelect db (selectCardsByID (UpdateDeckRequest.CardIDs req))))
        (errorResponse StatusInternalServerError) in
    if negb (length cards =? DeckCardNumber)%nat
    then throwS (errorResponse StatusBadRequest (Errorf "invalid card ids"))
    else
      orReturnS (BeginxS db) (errorResponse StatusInternalServerError);;+
      orReturnS (txAnnexExec (retireDecks requestAt userID))
        (errorResponse StatusInternalServerError);;+
      let+ udID := lift generateID in
      let+ cardID1 := orReturnS (lift (cardIDAt (UpdateDeckRequest.CardIDs req) 0))
                        (errorResponse StatusInternalServerError) in
      let+ cardID2 := orReturnS (lift (cardIDAt (UpdateDeckRequest.CardIDs req) 1))
                        (errorResponse StatusInternalServerError) in
      let+ cardID3 := orReturnS (lift (cardIDAt (UpdateDeckRequest.CardIDs req) 2))
                        (errorResponse StatusInternalServerError) in
      let newDeck := UserDeck.mk udID userID cardID1 cardID2 cardID3
                       requestAt requestAt None in
      orReturnS (txAnnexExec (insertDeck newDeck))
        (errorResponse StatusInternalServerError);;+
      orReturnS (CommitS db) (errorResponse StatusInternalServerError);;+
      retS newDeck.

(** [SELECT * FROM user_decks WHERE user_id=? AND deleted_at IS NULL] *)
Definition selectDeck (userID : Z) (a : Annex) : option UserDeck.t :=
  List.find (λ k, (UserDeck.UserID k =? userID) && isNil (UserDeck.DeletedAt k))
            (user_decks a).

Definition deckCardIDs (deck : UserDeck.t) : list Z :=
  [UserDeck.CardID1 deck; UserDeck.CardID2 deck; UserDeck.CardID3 deck].

(** [UPDATE users SET isu_coin=?, last_getreward_at=? WHERE id=?] *)
Definition payReward (isuCoin lastGetRewardAt userID : Z) : Database → Database :=
  with_users
    (map (λ u, if User.ID u =? userID
               then User.mk (User.ID u) isuCoin lastGetRewardAt (User.LastActivatedAt u)
                      (User.RegisteredAt u) (User.CreatedAt u) (User.UpdatedAt u)
                      (User.DeletedAt u)
               else u)).

(** [cards[i]]: an index out of range panics. *)
Definition amountAt (cards : list UserCard.t) (i : nat) : M error Z :=
  match cards !! i with
  | Some card => ret (UserCard.AmountPerSec card)
  | None => throw Panic
  end.

Definition reward (h : Handler) (userID requestAt : Z) (viewerID : string)
  : MS (Response User.t) User.t :=
  orReturnS (lift (checkViewerID h userID viewerID)) viewerError;;+
  let+ db := orReturnS (lift (dbForUserID h userID))
               (errorResponse StatusInternalServerError) in
  let+ user :=
    orReturnS (lift (dbGet db (selectUser userID)))
      (λ err, match err with
              | ErrNoRows => errorResponse StatusNotFound ErrUserNotFound
              | _ => errorResponse StatusInternalServerError err
              end) in
  let+ deck :=
    orReturnS (annexGet db (selectDeck userID))
      (λ err, match err with
              | ErrNoRows => errorResponse StatusNotFound err
              | _ => errorResponse StatusInternalServerError err
              end) in
  let+ cards := orReturnS (lift (dbSelect db (selectCardsByID (deckCardIDs deck))))
                  (errorResponse StatusInternalServerError) in
  if negb (length cards =? 3)%nat
  then throwS (errorResponse StatusBadRequest (Errorf "invalid cards length"))
  else
    let pastTime := wrap64 (requestAt - User.LastGetRewardAt user) in
    let+ amount0 := orReturnS (lift (amountAt cards 0))
                      (errorResponse StatusInternalServerError) in
    let+ amount1 := orReturnS (lift (amountAt cards 1))
                      (errorResponse StatusInternalServerError) in
    let+ amount2 := orReturnS (lift (amountAt cards 2))
                      (errorResponse StatusInternalServerError) in
    let getCoin := wrap64 (pastTime * add64 (add64 amount0 amount1) amount2) in
    let user := User.mk (User.ID user) (add64 (User.IsuCoin user) getCoin) requestAt
                  (User.LastActivatedAt user) (User.RegisteredAt user)
                  (User.CreatedAt user) (User.UpdatedAt user) (User.DeletedAt user) in
    orReturnS (lift (dbExec db (payReward (User.IsuCoin user) (User.LastGetRewardAt user)
                                  (User.ID user))))
      (errorResponse StatusInternalServerError);;+
    retS user.

Module HomeResponse.
Record t := mk {
  Now : Z; User : User.t; Deck : option UserDeck.t; TotalAmountPerSec : Z;
    PastTime : Z }.
End HomeResponse.

(** [for _, v := range cards { totalAmountPerSec += v.AmountPerSec }] *)
Definition sumAmountPerSec (cards : list UserCard.t) : Z :=
  fold_left (λ totalAmountPerSec v, add64 totalAmountPerSec (UserCard.AmountPerSec v))
            cards 0.

Definition home (h : Handler) (userID requestAt : Z)
  : MS (Response HomeResponse.t) HomeResponse.t :=
  let+ db := orReturnS (lift (dbForUserID h userID))
               (errorResponse StatusInternalServerError) in
  let+ deck := orReturnS (annexFind db (selectDeck userID))
                 (errorResponse StatusInternalServerError) in
  let+ cards :=
    match deck with
    | Some deck =>
        orReturnS (lift (dbSelect db (selectCardsByID (deckCardIDs deck))))
          (errorResponse StatusInternalServerError)
    | None => retS []
    end in
  let totalAmountPerSec := sumAmountPerSec cards in
  let+ user :=
    orReturnS (lift (dbGet db (selectUser userID)))
      (λ err, match err with
              | ErrNoRows => errorResponse StatusNotFound ErrUserNotFound
              | _ => errorResponse StatusInternalServerError err
              end) in
  let pastTime := wrap64 (requestAt - User.LastGetRewardAt user) in
  retS (HomeResponse.mk requestAt user deck totalAmountPerSec pastTime).

(** ** What a request may change *)

(** The committed state: every table of every server. *)
Definition committed (s : System) : list Database * list Annex :=
  (servers (world s), annexes s).

Definition frameS {E A T} (proj : System → T) (m : MS E A) : Prop :=
  ∀ s, proj (snd (m s)) = proj s.

Definition rollsBackS {E A T} (proj : System → T) (m : MS E A) : Prop :=
  ∀ s e s', m s = (Err e, s') → proj s' = proj s.

Definition raisesS {E A} (X : E → Prop) (m : MS E A) : Prop :=
  ∀ s e s', m s = (Err e, s') → X e.

(** The state after one store round trip that changed nothing. *)
Definition afterCall (s : System) : System := with_world (with_storeCalls S) s.

(** The next store round trip goes through. *)
Definition storeAnswers (s : System) : Prop :=
  faults (world s) (storeCalls (world s)) = false.

(** A session a request of [userID] at [requestAt] is let in with: the
    first live row with that session id on the user's shard is the user's
    and has not expired. *)
Definition validSession (h : Handler) (sessID : string) (userID requestAt : Z)
  (s : System) : Prop :=
  sessID ≠ ""%string ∧
  ∃ db a sess,
    getDBForUserID h userID = Some db ∧ annexes s !! db = Some a ∧
    selectSession sessID a = Some sess ∧
    Session.UserID sess = userID ∧ requestAt ≤ Session.ExpiredAt sess.

(** What [apiMiddleware] asks of a request: the active master version is
    the one of the request, and the user named by the path, if there is
    one other than 0, has no ban row on their shard. *)
Definition cleared (h : Handler) (masterVersion : string) (userID : result error Z)
  (s : System) : Prop :=
  (∃ a v, annexes s !! DB h = Some a ∧ selectActiveVersion a = Some v ∧
          VersionMaster.MasterVersion v = masterVersion) ∧
  match userID with
  | Ok userID =>
      userID = 0 ∨
      ∃ db b, getDBForUserID h userID = Some db ∧ annexes s !! db = Some b ∧
              selectBan userID b = None
  | Err _ => True
  end.


(** Bob's shard with four cards, a deck of the first three, a session
    revoked at time 10 and a live one that expires at 1000, and a ban on
    user 5. *)
Definition deckCard (id amountPerSec : Z) : UserCard.t :=
  UserCard.mk id bob 2 amountPerSec 1 0 0 0 None.

Definition deckShard : Database :=
  mkDatabase [demoUser bob 0] [demoDevice bob "bob-phone"]
    [deckCard 11 1; deckCard 12 2; deckCard 13 3; deckCard 14 4] [] [] [] []
    [hammer] [] [] [] [].

Definition deckAnnex : Annex :=
  mkAnnex [UserDeck.mk 1 bob 11 12 13 0 0 None]
    [Session.mk 1 bob "sess-old" 500 0 0 (Some 10); Session.mk 2 bob "sess-b" 1000 0 0 None]
    [UserBan.mk 1 5 0 0 None] [] [] [VersionMaster.mk 1 1 "v1"].

Definition deckSystem : System := mkSystem (freshWorld [deckShard]) [deckAnnex] emptyAnnex.

(** The live decks of a user. *)
Definition liveDecks (userID : Z) (a : Annex) : list UserDeck.t :=
  List.filter (λ k, (UserDeck.UserID k =? userID) && isNil (UserDeck.DeletedAt k))
              (user_decks a).

(** The balance after a reward for the time since [lastGetRewardAt] at
    [amountPerSec] coins a second. *)
Definition rewarded (isuCoin lastGetRewardAt requestAt amountPerSec : Z) : Z :=
  add64 isuCoin (wrap64 (wrap64 (requestAt - lastGetRewardAt) * amountPerSec)).

(** Bob asks for the deck of his last three cards. *)
Definition deckRequest : UpdateDeckRequest.t :=
  UpdateDeckRequest.mk "bob-phone" [12; 13; 14].

(** The live sessions of a user, and the session [login] and [createUser]
    open. *)
Definition liveSessions (userID : Z) (a : Annex) : list Session.t :=
  List.filter (λ k, (Session.UserID k =? userID) && isNil (Session.DeletedAt k))
              (user_sessions a).

Definition newSession (sID userID : Z) (sessID : string) (requestAt : Z) : Session.t :=
  Session.mk sID userID sessID (add64 requestAt 86400) requestAt requestAt None.

(** Bob's shard of the login-bonus scenario, Bob having been active last
    on the day before, with one live session; and a calendar for the
    scenarios: the days since the epoch in the zone [main] sets (UTC+9),
    counted within one month. *)
Definition loginShard : Database :=
  with_users (λ _, [User.mk bob 0 0 (-86400) 0 0 0 None]) bonusShard.

Definition loginAnnex : Annex :=
  with_user_sessions (λ _, [Session.mk 1 bob "sess-old" 500 0 0 None]) bonusAnnex.

Definition loginSystem : System := mkSystem (freshWorld [loginShard]) [loginAnnex] emptyAnnex.

Definition bobLogin : LoginRequest.t := LoginRequest.mk "bob-phone" bob.

Definition localDate (t : Z) : Z * Z * Z := (1970, 1, 1 + (t + 32400) / 86400).

(** One of the three initial cards [createUser] makes from the item master
    [initCard]. *)
Definition initialCard (cID userID requestAt : Z) (initCard : ItemMaster.t)
  (amountPerSec : Z) : UserCard.t :=
  UserCard.mk cID userID (ItemMaster.ID initCard) amountPerSec 1 0 requestAt requestAt None.

(** A shard where a new player can sign up: the initial card (item master
    2) is there, along with the login bonus and the welcome presents. *)
Definition signupShard : Database :=
  mkDatabase [demoUser bob 0] [demoDevice bob "bob-phone"] [] [] [] [] [] [hammer] [] []
    (login_bonus_masters bonusShard) (login_bonus_reward_masters bonusShard).

Definition signupSystem : System :=
  mkSystem (freshWorld [signupShard]) [loginAnnex] emptyAnnex.

Definition carolSignup : CreateUserRequest.t := CreateUserRequest.mk "carol-phone" 1.

(** * Properties *)

(** ** Machine arithmetic *)

Lemma wrap64_id z : in_int64 z → wrap64 z = z.
Proof.
  unfold in_int64, wrap64. intros Hz.
  rewrite Z.mod_small; lia.
Qed.

Lemma wrap64_range z : in_int64 (wrap64 z).
Proof.
  unfold in_int64, wrap64.
  pose proof (Z.mod_pos_bound (z + 2 ^ 63) (2 ^ 64) ltac:(lia)). lia.
Qed.

(** ** The shard router *)

Lemma shardIndex_range userID n :
  0 ≤ userID → (1 ≤ n)%nat → 0 ≤ shardIndex userID n < Z.of_nat n.
Proof.
  intros Hu Hn. unfold shardIndex.
  apply Z.rem_bound_pos; [|lia].
  by apply Z.shiftr_nonneg.
Qed.

(** C7: for a non-negative user id and at least one shard, the router
    returns the pool at index [(userID >> 23) % N], which lies in [0, N);
    the result depends on the user id and the shard list only (no state is
    read, the fallback pool [DB] plays no part), and with a single shard the
    index is 0 for every user. *)
Theorem getDBForUserID_routes (h : Handler) (userID : Z) :
  0 ≤ userID → (1 ≤ length (DBs h))%nat →
  ∃ index : nat,
    (index < length (DBs h))%nat ∧
    Z.of_nat index = shardIndex userID (length (DBs h)) ∧
    getDBForUserID h userID = DBs h !! index ∧
    is_Some (DBs h !! index) ∧
    (∀ h', DBs h' = DBs h → getDBForUserID h' userID = getDBForUserID h userID) ∧
    (length (DBs h) = 1%nat → index = 0%nat).
Proof.
  intros Hu Hn.
  pose proof (shardIndex_range userID (length (DBs h)) Hu Hn) as Hr.
  assert (Hget : ∀ h', DBs h' = DBs h →
            getDBForUserID h' userID
            = DBs h !! Z.to_nat (shardIndex userID (length (DBs h)))).
  { intros h' Heq. unfold getDBForUserID. rewrite Heq.
    destruct (Nat.eqb_spec (length (DBs h)) 0); [lia|].
    destruct (Z.ltb_spec (shardIndex userID (length (DBs h))) 0); [lia|done]. }
  exists (Z.to_nat (shardIndex userID (length (DBs h)))).
  repeat split.
  - lia.
  - lia.
  - by apply Hget.
  - apply lookup_lt_is_Some. lia.
  - intros h' Heq. by rewrite (Hget h' Heq), (Hget h eq_refl).
  - intros H1. rewrite H1 in *. lia.
Qed.

Lemma getDBForUserID_routes_witness :
  ∃ index : nat,
    (index < 3)%nat ∧
    Z.of_nat index = shardIndex 33554437 3 ∧
    getDBForUserID {| DBs := [0; 1; 2]%nat; DB := 0%nat |} 33554437
    = [0; 1; 2]%nat !! index.
Proof.
  destruct (getDBForUserID_routes {| DBs := [0; 1; 2]%nat; DB := 0%nat |} 33554437)
    as (index & H1 & H2 & H3 & _); [lia | simpl; lia |].
  exists index. auto.
Defined.

(** ** The lottery *)

Lemma pickFrom_first boundary r items :
  boundary ≤ r →
  r < fold_left (λ s i, add64 s (GachaItemMaster.Weight i)) items boundary →
  ∃ pre v post,
    items = pre ++ v :: post ∧
    pickFrom boundary r items = Some v ∧
    r < fold_left (λ s i, add64 s (GachaItemMaster.Weight i)) (pre ++ [v]) boundary ∧
    ∀ pre', pre' `prefix_of` pre →
            fold_left (λ s i, add64 s (GachaItemMaster.Weight i)) pre' boundary ≤ r.
Proof.
  revert boundary. induction items as [|v items IH]; intros boundary Hle Hlt.
  - simpl in Hlt. lia.
  - simpl in Hlt. simpl.
    destruct (Z.ltb_spec r (add64 boundary (GachaItemMaster.Weight v))) as [Hsel|Hskip].
    + exists [], v, items. repeat split; auto.
      intros pre' Hpre. apply prefix_nil_inv in Hpre as ->. simpl. lia.
    + destruct (IH _ Hskip Hlt) as (pre & v' & post & -> & Hpick & Hv & Hpre).
      exists (v :: pre), v', post. repeat split; auto.
      intros pre' Hp. destruct pre' as [|x pre']; [simpl; lia|].
      apply prefix_cons_inv_1 in Hp as Hx. apply prefix_cons_inv_2 in Hp.
      subst x. simpl. by apply Hpre.
Qed.

Lemma lottery_draws n sum items w :
  0 < sum → sum = sumWeights items →
  (∀ i, (i < n)%nat → 0 ≤ random w (randCalls w + i) < sum) →
  ∃ result,
    lottery n sum items w = (Ok result, with_randCalls (λ c, (c + n)%nat) w) ∧
    length result = n ∧
    ∀ i, (i < n)%nat → result !! i = pick (random w (randCalls w + i)) items.
Proof.
  intros Hsum Heq. revert w. induction n as [|n IH]; intros w Hr.
  - exists []. repeat split; [|lia].
    simpl. unfold ret. f_equal. destruct w; unfold with_randCalls; simpl.
    by rewrite Nat.add_0_r.
  - destruct (IH (with_randCalls S w)) as (more & Hrun & Hlen & Hnth).
    { intros i Hi. pose proof (Hr (S i) ltac:(lia)) as Hi'.
      destruct w; simpl in *.
      by replace (S (randCalls0 + i))%nat with (randCalls0 + S i)%nat by lia. }
    pose proof (Hr 0%nat ltac:(lia)) as H0. rewrite Nat.add_0_r in H0.
    destruct (pickFrom_first 0 (random w (randCalls w)) items) as
      (pre & v & post & _ & Hpick & _); [lia| unfold sumWeights in Heq; lia |].
    exists (v :: more). repeat split.
    + simpl. unfold bind, Int63n.
      destruct (Z.leb_spec sum 0); [lia|].
      rewrite Hrun. unfold pick. rewrite Hpick. unfold ret. f_equal.
      destruct w; unfold with_randCalls; simpl. f_equal. lia.
    + simpl. lia.
    + intros [|i] Hi.
      * simpl. rewrite Nat.add_0_r. unfold pick. by rewrite Hpick.
      * simpl. rewrite Hnth by lia. destruct w; simpl.
        by replace (S (randCalls0 + i))%nat with (randCalls0 + S i)%nat by lia.
Qed.

(** C6: on a pool of positive total weight, a draw of [gachaCount] ∈ {1, 10}
    whose samples all lie in [0, weightSum) returns exactly [gachaCount]
    items, and the i-th of them is the first item, in catalogue order, whose
    cumulative weight boundary strictly exceeds the i-th sample: every
    boundary before it is at most the sample. *)
Theorem lottery_first_exceeding (gachaItemList : list GachaItemMaster.t)
  (gachaCount : Z) (w : World) :
  0 < sumWeights gachaItemList →
  gachaCount = 1 ∨ gachaCount = 10 →
  (∀ i, (i < Z.to_nat gachaCount)%nat →
        0 ≤ random w (randCalls w + i) < sumWeights gachaItemList) →
  ∃ result w',
    lottery (Z.to_nat gachaCount) (sumWeights gachaItemList) gachaItemList w = (Ok result, w') ∧
    Z.of_nat (length result) = gachaCount ∧
    ∀ i, (i < Z.to_nat gachaCount)%nat →
      ∃ pre v post,
        gachaItemList = pre ++ v :: post ∧
        result !! i = Some v ∧
        random w (randCalls w + i) < sumWeights (pre ++ [v]) ∧
        ∀ pre', pre' `prefix_of` pre → sumWeights pre' ≤ random w (randCalls w + i).
Proof.
  intros Hsum Hcount Hr.
  destruct (lottery_draws (Z.to_nat gachaCount) _ gachaItemList w Hsum eq_refl Hr)
    as (result & Hrun & Hlen & Hnth).
  exists result, (with_randCalls (λ c, (c + Z.to_nat gachaCount)%nat) w).
  repeat split; [done | lia |].
  intros i Hi. specialize (Hr i Hi).
  destruct (pickFrom_first 0 (random w (randCalls w + i)) gachaItemList)
    as (pre & v & post & Heq & Hpick & Hv & Hpre); [lia | unfold sumWeights in Hr; lia |].
  exists pre, v, post. repeat split; auto.
  rewrite Hnth by done. done.
Qed.

Lemma lottery_first_exceeding_witness :
  ∃ result w',
    lottery (Z.to_nat 10) (sumWeights demoGachaItems) demoGachaItems (freshWorld [shard0])
    = (Ok result, w') ∧
    Z.of_nat (length result) = 10 ∧
    ∀ i, (i < Z.to_nat 10)%nat →
      ∃ pre v post,
        demoGachaItems = pre ++ v :: post ∧
        result !! i = Some v ∧
        random (freshWorld [shard0]) (randCalls (freshWorld [shard0]) + i)
        < sumWeights (pre ++ [v]) ∧
        ∀ pre', pre' `prefix_of` pre →
                sumWeights pre'
                ≤ random (freshWorld [shard0]) (randCalls (freshWorld [shard0]) + i).
Proof.
  apply (lottery_first_exceeding demoGachaItems 10 (freshWorld [shard0])).
  - reflexivity.
  - right. reflexivity.
  - intros i Hi. vm_compute. split; [discriminate | reflexivity].
Defined.

(** The pool of weights 1 and 3: a sample of 0 selects the first item, the
    samples 1, 2 and 3 the second. *)
Example pick_by_weight :
  map (λ r, GachaItemMaster.ID <$> pick r demoGachaItems) [0; 1; 2; 3]
  = [Some 1; Some 2; Some 2; Some 2].
Proof. reflexivity. Qed.

(** ** Reasoning about monadic code *)

Section Frame.
Context {T} (proj : World → T).

Lemma frame_ret {E A} (a : A) : frame proj (@ret E A a).
Proof. by intros w. Qed.

Lemma frame_throw {E A} (e : E) : frame proj (@throw E A e).
Proof. by intros w. Qed.

Lemma frame_get {E} : frame proj (@get E).
Proof. by intros w. Qed.

Lemma frame_bind {E A B} (m : M E A) (k : A → M E B) :
  frame proj m → (∀ a, frame proj (k a)) → frame proj (bind m k).
Proof.
  intros Hm Hk w. unfold bind. specialize (Hm w).
  destruct (m w) as [[a|e] w1]; simpl in *; [|done].
  specialize (Hk a w1). unfold sameOn in *. congruence.
Qed.

Lemma frame_orReturn {E E' A} (m : M E A) (f : E → E') :
  frame proj m → frame proj (orReturn m f).
Proof.
  intros Hm w. unfold orReturn. specialize (Hm w).
  by destruct (m w) as [[a|e] w1].
Qed.

Lemma frame_ignoreErr {E E' A} (m : M E A) :
  frame proj m → frame proj (@ignoreErr E E' A m).
Proof. intros Hm w. apply Hm. Qed.

Lemma frame_modify {E} (f : World → World) :
  (∀ w, proj (f w) = proj w) → frame proj (@modify E f).
Proof. intros Hf w. apply Hf. Qed.

Lemma frame_respond {A} (m : M (Response A) A) w :
  frame proj m → proj (snd (respond m w)) = proj w.
Proof.
  intros Hm. specialize (Hm w). unfold respond.
  by destruct (m w) as [[a|e] w1].
Qed.

End Frame.

(** Inversion of a run that returned normally. *)
Lemma bind_Ok {E A B} (m : M E A) (k : A → M E B) w b w' :
  bind m k w = (Ok b, w') → ∃ a w1, m w = (Ok a, w1) ∧ k a w1 = (Ok b, w').
Proof.
  unfold bind. destruct (m w) as [[a|e] w1]; [eauto | discriminate].
Qed.

Lemma orReturn_Ok {E E' A} (m : M E A) (f : E → E') w a w' :
  orReturn m f w = (Ok a, w') → m w = (Ok a, w').
Proof.
  unfold orReturn. destruct (m w) as [[a'|e] w1]; [congruence | discriminate].
Qed.

Lemma storeCall_Ok w u w' :
  storeCall w = (Ok u, w') → faults w (storeCalls w) = false ∧ w' = with_storeCalls S w.
Proof.
  unfold storeCall. destruct (faults w (storeCalls w)); [discriminate|].
  intros [= _ <-]. done.
Qed.

Lemma txExec_Ok stmt w u w' :
  txExec stmt w = (Ok u, w') → w' = with_tx stmt (with_storeCalls S w).
Proof.
  unfold txExec. intros (? & w1 & H1 & H2)%bind_Ok.
  apply storeCall_Ok in H1 as [_ ->]. by injection H2 as <-.
Qed.

Lemma txSelect_Ok {A} (query : Database → list A) w rows w' :
  txSelect query w = (Ok rows, w') → w' = with_storeCalls S w ∧ rows = query (tx w).
Proof.
  unfold txSelect. intros (? & w1 & H1 & H2)%bind_Ok.
  apply storeCall_Ok in H1 as [_ ->]. by injection H2 as <- <-.
Qed.

Ltac frame_steps :=
  repeat first
    [ apply frame_bind; [|intros ?]
    | apply frame_ret
    | apply frame_throw
    | apply frame_get
    | apply frame_orReturn
    | apply frame_ignoreErr
    | (apply frame_modify; intros ?; reflexivity)
    | match goal with
      | |- frame _ (if ?b then _ else _) => destruct b
      | |- frame _ (match ?x with _ => _ end) => destruct x
      end ].

(** What the store primitives leave alone. *)
Section FrameStore.
Context {T} (proj : World → T).
Context (Hcalls : ∀ f w, proj (with_storeCalls f w) = proj w).

Lemma frame_storeCall : frame proj storeCall.
Proof.
  intros w. unfold storeCall, sameOn.
  destruct (faults w (storeCalls w)); simpl; apply Hcalls.
Qed.

Lemma frame_txSelect {A} (query : Database → list A) : frame proj (txSelect query).
Proof. unfold txSelect. apply frame_bind; [apply frame_storeCall|]. intros. frame_steps. Qed.

Lemma frame_txFind {A} (query : Database → option A) : frame proj (txFind query).
Proof. unfold txFind. apply frame_bind; [apply frame_storeCall|]. intros. frame_steps. Qed.

Lemma frame_txGet {A} (query : Database → option A) : frame proj (txGet query).
Proof. unfold txGet. apply frame_bind; [apply frame_storeCall|]. intros. frame_steps. Qed.

Lemma frame_txExec stmt :
  (∀ w, proj (with_tx stmt w) = proj w) → frame proj (txExec stmt).
Proof.
  intros Hstmt. unfold txExec. apply frame_bind; [apply frame_storeCall|].
  intros. apply frame_modify. intros w. apply Hstmt.
Qed.

Lemma frame_dbSelect {A} db (query : Database → list A) : frame proj (dbSelect db query).
Proof. unfold dbSelect. apply frame_bind; [apply frame_storeCall|]. intros. frame_steps. Qed.

Lemma frame_dbGet {A} db (query : Database → option A) : frame proj (dbGet db query).
Proof. unfold dbGet. apply frame_bind; [apply frame_storeCall|]. intros. frame_steps. Qed.

End FrameStore.

(** Runs of the pool primitives when the round trip does not fail. *)
Lemma dbExec_run db stmt w d :
  faults w (storeCalls w) = false → servers w !! db = Some d →
  dbExec db stmt w
  = (Ok tt, with_servers (λ l, <[db := stmt d]> l) (with_storeCalls S w)).
Proof.
  intros Hf Hd. unfold dbExec, bind, storeCall. rewrite Hf. simpl.
  by rewrite Hd.
Qed.

Lemma dbGet_run {A} db (query : Database → option A) w d :
  faults w (storeCalls w) = false → servers w !! db = Some d →
  dbGet db query w
  = (match query d with Some row => Ok row | None => Err ErrNoRows end,
     with_storeCalls S w).
Proof.
  intros Hf Hd. unfold dbGet, bind, storeCall. rewrite Hf. simpl.
  rewrite Hd. by destruct (query d).
Qed.

Lemma dbSelect_run {A} db (query : Database → list A) w d :
  faults w (storeCalls w) = false → servers w !! db = Some d →
  dbSelect db query w = (Ok (query d), with_storeCalls S w).
Proof.
  intros Hf Hd. unfold dbSelect, bind, storeCall. rewrite Hf. simpl.
  by rewrite Hd.
Qed.

Lemma dbForUserID_run h userID db w :
  getDBForUserID h userID = Some db → dbForUserID h userID w = (Ok db, w).
Proof. unfold dbForUserID. by intros ->. Qed.

(** ** One-time tokens *)

Lemma selectToken_expireToken requestAt token tokenType d :
  selectToken token tokenType (expireToken requestAt token d) = None.
Proof.
  unfold selectToken, expireToken. destruct d as [? ? ? ? ? ? tokens ? ? ? ? ?]. simpl.
  induction tokens as [|k tokens IH]; [done|]. simpl.
  destruct (String.eqb (UserOneTimeToken.Token k) token) eqn:Hk; simpl.
  - by rewrite Hk, andb_false_r.
  - by rewrite Hk.
Qed.

(** A successful check spends the token on the shard of the caller. *)
Lemma checkOneTimeToken_spends h userID token tokenType requestAt db w w' :
  getDBForUserID h userID = Some db →
  checkOneTimeToken h userID token tokenType requestAt w = (Ok tt, w') →
  spent token db w'.
Proof.
  intros Hdb. unfold checkOneTimeToken, bind, GetToken, get, ret, dbForUserID.
  rewrite Hdb. simpl.
  assert (Hexec : ∀ w0 w1, TokenCache w0 !! token = None →
            dbExec db (expireToken requestAt token) w0 = (Ok tt, w1) → spent token db w1).
  { intros w0 w1 Hc. unfold dbExec, bind, storeCall, get, ret, throw, modify.
    destruct (faults w0 (storeCalls w0)); [discriminate|]. simpl.
    destruct (servers w0 !! db) as [d|] eqn:Hd; [|discriminate].
    intros [= <-]. split; [done|]. simpl. intros d' ty.
    rewrite list_lookup_insert_eq by (by eapply lookup_lt_Some).
    intros [= <-]. apply selectToken_expireToken. }
  destruct (TokenCache w !! token) as [info|] eqn:Hc.
  - destruct (TokenInfo.TokenType info =? tokenType); simpl; [|discriminate].
    destruct (TokenInfo.ExpiredAt info <? requestAt); simpl.
    + unfold DeleteToken, modify, ignoreErr, throw. simpl. discriminate.
    + unfold DeleteToken, modify. simpl. apply Hexec. simpl. apply lookup_delete_eq.
  - unfold orReturn.
    destruct (dbGet db (selectToken token tokenType) w) as [[tk|e] w1] eqn:Hget; [|discriminate].
    assert (TokenCache w1 !! token = None) as Hc1.
    { pose proof (frame_dbGet TokenCache (λ _ _, eq_refl) db
                    (selectToken token tokenType) w) as Hfr.
      rewrite Hget in Hfr. unfold sameOn in Hfr. simpl in Hfr. congruence. }
    destruct (UserOneTimeToken.ExpiredAt tk <? requestAt).
    + destruct (dbExec db (expireToken requestAt token) w1) as [[?|?] ?]; discriminate.
    + by apply Hexec.
Qed.

(** A check of a spent token fails, and the token stays spent. *)
Lemma checkOneTimeToken_spent_fails h userID token tokenType requestAt db w :
  getDBForUserID h userID = Some db →
  spent token db w →
  (fst (checkOneTimeToken h userID token tokenType requestAt w) = Err ErrInvalidToken ∨
   fst (checkOneTimeToken h userID token tokenType requestAt w) = Err ErrStore) ∧
  (faults w (storeCalls w) = false → is_Some (servers w !! db) →
   fst (checkOneTimeToken h userID token tokenType requestAt w) = Err ErrInvalidToken) ∧
  spent token db (snd (checkOneTimeToken h userID token tokenType requestAt w)).
Proof.
  intros Hdb [Hc Hrows].
  unfold checkOneTimeToken, bind, GetToken, get, ret, dbForUserID.
  rewrite Hdb. simpl. rewrite Hc.
  unfold orReturn, dbGet, bind, storeCall, get, ret, throw.
  assert (Hkeep : spent token db (with_storeCalls S w)) by (by split).
  destruct (faults w (storeCalls w)); simpl.
  { split; [by right|]. by split. }
  destruct (servers w !! db) as [d|] eqn:Hd; simpl.
  - rewrite (Hrows d tokenType eq_refl). simpl.
    split; [by left|]. by split.
  - split; [by right|]. split; [by intros _ [? ?]|done].
Qed.

(** A cached token presented under another kind is refused and nothing is
    touched. *)
Lemma checkOneTimeToken_wrong_kind h userID token tokenType requestAt info w :
  TokenCache w !! token = Some info →
  TokenInfo.TokenType info ≠ tokenType →
  checkOneTimeToken h userID token tokenType requestAt w = (Err ErrInvalidToken, w).
Proof.
  intros Hc Hk. unfold checkOneTimeToken, bind, GetToken, get, ret.
  simpl. rewrite Hc. by destruct (Z.eqb_spec (TokenInfo.TokenType info) tokenType).
Qed.

(** C5, the defect: a token issued by [listGacha] to Alice (routed to shard
    1, while the row is written through the unsharded pool on server 0) is
    consumed by Alice through the cache; the row on server 0 stays live, and
    the same token string presented by Bob (routed to shard 0) is accepted a
    second time. *)
Theorem token_replayed_across_shards :
  let issued := listGacha twoShards alice 10 "tok-a" (freshWorld [shard0; shard1]) in
  let first := checkOneTimeToken twoShards alice "tok-a" 1 20 (snd issued) in
  let second := checkOneTimeToken twoShards bob "tok-a" 1 30 (snd first) in
  (∃ gachas, fst issued = successResponse ("tok-a"%string, gachas)) ∧
  fst first = Ok tt ∧
  fst second = Ok tt.
Proof.
  split; [|split].
  - eexists. vm_compute. reflexivity.
  - vm_compute. reflexivity.
  - vm_compute. reflexivity.
Qed.

(** ** drawGacha: the balance check *)

Lemma checkOneTimeToken_run h userID token tokenType requestAt db d w :
  (∀ n, faults w n = false) →
  getDBForUserID h userID = Some db → servers w !! db = Some d →
  usableToken token tokenType requestAt d w →
  ∃ n, checkOneTimeToken h userID token tokenType requestAt w
       = (Ok tt,
          with_servers (λ l, <[db := expireToken requestAt token d]> l)
            (with_storeCalls (λ c, (n + c)%nat)
               (with_TokenCache (λ tokens, delete token tokens) w))).
Proof.
  intros Hf Hdb Hd Hok. unfold usableToken in Hok.
  unfold checkOneTimeToken, bind, GetToken, get, ret. simpl.
  destruct (TokenCache w !! token) as [info|] eqn:Hc.
  - destruct Hok as [Hty Hexp].
    destruct (Z.eqb_spec (TokenInfo.TokenType info) tokenType); [|done]. simpl.
    destruct (Z.ltb_spec (TokenInfo.ExpiredAt info) requestAt); [lia|].
    unfold DeleteToken, modify. simpl.
    rewrite (dbForUserID_run _ _ _ _ Hdb).
    erewrite dbExec_run; [|apply Hf|exact Hd].
    by exists 1%nat.
  - destruct Hok as (tk & Htk & Hexp).
    rewrite (dbForUserID_run _ _ _ _ Hdb).
    unfold orReturn. erewrite dbGet_run; [|apply Hf|exact Hd].
    rewrite Htk.
    destruct (Z.ltb_spec (UserOneTimeToken.ExpiredAt tk) requestAt); [lia|].
    erewrite dbExec_run; [|apply Hf|exact Hd].
    exists 2%nat. unfold with_servers, with_storeCalls, with_TokenCache. simpl.
    by rewrite delete_id.
Qed.

Lemma selectDevice_expireToken userID viewerID requestAt token d :
  selectDevice userID viewerID (expireToken requestAt token d) = selectDevice userID viewerID d.
Proof. by destruct d. Qed.

Lemma selectUser_expireToken userID requestAt token d :
  selectUser userID (expireToken requestAt token d) = selectUser userID d.
Proof. by destruct d. Qed.

Lemma eraseTokens_expireToken requestAt token d :
  eraseTokens (expireToken requestAt token d) = eraseTokens d.
Proof. by destruct d. Qed.

Lemma eraseTokens_insert db d d' (l : list Database) :
  l !! db = Some d → eraseTokens d' = eraseTokens d →
  map eraseTokens (<[db := d']> l) = map eraseTokens l.
Proof.
  intros Hd He. rewrite list_fmap_insert, He.
  apply list_insert_id. by rewrite list_lookup_fmap, Hd.
Qed.

(** C2, as the code has it: a draw by a user whose balance is below
    [gachaCount] × 1000, made with a usable token from a registered device
    while the store answers, is rejected with Conflict.  By then the token
    has been consumed: its rows on the user's shard are marked deleted and
    its cache entry is gone.  That is the only write: every other table of
    every server, the open transaction, the master cache and the id
    generator are as before. *)
Theorem drawGacha_conflict_consumes_token (h : Handler)
  (userID gachaID gachaCount requestAt : Z) (req : DrawGachaRequest.t) (w : World)
  (db : Host) (d : Database) (user : User.t) :
  gachaCount = 1 ∨ gachaCount = 10 →
  (∀ n, faults w n = false) →
  getDBForUserID h userID = Some db →
  servers w !! db = Some d →
  usableToken (DrawGachaRequest.OneTimeToken req) 1 requestAt d w →
  is_Some (selectDevice userID (DrawGachaRequest.ViewerID req) d) →
  selectUser userID d = Some user →
  User.IsuCoin user < gachaCount * 1000 →
  ∃ w',
    drawGacha h userID gachaID gachaCount requestAt req w
    = (errorResponse StatusConflict (Errorf "not enough isucon"), w') ∧
    servers w'
    = <[db := expireToken requestAt (DrawGachaRequest.OneTimeToken req) d]> (servers w) ∧
    map eraseTokens (servers w') = map eraseTokens (servers w) ∧
    TokenCache w' = delete (DrawGachaRequest.OneTimeToken req) (TokenCache w) ∧
    tx w' = tx w ∧ Cache w' = Cache w ∧ snowflakeNode w' = snowflakeNode w.
Proof.
  intros Hcount Hf Hdb Hd Htok [dev Hdev] Huser Hcoin.
  destruct (checkOneTimeToken_run h userID (DrawGachaRequest.OneTimeToken req) 1
              requestAt db d w Hf Hdb Hd Htok) as (n & Hcheck).
  set (d1 := expireToken requestAt (DrawGachaRequest.OneTimeToken req) d).
  assert (Hd1 : ∀ w0 : World, servers w0 = <[db := d1]> (servers w) →
                              servers w0 !! db = Some d1).
  { intros w0 ->. apply list_lookup_insert_eq. by eapply lookup_lt_Some. }
  eexists. split.
  - unfold drawGacha, respond.
    assert (negb (gachaCount =? 1) && negb (gachaCount =? 10) = false) as ->.
    { destruct Hcount as [-> | ->]; reflexivity. }
    unfold bind at 1. unfold orReturn at 1. rewrite Hcheck.
    unfold bind at 1. unfold orReturn at 1.
    unfold checkViewerID. unfold bind at 1.
    rewrite (dbForUserID_run _ _ _ _ Hdb).
    unfold bind at 1. unfold orReturn at 1.
    erewrite dbGet_run; [|apply Hf|by apply Hd1].
    unfold d1 at 1. rewrite selectDevice_expireToken, Hdev.
    unfold ret at 1.
    unfold bind at 1. unfold orReturn at 1. unfold bind at 1.
    rewrite (dbForUserID_run _ _ _ _ Hdb).
    erewrite dbGet_run; [|apply Hf|by apply Hd1].
    unfold d1 at 1. rewrite selectUser_expireToken, Huser.
    assert ((User.IsuCoin user <? wrap64 (gachaCount * 1000)) = true) as ->.
    { apply Z.ltb_lt. rewrite wrap64_id; [done|]. unfold in_int64. lia. }
    unfold throw. reflexivity.
  - simpl. repeat split; try reflexivity.
    eapply eraseTokens_insert; [exact Hd|]. apply eraseTokens_expireToken.
Qed.

Lemma drawGacha_conflict_consumes_token_witness :
  ∃ w',
    drawGacha oneShard bob 1 10 20 bobDraws bobWithToken
    = (errorResponse StatusConflict (Errorf "not enough isucon"), w') ∧
    map eraseTokens (servers w') = map eraseTokens (servers bobWithToken) ∧
    TokenCache w' = delete "tok-b" (TokenCache bobWithToken).
Proof.
  destruct (drawGacha_conflict_consumes_token oneShard bob 1 10 20 bobDraws bobWithToken
              0%nat
              (insertToken (UserOneTimeToken.mk 1000 bob "tok-b" 1 610 10 10 None)
                 (expireTokensOf 10 bob shard0))
              (demoUser bob 5000))
    as (w' & H1 & _ & H2 & H3 & _).
  - by right.
  - intros n. reflexivity.
  - reflexivity.
  - reflexivity.
  - vm_compute. split; [reflexivity | discriminate].
  - eexists. reflexivity.
  - reflexivity.
  - vm_compute. reflexivity.
  - exists w'. auto.
Defined.

(** C2, as stated, fails: with balance 5000 and ten draws the request is
    rejected with Conflict, yet the store has been written by then (the
    token row is marked deleted). *)
Lemma drawGacha_conflict_after_store_write :
  fst (drawGacha oneShard bob 1 10 20 bobDraws bobWithToken)
  = errorResponse StatusConflict (Errorf "not enough isucon") ∧
  selectUser bob shard0 = Some (demoUser bob 5000) ∧
  servers (snd (drawGacha oneShard bob 1 10 20 bobDraws bobWithToken))
  ≠ servers bobWithToken.
Proof.
  split; [|split].
  - vm_compute. reflexivity.
  - reflexivity.
  - vm_compute. discriminate.
Qed.

(** ** Frames and errors of the store primitives, automated *)

Section Raises.
Context {E : Type} (X : E → Prop).

Lemma raises_ret {A} (a : A) : raises X (@ret E A a).
Proof. intros w e w'. discriminate. Qed.

Lemma raises_throw {A} (e : E) : X e → raises X (@throw E A e).
Proof. intros He w e' w' [= <- _]. done. Qed.

Lemma raises_get : raises X (@get E).
Proof. intros w e w'. discriminate. Qed.

Lemma raises_modify f : raises X (@modify E f).
Proof. intros w e w'. discriminate. Qed.

Lemma raises_generateID : raises X (@generateID E).
Proof. intros w e w'. discriminate. Qed.

Lemma raises_bind {A B} (m : M E A) (k : A → M E B) :
  raises X m → (∀ a, raises X (k a)) → raises X (bind m k).
Proof.
  intros Hm Hk w e w'. unfold bind.
  destruct (m w) as [[a|e0] w1] eqn:Hmw.
  - apply Hk.
  - intros [= <- _]. by eapply Hm.
Qed.

Lemma raises_orReturn {E0 A} (Y : E0 → Prop) (m : M E0 A) (f : E0 → E) :
  raises Y m → (∀ e, Y e → X (f e)) → raises X (orReturn m f).
Proof.
  intros Hm Hf w e w'. unfold orReturn.
  destruct (m w) as [[a|e0] w1] eqn:Hmw; [discriminate|].
  intros [= <- _]. apply Hf. by eapply Hm.
Qed.

End Raises.

Lemma raises_weaken {E A} (X Y : E → Prop) (m : M E A) :
  raises X m → (∀ e, X e → Y e) → raises Y m.
Proof. intros Hm HXY w e w' Hr. apply HXY. by eapply Hm. Qed.

Lemma raises_storeCall (X : error → Prop) : X ErrStore → raises X storeCall.
Proof.
  intros HX w e w'. unfold storeCall.
  destruct (faults w (storeCalls w)); [|discriminate]. by intros [= <- _].
Qed.

Create HintDb frame_db.
Create HintDb raises_db.

Ltac frame_auto :=
  repeat first
    [ apply frame_bind; [|intros ?]
    | apply frame_ret
    | apply frame_throw
    | apply frame_get
    | apply frame_orReturn
    | apply frame_ignoreErr
    | (apply frame_modify; intros ?; reflexivity)
    | (apply frame_storeCall; intros ? ?; reflexivity)
    | (apply frame_txSelect; intros ? ?; reflexivity)
    | (apply frame_txFind; intros ? ?; reflexivity)
    | (apply frame_txGet; intros ? ?; reflexivity)
    | (apply frame_txExec; [intros ? ?; reflexivity | intros ?; reflexivity])
    | (apply frame_dbSelect; intros ? ?; reflexivity)
    | (apply frame_dbGet; intros ? ?; reflexivity)
    | solve [eauto with frame_db]
    | match goal with
      | |- frame _ (if ?b then _ else _) => destruct b
      | |- frame _ (match ?x with _ => _ end) => destruct x
      end
    | (intros ?; reflexivity) ].

Ltac raises_auto :=
  repeat first
    [ apply raises_bind; [|intros ?]
    | apply raises_ret
    | apply raises_get
    | apply raises_modify
    | apply raises_generateID
    | (apply raises_throw; first [solve [auto] | solve [hnf; auto]])
    | (apply raises_storeCall; first [solve [auto] | solve [hnf; auto]])
    | solve [eauto with raises_db]
    | match goal with
      | |- raises _ (if ?b then _ else _) => destruct b
      | |- raises _ (match ?x with _ => _ end) => destruct x
      end ].

(** ** The batch grant *)

Lemma fold_groupPresent presents coinTotal cardItems materialItems :
  ∃ materialItems',
    fold_left groupPresent presents (coinTotal, cardItems, materialItems)
    = (fold_left add64 (map UserPresent.Amount (List.filter isCoin presents)) coinTotal,
       cardItems ++ List.filter isCard presents,
       materialItems') ∧
    ∀ itemID,
      materialItems' !! itemID
      = match materialEntries itemID presents with
        | [] => materialItems !! itemID
        | entries =>
            Some (fold_left add64 (map UserPresent.Amount entries)
                    (default 0 (materialItems !! itemID)))
        end.
Proof.
  revert coinTotal cardItems materialItems.
  induction presents as [|p presents IH]; intros coinTotal cardItems materialItems.
  - exists materialItems. simpl. by rewrite app_nil_r.
  - simpl. unfold isCoin, isCard, isMaterial.
    destruct (Z.eqb_spec (UserPresent.ItemType p) 1) as [H1|H1].
    { destruct (Z.eqb_spec (UserPresent.ItemType p) 2); [lia|].
      destruct (Z.eqb_spec (UserPresent.ItemType p) 3); [lia|].
      destruct (Z.eqb_spec (UserPresent.ItemType p) 4); [lia|]. simpl.
      apply IH. }
    destruct (Z.eqb_spec (UserPresent.ItemType p) 2) as [H2|H2].
    { destruct (Z.eqb_spec (UserPresent.ItemType p) 3); [lia|].
      destruct (Z.eqb_spec (UserPresent.ItemType p) 4); [lia|]. simpl.
      destruct (IH coinTotal (cardItems ++ [p]) materialItems) as (m' & Hf & Hm').
      exists m'. split; [|done]. rewrite Hf. by rewrite <- app_assoc. }
    destruct ((UserPresent.ItemType p =? 3) || (UserPresent.ItemType p =? 4)) eqn:H34;
      simpl; [|apply IH].
    destruct (IH coinTotal cardItems
                (<[UserPresent.ItemID p :=
                     add64 (default 0 (materialItems !! UserPresent.ItemID p))
                       (UserPresent.Amount p)]> materialItems))
      as (m' & Hf & Hm').
    exists m'. split; [done|].
    intros k. rewrite Hm'.
    destruct (Z.eqb_spec (UserPresent.ItemID p) k) as [->|Hk]; simpl.
    + rewrite lookup_insert_eq. simpl. by destruct (materialEntries k presents).
    + by rewrite lookup_insert_ne.
Qed.

Lemma groupPresents_spec presents :
  ∃ materialItems,
    groupPresents presents = (coinTotalOf presents, List.filter isCard presents, materialItems) ∧
    ∀ itemID, materialItems !! itemID = materialTotal itemID presents.
Proof.
  destruct (fold_groupPresent presents 0 [] ∅) as (m & Hfold & Hm).
  exists m. split; [done|].
  intros k. rewrite Hm. unfold materialTotal.
  destruct (materialEntries k presents); [apply lookup_empty | done].
Qed.

(** Entries of an unknown kind fall through the first loop. *)
Lemma groupPresents_knownKind presents :
  groupPresents (List.filter knownKind presents) = groupPresents presents.
Proof.
  unfold groupPresents. generalize (0, @nil UserPresent.t, (∅ : gmap Z Z)).
  induction presents as [|p presents IH]; intros acc; [done|]. simpl.
  destruct (knownKind p) eqn:Hk; simpl; [apply IH|].
  rewrite IH. f_equal.
  unfold knownKind, isCoin, isCard, isMaterial in Hk.
  unfold groupPresent. destruct acc as [[c cs] m].
  destruct (UserPresent.ItemType p =? 1); [done|].
  destruct (UserPresent.ItemType p =? 2); [done|].
  by destruct ((UserPresent.ItemType p =? 3) || (UserPresent.ItemType p =? 4)).
Qed.

(** *** What the grant leaves alone, and how it fails *)

Lemma frame_weaken {E A T1 T2} (proj1 : World → T1) (proj2 : World → T2) (m : M E A) :
  (∀ w w', proj1 w' = proj1 w → proj2 w' = proj2 w) →
  frame proj1 m → frame proj2 m.
Proof. intros H12 Hm w. apply H12, Hm. Qed.

Lemma loopFootprint_grantFootprint w w' :
  loopFootprint w' = loopFootprint w → grantFootprint w' = grantFootprint w.
Proof.
  unfold loopFootprint, grantFootprint.
  intros [= Hs Ht Hc Hf Hn Hr Hrc Hro]. by rewrite Hs, Ht, Hc, Hf, Hr, Hrc, Hro.
Qed.

Lemma frame_cacheCardMasters itemMasters masterMap :
  frame loopFootprint (cacheCardMasters itemMasters masterMap).
Proof.
  revert masterMap. induction itemMasters as [|m l IH]; intros masterMap; simpl.
  - frame_auto.
  - apply frame_bind; [frame_auto | intros; apply IH].
Qed.

Lemma frame_expandCard n userID requestAt master :
  frame loopFootprint (expandCard n userID requestAt master).
Proof.
  induction n as [|n IH]; simpl.
  - frame_auto.
  - apply frame_bind; [frame_auto|]. intros cID.
    destruct (ItemMaster.AmountPerSec master); [|frame_auto].
    apply frame_bind; [apply IH | intros; frame_auto].
Qed.

Lemma frame_buildCardInserts cardItems masterMap userID requestAt :
  frame loopFootprint (buildCardInserts cardItems masterMap userID requestAt).
Proof.
  induction cardItems as [|item l IH]; simpl.
  - frame_auto.
  - destruct (masterMap !! UserPresent.ItemID item); [|frame_auto].
    apply frame_bind; [apply frame_expandCard|]. intros.
    apply frame_bind; [apply IH | intros; frame_auto].
Qed.

Lemma frame_splitMaterials materials masterMap existingMap userID requestAt :
  frame loopFootprint (splitMaterials materials masterMap existingMap userID requestAt).
Proof.
  induction materials as [|[itemID amount] l IH]; simpl.
  - frame_auto.
  - destruct (masterMap !! itemID); [|frame_auto].
    destruct (existingMap !! itemID).
    + apply frame_bind; [apply IH | intros; frame_auto].
    + apply frame_bind; [frame_auto|]. intros.
      apply frame_bind; [apply IH | intros; frame_auto].
Qed.

Lemma frame_grant_cacheCardMasters itemMasters masterMap :
  frame grantFootprint (cacheCardMasters itemMasters masterMap).
Proof.
  eapply frame_weaken; [apply loopFootprint_grantFootprint | apply frame_cacheCardMasters].
Qed.

Lemma frame_grant_buildCardInserts cardItems masterMap userID requestAt :
  frame grantFootprint (buildCardInserts cardItems masterMap userID requestAt).
Proof.
  eapply frame_weaken; [apply loopFootprint_grantFootprint | apply frame_buildCardInserts].
Qed.

Lemma frame_grant_splitMaterials materials masterMap existingMap userID requestAt :
  frame grantFootprint (splitMaterials materials masterMap existingMap userID requestAt).
Proof.
  eapply frame_weaken; [apply loopFootprint_grantFootprint | apply frame_splitMaterials].
Qed.

#[export] Hint Resolve frame_grant_cacheCardMasters frame_grant_buildCardInserts
  frame_grant_splitMaterials : frame_db.

Lemma frame_obtainItemsBatch h presents userID requestAt :
  frame grantFootprint (obtainItemsBatch h presents userID requestAt).
Proof.
  unfold obtainItemsBatch, grantCoins, grantCards, grantMaterials.
  destruct (groupPresents presents) as [[coinTotal cardItems] materialItems].
  frame_auto.
Qed.

Lemma raises_txSelect {A} (query : Database → list A) : raises grantError (txSelect query).
Proof. unfold txSelect, grantError. raises_auto. Qed.

Lemma raises_txExec stmt : raises grantError (txExec stmt).
Proof. unfold txExec, grantError. raises_auto. Qed.

Lemma raises_cacheCardMasters itemMasters masterMap :
  raises grantError (cacheCardMasters itemMasters masterMap).
Proof.
  revert masterMap. induction itemMasters as [|m l IH]; intros masterMap; simpl.
  - raises_auto.
  - apply raises_bind; [unfold SetItemMaster; raises_auto | intros; apply IH].
Qed.

Lemma raises_expandCard n userID requestAt master :
  raises grantError (expandCard n userID requestAt master).
Proof.
  unfold grantError. induction n as [|n IH]; simpl.
  - raises_auto.
  - apply raises_bind; [raises_auto|]. intros cID.
    destruct (ItemMaster.AmountPerSec master); [|raises_auto].
    apply raises_bind; [apply IH | intros; raises_auto].
Qed.

Lemma raises_buildCardInserts cardItems masterMap userID requestAt :
  raises grantError (buildCardInserts cardItems masterMap userID requestAt).
Proof.
  induction cardItems as [|item l IH]; simpl.
  - raises_auto.
  - destruct (masterMap !! UserPresent.ItemID item); [|unfold grantError; raises_auto].
    apply raises_bind; [apply raises_expandCard|]. intros.
    apply raises_bind; [apply IH | intros; raises_auto].
Qed.

Lemma raises_splitMaterials materials masterMap existingMap userID requestAt :
  raises grantError (splitMaterials materials masterMap existingMap userID requestAt).
Proof.
  induction materials as [|[itemID amount] l IH]; simpl.
  - raises_auto.
  - destruct (masterMap !! itemID); [|unfold grantError; raises_auto].
    destruct (existingMap !! itemID).
    + apply raises_bind; [apply IH | intros; raises_auto].
    + apply raises_bind; [raises_auto|]. intros.
      apply raises_bind; [apply IH | intros; raises_auto].
Qed.

#[export] Hint Resolve raises_txSelect raises_txExec raises_cacheCardMasters
  raises_buildCardInserts raises_splitMaterials : raises_db.

(** A batch grant never fails with [ErrInvalidItemType]. *)
Lemma raises_obtainItemsBatch h presents userID requestAt :
  raises grantError (obtainItemsBatch h presents userID requestAt).
Proof.
  unfold obtainItemsBatch, grantCoins, grantCards, grantMaterials.
  destruct (groupPresents presents) as [[coinTotal cardItems] materialItems].
  raises_auto.
Qed.

(** *** A grant that returned normally *)

Lemma run_frame {E A T} (proj : World → T) (m : M E A) w r w' :
  frame proj m → m w = (r, w') → proj w' = proj w.
Proof. intros Hm Hr. specialize (Hm w). by rewrite Hr in Hm. Qed.

Lemma loop_tx {E A} (m : M E A) w r w' :
  frame loopFootprint m → m w = (r, w') →
  tx w' = tx w ∧ servers w' = servers w ∧ rangeOrder w' = rangeOrder w.
Proof.
  intros Hm Hr. apply (run_frame _ _ _ _ _ Hm) in Hr.
  unfold loopFootprint in Hr. by injection Hr as -> -> _ _ _ _ _ ->.
Qed.

Lemma expandCard_Ok n userID requestAt master w cards w' :
  expandCard n userID requestAt master w = (Ok cards, w') →
  length cards = n ∧ Forall (freshCard userID requestAt (ItemMaster.ID master)) cards.
Proof.
  revert w cards w'. induction n as [|n IH]; intros w cards w'; simpl.
  - intros [= <- _]. by split.
  - intros (cID & w1 & _ & Hrest)%bind_Ok.
    destruct (ItemMaster.AmountPerSec master) as [aps|]; [|discriminate].
    apply bind_Ok in Hrest as (more & w2 & Hmore & Hret).
    injection Hret as <- _. apply IH in Hmore as [Hlen Hall].
    split; [simpl; lia|]. constructor; [|done]. by repeat split.
Qed.

Lemma buildCardInserts_Ok cardItems masterMap userID requestAt w cards w' :
  keyed masterMap →
  buildCardInserts cardItems masterMap userID requestAt w = (Ok cards, w') →
  cardsFor userID requestAt cardItems cards.
Proof.
  intros Hkeyed. revert w cards w'.
  induction cardItems as [|item l IH]; intros w cards w'; simpl.
  - intros [= <- _]. exists []. by split.
  - destruct (masterMap !! UserPresent.ItemID item) as [master|] eqn:Hm; [|discriminate].
    intros (chunk & w1 & Hchunk & Hrest)%bind_Ok.
    apply bind_Ok in Hrest as (more & w2 & Hmore & Hret).
    injection Hret as <- _.
    apply expandCard_Ok in Hchunk as [Hlen Hall].
    apply IH in Hmore as (chunks & -> & Hchunks).
    exists (chunk :: chunks). split; [done|].
    constructor; [|done]. split; [done|].
    by rewrite <- (Hkeyed _ _ Hm).
Qed.

Lemma lookupCardMasters_keyed cached cardItems :
  keyed cached → keyed (fst (lookupCardMasters cached cardItems)).
Proof.
  intros Hc. unfold lookupCardMasters.
  assert (Hgen : ∀ acc : gmap Z ItemMaster.t * list Z, keyed (fst acc) →
            keyed (fst (fold_left
              (λ '(masterMap, missingCardIDs) item,
                 match cached !! UserPresent.ItemID item with
                 | Some cachedMaster =>
                     (<[UserPresent.ItemID item := cachedMaster]> masterMap, missingCardIDs)
                 | None => (masterMap, missingCardIDs ++ [UserPresent.ItemID item])
                 end) cardItems acc))).
  { induction cardItems as [|item l IH]; intros [mm miss] Hacc; [done|]. simpl.
    apply IH. destruct (cached !! UserPresent.ItemID item) as [cm|] eqn:Hcm; [|done].
    simpl. intros k m. destruct (decide (UserPresent.ItemID item = k)) as [<-|Hk].
    - rewrite lookup_insert_eq. intros [= <-]. by apply Hc.
    - rewrite lookup_insert_ne by done. apply Hacc. }
  apply Hgen. simpl. intros k m. by rewrite lookup_empty.
Qed.

Lemma cacheCardMasters_Ok itemMasters masterMap w masterMap' w' :
  keyed masterMap →
  cacheCardMasters itemMasters masterMap w = (Ok masterMap', w') → keyed masterMap'.
Proof.
  revert masterMap w. induction itemMasters as [|m l IH]; intros masterMap w Hk; simpl.
  - by intros [= <- _].
  - intros (? & w1 & _ & Hrest)%bind_Ok. eapply IH; [|exact Hrest].
    intros k m'. destruct (decide (ItemMaster.ID m = k)) as [<-|Hne].
    + rewrite lookup_insert_eq. by intros [= <-].
    + rewrite lookup_insert_ne by done. apply Hk.
Qed.

Lemma insertCards_nil d : insertCards [] d = d.
Proof. destruct d. unfold insertCards, with_user_cards. simpl. by rewrite app_nil_r. Qed.

Lemma insertItems_nil d : insertItems [] d = d.
Proof. destruct d. unfold insertItems, with_user_items. simpl. by rewrite app_nil_r. Qed.

Lemma updateItems_nil d : updateItems [] d = d.
Proof. destruct d. unfold updateItems, with_user_items. simpl. by rewrite map_id. Qed.

Lemma grantCoins_Ok coinTotal userID w w' :
  grantCoins coinTotal userID w = (Ok tt, w') →
  tx w' = (if 0 <? coinTotal then addIsuCoin coinTotal userID (tx w) else tx w) ∧
  servers w' = servers w ∧ rangeOrder w' = rangeOrder w ∧ Cache w' = Cache w.
Proof.
  unfold grantCoins. destruct (0 <? coinTotal).
  - intros ->%txExec_Ok. done.
  - by intros [= <-].
Qed.

Lemma grantCards_Ok cardItems userID requestAt w w' :
  cacheKeyed w →
  grantCards cardItems userID requestAt w = (Ok tt, w') →
  ∃ cardInserts,
    tx w' = insertCards cardInserts (tx w) ∧
    cardsFor userID requestAt cardItems cardInserts ∧
    servers w' = servers w ∧ rangeOrder w' = rangeOrder w.
Proof.
  intros Hcache. unfold grantCards.
  destruct cardItems as [|item0 rest] eqn:Hitems.
  { simpl. intros [= <-]. exists []. rewrite insertCards_nil.
    repeat split; try done. exists []. by split. }
  assert (Hpos : (0 <? length cardItems)%nat = true)
    by (apply Nat.ltb_lt; subst; simpl; lia).
  rewrite <- Hitems. clear Hitems. rewrite Hpos.
  intros (w0 & w1 & [= <- <-] & Hrun)%bind_Ok.
  pose proof (lookupCardMasters_keyed (itemMasters (Cache w)) cardItems Hcache) as Hk0.
  destruct (lookupCardMasters (itemMasters (Cache w)) cardItems) as [masterMap missing].
  simpl in Hk0.
  apply bind_Ok in Hrun as (masterMap' & w2 & Hmasters & Hrun).
  apply bind_Ok in Hrun as (cards & w3 & Hbuild & Hins).
  assert (keyed masterMap' ∧ tx w2 = tx w ∧ servers w2 = servers w
          ∧ rangeOrder w2 = rangeOrder w) as (Hk' & Htx2 & Hs2 & Hr2).
  { destruct (0 <? length missing)%nat.
    - apply bind_Ok in Hmasters as (rows & w1' & [-> _]%txSelect_Ok & Hcache').
      split; [by eapply cacheCardMasters_Ok|].
      by apply (loop_tx _ _ _ _ (frame_cacheCardMasters _ _)) in Hcache'.
    - by injection Hmasters as <- <-. }
  pose proof (buildCardInserts_Ok _ _ _ _ _ _ _ Hk' Hbuild) as Hcards.
  apply (loop_tx _ _ _ _ (frame_buildCardInserts _ _ _ _)) in Hbuild as (Htx3 & Hs3 & Hr3).
  exists cards. destruct (0 <? length cards)%nat eqn:Hlen.
  - apply txExec_Ok in Hins as ->. simpl. rewrite Htx3, Htx2, Hs3, Hs2, Hr3, Hr2. done.
  - injection Hins as <-. apply Nat.ltb_ge in Hlen.
    destruct cards; [|simpl in Hlen; lia].
    rewrite insertCards_nil, Htx3, Htx2, Hs3, Hs2, Hr3, Hr2. done.
Qed.

Lemma splitMaterials_Ok materials masterMap existingMap userID requestAt w split w' :
  splitMaterials materials masterMap existingMap userID requestAt w = (Ok split, w') →
  fst split
  = omap (λ m, mergedItem requestAt (snd m) <$> existingMap !! fst m) materials ∧
  Forall2 (freshItem userID requestAt) (snd split)
    (List.filter (λ m, isNil (existingMap !! fst m)) materials).
Proof.
  revert w split w'.
  induction materials as [|[itemID amount] l IH]; intros w split w'; simpl.
  - intros [= <- _]. by split.
  - destruct (masterMap !! itemID) as [master|]; [|discriminate].
    destruct (existingMap !! itemID) as [existingItem|] eqn:He; simpl.
    + intros (more & w1 & Hmore & [= <- _])%bind_Ok.
      apply IH in Hmore as [Hupd Hins]. simpl. by rewrite Hupd.
    + intros (uitemID & w1 & _ & Hrest)%bind_Ok.
      apply bind_Ok in Hrest as (more & w2 & Hmore & [= <- _]).
      apply IH in Hmore as [Hupd Hins]. simpl. split; [done|].
      constructor; [|done]. by repeat split.
Qed.

Lemma grantMaterials_Ok materialItems userID requestAt w w' :
  rangesOnce w →
  grantMaterials materialItems userID requestAt w = (Ok tt, w') →
  let materials := rangeOrder w (map_to_list materialItems) in
  let existingMap := indexUserItems (selectUserItems userID (map fst materials) (tx w)) in
  ∃ inserts,
    tx w'
    = insertItems inserts
        (updateItems
           (omap (λ m, mergedItem requestAt (snd m) <$> existingMap !! fst m) materials)
           (tx w)) ∧
    Forall2 (freshItem userID requestAt) inserts
      (List.filter (λ m, isNil (existingMap !! fst m)) materials) ∧
    servers w' = servers w.
Proof.
  intros Horder. cbv zeta. unfold grantMaterials.
  destruct (0 <? size materialItems)%nat eqn:Hsize.
  - intros (w0 & w1 & [= <- <-] & Hrun)%bind_Ok.
    apply bind_Ok in Hrun as (existingItems & w2 & [-> ->]%txSelect_Ok & Hrun).
    apply bind_Ok in Hrun as (masters & w3 & [-> ->]%txSelect_Ok & Hrun).
    apply bind_Ok in Hrun as (split & w4 & Hsplit & Hrun).
    apply bind_Ok in Hrun as (? & w5 & Hupd & Hins).
    pose proof (splitMaterials_Ok _ _ _ _ _ _ _ _ Hsplit) as [Hu Hi].
    apply (loop_tx _ _ _ _ (frame_splitMaterials _ _ _ _ _)) in Hsplit as (Htx4 & Hs4 & _).
    simpl in *. exists (snd split).
    assert (tx w5 = updateItems (fst split) (tx w) ∧ servers w5 = servers w) as [Htx5 Hs5].
    { destruct (0 <? length (fst split))%nat eqn:Hlen.
      - apply txExec_Ok in Hupd as ->. simpl. by rewrite Htx4, Hs4.
      - assert (w5 = w4) as -> by (by injection Hupd). apply Nat.ltb_ge in Hlen.
        destruct (fst split); [|simpl in Hlen; lia].
        by rewrite updateItems_nil. }
    rewrite <- Hu. split; [|split; [done|]].
    + destruct (0 <? length (snd split))%nat eqn:Hlen.
      * apply txExec_Ok in Hins as ->. simpl. by rewrite Htx5.
      * assert (w' = w5) as -> by (by injection Hins). apply Nat.ltb_ge in Hlen.
        destruct (snd split); [|simpl in Hlen; lia].
        by rewrite insertItems_nil.
    + destruct (0 <? length (snd split))%nat.
      * apply txExec_Ok in Hins as ->. done.
      * by assert (w' = w5) as -> by (by injection Hins).
  - intros [= <-]. apply Nat.ltb_ge in Hsize.
    assert (materialItems = ∅) as -> by (apply map_size_empty_inv; lia).
    rewrite map_to_list_empty.
    assert (rangeOrder w [] = []) as -> by (apply Permutation_nil_r, Horder).
    exists []. simpl.
    by rewrite updateItems_nil, insertItems_nil.
Qed.

Lemma user_items_grant d coinTotal userID cards :
  user_items (insertCards cards (if 0 <? coinTotal then addIsuCoin coinTotal userID d else d))
  = user_items d.
Proof. by destruct (0 <? coinTotal). Qed.

(** A batch that returned normally has applied its three sections: the
    coin total (when positive), the cards of every card entry, and for
    every material item id either the merge into the existing row or the
    insert of a new one. *)
Lemma obtainItemsBatch_Ok h presents userID requestAt w w' :
  rangesOnce w → cacheKeyed w →
  obtainItemsBatch h presents userID requestAt w = (Ok tt, w') →
  ∃ materialItems cardInserts inserts,
    (∀ itemID, materialItems !! itemID = materialTotal itemID presents) ∧
    let materials := rangeOrder w (map_to_list materialItems) in
    let existingMap := indexUserItems (selectUserItems userID (map fst materials) (tx w)) in
    let coinTotal := coinTotalOf presents in
    tx w'
    = insertItems inserts
        (updateItems
           (omap (λ m, mergedItem requestAt (snd m) <$> existingMap !! fst m) materials)
           (insertCards cardInserts
              (if 0 <? coinTotal then addIsuCoin coinTotal userID (tx w) else tx w))) ∧
    cardsFor userID requestAt (List.filter isCard presents) cardInserts ∧
    Forall2 (freshItem userID requestAt) inserts
      (List.filter (λ m, isNil (existingMap !! fst m)) materials) ∧
    servers w' = servers w.
Proof.
  intros Horder Hcache. cbv zeta. unfold obtainItemsBatch.
  destruct (groupPresents_spec presents) as (materialItems & -> & Htotal).
  intros (? & w1 & Hcoins & Hrun)%bind_Ok.
  apply bind_Ok in Hrun as (? & w2 & Hcards & Hmats).
  destruct x, x0.
  apply grantCoins_Ok in Hcoins as (Htx1 & Hs1 & Hr1 & Hc1).
  apply grantCards_Ok in Hcards as (cards & Htx2 & Hcards & Hs2 & Hr2);
    [|unfold cacheKeyed; by rewrite Hc1].
  apply grantMaterials_Ok in Hmats as (inserts & Htx3 & Hins & Hs3);
    [|unfold rangesOnce; by rewrite Hr2, Hr1].
  exists materialItems, cards, inserts. split; [done|]. simpl.
  rewrite Hr2, Hr1, Htx2, Htx1 in Htx3, Hins.
  unfold selectUserItems in Htx3, Hins. rewrite user_items_grant in Htx3, Hins.
  repeat split; try done. congruence.
Qed.

(** ** receivePresent *)

Lemma respond_step {E A B} (m : M E A) (f : E → Response B) (k : A → M (Response B) B) w :
  respond (bind (orReturn m f) k) w
  = match m w with
    | (Ok a, w1) => respond (k a) w1
    | (Err e, w1) => (f e, w1)
    end.
Proof. unfold respond, bind, orReturn. by destruct (m w) as [[a|e] w1]. Qed.

Lemma stampReceived_unreceived requestAt presents w :
  Forall (λ p, UserPresent.DeletedAt p = None) presents →
  stampReceived requestAt presents w
  = (Ok (map (UserPresent.with_deleted requestAt (Some requestAt)) presents), w).
Proof.
  induction 1 as [|p l Hp Hl IH]; [done|]. simpl.
  rewrite Hp. simpl. unfold bind. by rewrite IH.
Qed.

Lemma selectUnreceived_unreceived presentIDs d :
  Forall (λ p, UserPresent.DeletedAt p = None) (selectUnreceived presentIDs d).
Proof.
  unfold selectUnreceived. apply Forall_forall. intros p Hp.
  apply list_elem_of_In, filter_In in Hp as [_ Hp].
  apply andb_true_iff in Hp as [_ Hp]. by destruct (UserPresent.DeletedAt p).
Qed.

Lemma Commit_servers db w r w' :
  Commit db w = (r, w') →
  match r with
  | Ok _ => servers w' = <[db := tx w]> (servers w)
  | Err _ => servers w' = servers w
  end.
Proof.
  unfold Commit, bind, storeCall, get, modify, ret.
  destruct (faults w (storeCalls w)); intros [= <- <-]; done.
Qed.

Lemma frame_checkViewerID {T} (proj : World → T) h userID viewerID :
  (∀ f w, proj (with_storeCalls f w) = proj w) →
  frame proj (checkViewerID h userID viewerID).
Proof.
  intros Hc. unfold checkViewerID, dbForUserID.
  apply frame_bind; [destruct (getDBForUserID h userID); frame_auto|]. intros db.
  apply frame_bind; [|intros; frame_auto].
  apply frame_orReturn. by apply frame_dbGet.
Qed.

Lemma frame_Beginx {T} (proj : World → T) db :
  (∀ f w, proj (with_storeCalls f w) = proj w) →
  (∀ f w, proj (with_tx f w) = proj w) →
  frame proj (Beginx db).
Proof.
  intros Hc Ht. unfold Beginx.
  apply frame_bind; [by apply frame_storeCall|]. intros.
  apply frame_bind; [frame_auto|]. intros w.
  destruct (servers w !! db); [|frame_auto].
  apply frame_modify. intros. apply Ht.
Qed.

Lemma Beginx_Ok db w u w' :
  Beginx db w = (Ok u, w') →
  ∃ d, servers w !! db = Some d ∧ w' = with_tx (λ _, d) (with_storeCalls S w).
Proof.
  unfold Beginx. intros (? & w1 & [_ ->]%storeCall_Ok & Hrest)%bind_Ok.
  apply bind_Ok in Hrest as (w2 & w3 & [= <- <-] & Hrest). simpl in Hrest.
  destruct (servers w !! db) as [d|]; [|discriminate].
  injection Hrest as <-. eauto.
Qed.

Lemma dbSelect_Ok {A} db (query : Database → list A) w rows w' :
  dbSelect db query w = (Ok rows, w') →
  ∃ d, servers w !! db = Some d ∧ rows = query d ∧ w' = with_storeCalls S w.
Proof.
  unfold dbSelect. intros (? & w1 & [_ ->]%storeCall_Ok & Hrest)%bind_Ok.
  apply bind_Ok in Hrest as (w2 & w3 & [= <- <-] & Hrest). simpl in Hrest.
  destruct (servers w !! db) as [d|]; [|discriminate].
  injection Hrest as <- <-. eauto.
Qed.

Lemma run_raises {E A} (X : E → Prop) (m : M E A) w e w' :
  raises X m → m w = (Err e, w') → X e.
Proof. intros Hm Hr. by eapply Hm. Qed.

Lemma plainError_store : plainError ErrStore.
Proof. by intros msg. Qed.

Lemma raises_plain_dbSelect {A} db (query : Database → list A) :
  raises plainError (dbSelect db query).
Proof.
  unfold dbSelect. apply raises_bind; [apply raises_storeCall, plainError_store|].
  intros. apply raises_bind; [apply raises_get|]. intros w.
  destruct (servers w !! db); [apply raises_ret | apply raises_throw, plainError_store].
Qed.

Lemma raises_plain_dbGet {A} db (query : Database → option A) :
  raises plainError (dbGet db query).
Proof.
  unfold dbGet. apply raises_bind; [apply raises_storeCall, plainError_store|].
  intros. apply raises_bind; [apply raises_get|]. intros w.
  destruct (servers w !! db); [|apply raises_throw, plainError_store].
  destruct (query d); [apply raises_ret | by apply raises_throw].
Qed.

Lemma raises_plain_checkViewerID h userID viewerID :
  raises plainError (checkViewerID h userID viewerID).
Proof.
  unfold checkViewerID, dbForUserID.
  apply raises_bind.
  { destruct (getDBForUserID h userID); [apply raises_ret | by apply raises_throw]. }
  intros db. apply raises_bind; [|intros; apply raises_ret].
  eapply raises_orReturn; [apply raises_plain_dbGet|].
  intros e He. by destruct e.
Qed.

Lemma raises_plain_Beginx db : raises plainError (Beginx db).
Proof.
  unfold Beginx. apply raises_bind; [apply raises_storeCall, plainError_store|].
  intros. apply raises_bind; [apply raises_get|]. intros w.
  destruct (servers w !! db); [apply raises_modify | apply raises_throw, plainError_store].
Qed.

Lemma raises_plain_txExec stmt : raises plainError (txExec stmt).
Proof.
  unfold txExec. apply raises_bind; [apply raises_storeCall, plainError_store|].
  intros. apply raises_modify.
Qed.

Lemma raises_plain_Commit db : raises plainError (Commit db).
Proof.
  unfold Commit. apply raises_bind; [apply raises_storeCall, plainError_store|].
  intros. apply raises_bind; [apply raises_get | intros; apply raises_modify].
Qed.

Lemma raises_plain_obtainItemsBatch h presents userID requestAt :
  raises plainError (obtainItemsBatch h presents userID requestAt).
Proof.
  eapply raises_weaken; [apply raises_obtainItemsBatch|].
  intros e [-> | [-> | ->]] msg; discriminate.
Qed.

(** The three ways a receive request ends: an error response with every
    server as it was; nothing to receive; or the grant of the loaded
    presents, committed on the user's shard. *)
Lemma receivePresent_outcome h userID requestAt req w :
  let r := receivePresent h userID requestAt req w in
  (∃ code e, fst r = errorResponse code e ∧ e ≠ Errorf "received present" ∧
             servers (snd r) = servers w) ∨
  (∃ db d,
      getDBForUserID h userID = Some db ∧ servers w !! db = Some d ∧
      let loaded := selectUnreceived (ReceivePresentRequest.PresentIDs req) d in
      let granted := map (UserPresent.with_deleted requestAt (Some requestAt)) loaded in
      fst r = successResponse granted ∧
      ((loaded = [] ∧ servers (snd r) = servers w) ∨
       (loaded ≠ [] ∧
        ∃ w1 w2,
          tx w1 = markReceived requestAt (map UserPresent.ID granted) d ∧
          rangeOrder w1 = rangeOrder w ∧ Cache w1 = Cache w ∧
          obtainItemsBatch h granted userID requestAt w1 = (Ok tt, w2) ∧
          servers (snd r) = <[db := tx w2]> (servers w)))).
Proof.
  intros r. assert (Hr : r = receivePresent h userID requestAt req w) by done.
  clearbody r. unfold receivePresent in Hr.
  destruct (length (ReceivePresentRequest.PresentIDs req) =? 0)%nat.
  { left. subst r. simpl. eexists _, _. by repeat split. }
  rewrite respond_step in Hr.
  destruct (checkViewerID h userID (ReceivePresentRequest.ViewerID req) w)
    as [[[]|e] w1] eqn:Hview.
  2:{ left. pose proof (run_raises _ _ _ _ _ (raises_plain_checkViewerID _ _ _) Hview).
      apply (run_frame servers) in Hview; [|by apply frame_checkViewerID].
      subst r. destruct e; simpl; eauto. }
  pose proof (run_frame (λ w, (servers w, rangeOrder w, Cache w)) _ _ _ _
                (frame_checkViewerID (λ w, (servers w, rangeOrder w, Cache w)) _ _ _
                   (λ _ _, eq_refl)) Hview) as [= Hs1 Hr1 Hc1].
  rewrite respond_step in Hr. unfold dbForUserID in Hr.
  destruct (getDBForUserID h userID) as [db|] eqn:Hdb.
  2:{ left. subst r. simpl. eexists _, _. by repeat split. }
  unfold ret at 1 in Hr. rewrite respond_step in Hr.
  destruct (dbSelect db (selectUnreceived (ReceivePresentRequest.PresentIDs req)) w1)
    as [[loaded|e] w2] eqn:Hload.
  2:{ left. pose proof (run_raises _ _ _ _ _ (raises_plain_dbSelect _ _) Hload).
      apply (run_frame servers) in Hload; [|by apply frame_dbSelect].
      subst r. simpl. rewrite Hload, Hs1. eauto. }
  apply dbSelect_Ok in Hload as (d & Hd & -> & ->). rewrite Hs1 in Hd.
  set (loaded := selectUnreceived (ReceivePresentRequest.PresentIDs req) d) in *.
  destruct (Nat.eqb_spec (length loaded) 0) as [Hlen|Hlen].
  { right. exists db, d. subst r. cbv zeta. fold loaded.
    assert (Hnil : loaded = []) by (by apply nil_length_inv).
    rewrite Hnil. simpl. split; [done|]. split; [done|]. split; [done|]. by left. }
  assert (loaded ≠ []) as Hne by (by intros Heq; rewrite Heq in Hlen).
  rewrite respond_step in Hr.
  destruct (Beginx db (with_storeCalls S w1)) as [[[]|e] w3] eqn:Hbegin.
  2:{ left. pose proof (run_raises _ _ _ _ _ (raises_plain_Beginx _) Hbegin).
      apply (run_frame servers) in Hbegin; [|by apply frame_Beginx].
      subst r. simpl in *. rewrite Hbegin, Hs1. eauto. }
  apply Beginx_Ok in Hbegin as (d' & Hd' & ->). simpl in Hd'.
  rewrite Hs1, Hd in Hd'. injection Hd' as <-.
  rewrite respond_step in Hr.
  rewrite stampReceived_unreceived in Hr by apply selectUnreceived_unreceived.
  set (granted := map (UserPresent.with_deleted requestAt (Some requestAt)) loaded) in *.
  rewrite respond_step in Hr.
  match type of Hr with context [txExec ?stmt ?w0] =>
    destruct (txExec stmt w0) as [[[]|e] w4] eqn:Hmark end.
  2:{ left. pose proof (run_raises _ _ _ _ _ (raises_plain_txExec _) Hmark).
      apply (run_frame servers) in Hmark; [|frame_auto].
      subst r. simpl in *. rewrite Hmark, Hs1. eauto. }
  apply txExec_Ok in Hmark as ->.
  rewrite respond_step in Hr.
  match type of Hr with context [obtainItemsBatch h granted userID requestAt ?w0] =>
    set (wtx := w0) in *;
    destruct (obtainItemsBatch h granted userID requestAt wtx) as [[[]|e] w5] eqn:Hgrant end.
  2:{ left. pose proof (run_raises _ _ _ _ _ (raises_plain_obtainItemsBatch _ _ _ _) Hgrant).
      apply (run_frame grantFootprint) in Hgrant; [|apply frame_obtainItemsBatch].
      assert (servers w5 = servers w) as Hs5.
      { unfold grantFootprint in Hgrant. injection Hgrant as -> _. simpl. done. }
      subst r. destruct e; simpl; rewrite Hs5; eauto. }
  pose proof (run_frame grantFootprint _ _ _ _ (frame_obtainItemsBatch _ _ _ _) Hgrant)
    as Hfoot.
  assert (servers w5 = servers w) as Hs5.
  { unfold grantFootprint in Hfoot. injection Hfoot as -> _. simpl. done. }
  rewrite respond_step in Hr.
  destruct (Commit db w5) as [[[]|e] w6] eqn:Hcommit;
    [|pose proof (run_raises _ _ _ _ _ (raises_plain_Commit _) Hcommit)];
    apply Commit_servers in Hcommit.
  - right. exists db, d. subst r. repeat split; try done.
    right. split; [done|]. exists wtx, w5. repeat split; try done.
    simpl. by rewrite Hcommit, Hs5.
  - left. subst r. simpl. rewrite Hcommit, Hs5. eauto.
Qed.

Lemma fold_index_Some rows (acc : gmap Z UserItem.t) k e :
  fold_left (λ existingMap item, <[UserItem.ItemID item := item]> existingMap) rows acc !! k
  = Some e →
  (e ∈ rows ∧ UserItem.ItemID e = k) ∨ acc !! k = Some e.
Proof.
  revert acc. induction rows as [|r rows IH]; intros acc; simpl; [by right|].
  intros [[Hin Hk] | Hacc]%IH.
  - left. split; [by right | done].
  - destruct (decide (UserItem.ItemID r = k)) as [Heq|Hne].
    + rewrite <- Heq, lookup_insert_eq in Hacc. injection Hacc as <-.
      left. split; [by left | done].
    + rewrite lookup_insert_ne in Hacc by done. by right.
Qed.

Lemma fold_index_None rows (acc : gmap Z UserItem.t) k :
  fold_left (λ existingMap item, <[UserItem.ItemID item := item]> existingMap) rows acc !! k
  = None →
  (∀ e, e ∈ rows → UserItem.ItemID e ≠ k) ∧ acc !! k = None.
Proof.
  revert acc. induction rows as [|r rows IH]; intros acc; simpl.
  - intros Hacc. split; [|done]. intros e He. by apply elem_of_nil in He.
  - intros [Hrows Hacc]%IH.
    destruct (decide (UserItem.ItemID r = k)) as [Heq|Hne].
    + by rewrite <- Heq, lookup_insert_eq in Hacc.
    + rewrite lookup_insert_ne in Hacc by done. split; [|done].
      intros e [->|He]%elem_of_cons; [done | by apply Hrows].
Qed.

Lemma inZ_elem_of x l : inZ x l = true ↔ x ∈ l.
Proof.
  unfold inZ. rewrite existsb_exists. split.
  - intros (k & Hk & ->%Z.eqb_eq). by apply list_elem_of_In.
  - intros Hx. exists x. split; [by apply list_elem_of_In | apply Z.eqb_refl].
Qed.






Lemma elem_of_selectUnreceived presentIDs d p :
  p ∈ selectUnreceived presentIDs d ↔
  p ∈ user_presents d ∧ UserPresent.ID p ∈ presentIDs ∧ UserPresent.DeletedAt p = None.
Proof.
  unfold selectUnreceived. rewrite list_elem_of_In, filter_In, andb_true_iff.
  rewrite inZ_elem_of, <- list_elem_of_In.
  destruct (UserPresent.DeletedAt p); simpl; intuition congruence.
Qed.

Lemma giftWorld_rangesOnce : rangesOnce giftWorld.
Proof. intros l. reflexivity. Qed.

Lemma giftWorld_cacheKeyed : cacheKeyed giftWorld.
Proof. intros k m H. simpl in H. by rewrite lookup_empty in H. Qed.


(** The same request, evaluated: presents 2 to 6 are granted, Bob holds
    5300 coins, two new hammers, fifteen stones of item 8 and a new row of
    four stones of item 7. *)
Example receivePresent_gifts :
  match receivePresent oneShard bob 50 allGifts giftWorld with
  | (successResponse granted, w') =>
      map UserPresent.ID granted = [2; 3; 4; 5; 6] ∧
      ∃ d, servers w' = [d] ∧
           map User.IsuCoin (users d) = [5300] ∧
           map UserCard.CardID (user_cards d) = [2; 2] ∧
           map (λ i, (UserItem.ItemID i, UserItem.Amount i)) (user_items d)
           = [(8, 15); (7, 4)]
  | (errorResponse _ _, _) => False
  end.
Proof. vm_compute. split; [reflexivity|]. eexists. repeat split. Qed.

(** C3, the defect in general: the loop of [receivePresent] tests every
    loaded present for [DeletedAt] and answers 500 "received present", but
    the load query has left out the presents that are already received, so
    the test never fires: no request is ever answered with that error, and
    a request that succeeds returns exactly the named presents that were
    still unreceived, stamped with the request time. *)
Theorem receivePresent_skips_received (h : Handler) (userID requestAt : Z)
  (req : ReceivePresentRequest.t) (w : World) :
  match fst (receivePresent h userID requestAt req w) with
  | errorResponse _ e => e ≠ Errorf "received present"
  | successResponse granted =>
      ∃ db d,
        getDBForUserID h userID = Some db ∧ servers w !! db = Some d ∧
        granted
        = map (UserPresent.with_deleted requestAt (Some requestAt))
              (selectUnreceived (ReceivePresentRequest.PresentIDs req) d) ∧
        ∀ p, p ∈ selectUnreceived (ReceivePresentRequest.PresentIDs req) d ↔
             p ∈ user_presents d ∧
             UserPresent.ID p ∈ ReceivePresentRequest.PresentIDs req ∧
             UserPresent.DeletedAt p = None
  end.
Proof.
  destruct (receivePresent_outcome h userID requestAt req w)
    as [(code & e & -> & He & _) | (db & d & Hdb & Hd & -> & _)]; [done|].
  exists db, d. split; [done|]. split; [done|]. split; [done|].
  intros p. apply elem_of_selectUnreceived.
Qed.

(** C3, the defect: Bob names present 1, which he has received, along with
    five others; instead of failing the call as the guard in the loop
    intends, the request succeeds and grants the five. *)
Lemma receivePresent_grants_around_received :
  gift 1 1 1 100 (Some 5) ∈ user_presents giftShard ∧
  1 ∈ ReceivePresentRequest.PresentIDs allGifts ∧
  ∃ granted,
    fst (receivePresent oneShard bob 50 allGifts giftWorld) = successResponse granted ∧
    map UserPresent.ID granted = [2; 3; 4; 5; 6].
Proof.
  split; [by left|]. split; [by left|].
  eexists. split; vm_compute; reflexivity.
Qed.

(** ** Materials are merged, one row per user and item *)

Lemma NoDup_fmap_eq {A B} (f : A → B) (l : list A) x y :
  NoDup (map f l) → x ∈ l → y ∈ l → f x = f y → x = y.
Proof.
  induction l as [|a l IH]; simpl; [by intros _ ?%elem_of_nil|].
  intros [Ha Hl]%NoDup_cons [->|Hx]%elem_of_cons [->|Hy]%elem_of_cons Hf; try done.
  - exfalso. apply Ha. rewrite Hf. apply list_elem_of_fmap. by exists y.
  - exfalso. apply Ha. rewrite <- Hf. apply list_elem_of_fmap. by exists x.
  - by apply IH.
Qed.

Lemma filter_sublist {A} (f : A → bool) (l : list A) : sublist (List.filter f l) l.
Proof.
  induction l as [|a l IH]; simpl; [constructor|].
  destruct (f a); by constructor.
Qed.

Section Materials.
Context (userID requestAt : Z) (rows : list UserItem.t) (materials : list (Z * Z)).
Context (Hids : NoDup (map UserItem.ID rows)).
Context (Hkeys : NoDup (map itemKey rows)).
Context (Hmat : NoDup (map fst materials)).

Let existingMap : gmap Z UserItem.t :=
  indexUserItems
    (List.filter (λ i, (UserItem.UserID i =? userID)
                       && inZ (UserItem.ItemID i) (map fst materials)) rows).
Let updates : list UserItem.t :=
  omap (λ m, mergedItem requestAt (snd m) <$> existingMap !! fst m) materials.

Lemma existing_row k e :
  k ∈ map fst materials →
  existingMap !! k = Some e ↔ e ∈ rows ∧ UserItem.UserID e = userID ∧ UserItem.ItemID e = k.
Proof.
  intros Hk.
  assert (Hfilter : ∀ r, r ∈ List.filter
                       (λ i, (UserItem.UserID i =? userID)
                             && inZ (UserItem.ItemID i) (map fst materials)) rows ↔
                     r ∈ rows ∧ UserItem.UserID r = userID
                     ∧ UserItem.ItemID r ∈ map fst materials).
  { intros r. rewrite list_elem_of_In, filter_In, andb_true_iff, Z.eqb_eq.
    by rewrite inZ_elem_of, <- list_elem_of_In. }
  split.
  - intros [[He Hi] | He]%fold_index_Some; [|by rewrite lookup_empty in He].
    apply Hfilter in He as (He & Hu & _). done.
  - intros (He & Hu & Hi).
    destruct (existingMap !! k) as [e'|] eqn:He'.
    + pose proof He' as He2.
      apply fold_index_Some in He2 as [[He2 Hi2] | He2]; [|by rewrite lookup_empty in He2].
      apply Hfilter in He2 as (He2 & Hu2 & _).
      f_equal. apply (NoDup_fmap_eq itemKey rows); try done.
      unfold itemKey. congruence.
    + apply fold_index_None in He' as [He' _]. exfalso. apply (He' e); [|done].
      apply Hfilter. by rewrite Hi.
Qed.

Lemma material_amount k a a' :
  (k, a) ∈ materials → (k, a') ∈ materials → a = a'.
Proof.
  intros H1 H2.
  by pose proof (NoDup_fmap_eq fst materials _ _ Hmat H1 H2 eq_refl) as [= ->].
Qed.

Lemma updates_elem item :
  item ∈ updates ↔
  ∃ k a e, (k, a) ∈ materials ∧ e ∈ rows ∧ UserItem.UserID e = userID ∧
           UserItem.ItemID e = k ∧ item = mergedItem requestAt a e.
Proof.
  unfold updates. rewrite list_elem_of_omap. split.
  - intros ([k a] & Hm & Hitem). simpl in Hitem.
    destruct (existingMap !! k) as [e|] eqn:He; [|done].
    injection Hitem as <-.
    apply existing_row in He as (He & Hu & Hi);
      [|apply list_elem_of_fmap; by exists (k, a)].
    by exists k, a, e.
  - intros (k & a & e & Hm & He & Hu & Hi & ->). exists (k, a). split; [done|]. simpl.
    assert (existingMap !! k = Some e) as ->; [|done].
    apply existing_row; [apply list_elem_of_fmap; by exists (k, a) | done].
Qed.

Lemma updateRow_merged r a :
  r ∈ rows → UserItem.UserID r = userID → (UserItem.ItemID r, a) ∈ materials →
  updateRow updates r = mergedItem requestAt a r.
Proof.
  intros Hr Hu Hm. unfold updateRow.
  destruct (List.find (λ item, UserItem.ID item =? UserItem.ID r) updates) as [item|] eqn:Hf.
  - apply find_some in Hf as [Hin Hid]. apply Z.eqb_eq in Hid.
    apply list_elem_of_In, updates_elem in Hin as (k & a' & e & Hm' & He & Hu' & Hi & ->).
    assert (e = r) as -> by (by apply (NoDup_fmap_eq UserItem.ID rows)).
    subst k. by rewrite (material_amount _ _ _ Hm Hm').
  - exfalso.
    pose proof (find_none _ _ Hf (mergedItem requestAt a r)) as Hnone.
    simpl in Hnone. rewrite Z.eqb_refl in Hnone.
    assert (true = false); [|done]. apply Hnone.
    apply list_elem_of_In, updates_elem. by exists (UserItem.ItemID r), a, r.
Qed.

Lemma updateRow_other r :
  r ∈ rows →
  (UserItem.UserID r ≠ userID ∨ UserItem.ItemID r ∉ map fst materials) →
  updateRow updates r = r.
Proof.
  intros Hr Hother. unfold updateRow.
  destruct (List.find (λ item, UserItem.ID item =? UserItem.ID r) updates) as [item|] eqn:Hf;
    [|done].
  apply find_some in Hf as [Hin Hid]. apply Z.eqb_eq in Hid.
  apply list_elem_of_In, updates_elem in Hin as (k & a' & e & Hm' & He & Hu' & Hi & ->).
  assert (e = r) as -> by (by apply (NoDup_fmap_eq UserItem.ID rows)).
  exfalso. destruct Hother as [Hu | Hk]; [done|].
  apply Hk, list_elem_of_fmap. exists (k, a'). by rewrite Hi.
Qed.

Lemma updateRow_key r : itemKey (updateRow updates r) = itemKey r.
Proof.
  unfold updateRow.
  by destruct (List.find (λ item, UserItem.ID item =? UserItem.ID r) updates).
Qed.

Lemma merged_keys inserts :
  Forall2 (freshItem userID requestAt) inserts
    (List.filter (λ m, isNil (existingMap !! fst m)) materials) →
  NoDup (map itemKey (map (updateRow updates) rows ++ inserts)).
Proof.
  intros Hins. rewrite map_app, map_map.
  rewrite (map_ext _ itemKey) by apply updateRow_key.
  assert (Hik : map itemKey inserts
                = map (λ m, (userID, fst m))
                      (List.filter (λ m, isNil (existingMap !! fst m)) materials)).
  { induction Hins as [|r m l l' (Hu & Hi & _) _ IH]; [done|].
    simpl. rewrite <- IH. unfold itemKey. by rewrite Hu, Hi. }
  apply NoDup_app. split; [done|]. split.
  - intros key Hrow Hnew. rewrite Hik in Hnew.
    apply list_elem_of_fmap in Hrow as (r & -> & Hr).
    apply list_elem_of_fmap in Hnew as ([k a] & [= Hu Hk] & Hm). simpl in *.
    apply list_elem_of_In, filter_In in Hm as [Hm Hnil]. simpl in Hnil.
    apply list_elem_of_In in Hm.
    assert (existingMap !! k = Some r) as Hex.
    { apply existing_row; [apply list_elem_of_fmap; by exists (k, a) | done]. }
    by rewrite Hex in Hnil.
  - rewrite Hik.
    apply (NoDup_fmap_2_strong).
    + intros [k a] [k' a'] H1 H2 [= ->].
      apply list_elem_of_In, filter_In in H1 as [H1 _].
      apply list_elem_of_In, filter_In in H2 as [H2 _].
      f_equal. by apply material_amount with k'; apply list_elem_of_In.
    + apply (sublist_NoDup _ materials); [by eapply NoDup_fmap_1 | apply filter_sublist].
Qed.

End Materials.

Lemma user_items_batch inserts updates cards coinTotal userID d :
  user_items
    (insertItems inserts
       (updateItems updates
          (insertCards cards (if 0 <? coinTotal then addIsuCoin coinTotal userID d else d))))
  = map (updateRow updates) (user_items d) ++ inserts.
Proof. by destruct (0 <? coinTotal). Qed.

(** C9: when a batch returns normally on a table in which [id] is unique
    and every (user, item) has at most one row, the table still has at most
    one row per (user, item); for every item id the material entries name,
    their summed amount has been added to the user's row of that item when
    there was one, and otherwise one new row carrying the sum has been
    inserted; the rows of other users and other items are untouched. *)
Theorem materials_merged_per_item (h : Handler) (presents : list UserPresent.t)
  (userID requestAt : Z) (w w' : World) :
  rangesOnce w → cacheKeyed w →
  NoDup (map UserItem.ID (user_items (tx w))) →
  NoDup (map itemKey (user_items (tx w))) →
  obtainItemsBatch h presents userID requestAt w = (Ok tt, w') →
  NoDup (map itemKey (user_items (tx w'))) ∧
  (∀ itemID total,
     materialTotal itemID presents = Some total →
     match selectUserItem userID itemID (tx w) with
     | Some e => mergedItem requestAt total e ∈ user_items (tx w')
     | None => ∃ r, r ∈ user_items (tx w') ∧ freshItem userID requestAt r (itemID, total)
     end) ∧
  (∀ r, r ∈ user_items (tx w) →
        UserItem.UserID r ≠ userID ∨ materialTotal (UserItem.ItemID r) presents = None →
        r ∈ user_items (tx w')).
Proof.
  intros Horder Hcache Hids Hkeys Hrun.
  apply obtainItemsBatch_Ok in Hrun
    as (materialItems & cards & inserts & Htotal & Htx & _ & Hins & _); [|done..].
  cbv zeta in Htx, Hins.
  set (materials := rangeOrder w (map_to_list materialItems)) in *.
  set (rows := user_items (tx w)) in *.
  assert (Hmat : NoDup (map fst materials)).
  { unfold materials. rewrite (Horder _). apply NoDup_fst_map_to_list. }
  assert (Hin : ∀ k a, (k, a) ∈ materials ↔ materialTotal k presents = Some a).
  { intros k a. unfold materials. rewrite (Horder _), elem_of_map_to_list. by rewrite Htotal. }
  rewrite Htx, user_items_batch. fold rows.
  unfold selectUserItems in Hins |- *. fold rows in Hins |- *.
  split; [by apply merged_keys|]. split.
  - intros k total Hk. apply Hin in Hk.
    destruct (selectUserItem userID k (tx w)) as [e|] eqn:He.
    + apply find_some in He as [He Hb].
      apply andb_true_iff in Hb as [Hu%Z.eqb_eq Hi%Z.eqb_eq].
      apply list_elem_of_In in He. apply elem_of_app. left.
      apply list_elem_of_fmap. exists e. split; [|done].
      symmetry. apply updateRow_merged; try done. by rewrite Hi.
    + assert (Hf : (k, total)
                   ∈ List.filter
                       (λ m : Z * Z,
                          isNil (indexUserItems
                                   (List.filter
                                      (λ i, (UserItem.UserID i =? userID)
                                            && inZ (UserItem.ItemID i) (map fst materials))
                                      rows) !! m.1)) materials).
      { apply list_elem_of_In, filter_In. split; [by apply list_elem_of_In|]. simpl.
        match goal with |- isNil ?o = true => destruct o as [e|] eqn:Hex end; [|done].
        exfalso. apply existing_row in Hex as (Hr & Hu & Hi);
          [|done | apply list_elem_of_fmap; by exists (k, total)].
        pose proof (find_none _ _ He e) as Hnone. simpl in Hnone.
        rewrite Hu, Hi, !Z.eqb_refl in Hnone.
        assert (true = false); [|done]. apply Hnone. by apply list_elem_of_In. }
      apply list_elem_of_lookup in Hf as [i Hi].
      destruct (Forall2_lookup_r _ _ _ _ _ Hins Hi) as (r & Hr & Hfresh).
      exists r. split; [|done]. apply elem_of_app. right.
      apply list_elem_of_lookup. by exists i.
  - intros r Hr Hother. apply elem_of_app. left.
    apply list_elem_of_fmap. exists r. split; [|done].
    symmetry. apply updateRow_other; try done.
    destruct Hother as [Hu | Hnone]; [by left | right].
    intros ([k a] & Hk & Hm%Hin)%list_elem_of_fmap. simpl in Hk. subst k. congruence.
Qed.

Lemma materials_merged_per_item_witness :
  NoDup (map itemKey
           (user_items (tx (snd (obtainItemsBatch oneShard twoStones bob 50 giftTx))))) ∧
  (∃ r, r ∈ user_items (tx (snd (obtainItemsBatch oneShard twoStones bob 50 giftTx))) ∧
        freshItem bob 50 r (7, 4)) ∧
  mergedItem 50 5 (UserItem.mk 500 bob 3 8 10 0 0 None)
  ∈ user_items (tx (snd (obtainItemsBatch oneShard twoStones bob 50 giftTx))).
Proof.
  destruct (materials_merged_per_item oneShard twoStones bob 50 giftTx
              (snd (obtainItemsBatch oneShard twoStones bob 50 giftTx)))
    as (Hkeys & Hmerge & _).
  - intros l. reflexivity.
  - intros k m H. simpl in H. rewrite lookup_empty in H. discriminate H.
  - vm_compute. repeat constructor. apply not_elem_of_nil.
  - vm_compute. repeat constructor. apply not_elem_of_nil.
  - rewrite (surjective_pairing (obtainItemsBatch oneShard twoStones bob 50 giftTx)) at 1.
    f_equal.
  - split; [exact Hkeys|]. split.
    + apply (Hmerge 7 4). reflexivity.
    + apply (Hmerge 8 5). reflexivity.
Defined.

(** ** Unknown item kinds *)

(** The single grant refuses a kind other than 1, 2, 3 and 4. *)
Lemma obtainItem_unknown_kind h userID itemID itemType obtainAmount requestAt w :
  itemType ≠ 1 → itemType ≠ 2 → itemType ≠ 3 → itemType ≠ 4 →
  obtainItem h userID itemID itemType obtainAmount requestAt w = (Err ErrInvalidItemType, w).
Proof.
  intros H1 H2 H3 H4. unfold obtainItem.
  destruct (Z.eqb_spec itemType 1); [done|].
  destruct (Z.eqb_spec itemType 2); [done|].
  destruct (Z.eqb_spec itemType 3); [done|].
  by destruct (Z.eqb_spec itemType 4).
Qed.

(** The batch grant drops the entries of an unknown kind in its first
    loop, and never fails with [ErrInvalidItemType]. *)
Lemma obtainItemsBatch_knownKind h presents userID requestAt :
  obtainItemsBatch h presents userID requestAt
  = obtainItemsBatch h (List.filter knownKind presents) userID requestAt.
Proof. unfold obtainItemsBatch. by rewrite groupPresents_knownKind. Qed.

Lemma obtainItemsBatch_never_invalid_item_type h presents userID requestAt w e w' :
  obtainItemsBatch h presents userID requestAt w = (Err e, w') → e ≠ ErrInvalidItemType.
Proof.
  intros Hrun. apply (run_raises _ _ _ _ _ (raises_obtainItemsBatch _ _ _ _)) in Hrun.
  by destruct Hrun as [-> | [-> | ->]].
Qed.

(** C4, the defect: a batch holding a present of kind 5 and a present of
    100 coins.  The single grant [obtainItem] refuses kind 5 with
    [ErrInvalidItemType]; the batch grant returns normally and credits the
    coins, and [receivePresent] answers with success, both presents marked
    received. *)
Theorem obtainItemsBatch_accepts_unknown_kind :
  fst (obtainItem oneShard bob 1 5 1 50 oddTx) = Err ErrInvalidItemType ∧
  fst (obtainItemsBatch oneShard [gift 9 5 1 1 None; gift 10 1 1 100 None] bob 50 oddTx)
  = Ok tt ∧
  map User.IsuCoin
      (users (tx (snd (obtainItemsBatch oneShard
                         [gift 9 5 1 1 None; gift 10 1 1 100 None] bob 50 oddTx))))
  = [5100] ∧
  fst (receivePresent oneShard bob 50 oddGifts (freshWorld [oddShard]))
  = successResponse (map (UserPresent.with_deleted 50 (Some 50))
                         [gift 9 5 1 1 None; gift 10 1 1 100 None]).
Proof. repeat split; vm_compute; reflexivity. Qed.

(** ** The login bonus *)

Lemma frame_bonusTables_grant {E A} (m : M E A) :
  frame grantFootprint m → frame bonusTables m.
Proof.
  apply frame_weaken. intros w w'. unfold grantFootprint, bonusTables.
  intros [= _ _ _ Hb _ _ _ _ Hm _ _ _ _ _ _]. by rewrite Hb, Hm.
Qed.

Lemma frame_bonusTables_loop {E A} (m : M E A) :
  frame loopFootprint m → frame bonusTables m.
Proof.
  apply frame_weaken. intros w w'. unfold loopFootprint, bonusTables.
  intros [= _ Ht _ _ _ _ _ _]. by rewrite Ht.
Qed.

Lemma frame_cacheRewards actualRewards rewardMap :
  frame loopFootprint (cacheRewards actualRewards rewardMap).
Proof.
  revert rewardMap. induction actualRewards as [|r l IH]; intros rewardMap; simpl.
  - frame_auto.
  - apply frame_bind; [frame_auto | intros; apply IH].
Qed.

Lemma frame_rewardPresents sendLoginBonuses rewardMap :
  frame loopFootprint (rewardPresents sendLoginBonuses rewardMap).
Proof.
  induction sendLoginBonuses as [|b l IH]; simpl.
  - frame_auto.
  - destruct (rewardMap !! _); [|frame_auto].
    apply frame_bind; [apply IH | intros; frame_auto].
Qed.

Lemma advanceLoginBonuses_single bonus existingMap userID requestAt w adv w' :
  advanceLoginBonuses [bonus] existingMap userID requestAt w = (Ok adv, w') →
  match existingMap !! LoginBonusMaster.ID bonus with
  | Some userBonus =>
      match advanceBonus bonus requestAt userBonus with
      | Some userBonus' =>
          fst adv = [userBonus'] ∧ tx w' = updateUserLoginBonus userBonus' (tx w)
      | None => fst adv = [] ∧ tx w' = tx w
      end
  | None =>
      match advanceBonus bonus requestAt
              (newUserLoginBonus (snowflakeNode w) userID (LoginBonusMaster.ID bonus)
                 requestAt) with
      | Some userBonus' =>
          fst adv = [userBonus'] ∧ tx w' = insertUserLoginBonus userBonus' (tx w)
      | None => fst adv = [] ∧ tx w' = tx w
      end
  end.
Proof.
  simpl. intros (start & w1 & Hstart & Hrun)%bind_Ok.
  destruct (existingMap !! LoginBonusMaster.ID bonus) as [userBonus|].
  - injection Hstart as <- <-. simpl in Hrun.
    destruct (advanceBonus bonus requestAt userBonus) as [userBonus'|].
    + apply bind_Ok in Hrun as (? & w2 & ->%txExec_Ok & Hrun).
      by injection Hrun as <- <-.
    + by injection Hrun as <- <-.
  - apply bind_Ok in Hstart as (ubID & w0 & [= <- <-] & [= <- <-]). simpl in Hrun.
    fold (newUserLoginBonus (snowflakeNode w) userID (LoginBonusMaster.ID bonus) requestAt)
      in Hrun.
    destruct (advanceBonus bonus requestAt _) as [userBonus'|].
    + apply bind_Ok in Hrun as (? & w2 & ->%txExec_Ok & Hrun).
      by injection Hrun as <- <-.
    + by injection Hrun as <- <-.
Qed.

(** One call of [obtainLoginBonus] for a user whose only active bonus is
    [bonus]. *)
Lemma obtainLoginBonus_single h bonus userID requestAt w sent w' :
  activeLoginBonuses requestAt (tx w) = [bonus] →
  obtainLoginBonus h userID requestAt w = (Ok sent, w') →
  login_bonus_masters (tx w') = login_bonus_masters (tx w) ∧
  match indexUserLoginBonuses
          (selectUserLoginBonuses userID [LoginBonusMaster.ID bonus] (tx w))
        !! LoginBonusMaster.ID bonus with
  | Some userBonus =>
      match advanceBonus bonus requestAt userBonus with
      | Some userBonus' =>
          sent = [userBonus'] ∧
          user_login_bonuses (tx w')
          = user_login_bonuses (updateUserLoginBonus userBonus' (tx w))
      | None => sent = [] ∧ user_login_bonuses (tx w') = user_login_bonuses (tx w)
      end
  | None =>
      match advanceBonus bonus requestAt
              (newUserLoginBonus (snowflakeNode w) userID (LoginBonusMaster.ID bonus)
                 requestAt) with
      | Some userBonus' =>
          sent = [userBonus'] ∧
          user_login_bonuses (tx w') = user_login_bonuses (tx w) ++ [userBonus']
      | None => sent = [] ∧ user_login_bonuses (tx w') = user_login_bonuses (tx w)
      end
  end.
Proof.
  intros Hactive. unfold obtainLoginBonus.
  intros (loginBonuses & w1 & [-> ->]%txSelect_Ok & Hrun)%bind_Ok.
  rewrite Hactive in Hrun. simpl in Hrun.
  apply bind_Ok in Hrun as (existing & w2 & [-> ->]%txSelect_Ok & Hrun).
  apply bind_Ok in Hrun as (adv & w3 & Hadv & Hrun).
  apply bind_Ok in Hrun as (? & w4 & Hreward & [= <- <-]).
  assert (Hframe : bonusTables w4 = bonusTables w3).
  { revert Hreward. apply run_frame.
    destruct (0 <? length (snd adv))%nat; [|frame_auto].
    apply frame_bind; [frame_auto|]. intros w0.
    destruct (lookupRewards _ _) as [rewardMap missing].
    apply frame_bind.
    { destruct (0 <? length missing)%nat; [|frame_auto].
      apply frame_bind; [frame_auto|]. intros.
      apply frame_bonusTables_loop, frame_cacheRewards. }
    intros. apply frame_bind; [apply frame_bonusTables_loop, frame_rewardPresents|].
    intros presents. destruct (0 <? length presents)%nat; [|frame_auto].
    apply frame_bonusTables_grant, frame_obtainItemsBatch. }
  unfold bonusTables in Hframe. injection Hframe as Hb Hm.
  apply advanceLoginBonuses_single in Hadv. simpl in Hadv.
  rewrite Hb, Hm.
  destruct (indexUserLoginBonuses _ !! _) as [userBonus|].
  - destruct (advanceBonus bonus requestAt userBonus) as [userBonus'|];
      destruct Hadv as [-> ->]; by repeat split.
  - destruct (advanceBonus bonus requestAt _) as [userBonus'|];
      destruct Hadv as [-> ->]; by repeat split.
Qed.

Lemma selectUserLoginBonuses_rows userID bonusIDs d d' :
  user_login_bonuses d' = user_login_bonuses d →
  selectUserLoginBonuses userID bonusIDs d' = selectUserLoginBonuses userID bonusIDs d.
Proof. unfold selectUserLoginBonuses. by intros ->. Qed.

Lemma activeLoginBonuses_rows requestAt d d' :
  login_bonus_masters d' = login_bonus_masters d →
  activeLoginBonuses requestAt d' = activeLoginBonuses requestAt d.
Proof. unfold activeLoginBonuses. by intros ->. Qed.

Lemma filter_singleton_elem {A} (f : A → bool) (l : list A) x :
  List.filter f l = [x] → f x = true.
Proof.
  intros Hf. assert (In x (List.filter f l)) as Hin by (rewrite Hf; by left).
  by apply filter_In in Hin as [_ ?].
Qed.

Lemma filter_map_comm {A} (p : A → bool) (f : A → A) (l : list A) :
  (∀ x, p (f x) = p x) → List.filter p (map f l) = map f (List.filter p l).
Proof.
  intros Hp. induction l as [|a l IH]; [done|].
  cbn [map List.filter]. rewrite Hp, IH. by destruct (p a).
Qed.

Lemma user_login_bonuses_update userBonus d :
  user_login_bonuses (updateUserLoginBonus userBonus d)
  = map (λ row, if UserLoginBonus.ID row =? UserLoginBonus.ID userBonus
                then UserLoginBonus.with_progress
                       (UserLoginBonus.LastRewardSequence userBonus)
                       (UserLoginBonus.LoopCount userBonus)
                       (UserLoginBonus.UpdatedAt userBonus) row
                else row)
        (user_login_bonuses d).
Proof. done. Qed.

Lemma advanceBonus_keeps bonus requestAt userBonus userBonus' :
  advanceBonus bonus requestAt userBonus = Some userBonus' →
  ∃ seq loop, userBonus' = UserLoginBonus.with_progress seq loop requestAt userBonus.
Proof.
  unfold advanceBonus.
  destruct (_ <? _); [intros [= <-]; eauto|].
  destruct (LoginBonusMaster.Looped bonus); [intros [= <-]; eauto | done].
Qed.

(** After the call the user's row for the bonus is the one the call
    returned; a skipped bonus leaves the row as it was. *)
Lemma obtainLoginBonus_next h bonus userID requestAt w sent w' current :
  activeLoginBonuses requestAt (tx w) = [bonus] →
  selectUserLoginBonuses userID [LoginBonusMaster.ID bonus] (tx w) = current →
  (length current ≤ 1)%nat →
  obtainLoginBonus h userID requestAt w = (Ok sent, w') →
  login_bonus_masters (tx w') = login_bonus_masters (tx w) ∧
  match advanceBonus bonus requestAt
          (match current with
           | userBonus :: _ => userBonus
           | [] => newUserLoginBonus (snowflakeNode w) userID (LoginBonusMaster.ID bonus)
                     requestAt
           end) with
  | Some userBonus' =>
      sent = [userBonus'] ∧
      selectUserLoginBonuses userID [LoginBonusMaster.ID bonus] (tx w') = [userBonus']
  | None =>
      sent = [] ∧
      selectUserLoginBonuses userID [LoginBonusMaster.ID bonus] (tx w') = current
  end.
Proof.
  intros Hactive Hcur Hlen Hrun.
  apply (obtainLoginBonus_single _ _ _ _ _ _ _ Hactive) in Hrun as [Hmasters Hrun].
  split; [done|]. rewrite Hcur in Hrun.
  destruct current as [|userBonus [|? ?]]; [| |simpl in Hlen; lia].
  - change (indexUserLoginBonuses []) with (∅ : gmap Z UserLoginBonus.t) in Hrun.
    rewrite lookup_empty in Hrun.
    destruct (advanceBonus bonus requestAt _) as [userBonus'|] eqn:Hadv.
    + destruct Hrun as [-> Hrows]. split; [done|].
      unfold selectUserLoginBonuses in Hcur |- *. rewrite Hrows, List.filter_app, Hcur.
      apply advanceBonus_keeps in Hadv as (seq & loop & ->). simpl.
      by rewrite !Z.eqb_refl.
    + destruct Hrun as [-> Hrows]. split; [done|].
      by rewrite (selectUserLoginBonuses_rows _ _ _ _ Hrows).
  - pose proof (filter_singleton_elem _ _ _ Hcur) as Hub. simpl in Hub.
    apply andb_true_iff in Hub as [Hu Hb]. rewrite orb_false_r in Hb.
    apply Z.eqb_eq in Hu, Hb.
    change (indexUserLoginBonuses [userBonus])
      with (<[UserLoginBonus.LoginBonusID userBonus := userBonus]>
              (∅ : gmap Z UserLoginBonus.t)) in Hrun.
    rewrite Hb, lookup_insert_eq in Hrun.
    destruct (advanceBonus bonus requestAt userBonus) as [userBonus'|] eqn:Hadv.
    + destruct Hrun as [-> Hrows]. split; [done|].
      apply advanceBonus_keeps in Hadv as (seq & loop & ->).
      unfold selectUserLoginBonuses in Hcur |- *.
      rewrite Hrows, user_login_bonuses_update, filter_map_comm, Hcur.
      2:{ intros r. cbv beta.
          match goal with |- context [if ?c then _ else _] => by destruct c end. }
      cbn [map]. cbn. by rewrite Z.eqb_refl.
    + destruct Hrun as [-> Hrows]. split; [done|].
      by rewrite (selectUserLoginBonuses_rows _ _ _ _ Hrows).
Qed.

Lemma advanceBonus_looping bonus requestAt userBonus :
  LoginBonusMaster.ColumnCount bonus = 3 → LoginBonusMaster.Looped bonus = true →
  ∃ userBonus',
    advanceBonus bonus requestAt userBonus = Some userBonus' ∧
    progress userBonus'
    = (if UserLoginBonus.LastRewardSequence userBonus <? 3
       then (add64 (UserLoginBonus.LastRewardSequence userBonus) 1,
             UserLoginBonus.LoopCount userBonus)
       else (1, add64 (UserLoginBonus.LoopCount userBonus) 1)).
Proof.
  intros Hcol Hloop. unfold advanceBonus. rewrite Hcol, Hloop.
  destruct (_ <? 3); eauto.
Qed.

(** An exhausted bonus that does not loop is passed over: the loop goes
    on as if the bonus were not in the list. *)
Lemma advanceLoginBonuses_exhausted bonus rest existingMap userBonus userID requestAt w :
  LoginBonusMaster.Looped bonus = false →
  existingMap !! LoginBonusMaster.ID bonus = Some userBonus →
  LoginBonusMaster.ColumnCount bonus ≤ UserLoginBonus.LastRewardSequence userBonus →
  advanceLoginBonuses (bonus :: rest) existingMap userID requestAt w
  = advanceLoginBonuses rest existingMap userID requestAt w.
Proof.
  intros Hloop Hex Hseq. simpl. rewrite Hex. unfold bind, ret. simpl.
  unfold advanceBonus. rewrite Hloop.
  by destruct (Z.ltb_spec (UserLoginBonus.LastRewardSequence userBonus)
                 (LoginBonusMaster.ColumnCount bonus)); [lia|].
Qed.

(** C8: a user with no row for a looping bonus of three columns, the only
    bonus active, logs in four times: the calls return the streak at
    sequences 1, 2, 3 and 1 again, the loop count being 1, 1, 1 and then 2.
    And in any list of active bonuses, a bonus that does not loop and whose
    last sequence has reached the column count is passed over without a
    write, a reward or an entry in the result. *)
Theorem login_bonus_cycle (h : Handler) (bonus : LoginBonusMaster.t)
  (userID t1 t2 t3 t4 : Z) (w0 w1 w2 w3 w4 : World)
  (sent1 sent2 sent3 sent4 : list UserLoginBonus.t) :
  LoginBonusMaster.ColumnCount bonus = 3 →
  LoginBonusMaster.Looped bonus = true →
  (∀ requestAt, requestAt ∈ [t1; t2; t3; t4] →
                activeLoginBonuses requestAt (tx w0) = [bonus]) →
  selectUserLoginBonuses userID [LoginBonusMaster.ID bonus] (tx w0) = [] →
  obtainLoginBonus h userID t1 w0 = (Ok sent1, w1) →
  obtainLoginBonus h userID t2 w1 = (Ok sent2, w2) →
  obtainLoginBonus h userID t3 w2 = (Ok sent3, w3) →
  obtainLoginBonus h userID t4 w3 = (Ok sent4, w4) →
  (map progress sent1 = [(1, 1)] ∧ map progress sent2 = [(2, 1)] ∧
   map progress sent3 = [(3, 1)] ∧ map progress sent4 = [(1, 2)]) ∧
  (∀ exhausted rest existingMap userBonus requestAt w,
     LoginBonusMaster.Looped exhausted = false →
     existingMap !! LoginBonusMaster.ID exhausted = Some userBonus →
     LoginBonusMaster.ColumnCount exhausted ≤ UserLoginBonus.LastRewardSequence userBonus →
     advanceLoginBonuses (exhausted :: rest) existingMap userID requestAt w
     = advanceLoginBonuses rest existingMap userID requestAt w).
Proof.
  intros Hcol Hloop Hactive Hnone Hrun1 Hrun2 Hrun3 Hrun4.
  split; [|intros; by eapply advanceLoginBonuses_exhausted].
  assert (Hstep : ∀ requestAt w w' sent current,
            requestAt ∈ [t1; t2; t3; t4] →
            login_bonus_masters (tx w) = login_bonus_masters (tx w0) →
            selectUserLoginBonuses userID [LoginBonusMaster.ID bonus] (tx w) = current →
            (length current ≤ 1)%nat →
            obtainLoginBonus h userID requestAt w = (Ok sent, w') →
            login_bonus_masters (tx w') = login_bonus_masters (tx w0) ∧
            ∃ userBonus',
              sent = [userBonus'] ∧
              selectUserLoginBonuses userID [LoginBonusMaster.ID bonus] (tx w')
              = [userBonus'] ∧
              progress userBonus'
              = match current with
                | userBonus :: _ =>
                    if UserLoginBonus.LastRewardSequence userBonus <? 3
                    then (add64 (UserLoginBonus.LastRewardSequence userBonus) 1,
                          UserLoginBonus.LoopCount userBonus)
                    else (1, add64 (UserLoginBonus.LoopCount userBonus) 1)
                | [] => (1, 1)
                end).
  { intros requestAt w w' sent current Ht Hm Hcur Hlen Hrun.
    eapply obtainLoginBonus_next in Hrun as [Hm' Hrun]; [| |exact Hcur|exact Hlen].
    2:{ rewrite (activeLoginBonuses_rows _ _ _ Hm). by apply Hactive. }
    split; [congruence|].
    match type of Hrun with match advanceBonus _ _ ?start with _ => _ end =>
      destruct (advanceBonus_looping bonus requestAt start Hcol Hloop)
        as (userBonus' & Hadv & Hprog) end.
    rewrite Hadv in Hrun. destruct Hrun as [-> Hsel].
    exists userBonus'. repeat split; try done.
    rewrite Hprog. by destruct current. }
  destruct (Hstep t1 w0 w1 sent1 [] ltac:(left) eq_refl Hnone ltac:(simpl; lia) Hrun1)
    as (Hm1 & ub1 & -> & Hsel1 & Hp1).
  destruct (Hstep t2 w1 w2 sent2 [ub1] ltac:(right; left) Hm1 Hsel1 ltac:(simpl; lia) Hrun2)
    as (Hm2 & ub2 & -> & Hsel2 & Hp2).
  destruct (Hstep t3 w2 w3 sent3 [ub2] ltac:(right; right; left) Hm2 Hsel2 ltac:(simpl; lia) Hrun3)
    as (Hm3 & ub3 & -> & Hsel3 & Hp3).
  destruct (Hstep t4 w3 w4 sent4 [ub3] ltac:(right; right; right; left) Hm3 Hsel3 ltac:(simpl; lia) Hrun4)
    as (Hm4 & ub4 & -> & Hsel4 & Hp4).
  injection Hp1 as Hs1 Hl1. rewrite Hs1, Hl1 in Hp2. simpl in Hp2.
  injection Hp2 as Hs2 Hl2. rewrite Hs2, Hl2 in Hp3. simpl in Hp3.
  injection Hp3 as Hs3 Hl3. rewrite Hs3, Hl3 in Hp4. simpl in Hp4.
  simpl. unfold progress. rewrite Hs1, Hl1, Hs2, Hl2, Hs3, Hl3.
  injection Hp4 as -> ->. done.
Qed.

Lemma login_bonus_cycle_witness :
  map progress (okOr [] (fst login1)) = [(1, 1)] ∧
  map progress (okOr [] (fst login2)) = [(2, 1)] ∧
  map progress (okOr [] (fst login3)) = [(3, 1)] ∧
  map progress (okOr [] (fst login4)) = [(1, 2)].
Proof.
  apply (login_bonus_cycle oneShard (LoginBonusMaster.mk 1 0 1000 3 true 0) bob 10 20 30 40
           bonusTx (snd login1) (snd login2) (snd login3) (snd login4)).
  - reflexivity.
  - reflexivity.
  - intros t Ht. repeat (apply elem_of_cons in Ht as [-> | Ht]; [reflexivity|]).
    by apply elem_of_nil in Ht.
  - reflexivity.
  - rewrite (surjective_pairing (obtainLoginBonus oneShard bob 10 bonusTx)) at 1.
    f_equal.
  - rewrite (surjective_pairing (obtainLoginBonus oneShard bob 20 (snd login1))) at 1.
    f_equal.
  - rewrite (surjective_pairing (obtainLoginBonus oneShard bob 30 (snd login2))) at 1.
    f_equal.
  - rewrite (surjective_pairing (obtainLoginBonus oneShard bob 40 (snd login3))) at 1.
    f_equal.
Defined.

(** The four logins, evaluated: Bob has been paid 10 + 20 + 30 + 10 coins. *)
Example login_bonus_coins :
  map User.IsuCoin (users (tx (snd login4))) = [70].
Proof. vm_compute. reflexivity. Qed.

(** ** The level-up loop of addExpToCard *)

Lemma levelUp_step nextLvThreshold n card :
  nextLvThreshold (TargetUserCardData.BaseExpPerLevel card)
    (TargetUserCardData.Level card) ≤ TargetUserCardData.TotalExp card →
  wrap64 (TargetUserCardData.MaxLevel card - 1) ≠ 0 →
  levelUp nextLvThreshold (S n) card = levelUp nextLvThreshold n (levelledUp card).
Proof.
  intros Hle Hdiv. cbn [levelUp].
  destruct (Z.ltb_spec (TargetUserCardData.TotalExp card)
              (nextLvThreshold (TargetUserCardData.BaseExpPerLevel card)
                 (TargetUserCardData.Level card))); [lia|].
  by destruct (Z.eqb_spec (wrap64 (TargetUserCardData.MaxLevel card - 1)) 0).
Qed.

Lemma levelUp_break nextLvThreshold n card :
  TargetUserCardData.TotalExp card
  < nextLvThreshold (TargetUserCardData.BaseExpPerLevel card)
      (TargetUserCardData.Level card) →
  levelUp nextLvThreshold (S n) card = Break card.
Proof.
  intros Hlt. cbn [levelUp].
  by destruct (Z.ltb_spec (TargetUserCardData.TotalExp card)
                 (nextLvThreshold (TargetUserCardData.BaseExpPerLevel card)
                    (TargetUserCardData.Level card))); [|lia].
Qed.

(** C10, the defect: no [int] exceeds the largest one.  Once [TotalExp]
    is 2^63 - 1 the test [nextLvThreshold > card.TotalExp] fails at every
    level, whatever the floating-point computation returns, and the loop
    never reaches [break]: it still runs after any number of iterations
    (the master's [MaxLevel] being other than 1, no division panics). *)
Theorem levelUp_never_breaks_at_max_exp (nextLvThreshold : Z → Z → Z)
  (card : TargetUserCardData.t) (iterations : nat) :
  (∀ base level, in_int64 (nextLvThreshold base level)) →
  1 ≤ TargetUserCardData.BaseExpPerLevel card →
  1 ≤ TargetUserCardData.Level card →
  TargetUserCardData.TotalExp card = 2 ^ 63 - 1 →
  wrap64 (TargetUserCardData.MaxLevel card - 1) ≠ 0 →
  levelUp nextLvThreshold iterations card = StillLooping.
Proof.
  intros Hint _ _. revert card.
  induction iterations as [|n IH]; intros card Hexp Hdiv; [done|].
  rewrite levelUp_step; [by apply IH| |done].
  pose proof (Hint (TargetUserCardData.BaseExpPerLevel card)
                (TargetUserCardData.Level card)) as Hr.
  unfold in_int64 in Hr. lia.
Qed.

Lemma levelUp_never_breaks_at_max_exp_witness :
  levelUp (λ base level, wrap64 (base * level)) 1000 saturatedCard = StillLooping.
Proof.
  apply levelUp_never_breaks_at_max_exp.
  - intros base level. apply wrap64_range.
  - vm_compute. discriminate.
  - vm_compute. discriminate.
  - reflexivity.
  - vm_compute. discriminate.
Defined.

(** When some level from the current one on has a threshold above
    [TotalExp], the loop stops at the first of them. *)
Lemma levelUp_breaks_at_first nextLvThreshold card n :
  wrap64 (TargetUserCardData.MaxLevel card - 1) ≠ 0 →
  (∀ k, (k < n)%nat →
        nextLvThreshold (TargetUserCardData.BaseExpPerLevel card)
          (Nat.iter k (λ level, add64 level 1) (TargetUserCardData.Level card))
        ≤ TargetUserCardData.TotalExp card) →
  TargetUserCardData.TotalExp card
  < nextLvThreshold (TargetUserCardData.BaseExpPerLevel card)
      (Nat.iter n (λ level, add64 level 1) (TargetUserCardData.Level card)) →
  ∃ card',
    levelUp nextLvThreshold (S n) card = Break card' ∧
    TargetUserCardData.Level card'
    = Nat.iter n (λ level, add64 level 1) (TargetUserCardData.Level card) ∧
    TargetUserCardData.TotalExp card' = TargetUserCardData.TotalExp card.
Proof.
  intros Hdiv. revert card Hdiv.
  induction n as [|n IH]; intros card Hdiv Hbelow Habove.
  - exists card. by rewrite levelUp_break.
  - rewrite levelUp_step; [|exact (Hbelow 0%nat ltac:(lia))|done].
    destruct (IH (levelledUp card)) as (card' & Hrun & Hl & He).
    + done.
    + intros k Hk. specialize (Hbelow (S k) ltac:(lia)).
      rewrite Nat.iter_succ_r in Hbelow. exact Hbelow.
    + rewrite Nat.iter_succ_r in Habove. exact Habove.
    + exists card'. split; [done|]. split; [|done].
      rewrite Hl. by rewrite Nat.iter_succ_r.
Qed.

(** ** More on the lottery and the router *)

Lemma pickFrom_elem boundary random gachaItemList v :
  pickFrom boundary random gachaItemList = Some v → v ∈ gachaItemList.
Proof.
  revert boundary. induction gachaItemList as [|x l IH]; intros boundary; simpl; [done|].
  destruct (random <? add64 boundary (GachaItemMaster.Weight x)).
  - intros [= ->]. by left.
  - intros H. right. by eapply IH.
Qed.

Lemma lottery_length gachaCount sum gachaItemList w result w' :
  lottery gachaCount sum gachaItemList w = (Ok result, w') →
  (length result ≤ gachaCount)%nat.
Proof.
  revert w w' result. induction gachaCount as [|n IH]; intros w w' result; simpl.
  - intros [= <- _]. done.
  - intros (random & w1 & _ & Hrest)%bind_Ok.
    apply bind_Ok in Hrest as (more & w2 & Hmore%IH & [= <- _]).
    destruct (pick random gachaItemList); simpl; lia.
Qed.

(** Whatever the samples are, a draw that returns hands out items of the
    pool only, at most one per sample, and consumes exactly [gachaCount]
    samples; it can return only when the weight sum it is given is
    positive (or nothing is drawn). *)
Theorem lottery_within_pool (gachaCount : nat) (sum : Z)
  (gachaItemList : list GachaItemMaster.t) (w w' : World)
  (result : list GachaItemMaster.t) :
  lottery gachaCount sum gachaItemList w = (Ok result, w') →
  (length result ≤ gachaCount)%nat ∧
  (∀ v, v ∈ result → v ∈ gachaItemList) ∧
  randCalls w' = (randCalls w + gachaCount)%nat ∧
  (gachaCount ≠ 0%nat → 0 < sum).
Proof.
  intros Hrun. split; [by eapply lottery_length|]. revert w w' result Hrun.
  induction gachaCount as [|n IH]; intros w w' result; simpl.
  - intros [= <- <-]. split; [by intros v ?%elem_of_nil|]. split; [lia | done].
  - intros (random & w1 & Hrand & Hrest)%bind_Ok.
    apply bind_Ok in Hrest as (more & w2 & Hmore & Hret).
    injection Hret as <- <-.
    unfold Int63n in Hrand. destruct (Z.leb_spec sum 0); [discriminate|].
    injection Hrand as <- <-.
    destruct (IH _ _ _ Hmore) as (Hin & Hcalls & _).
    rewrite Hcalls. destruct w; simpl.
    split; [|split; [lia|done]].
    intros v. destruct (pick _ gachaItemList) as [x|] eqn:Hpick; [|by auto].
    intros [->|Hv]%elem_of_cons; [|by auto].
    by eapply pickFrom_elem.
Qed.

Lemma lottery_within_pool_witness :
  ∃ result w',
    lottery 10 4 demoGachaItems (freshWorld [shard0]) = (Ok result, w') ∧
    (length result ≤ 10)%nat ∧
    (∀ v, v ∈ result → v ∈ demoGachaItems) ∧
    randCalls w' = (randCalls (freshWorld [shard0]) + 10)%nat.
Proof.
  eexists _, _. split; [vm_compute; reflexivity|].
  destruct (lottery_within_pool 10 4 demoGachaItems (freshWorld [shard0]) _ _ eq_refl)
    as (H1 & H2 & H3 & _).
  auto.
Defined.

(** The router at its edges: with no shard configured it answers the
    unsharded pool; otherwise it panics (index out of range) exactly when
    the shifted user id leaves a negative remainder, which takes a negative
    user id; and the user ids [k * 2^23 + low] with [0 <= low < 2^23] all go
    to the shard [k mod N]. *)
Theorem getDBForUserID_edges (h : Handler) (userID : Z) :
  (DBs h = [] → getDBForUserID h userID = Some (DB h)) ∧
  (DBs h ≠ [] →
   (getDBForUserID h userID = None ↔
    Z.rem (Z.shiftr userID 23) (Z.of_nat (length (DBs h))) < 0) ∧
   (getDBForUserID h userID = None → userID < 0) ∧
   (∀ k low, 0 ≤ k → 0 ≤ low < 2 ^ 23 → userID = k * 2 ^ 23 + low →
             getDBForUserID h userID
             = DBs h !! Z.to_nat (k mod Z.of_nat (length (DBs h))))).
Proof.
  split.
  - intros Hnil. unfold getDBForUserID. by rewrite Hnil.
  - intros Hne. unfold getDBForUserID, shardIndex.
    destruct (DBs h) as [|x l] eqn:HDBs; [done|]. clear Hne.
    set (N := length (x :: l)). assert (0 < Z.of_nat N) as HN by (unfold N; simpl; lia).
    destruct (Nat.eqb_spec N 0) as [H0|_]; [lia|].
    set (index := Z.rem (Z.shiftr userID 23) (Z.of_nat N)).
    assert (Hiff : (if index <? 0 then None else (x :: l) !! Z.to_nat index) = None
                   ↔ index < 0).
    { destruct (Z.ltb_spec index 0); [done|].
      split; [|lia]. intros Hnone. apply lookup_ge_None in Hnone.
      fold N in Hnone.
      assert (Z.abs index < Z.abs (Z.of_nat N)) by (apply Z.rem_bound_abs; lia).
      lia. }
    split; [exact Hiff|]. split.
    + intros Hnone%Hiff. unfold index in Hnone.
      destruct (Z.le_gt_cases 0 userID) as [Hpos|]; [|done].
      assert (0 ≤ Z.shiftr userID 23) by (by apply Z.shiftr_nonneg).
      assert (0 ≤ Z.rem (Z.shiftr userID 23) (Z.of_nat N)) by (apply Z.rem_nonneg; lia).
      lia.
    + intros k low Hk Hlow ->.
      assert (Z.shiftr (k * 2 ^ 23 + low) 23 = k) as Hshift.
      { rewrite Z.shiftr_div_pow2 by lia.
        rewrite Z.add_comm, Z.div_add by lia. rewrite Z.div_small by lia. lia. }
      unfold index. rewrite Hshift.
      rewrite Z.rem_mod_nonneg by lia.
      destruct (Z.ltb_spec (k mod Z.of_nat N) 0); [|done].
      pose proof (Z.mod_pos_bound k (Z.of_nat N) HN). lia.
Qed.

(** ** More on one-time tokens *)

(** A check that returned normally has marked the token's rows deleted on
    the caller's shard and dropped its cache entry. *)
Lemma checkOneTimeToken_Ok h userID token tokenType requestAt db w w' :
  getDBForUserID h userID = Some db →
  checkOneTimeToken h userID token tokenType requestAt w = (Ok tt, w') →
  ∃ d, servers w !! db = Some d ∧
       servers w' = <[db := expireToken requestAt token d]> (servers w) ∧
       TokenCache w' = delete token (TokenCache w).
Proof.
  intros Hdb. unfold checkOneTimeToken, bind, GetToken, get, ret, dbForUserID.
  rewrite Hdb. simpl.
  assert (Hexec : ∀ w0 w1,
            dbExec db (expireToken requestAt token) w0 = (Ok tt, w1) →
            ∃ d, servers w0 !! db = Some d ∧
                 servers w1 = <[db := expireToken requestAt token d]> (servers w0) ∧
                 TokenCache w1 = TokenCache w0).
  { intros w0 w1. unfold dbExec, bind, storeCall, get, ret, throw, modify.
    destruct (faults w0 (storeCalls w0)); [discriminate|]. simpl.
    destruct (servers w0 !! db) as [d|] eqn:Hd; [|discriminate].
    intros [= <-]. simpl. eauto. }
  destruct (TokenCache w !! token) as [info|] eqn:Hc.
  - destruct (TokenInfo.TokenType info =? tokenType); simpl; [|discriminate].
    destruct (TokenInfo.ExpiredAt info <? requestAt); simpl.
    + unfold DeleteToken, modify, ignoreErr, throw. simpl. discriminate.
    + unfold DeleteToken, modify. simpl. intros (d & Hd & Hs & Ht)%Hexec. eauto.
  - unfold orReturn.
    destruct (dbGet db (selectToken token tokenType) w) as [[tk|e] w1] eqn:Hget; [|discriminate].
    pose proof (run_frame _ _ _ _ _
                  (frame_dbGet (λ w, (servers w, TokenCache w)) (λ _ _, eq_refl) db
                     (selectToken token tokenType)) Hget) as [= Hs1 Hc1].
    destruct (UserOneTimeToken.ExpiredAt tk <? requestAt).
    + destruct (dbExec db (expireToken requestAt token) w1) as [[?|?] ?]; discriminate.
    + intros (d & Hd & Hs & Ht)%Hexec. exists d. rewrite <- Hs1, Hs, Ht, Hc1.
      repeat split; try done. by rewrite delete_id.
Qed.

(** Single use within a shard.  A successful check leaves the token spent
    on the caller's shard; and wherever a token is spent on a shard, a
    check by any user routed to that shard, under any kind and at any
    time, is refused (with [ErrInvalidToken] when the store answers) and
    leaves the token spent. *)
Theorem checkOneTimeToken_single_use (h : Handler) (userID : Z) (token : string)
  (tokenType requestAt : Z) (db : Host) (w w1 : World) :
  getDBForUserID h userID = Some db →
  checkOneTimeToken h userID token tokenType requestAt w = (Ok tt, w1) →
  spent token db w1 ∧ is_Some (servers w1 !! db) ∧
  ∀ userID' tokenType' requestAt' w2,
    getDBForUserID h userID' = Some db →
    spent token db w2 →
    let again := checkOneTimeToken h userID' token tokenType' requestAt' w2 in
    fst again ≠ Ok tt ∧
    (faults w2 (storeCalls w2) = false → is_Some (servers w2 !! db) →
     fst again = Err ErrInvalidToken) ∧
    spent token db (snd again).
Proof.
  intros Hdb Hrun. split; [by eapply checkOneTimeToken_spends|].
  split.
  { destruct (checkOneTimeToken_Ok _ _ _ _ _ _ _ _ Hdb Hrun) as (d & Hd & -> & _).
    rewrite list_lookup_insert_eq by (by eapply lookup_lt_Some). by eexists. }
  intros userID' tokenType' requestAt' w2 Hdb' Hspent again.
  destruct (checkOneTimeToken_spent_fails h userID' token tokenType' requestAt' db w2
              Hdb' Hspent) as (Hfail & Hinv & Hkeep).
  split; [|by split].
  fold again in Hfail. by destruct Hfail as [-> | ->].
Qed.

Lemma checkOneTimeToken_single_use_witness :
  let first := checkOneTimeToken oneShard bob "tok-b" 1 20 bobWithToken in
  let again := checkOneTimeToken oneShard bob "tok-b" 1 30 (snd first) in
  fst first = Ok tt ∧ fst again = Err ErrInvalidToken.
Proof.
  cbv zeta.
  destruct (checkOneTimeToken_single_use oneShard bob "tok-b" 1 20 0%nat bobWithToken
              (snd (checkOneTimeToken oneShard bob "tok-b" 1 20 bobWithToken)))
    as (Hspent & Hsrv & Hagain).
  - vm_compute. reflexivity.
  - vm_compute. reflexivity.
  - split; [vm_compute; reflexivity|].
    destruct (Hagain bob 1 30 _ ltac:(vm_compute; reflexivity) Hspent) as (_ & Hinv & _).
    apply Hinv; [vm_compute; reflexivity | exact Hsrv].
Defined.

(** ** listGacha issues a token that the check accepts *)

Lemma frame_dbExec {T} (proj : World → T) db stmt :
  (∀ f w, proj (with_storeCalls f w) = proj w) →
  (∀ f w, proj (with_servers f w) = proj w) →
  frame proj (dbExec db stmt).
Proof.
  intros Hc Hs. unfold dbExec. apply frame_bind; [by apply frame_storeCall|]. intros.
  apply frame_bind; [apply frame_get|]. intros w0.
  destruct (servers w0 !! db); [|apply frame_throw].
  apply frame_modify. intros. apply Hs.
Qed.

Lemma respond_bind {A B} (m : M (Response B) A) (k : A → M (Response B) B) w :
  respond (bind m k) w
  = match m w with
    | (Ok a, w1) => respond (k a) w1
    | (Err e, w1) => (e, w1)
    end.
Proof. unfold respond, bind. by destruct (m w) as [[a|e] w1]. Qed.

Lemma frame_listGachaItems {T} (proj : World → T) h gachaMasterList :
  (∀ f w, proj (with_storeCalls f w) = proj w) →
  frame proj (listGachaItems h gachaMasterList).
Proof.
  intros Hc. induction gachaMasterList as [|v rest IH]; simpl; [apply frame_ret|].
  apply frame_bind; [apply frame_orReturn; by apply frame_dbSelect|]. intros gachaItem.
  destruct (length gachaItem =? 0)%nat; [apply frame_throw|].
  apply frame_bind; [exact IH|]. intros. apply frame_ret.
Qed.

Lemma raises_listGachaItems h gachaMasterList :
  raises (λ r, ∃ statusCode err, r = errorResponse statusCode err)
         (listGachaItems h gachaMasterList).
Proof.
  induction gachaMasterList as [|v rest IH]; simpl; [apply raises_ret|].
  apply raises_bind.
  { eapply raises_orReturn with (Y := λ _, True); [by intros ? ? ? ?|]. eauto. }
  intros gachaItem. destruct (length gachaItem =? 0)%nat; [apply raises_throw; eauto|].
  apply raises_bind; [exact IH|]. intros. apply raises_ret.
Qed.

Lemma listGachaItems_Ok h gachaMasterList w gachas w' :
  listGachaItems h gachaMasterList w = (Ok gachas, w') →
  length gachas = length gachaMasterList.
Proof.
  revert w gachas w'. induction gachaMasterList as [|v rest IH]; intros w gachas w'; simpl.
  - by intros [= <- _].
  - intros (gachaItem & w1 & _ & Hrest)%bind_Ok.
    destruct (length gachaItem =? 0)%nat; [discriminate|].
    apply bind_Ok in Hrest as (more & w2 & Hmore & [= <- _]).
    simpl. f_equal. by eapply IH.
Qed.

(** What a listing that returned a catalogue has done: the caller's live
    token rows on the unsharded server are marked deleted, a row for the
    new token is added there, and the cache holds the new token under kind
    1, expiring 600 seconds later (a wrapping sum). *)
Lemma listGacha_Ok h userID requestAt tk w token gachas :
  fst (listGacha h userID requestAt tk w) = successResponse (token, gachas) →
  gachas ≠ [] →
  let w1 := snd (listGacha h userID requestAt tk w) in
  token = tk ∧
  TokenCache w1 = <[tk := TokenInfo.mk userID 1 (add64 requestAt 600) requestAt]> (TokenCache w) ∧
  faults w1 = faults w ∧
  ∃ d, servers w !! DB h = Some d ∧
       servers w1
       = <[DB h := insertToken
                     (UserOneTimeToken.mk (snowflakeNode w) userID tk 1 (add64 requestAt 600)
                        requestAt requestAt None)
                     (expireTokensOf requestAt userID d)]> (servers w).
Proof.
  cbv zeta.
  set (r := listGacha h userID requestAt tk w).
  assert (Hr : r = listGacha h userID requestAt tk w) by done.
  clearbody r. unfold listGacha in Hr. rewrite respond_step in Hr.
  destruct (dbSelect (DB h) (activeGachas requestAt) w) as [[gachaMasterList|e] w1] eqn:Hsel.
  2:{ subst r. discriminate. }
  apply dbSelect_Ok in Hsel as (d & Hd & -> & ->).
  destruct (length (activeGachas requestAt d) =? 0)%nat.
  { subst r. simpl. intros [= _ <-]. done. }
  rewrite respond_bind in Hr.
  destruct (listGachaItems h (activeGachas requestAt d) (with_storeCalls S w))
    as [[gachaDataList|e] w2] eqn:Hitems.
  2:{ apply (run_raises _ _ _ _ _ (raises_listGachaItems _ _)) in Hitems
        as (statusCode & err & ->). subst r. discriminate. }
  pose proof (run_frame _ _ _ _ _
                (frame_listGachaItems
                   (λ w, (servers w, TokenCache w, faults w, snowflakeNode w))
                   h _ (λ _ _, eq_refl)) Hitems) as [= Hs2 Hc2 Hf2 Hn2].
  rewrite respond_step in Hr.
  destruct (dbExec (DB h) (expireTokensOf requestAt userID) w2) as [[[]|e] w3] eqn:Hexp.
  2:{ subst r. discriminate. }
  unfold dbExec in Hexp.
  apply bind_Ok in Hexp as (? & w2' & [_ ->]%storeCall_Ok & Hexp).
  apply bind_Ok in Hexp as (? & ? & [= <- <-] & Hexp). simpl in Hexp.
  rewrite Hs2, Hd in Hexp. injection Hexp as <-.
  rewrite respond_bind in Hr. unfold generateID at 1 in Hr. cbn beta iota in Hr.
  rewrite respond_step in Hr.
  match type of Hr with context [dbExec (DB h) ?stmt ?w0] =>
    destruct (dbExec (DB h) stmt w0) as [[[]|e] w4] eqn:Hins end.
  2:{ subst r. discriminate. }
  unfold dbExec in Hins.
  apply bind_Ok in Hins as (? & w3' & [_ ->]%storeCall_Ok & Hins).
  apply bind_Ok in Hins as (? & ? & [= <- <-] & Hins). simpl in Hins.
  rewrite Hs2 in Hins.
  rewrite list_lookup_insert_eq in Hins by (by eapply lookup_lt_Some).
  injection Hins as <-.
  rewrite respond_step in Hr. unfold SetToken, modify at 1 in Hr. cbn beta iota in Hr.
  unfold respond, ret in Hr. subst r. simpl.
  intros [= <- <-] _. split; [done|].
  rewrite Hc2, Hf2, Hs2, Hn2. split; [done|]. split; [done|].
  exists d. split; [done|]. by rewrite list_insert_insert_eq.
Qed.

(** Issue, then use: after a listing that returned a catalogue, and while
    the store answers, the caller's check of the returned token under kind
    1 succeeds at any time up to the expiry stored with the token (the
    time of the listing plus 600 seconds, an [int64] sum that wraps) and
    is refused after that; under kind 2 it is refused; and the check under
    kind 1 removes the token from the cache either way. *)
Theorem listGacha_token_usable (h : Handler) (userID requestAt requestAt' : Z)
  (tk token : string) (gachas : list (GachaMaster.t * list GachaItemMaster.t))
  (db : Host) (w : World) :
  fst (listGacha h userID requestAt tk w) = successResponse (token, gachas) →
  gachas ≠ [] →
  (∀ n, faults w n = false) →
  getDBForUserID h userID = Some db →
  (db < length (servers w))%nat →
  let w1 := snd (listGacha h userID requestAt tk w) in
  token = tk ∧
  fst (checkOneTimeToken h userID tk 1 requestAt' w1)
  = (if requestAt' <=? add64 requestAt 600 then Ok tt else Err ErrInvalidToken) ∧
  TokenCache (snd (checkOneTimeToken h userID tk 1 requestAt' w1)) !! tk = None ∧
  checkOneTimeToken h userID tk 2 requestAt' w1 = (Err ErrInvalidToken, w1).
Proof.
  intros Hok Hne Hf Hdb Hlt w1.
  destruct (listGacha_Ok h userID requestAt tk w token gachas Hok Hne)
    as (-> & Hcache & Hfaults & d & Hd & Hservers).
  fold w1 in Hcache, Hfaults, Hservers.
  split; [done|].
  assert (Hinfo : TokenCache w1 !! tk
                  = Some (TokenInfo.mk userID 1 (add64 requestAt 600) requestAt))
    by (rewrite Hcache; apply lookup_insert_eq).
  assert (is_Some (servers w1 !! db)) as [d1 Hd1].
  { apply lookup_lt_is_Some. rewrite Hservers, length_insert. done. }
  split; [|split].
  - unfold checkOneTimeToken, bind, GetToken, get, ret. simpl. rewrite Hinfo. simpl.
    destruct (Z.ltb_spec (add64 requestAt 600) requestAt'),
             (Z.leb_spec requestAt' (add64 requestAt 600)); try lia.
    + unfold DeleteToken, modify. simpl. rewrite (dbForUserID_run _ _ _ _ Hdb).
      unfold ignoreErr, throw. done.
    + unfold DeleteToken, modify. simpl. rewrite (dbForUserID_run _ _ _ _ Hdb).
      erewrite dbExec_run; [done| |exact Hd1]. simpl. rewrite Hfaults. apply Hf.
  - unfold checkOneTimeToken, bind, GetToken, get, ret. simpl. rewrite Hinfo. simpl.
    destruct (Z.ltb_spec (add64 requestAt 600) requestAt').
    + unfold DeleteToken, modify. simpl. rewrite (dbForUserID_run _ _ _ _ Hdb).
      unfold ignoreErr, throw. simpl.
      match goal with |- context [dbExec db ?stmt ?w0] =>
        pose proof (run_frame TokenCache (dbExec db stmt) w0) as Hfr end.
      match goal with |- context [dbExec db ?stmt ?w0] =>
        destruct (dbExec db stmt w0) as [r w2] eqn:Hrun end.
      simpl. erewrite (Hfr r w2); [apply lookup_delete_eq| |done].
      by apply frame_dbExec.
    + unfold DeleteToken, modify. simpl. rewrite (dbForUserID_run _ _ _ _ Hdb).
      erewrite dbExec_run; [|simpl; rewrite Hfaults; apply Hf|exact Hd1].
      simpl. apply lookup_delete_eq.
  - apply (checkOneTimeToken_wrong_kind _ _ _ _ _ _ _ Hinfo). simpl. lia.
Qed.

Lemma listGacha_token_usable_witness :
  fst (checkOneTimeToken oneShard bob "tok-b" 1 610 bobWithToken) = Ok tt ∧
  fst (checkOneTimeToken oneShard bob "tok-b" 1 611 bobWithToken) = Err ErrInvalidToken ∧
  fst (checkOneTimeToken oneShard bob "tok-b" 2 20 bobWithToken) = Err ErrInvalidToken.
Proof.
  assert (Hlist : fst (listGacha oneShard bob 10 "tok-b" (freshWorld [shard0]))
                  = successResponse ("tok-b"%string, [(demoGacha, demoGachaItems)]))
    by (vm_compute; reflexivity).
  assert (Hne : [(demoGacha, demoGachaItems)] ≠ []) by discriminate.
  assert (Hf : ∀ n, faults (freshWorld [shard0]) n = false) by (intros n; reflexivity).
  assert (Hdb : getDBForUserID oneShard bob = Some 0%nat) by (vm_compute; reflexivity).
  assert (Hlt : (0 < length (servers (freshWorld [shard0])))%nat) by (simpl; lia).
  pose proof (λ t, listGacha_token_usable oneShard bob 10 t "tok-b" "tok-b" _ 0%nat
                     (freshWorld [shard0]) Hlist Hne Hf Hdb Hlt) as Huse.
  cbv zeta in Huse. unfold bobWithToken.
  destruct (Huse 610) as (_ & H1 & _ & _).
  destruct (Huse 611) as (_ & H2 & _ & _).
  destruct (Huse 20) as (_ & _ & _ & H3).
  split; [exact H1|]. split; [exact H2|]. rewrite H3. reflexivity.
Defined.

(** ** drawGacha: what a draw commits, and what a failed draw leaves *)

Section RollsBack.
Context {T} (proj : World → T).

Lemma rollsBack_frame {E A} (m : M E A) : frame proj m → rollsBack proj m.
Proof. intros Hm w e w' Hr. specialize (Hm w). by rewrite Hr in Hm. Qed.

Lemma rollsBack_bind {E A B} (m : M E A) (k : A → M E B) :
  frame proj m → (∀ a, rollsBack proj (k a)) → rollsBack proj (bind m k).
Proof.
  intros Hm Hk w e w'. unfold bind. specialize (Hm w).
  destruct (m w) as [[a|e0] w1] eqn:Hmw; simpl in Hm.
  - intros Hr. rewrite (Hk a _ _ _ Hr). exact Hm.
  - by intros [= _ <-].
Qed.

Lemma rollsBack_last {E A B} (m : M E A) (k : A → M E B) :
  rollsBack proj m → (∀ a, raises (λ _, False) (k a)) → rollsBack proj (bind m k).
Proof.
  intros Hm Hk w e w'. unfold bind.
  destruct (m w) as [[a|e0] w1] eqn:Hmw.
  - intros Hr. by destruct (Hk a _ _ _ Hr).
  - intros [= _ <-]. by eapply Hm.
Qed.

Lemma rollsBack_orReturn {E E' A} (m : M E A) (f : E → E') :
  rollsBack proj m → rollsBack proj (orReturn m f).
Proof.
  intros Hm w e w'. unfold orReturn.
  destruct (m w) as [[a|e0] w1] eqn:Hmw; [discriminate|].
  intros [= _ <-]. by eapply Hm.
Qed.

Lemma rollsBack_respond {A} (m : M (Response A) A) w :
  rollsBack proj m → raises isErrorResponse m →
  isErrorResponse (fst (respond m w)) → proj (snd (respond m w)) = proj w.
Proof.
  intros Hm _. unfold respond. destruct (m w) as [[a|e] w1] eqn:Hmw; simpl.
  - intros (? & ? & [=]).
  - intros _. by eapply Hm.
Qed.

End RollsBack.

Lemma raises_orReturn_shape {E E' A} (X : E' → Prop) (m : M E A) (f : E → E') :
  (∀ e, X (f e)) → raises X (orReturn m f).
Proof.
  intros Hf w e w'. unfold orReturn. destruct (m w) as [[a|e0] w1]; [discriminate|].
  intros [= <- _]. apply Hf.
Qed.

Lemma isErrorResponse_error {A} statusCode err : @isErrorResponse A (errorResponse statusCode err).
Proof. by eexists _, _. Qed.


(** The token check touches no table but the one-time tokens. *)
Lemma frame_dbExec_expireToken db requestAt token :
  frame allButTokens (dbExec db (expireToken requestAt token)).
Proof.
  intros w. unfold dbExec, bind, storeCall, get, modify, throw, sameOn, allButTokens.
  destruct (faults w (storeCalls w)); [done|]. simpl.
  destruct (servers w !! db) as [d|] eqn:Hd; [|done]. simpl.
  eapply eraseTokens_insert; [exact Hd | apply eraseTokens_expireToken].
Qed.

Lemma frame_checkOneTimeToken h userID token tokenType requestAt :
  frame allButTokens (checkOneTimeToken h userID token tokenType requestAt).
Proof.
  unfold checkOneTimeToken, GetToken, DeleteToken, dbForUserID.
  apply frame_bind; [frame_auto|]. intros [info|].
  - destruct (negb _); [apply frame_throw|].
    destruct (_ <? _).
    + apply frame_bind; [frame_auto|]. intros.
      apply frame_bind; [destruct (getDBForUserID h userID); frame_auto|]. intros db.
      apply frame_bind; [apply frame_ignoreErr, frame_dbExec_expireToken|].
      intros. apply frame_throw.
    + apply frame_bind; [frame_auto|]. intros.
      apply frame_bind; [destruct (getDBForUserID h userID); frame_auto|]. intros db.
      apply frame_dbExec_expireToken.
  - apply frame_bind; [destruct (getDBForUserID h userID); frame_auto|]. intros db.
    apply frame_bind; [apply frame_orReturn; by apply frame_dbGet|]. intros tk.
    destruct (_ <? _).
    + apply frame_bind; [apply frame_dbExec_expireToken | intros; apply frame_throw].
    + apply frame_dbExec_expireToken.
Qed.

Lemma frame_lottery {T} (proj : World → T) gachaCount sum gachaItemList :
  (∀ f w, proj (with_randCalls f w) = proj w) →
  frame proj (lottery gachaCount sum gachaItemList).
Proof.
  intros Hr. induction gachaCount as [|n IH]; simpl; [apply frame_ret|].
  apply frame_bind.
  { unfold Int63n. destruct (sum <=? 0); [apply frame_throw|]. intros w. apply Hr. }
  intros. apply frame_bind; [exact IH|]. intros. apply frame_ret.
Qed.

Lemma frame_makePresents {T} (proj : World → T) result userID requestAt presentMessage :
  (∀ f w, proj (with_snowflakeNode f w) = proj w) →
  frame proj (makePresents result userID requestAt presentMessage).
Proof.
  intros Hn. induction result as [|v rest IH]; simpl; [apply frame_ret|].
  apply frame_bind; [intros w; apply Hn|]. intros.
  apply frame_bind; [exact IH|]. intros. apply frame_ret.
Qed.

Lemma frame_insertPresents {T} (proj : World → T) presents :
  (∀ f w, proj (with_storeCalls f w) = proj w) →
  (∀ f w, proj (with_tx f w) = proj w) →
  frame proj (insertPresents presents).
Proof.
  intros Hc Ht. induction presents as [|p rest IH]; simpl; [apply frame_ret|].
  apply frame_bind; [|by intros].
  apply frame_txExec; [done|]. intros. apply Ht.
Qed.


Lemma insertPresents_Ok presents w w' :
  insertPresents presents w = (Ok tt, w') →
  tx w' = with_user_presents (λ rows, rows ++ presents) (tx w).
Proof.
  revert w. induction presents as [|p rest IH]; intros w; simpl.
  - intros [= <-]. destruct (tx w). unfold with_user_presents. simpl. by rewrite app_nil_r.
  - intros ([] & w1 & ->%txExec_Ok & Hrest)%bind_Ok.
    rewrite (IH _ Hrest). simpl. destruct (tx w). unfold with_user_presents. simpl.
    by rewrite <- app_assoc.
Qed.

Ltac raises_response :=
  repeat first
    [ apply raises_bind; [|intros ?]
    | (apply raises_orReturn_shape; intros []; apply isErrorResponse_error)
    | progress cbv zeta
    | apply raises_ret
    | (apply raises_throw; apply isErrorResponse_error)
    | match goal with
      | |- raises _ (if ?b then _ else _) => destruct b
      | |- raises _ (match ?x with _ => _ end) => destruct x
      end ].

Lemma rollsBack_Commit db : rollsBack allButTokens (Commit db).
Proof.
  intros w e w' Hr. apply Commit_servers in Hr. unfold allButTokens. by rewrite Hr.
Qed.

Ltac frame_tables :=
  first
    [ apply frame_checkOneTimeToken
    | (apply frame_checkViewerID; intros ? ?; reflexivity)
    | (apply frame_lottery; intros ? ?; reflexivity)
    | (apply frame_Beginx; intros ? ?; reflexivity)
    | (apply frame_makePresents; intros ? ?; reflexivity)
    | (apply frame_insertPresents; intros ? ?; reflexivity)
    | (apply frame_orReturn; frame_tables)
    | (unfold SetGachaItems, GetGachaItems, dbForUserID; frame_auto) ].

Ltac rollsBack_steps :=
  repeat first
    [ progress cbv zeta
    | match goal with
      | |- rollsBack _ (if ?b then _ else _) => destruct b
      | |- rollsBack _ (match ?x with _ => _ end) => destruct x
      | |- rollsBack _ (throw _) => apply rollsBack_frame, frame_throw
      | |- rollsBack _ (ret _) => apply rollsBack_frame, frame_ret
      | |- rollsBack _ (bind (orReturn (Commit _) _) _) =>
          apply rollsBack_last;
          [apply rollsBack_orReturn, rollsBack_Commit | intros; apply raises_ret]
      | |- rollsBack _ (bind _ _) => apply rollsBack_bind; [frame_tables | intros ?]
      end ].

Lemma drawGacha_body h userID gachaID gachaCount requestAt req :
  ∃ body, drawGacha h userID gachaID gachaCount requestAt req = respond body ∧
          raises isErrorResponse body ∧ rollsBack allButTokens body.
Proof.
  eexists. split; [reflexivity|]. split.
  - raises_response.
  - rollsBack_steps.
Qed.

Lemma dbGet_Ok {A} db (query : Database → option A) w row w' :
  dbGet db query w = (Ok row, w') →
  ∃ d, servers w !! db = Some d ∧ query d = Some row ∧ w' = with_storeCalls S w.
Proof.
  unfold dbGet. intros (? & w1 & [_ ->]%storeCall_Ok & Hrest)%bind_Ok.
  apply bind_Ok in Hrest as (w2 & w3 & [= <- <-] & Hrest). simpl in Hrest.
  destruct (servers w !! db) as [d|]; [|discriminate].
  destruct (query d) as [row'|] eqn:Hq; [|discriminate].
  injection Hrest as <- <-. eauto.
Qed.

Lemma selectUser_ID userID d user : selectUser userID d = Some user → User.ID user = userID.
Proof.
  unfold selectUser. intros [_ H]%find_some. by apply Z.eqb_eq in H.
Qed.



(** A draw that ends with an error response, whatever the error, has
    changed no table of any server other than the one-time tokens: no
    balance, present, card or item is written unless the whole draw
    commits. *)
Theorem drawGacha_failure_keeps_tables (h : Handler)
  (userID gachaID gachaCount requestAt : Z) (req : DrawGachaRequest.t) (w : World)
  (statusCode : Z) (err : error) :
  fst (drawGacha h userID gachaID gachaCount requestAt req w) = errorResponse statusCode err →
  allButTokens (snd (drawGacha h userID gachaID gachaCount requestAt req w))
  = allButTokens w.
Proof.
  destruct (drawGacha_body h userID gachaID gachaCount requestAt req)
    as (body & -> & Hraises & Hrolls).
  intros Herr. apply rollsBack_respond; [done | done |].
  rewrite Herr. apply isErrorResponse_error.
Qed.

Lemma drawGacha_failure_keeps_tables_witness :
  fst (drawGacha oneShard bob 1 10 20 bobDraws bobWithToken)
  = errorResponse StatusConflict (Errorf "not enough isucon") ∧
  allButTokens (snd (drawGacha oneShard bob 1 10 20 bobDraws bobWithToken))
  = allButTokens bobWithToken.
Proof.
  assert (fst (drawGacha oneShard bob 1 10 20 bobDraws bobWithToken)
          = errorResponse StatusConflict (Errorf "not enough isucon")) as Herr
    by (vm_compute; reflexivity).
  split; [exact Herr|].
  exact (drawGacha_failure_keeps_tables oneShard bob 1 10 20 bobDraws bobWithToken _ _ Herr).
Defined.

(** ** receivePresent, repeated *)

Lemma checkViewerID_Ok h userID viewerID db w w' :
  getDBForUserID h userID = Some db →
  checkViewerID h userID viewerID w = (Ok tt, w') →
  ∃ d, servers w !! db = Some d ∧ is_Some (selectDevice userID viewerID d) ∧
       w' = with_storeCalls S w.
Proof.
  intros Hdb. unfold checkViewerID. unfold bind at 1.
  rewrite (dbForUserID_run _ _ _ _ Hdb).
  intros (dev & w1 & Hget%orReturn_Ok & [= <-])%bind_Ok.
  apply dbGet_Ok in Hget as (d & Hd & Hdev & ->). eauto.
Qed.

Lemma checkViewerID_run h userID viewerID db d w :
  getDBForUserID h userID = Some db → servers w !! db = Some d →
  faults w (storeCalls w) = false →
  is_Some (selectDevice userID viewerID d) →
  checkViewerID h userID viewerID w = (Ok tt, with_storeCalls S w).
Proof.
  intros Hdb Hd Hf [dev Hdev]. unfold checkViewerID. unfold bind at 1.
  rewrite (dbForUserID_run _ _ _ _ Hdb). unfold bind, orReturn.
  rewrite (dbGet_run _ _ _ _ Hf Hd), Hdev. done.
Qed.

(** Nothing is left to receive once the named presents are marked. *)
Lemma selectUnreceived_markReceived presentIDs requestAt d :
  selectUnreceived presentIDs
    (markReceived requestAt
       (map UserPresent.ID
          (map (UserPresent.with_deleted requestAt (Some requestAt))
               (selectUnreceived presentIDs d))) d) = [].
Proof.
  unfold selectUnreceived, markReceived. destruct d as [? ? ? ? presents ? ? ? ? ? ? ?].
  simpl. rewrite map_map. simpl.
  set (ids := map UserPresent.ID _).
  assert (Hids : ∀ p, p ∈ presents → inZ (UserPresent.ID p) presentIDs = true →
                      UserPresent.DeletedAt p = None → inZ (UserPresent.ID p) ids = true).
  { intros p Hp Hin Hdel. apply inZ_elem_of. unfold ids.
    apply list_elem_of_fmap. exists p. split; [done|].
    apply list_elem_of_In, filter_In. split; [by apply list_elem_of_In|].
    by rewrite Hin, Hdel. }
  clearbody ids. induction presents as [|p l IH]; [done|]. simpl.
  rewrite IH by (intros; apply Hids; [by right|done..]).
  destruct (inZ (UserPresent.ID p) ids) eqn:Hp; simpl.
  - by rewrite andb_false_r.
  - destruct (inZ (UserPresent.ID p) presentIDs) eqn:Hin; [|done].
    destruct (UserPresent.DeletedAt p) eqn:Hdel; [done|].
    rewrite Hids in Hp; [done|by left|done|done].
Qed.

(** The device the caller named is registered on the caller's shard
    whenever a receive request succeeds. *)
Lemma receivePresent_device h userID requestAt req w granted db :
  getDBForUserID h userID = Some db →
  fst (receivePresent h userID requestAt req w) = successResponse granted →
  ReceivePresentRequest.PresentIDs req ≠ [] ∧
  ∃ d, servers w !! db = Some d ∧
       is_Some (selectDevice userID (ReceivePresentRequest.ViewerID req) d).
Proof.
  intros Hdb. unfold receivePresent.
  destruct (ReceivePresentRequest.PresentIDs req) as [|i ids] eqn:Hids; [discriminate|].
  cbn [length Nat.eqb]. rewrite respond_step.
  destruct (checkViewerID h userID (ReceivePresentRequest.ViewerID req) w)
    as [[[]|e] w1] eqn:Hview; [|by destruct e].
  intros _. split; [done|].
  apply (checkViewerID_Ok _ _ _ _ _ _ Hdb) in Hview as (d & Hd & Hdev & _). eauto.
Qed.

(** Receiving is idempotent.  After a receive request has succeeded, the
    same request made again (at any time) changes no server; it cannot
    grant anything a second time, and while the store answers it succeeds
    with an empty list. *)
Theorem receivePresent_idempotent (h : Handler) (userID requestAt requestAt' : Z)
  (req : ReceivePresentRequest.t) (w : World) (granted : list UserPresent.t) :
  fst (receivePresent h userID requestAt req w) = successResponse granted →
  let w1 := snd (receivePresent h userID requestAt req w) in
  let again := receivePresent h userID requestAt' req w1 in
  servers (snd again) = servers w1 ∧
  (∀ granted', fst again = successResponse granted' → granted' = []) ∧
  ((∀ n, faults w1 n = false) → fst again = successResponse []).
Proof.
  intros Hok w1 again.
  destruct (receivePresent_outcome h userID requestAt req w)
    as [(code & e & Herr & _) | (db & d & Hdb & Hd & Hgranted & Hstate)];
    [by rewrite Hok in Herr|].
  cbv zeta in Hgranted, Hstate. fold w1 in Hstate.
  destruct (receivePresent_device _ _ _ _ _ _ _ Hdb Hok) as (Hne & d0 & Hd0 & Hdev).
  rewrite Hd in Hd0. injection Hd0 as <-.
  (* the server of the user after the first call *)
  assert (∃ d1, servers w1 !! db = Some d1 ∧
                selectUnreceived (ReceivePresentRequest.PresentIDs req) d1 = [] ∧
                user_devices d1 = user_devices d) as (d1 & Hd1 & Hnone & Hdevs).
  { destruct Hstate as [[Hnil Hs] | (Hne' & wa & wb & Htx & _ & _ & Hgrant & Hs)].
    - exists d. rewrite Hs. done.
    - exists (tx wb). rewrite Hs. split.
      { apply list_lookup_insert_eq. by eapply lookup_lt_Some. }
      pose proof (run_frame grantFootprint _ _ _ _ (frame_obtainItemsBatch _ _ _ _) Hgrant)
        as Hfoot.
      unfold grantFootprint in Hfoot. injection Hfoot as _ Hdv Hp _.
      unfold selectUnreceived. rewrite Hp, Hdv, Htx. split.
      + apply selectUnreceived_markReceived.
      + by destruct d. }
  assert (Hdev1 : is_Some (selectDevice userID (ReceivePresentRequest.ViewerID req) d1)).
  { unfold selectDevice in *. by rewrite Hdevs. }
  destruct (receivePresent_outcome h userID requestAt' req w1)
    as [(code & e & Herr & _ & Hs) | (db' & d' & Hdb' & Hd' & Hgranted' & Hstate')].
  - fold again in Herr, Hs. split; [done|]. split; [intros ?; by rewrite Herr|].
    intros Hf. exfalso. revert Herr. unfold again, receivePresent.
    destruct (ReceivePresentRequest.PresentIDs req) as [|i ids] eqn:Hids; [done|].
    cbn [length Nat.eqb]. rewrite respond_step.
    rewrite (checkViewerID_run _ _ _ _ _ _ Hdb Hd1 (Hf _) Hdev1).
    rewrite respond_step. rewrite (dbForUserID_run _ _ _ _ Hdb).
    rewrite respond_step. erewrite dbSelect_run; [|apply Hf|exact Hd1].
    rewrite Hnone. simpl. discriminate.
  - cbv zeta in Hgranted', Hstate'. fold again in Hgranted', Hstate'.
    rewrite Hdb in Hdb'. injection Hdb' as <-.
    rewrite Hd1 in Hd'. injection Hd' as <-.
    rewrite Hnone in Hgranted', Hstate'. simpl in Hgranted'.
    destruct Hstate' as [[_ Hs] | [Hcontra _]]; [|done].
    split; [done|]. split; [|done].
    intros granted'. rewrite Hgranted'. by intros [= <-].
Qed.

Lemma receivePresent_idempotent_witness :
  let w1 := snd (receivePresent oneShard bob 50 allGifts giftWorld) in
  servers (snd (receivePresent oneShard bob 60 allGifts w1)) = servers w1 ∧
  fst (receivePresent oneShard bob 60 allGifts w1) = successResponse [].
Proof.
  cbv zeta.
  assert (∃ granted, fst (receivePresent oneShard bob 50 allGifts giftWorld)
                     = successResponse granted) as [granted Hok]
    by (eexists; vm_compute; reflexivity).
  destruct (receivePresent_idempotent oneShard bob 50 60 allGifts giftWorld granted Hok)
    as (Hs & _ & Hagain).
  split; [exact Hs|]. apply Hagain. intros n. vm_compute. reflexivity.
Defined.

(** ** listPresent: the pages *)

Lemma unreceivedOf_elem userID d p :
  p ∈ unreceivedOf userID d ↔
  p ∈ user_presents d ∧ UserPresent.UserID p = userID ∧ UserPresent.DeletedAt p = None.
Proof.
  unfold unreceivedOf. rewrite list_elem_of_In, filter_In, <- list_elem_of_In.
  rewrite andb_true_iff, Z.eqb_eq.
  destruct (UserPresent.DeletedAt p); simpl; intuition congruence.
Qed.

(** What a page request that succeeds returns. *)
Lemma listPresent_Ok h userID n w presentList isNext :
  fst (listPresent h userID n w) = successResponse (presentList, isNext) →
  n ≠ 0 ∧ 0 ≤ wrap64 (PresentCountPerPage * (n - 1)) ∧
  ∃ db d,
    getDBForUserID h userID = Some db ∧ servers w !! db = Some d ∧
    let offset := wrap64 (PresentCountPerPage * (n - 1)) in
    presentList = selectPresentPage userID PresentCountPerPage offset d ∧
    isNext = (add64 offset PresentCountPerPage <? Z.of_nat (length (unreceivedOf userID d))).
Proof.
  unfold listPresent. destruct (Z.eqb_spec n 0) as [|Hn]; [discriminate|].
  cbv zeta. rewrite respond_step. unfold dbForUserID.
  destruct (getDBForUserID h userID) as [db|] eqn:Hdb; [|discriminate].
  unfold ret at 1. rewrite respond_step.
  destruct (Z.ltb_spec (wrap64 (PresentCountPerPage * (n - 1))) 0) as [|Hoff].
  { unfold bind, storeCall, throw. by destruct (faults w (storeCalls w)). }
  destruct (dbSelect db _ w) as [[rows|e] w1] eqn:Hsel; [|discriminate].
  apply dbSelect_Ok in Hsel as (d & Hd & -> & ->).
  rewrite respond_step.
  destruct (dbGet db (countUnreceived userID) (with_storeCalls S w))
    as [[count|e] w2] eqn:Hcount; [|discriminate].
  apply dbGet_Ok in Hcount as (d' & Hd' & Hcount & ->). simpl in Hd'.
  rewrite Hd in Hd'. injection Hd' as <-. injection Hcount as <-.
  unfold respond, ret. simpl. intros [= <- <-].
  split; [done|]. split; [done|]. exists db, d. done.
Qed.

Lemma frame_listPresent_servers h userID n w :
  servers (snd (listPresent h userID n w)) = servers w.
Proof.
  unfold listPresent. apply frame_respond.
  destruct (n =? 0); [apply frame_throw|]. cbv zeta.
  apply frame_bind.
  { apply frame_orReturn. unfold dbForUserID. destruct (getDBForUserID h userID); frame_auto. }
  intros db. apply frame_bind.
  { apply frame_orReturn. destruct (_ <? 0); frame_auto. }
  intros. apply frame_bind; [apply frame_orReturn; by apply frame_dbGet|].
  intros. apply frame_ret.
Qed.

(** A page [n >= 1] that is served holds at most 100 presents, all of them
    unreceived presents of the user, newest first; the request writes
    nothing; and, as long as [100 * n] is an [int], [isNext] says exactly
    whether the next page, asked for in the state the request leaves, has
    anything on it (so a page followed by another is full). *)
Theorem listPresent_pages (h : Handler) (userID n : Z) (w : World)
  (presentList nextList : list UserPresent.t) (isNext isNext' : bool) :
  1 ≤ n → PresentCountPerPage * n < 2 ^ 63 →
  fst (listPresent h userID n w) = successResponse (presentList, isNext) →
  let w1 := snd (listPresent h userID n w) in
  fst (listPresent h userID (n + 1) w1) = successResponse (nextList, isNext') →
  servers w1 = servers w ∧
  (length presentList ≤ 100)%nat ∧
  (∀ p, p ∈ presentList →
        UserPresent.UserID p = userID ∧ UserPresent.DeletedAt p = None) ∧
  StronglySorted newestFirst presentList ∧
  (isNext = true ↔ nextList ≠ []) ∧
  (isNext = true → length presentList = 100%nat).
Proof.
  intros Hn Hmax Hok w1 Hok'.
  pose proof (frame_listPresent_servers h userID n w) as Hs. fold w1 in Hs.
  apply listPresent_Ok in Hok as (_ & _ & db & d & Hdb & Hd & Hlist & Hnext).
  apply listPresent_Ok in Hok' as (_ & _ & db' & d' & Hdb' & Hd' & Hlist' & _).
  rewrite Hdb in Hdb'. injection Hdb' as <-.
  rewrite Hs, Hd in Hd'. injection Hd' as <-.
  cbv zeta in *. unfold PresentCountPerPage in *.
  replace (n + 1 - 1) with n in Hlist' by lia.
  rewrite wrap64_id in Hlist, Hnext by (unfold in_int64; lia).
  rewrite wrap64_id in Hlist' by (unfold in_int64; lia).
  unfold add64 in Hnext. rewrite wrap64_id in Hnext by (unfold in_int64; lia).
  unfold selectPresentPage in *.
  set (sorted := merge_sort newestFirst (unreceivedOf userID d)) in *.
  assert (Hlen : length sorted = length (unreceivedOf userID d))
    by (unfold sorted; apply Permutation_length, merge_sort_Permutation).
  rewrite <- Hlen in Hnext.
  assert (Hsorted : StronglySorted newestFirst sorted).
  { unfold sorted. apply StronglySorted_merge_sort.
    - intros a b c. unfold newestFirst. lia.
    - intros a b. unfold newestFirst. lia. }
  split; [done|]. subst presentList nextList isNext.
  rewrite length_take, length_drop.
  split; [lia|]. split; [|split; [|split]].
  - intros p Hp.
    eapply elem_of_sublist in Hp; [|etrans; [apply sublist_take | apply sublist_drop]].
    unfold sorted in Hp. rewrite merge_sort_Permutation in Hp.
    apply unreceivedOf_elem in Hp. tauto.
  - rewrite <- (take_drop (Z.to_nat (100 * (n - 1))) sorted) in Hsorted.
    apply StronglySorted_app_1_r in Hsorted.
    rewrite <- (take_drop (Z.to_nat 100) (drop _ sorted)) in Hsorted.
    by apply StronglySorted_app_1_l in Hsorted.
  - rewrite Z.ltb_lt. replace (100 * (n - 1) + 100) with (100 * n) by lia.
    split.
    + intros Hlt Hnil. apply (f_equal length) in Hnil.
      rewrite length_take, length_drop in Hnil. cbn [length] in Hnil. lia.
    + intros Hne. destruct (Z.lt_ge_cases (100 * n) (Z.of_nat (length sorted))); [done|].
      exfalso. apply Hne. rewrite drop_ge by lia. done.
  - rewrite Z.ltb_lt. lia.
Qed.

Lemma listPresent_pages_witness :
  ∃ page1 page2,
    fst (listPresent oneShard bob 1 (freshWorld [crowdedShard])) = successResponse (page1, true) ∧
    fst (listPresent oneShard bob 2 (freshWorld [crowdedShard])) = successResponse (page2, false) ∧
    length page1 = 100%nat ∧ page2 ≠ [] ∧
    StronglySorted newestFirst page1.
Proof.
  assert (∃ page1, fst (listPresent oneShard bob 1 (freshWorld [crowdedShard]))
                   = successResponse (page1, true)) as [page1 H1]
    by (eexists; vm_compute; reflexivity).
  assert (∃ page2, fst (listPresent oneShard bob 2
                          (snd (listPresent oneShard bob 1 (freshWorld [crowdedShard]))))
                   = successResponse (page2, false)) as [page2 H2]
    by (eexists; vm_compute; reflexivity).
  destruct (listPresent_pages oneShard bob 1 (freshWorld [crowdedShard]) page1 page2
              true false ltac:(lia) ltac:(vm_compute; reflexivity) H1 H2)
    as (_ & _ & _ & Hsorted & Hnext & Hfull).
  exists page1, page2. split; [exact H1|]. split.
  { rewrite <- H2. vm_compute. reflexivity. }
  split; [by apply Hfull|]. split; [by apply Hnext | exact Hsorted].
Defined.

(** ** listItem: the listing and its token *)

Lemma dbExec_Ok db stmt w w' :
  dbExec db stmt w = (Ok tt, w') →
  ∃ d, servers w !! db = Some d ∧
       w' = with_servers (λ l, <[db := stmt d]> l) (with_storeCalls S w).
Proof.
  unfold dbExec. intros (? & w1 & [_ ->]%storeCall_Ok & Hrest)%bind_Ok.
  apply bind_Ok in Hrest as (w2 & w3 & [= <- <-] & Hrest). simpl in Hrest.
  destruct (servers w !! db) as [d|]; [|discriminate].
  injection Hrest as <-. eauto.
Qed.

(** What a listing that succeeded returned and did. *)
Lemma listItem_Ok h userID requestAt tk w resp :
  fst (listItem h userID requestAt tk w) = successResponse resp →
  let w1 := snd (listItem h userID requestAt tk w) in
  ∃ db d user,
    getDBForUserID h userID = Some db ∧ servers w !! db = Some d ∧
    selectUser userID d = Some user ∧
    resp = ListItemResponse.mk tk user (selectItemsOf userID d) (selectCardsOf userID d) ∧
    TokenCache w1
    = <[tk := TokenInfo.mk userID 2 (add64 requestAt 600) requestAt]> (TokenCache w) ∧
    faults w1 = faults w ∧ length (servers w1) = length (servers w).
Proof.
  cbv zeta.
  set (r := listItem h userID requestAt tk w).
  assert (Hr : r = listItem h userID requestAt tk w) by done.
  clearbody r. unfold listItem in Hr. rewrite respond_step in Hr. unfold dbForUserID in Hr.
  destruct (getDBForUserID h userID) as [db|] eqn:Hdb; [|subst r; discriminate].
  unfold ret at 1 in Hr. rewrite respond_step in Hr.
  destruct (dbGet db (selectUser userID) w) as [[user|e] w1] eqn:Huser;
    [|subst r; by destruct e].
  apply dbGet_Ok in Huser as (d & Hd & Huser & ->).
  rewrite respond_step in Hr.
  destruct (dbSelect db (selectItemsOf userID) (with_storeCalls S w))
    as [[itemList|e] w2] eqn:Hitems; [|subst r; discriminate].
  apply dbSelect_Ok in Hitems as (d2 & Hd2 & -> & ->). simpl in Hd2.
  rewrite Hd in Hd2. injection Hd2 as <-.
  rewrite respond_step in Hr.
  match type of Hr with context [dbSelect db (selectCardsOf userID) ?w0] =>
    destruct (dbSelect db (selectCardsOf userID) w0) as [[cardList|e] w3] eqn:Hcards;
      [|subst r; discriminate] end.
  apply dbSelect_Ok in Hcards as (d3 & Hd3 & -> & ->). simpl in Hd3.
  rewrite Hd in Hd3. injection Hd3 as <-.
  rewrite respond_step in Hr.
  match type of Hr with context [dbExec db ?stmt ?w0] =>
    destruct (dbExec db stmt w0) as [[[]|e] w4] eqn:Hexp; [|subst r; discriminate] end.
  apply dbExec_Ok in Hexp as (d4 & Hd4 & ->). simpl in Hd4.
  rewrite respond_bind in Hr. unfold generateID at 1 in Hr. cbn beta iota in Hr.
  rewrite respond_step in Hr.
  match type of Hr with context [dbExec (DB h) ?stmt ?w0] =>
    destruct (dbExec (DB h) stmt w0) as [[[]|e] w5] eqn:Hins; [|subst r; discriminate] end.
  apply dbExec_Ok in Hins as (d5 & Hd5 & ->). simpl in Hd5.
  rewrite respond_step in Hr. unfold SetToken, modify at 1 in Hr. cbn beta iota in Hr.
  unfold respond, ret in Hr. subst r. simpl.
  intros [= <-]. exists db, d, user. repeat split; try done.
  by rewrite !length_insert.
Qed.

(** A listing that succeeds returns the caller's row, the caller's items
    and the caller's cards as the shard holds them, and a token of kind 2:
    while the store answers, the caller's check of that token under kind 2
    (the kind [addExpToCard] asks for) succeeds up to 600 seconds after the
    listing and is refused later, and a check under kind 1 (a draw) is
    refused and leaves everything as it is. *)
Theorem listItem_lists_and_issues (h : Handler) (userID requestAt requestAt' : Z)
  (tk : string) (w : World) (resp : ListItemResponse.t) :
  fst (listItem h userID requestAt tk w) = successResponse resp →
  (∀ n, faults w n = false) →
  let w1 := snd (listItem h userID requestAt tk w) in
  ListItemResponse.OneTimeToken resp = tk ∧
  User.ID (ListItemResponse.User resp) = userID ∧
  Forall (λ i, UserItem.UserID i = userID) (ListItemResponse.Items resp) ∧
  Forall (λ c, UserCard.UserID c = userID) (ListItemResponse.Cards resp) ∧
  fst (checkOneTimeToken h userID tk 2 requestAt' w1)
  = (if requestAt' <=? add64 requestAt 600 then Ok tt else Err ErrInvalidToken) ∧
  checkOneTimeToken h userID tk 1 requestAt' w1 = (Err ErrInvalidToken, w1).
Proof.
  intros Hok Hf w1.
  destruct (listItem_Ok h userID requestAt tk w resp Hok)
    as (db & d & user & Hdb & Hd & Huser & -> & Hcache & Hfaults & Hlen).
  fold w1 in Hcache, Hfaults, Hlen. simpl.
  split; [done|]. split; [by eapply selectUser_ID|].
  split; [|split].
  - apply Forall_forall. intros i [_ Hi%Z.eqb_eq]%list_elem_of_In%filter_In. done.
  - apply Forall_forall. intros c [_ Hc%Z.eqb_eq]%list_elem_of_In%filter_In. done.
  - assert (Hinfo : TokenCache w1 !! tk
                    = Some (TokenInfo.mk userID 2 (add64 requestAt 600) requestAt))
      by (rewrite Hcache; apply lookup_insert_eq).
    assert (is_Some (servers w1 !! db)) as [d1 Hd1].
    { apply lookup_lt_is_Some. rewrite Hlen. by eapply lookup_lt_Some. }
    split.
    + unfold checkOneTimeToken, bind, GetToken, get, ret. simpl. rewrite Hinfo. simpl.
      destruct (Z.ltb_spec (add64 requestAt 600) requestAt'),
               (Z.leb_spec requestAt' (add64 requestAt 600)); try lia.
      * unfold DeleteToken, modify. simpl. rewrite (dbForUserID_run _ _ _ _ Hdb).
        unfold ignoreErr, throw. done.
      * unfold DeleteToken, modify. simpl. rewrite (dbForUserID_run _ _ _ _ Hdb).
        erewrite dbExec_run; [done| |exact Hd1]. simpl. rewrite Hfaults. apply Hf.
    + apply (checkOneTimeToken_wrong_kind _ _ _ _ _ _ _ Hinfo). simpl. lia.
Qed.

Lemma listItem_lists_and_issues_witness :
  ∃ resp,
    fst (listItem oneShard bob 10 "tok-i" giftWorld) = successResponse resp ∧
    map UserItem.ItemID (ListItemResponse.Items resp) = [8] ∧
    fst (checkOneTimeToken oneShard bob "tok-i" 2 610
           (snd (listItem oneShard bob 10 "tok-i" giftWorld))) = Ok tt ∧
    fst (checkOneTimeToken oneShard bob "tok-i" 1 20
           (snd (listItem oneShard bob 10 "tok-i" giftWorld))) = Err ErrInvalidToken.
Proof.
  assert (∃ resp, fst (listItem oneShard bob 10 "tok-i" giftWorld) = successResponse resp)
    as [resp Hok] by (eexists; vm_compute; reflexivity).
  assert (Hf : ∀ n, faults giftWorld n = false) by (intros n; reflexivity).
  pose proof (λ t, listItem_lists_and_issues oneShard bob 10 t "tok-i" giftWorld resp Hok Hf)
    as Huse.
  cbv zeta in Huse.
  exists resp. split; [exact Hok|]. split.
  { vm_compute in Hok. injection Hok as <-. reflexivity. }
  destruct (Huse 610) as (_ & _ & _ & _ & H2 & _).
  destruct (Huse 20) as (_ & _ & _ & _ & _ & H1).
  split; [exact H2|]. rewrite H1. reflexivity.
Defined.

(** ** The caches *)

Lemma cleanup_fold (currentTime : Z) (entries : list (string * TokenInfo.t))
  (tokens : gmap string TokenInfo.t) (token : string) :
  fold_left (λ tokens entry,
               if TokenInfo.ExpiredAt (snd entry) <? currentTime
               then delete (fst entry) tokens else tokens) entries tokens !! token
  = if existsb (λ entry, String.eqb (fst entry) token
                         && (TokenInfo.ExpiredAt (snd entry) <? currentTime)) entries
    then None else tokens !! token.
Proof.
  revert tokens. induction entries as [|[k info] l IH]; intros tokens; simpl; [done|].
  rewrite IH. destruct (existsb _ l); [by rewrite orb_true_r|]. rewrite orb_false_r.
  destruct (TokenInfo.ExpiredAt info <? currentTime); [|by rewrite andb_false_r].
  rewrite andb_true_r. destruct (String.eqb_spec k token) as [->|Hk].
  - apply lookup_delete_eq.
  - by apply lookup_delete_ne.
Qed.

(** The sweep of the token cache removes exactly the tokens that expired
    before [currentTime] and leaves every other entry, and everything
    else, as it is; sweeping again at the same time changes nothing. *)
Theorem CleanupExpiredTokens_sweeps (currentTime : Z) (w : World) :
  let w' := snd (CleanupExpiredTokens currentTime w) in
  fst (CleanupExpiredTokens currentTime w) = Ok tt ∧
  (∀ token,
     TokenCache w' !! token
     = match TokenCache w !! token with
       | Some info => if TokenInfo.ExpiredAt info <? currentTime then None else Some info
       | None => None
       end) ∧
  (servers w' = servers w ∧ tx w' = tx w ∧ Cache w' = Cache w) ∧
  TokenCache (snd (CleanupExpiredTokens currentTime w')) = TokenCache w'.
Proof.
  assert (Hspec : ∀ w token,
    TokenCache (snd (CleanupExpiredTokens currentTime w)) !! token
    = match TokenCache w !! token with
      | Some info => if TokenInfo.ExpiredAt info <? currentTime then None else Some info
      | None => None
      end).
  { intros w0 token. unfold CleanupExpiredTokens, modify. simpl. rewrite cleanup_fold.
    destruct (existsb _ _) eqn:Hex.
    - apply existsb_exists in Hex as ([k info] & Hin & Hk). simpl in Hk.
      apply andb_true_iff in Hk as [Hk%String.eqb_eq Hexp]. subst k.
      apply list_elem_of_In, elem_of_map_to_list in Hin. by rewrite Hin, Hexp.
    - destruct (TokenCache w0 !! token) as [info|] eqn:Hc; [|done].
      destruct (TokenInfo.ExpiredAt info <? currentTime) eqn:Hexp; [|done].
      exfalso. apply not_true_iff_false in Hex. apply Hex, existsb_exists.
      exists (token, info). split; [by apply list_elem_of_In, elem_of_map_to_list|].
      simpl. by rewrite String.eqb_refl, Hexp. }
  cbv zeta. split; [done|]. split; [apply Hspec|]. split; [done|].
  apply map_eq. intros token. rewrite !Hspec.
  destruct (TokenCache w !! token) as [info|]; [|done].
  destruct (TokenInfo.ExpiredAt info <? currentTime) eqn:Hexp; [done|]. by rewrite Hexp.
Qed.

Section Preserves.
Context (P : World → Prop).

Lemma preserves_frame {E A T} (proj : World → T) (m : M E A) :
  (∀ w w', proj w' = proj w → P w → P w') → frame proj m → preserves P m.
Proof. intros HP Hm w Hw. eapply HP; [apply Hm | done]. Qed.

Lemma preserves_bind {E A B} (m : M E A) (k : A → M E B) :
  preserves P m → (∀ a, preserves P (k a)) → preserves P (bind m k).
Proof.
  intros Hm Hk w Hw. unfold bind. specialize (Hm w Hw).
  destruct (m w) as [[a|e] w1]; [by apply Hk | done].
Qed.

Lemma preserves_orReturn {E E' A} (m : M E A) (f : E → E') :
  preserves P m → preserves P (orReturn m f).
Proof.
  intros Hm w Hw. unfold orReturn. specialize (Hm w Hw).
  by destruct (m w) as [[a|e] w1].
Qed.

Lemma preserves_respond {A} (m : M (Response A) A) w :
  preserves P m → P w → P (snd (respond m w)).
Proof.
  intros Hm Hw. unfold respond. specialize (Hm w Hw).
  by destruct (m w) as [[a|e] w1].
Qed.

End Preserves.

Lemma frame_Commit {T} (proj : World → T) db :
  (∀ f w, proj (with_storeCalls f w) = proj w) →
  (∀ f w, proj (with_servers f w) = proj w) →
  frame proj (Commit db).
Proof.
  intros Hc Hs. unfold Commit. apply frame_bind; [by apply frame_storeCall|]. intros.
  apply frame_bind; [apply frame_get|]. intros. apply frame_modify. intros. apply Hs.
Qed.

Lemma frame_checkOneTimeToken_cache h userID token tokenType requestAt :
  frame Cache (checkOneTimeToken h userID token tokenType requestAt).
Proof.
  unfold checkOneTimeToken, GetToken, DeleteToken, dbForUserID.
  apply frame_bind; [frame_auto|]. intros [info|].
  - destruct (negb _); [apply frame_throw|].
    destruct (_ <? _).
    + apply frame_bind; [frame_auto|]. intros.
      apply frame_bind; [destruct (getDBForUserID h userID); frame_auto|]. intros db.
      apply frame_bind; [by apply frame_ignoreErr, frame_dbExec|].
      intros. apply frame_throw.
    + apply frame_bind; [frame_auto|]. intros.
      apply frame_bind; [destruct (getDBForUserID h userID); frame_auto|]. intros db.
      by apply frame_dbExec.
  - apply frame_bind; [destruct (getDBForUserID h userID); frame_auto|]. intros db.
    apply frame_bind; [apply frame_orReturn; by apply frame_dbGet|]. intros tk.
    destruct (_ <? _).
    + apply frame_bind; [by apply frame_dbExec | intros; apply frame_throw].
    + by apply frame_dbExec.
Qed.

Lemma gachaCacheCoherent_set gachaID items c :
  gachaCacheCoherent c →
  gachaCacheCoherent (mkCache (<[gachaID := items]> (gachaItems c))
                              (<[gachaID := sumWeights items]> (gachaWeightSums c))
                              (loginBonusRewards c) (itemMasters c)).
Proof.
  intros Hc id l. simpl. destruct (decide (id = gachaID)) as [->|Hne].
  - rewrite !lookup_insert_eq. by intros [= ->].
  - rewrite !lookup_insert_ne by done. apply Hc.
Qed.

Ltac frame_cache :=
  first
    [ apply frame_checkOneTimeToken_cache
    | (apply frame_checkViewerID; intros ? ?; reflexivity)
    | (apply frame_lottery; intros ? ?; reflexivity)
    | (apply frame_Beginx; intros ? ?; reflexivity)
    | (apply frame_Commit; intros ? ?; reflexivity)
    | (apply frame_makePresents; intros ? ?; reflexivity)
    | (apply frame_insertPresents; intros ? ?; reflexivity)
    | (apply frame_orReturn; frame_cache)
    | (unfold GetGachaItems, dbForUserID; frame_auto) ].

Ltac preserves_cache :=
  repeat first
    [ progress cbv zeta
    | match goal with
      | |- preserves _ (if ?b then _ else _) => destruct b
      | |- preserves _ (match ?x with _ => _ end) => destruct x
      | |- preserves _ (bind _ _) => apply preserves_bind; [|intros ?]
      | |- preserves _ (orReturn (SetGachaItems _ _) _) =>
          apply preserves_orReturn; intros ? ?; by apply gachaCacheCoherent_set
      | |- preserves _ _ =>
          apply (preserves_frame _ Cache); [by intros ? ? -> | frame_cache]
      end ].

(** The gacha cache stays coherent.  An emptied cache is coherent;
    [SetGachaItems] keeps it so, and so does a draw, however it ends; and
    a hit of a coherent cache returns a pool together with the sum of its
    weights, the value the uncached branch of the draw computes. *)
Theorem gacha_cache_stays_coherent (h : Handler)
  (userID gachaID gachaCount requestAt : Z) (req : DrawGachaRequest.t) (w : World) :
  gachaCacheCoherent (Cache w) →
  gachaCacheCoherent (Cache (snd (drawGacha h userID gachaID gachaCount requestAt req w))) ∧
  gachaCacheCoherent (Cache (snd (Clear w))) ∧
  (∀ id items, gachaCacheCoherent (Cache (snd (SetGachaItems id items w)))) ∧
  (∀ id items sum w',
     GetGachaItems id w = (Ok (Some (items, sum)), w') → sum = sumWeights items).
Proof.
  intros Hc. split; [|split; [|split]].
  - unfold drawGacha. apply (preserves_respond (λ w, gachaCacheCoherent (Cache w))); [|done].
    preserves_cache.
  - intros id items. simpl. by rewrite lookup_empty.
  - intros id items. by apply gachaCacheCoherent_set.
  - intros id items sum w'. unfold GetGachaItems, bind, get, ret. simpl.
    destruct (gachaItems (Cache w) !! id) as [l|] eqn:Hl; [|discriminate].
    rewrite (Hc _ _ Hl). by intros [= <- <- _].
Qed.

Lemma gacha_cache_stays_coherent_witness :
  gachaCacheCoherent
    (Cache (snd (drawGacha oneShard bob 1 1 20 bobDraws bobWithToken))) ∧
  gachaItems (Cache (snd (drawGacha oneShard bob 1 1 20 bobDraws bobWithToken))) !! 1
  = Some demoGachaItems.
Proof.
  split; [|vm_compute; reflexivity].
  apply (gacha_cache_stays_coherent oneShard bob 1 1 20 bobDraws bobWithToken).
  assert (Cache bobWithToken = emptyCache) as -> by (vm_compute; reflexivity).
  intros id items. simpl. by rewrite lookup_empty.
Defined.

(** ** The extended state *)

Lemma bindS_Ok {E A B} (m : MS E A) (k : A → MS E B) s b s' :
  bindS m k s = (Ok b, s') → ∃ a s1, m s = (Ok a, s1) ∧ k a s1 = (Ok b, s').
Proof.
  unfold bindS. destruct (m s) as [[a|e] s1]; [eauto | discriminate].
Qed.

Lemma orReturnS_Ok {E E' A} (m : MS E A) (f : E → E') s a s' :
  orReturnS m f s = (Ok a, s') → m s = (Ok a, s').
Proof.
  unfold orReturnS. destruct (m s) as [[a'|e] s1]; [congruence | discriminate].
Qed.

Lemma lift_Ok {E A} (m : M E A) s a s' :
  lift m s = (Ok a, s') →
  ∃ w', m (world s) = (Ok a, w') ∧ s' = with_world (λ _, w') s.
Proof.
  unfold lift. destruct (m (world s)) as [r w'] eqn:Hm. simpl.
  intros [= -> <-]. eauto.
Qed.

Lemma lift_run {E A} (m : M E A) s r w' :
  m (world s) = (r, w') → lift m s = (r, with_world (λ _, w') s).
Proof. unfold lift. by intros ->. Qed.

Lemma txAnnexSelect_Ok {A} (query : Annex → list A) s rows s' :
  txAnnexSelect query s = (Ok rows, s') →
  rows = query (txAnnex s) ∧ s' = with_world (with_storeCalls S) s.
Proof.
  unfold txAnnexSelect.
  intros ([] & s1 & (w1 & [_ ->]%storeCall_Ok & ->)%lift_Ok & Hrest)%bindS_Ok.
  apply bindS_Ok in Hrest as (s2 & s3 & [= <- <-] & [= <- <-]). done.
Qed.

Lemma txAnnexExec_Ok stmt s s' :
  txAnnexExec stmt s = (Ok tt, s') →
  s' = with_txAnnex stmt (with_world (with_storeCalls S) s).
Proof.
  unfold txAnnexExec.
  intros ([] & s1 & (w1 & [_ ->]%storeCall_Ok & ->)%lift_Ok & [= <-])%bindS_Ok. done.
Qed.

(** ** obtainPresent: every master is handed out once *)

Lemma indexReceived_lookup receivedIDs id :
  default false (indexReceived receivedIDs !! id) = inZ id receivedIDs.
Proof.
  unfold indexReceived.
  assert (∀ acc : gmap Z bool,
            default false (fold_left (λ m i, <[i := true]> m) receivedIDs acc !! id)
                 = inZ id receivedIDs || default false (acc !! id)) as Hgen.
  { induction receivedIDs as [|i l IH]; intros acc; simpl; [done|].
    rewrite IH. destruct (Z.eqb_spec id i) as [->|Hne].
    - rewrite lookup_insert_eq. simpl. by rewrite orb_true_r.
    - rewrite lookup_insert_ne by done. done. }
  rewrite Hgen, lookup_empty. simpl. by rewrite orb_false_r.
Qed.

Lemma inZ_selectReceivedIDs userID presentIDs a id :
  inZ id presentIDs = true →
  inZ id (selectReceivedIDs userID presentIDs a) = receivedAll userID id a.
Proof.
  intros Hid. unfold selectReceivedIDs, receivedAll.
  induction (user_present_all_received_history a) as [|r l IH]; [done|]. simpl.
  destruct (UserPresentAllReceivedHistory.UserID r =? userID); simpl; [|exact IH].
  destruct (Z.eqb_spec (UserPresentAllReceivedHistory.PresentAllID r) id) as [Heq|Hne].
  - subst id. rewrite Hid. simpl. by rewrite Z.eqb_refl.
  - destruct (inZ (UserPresentAllReceivedHistory.PresentAllID r) presentIDs); simpl;
      [|exact IH].
    rewrite IH. destruct (Z.eqb_spec id (UserPresentAllReceivedHistory.PresentAllID r)); [|done].
    congruence.
Qed.

Lemma preparePresents_Ok normalPresents receivedMap userID requestAt s prepared s' :
  preparePresents normalPresents receivedMap userID requestAt s = (Ok prepared, s') →
  let pending := List.filter (λ np, negb (default false
                                            (receivedMap !! PresentAllMaster.ID np)))
                             normalPresents in
  Forall2 (presentOf userID requestAt) pending (fst prepared) ∧
  Forall2 (historyOf userID requestAt) pending (snd prepared) ∧
  annexes s' = annexes s ∧ txAnnex s' = txAnnex s ∧
  tx (world s') = tx (world s) ∧ servers (world s') = servers (world s).
Proof.
  revert s prepared s'.
  induction normalPresents as [|np rest IH]; intros s prepared s'; simpl.
  - intros [= <- <-]. simpl. repeat split; constructor.
  - destruct (default false (receivedMap !! PresentAllMaster.ID np)); simpl; [apply IH|].
    intros (pID & s1 & [= <- <-] & Hrest)%bindS_Ok.
    apply bindS_Ok in Hrest as (phID & s2 & [= <- <-] & Hrest).
    apply bindS_Ok in Hrest as (more & s3 & Hmore & [= <- <-]).
    destruct (IH _ _ _ Hmore) as (Hups & Hhs & Ha & Ht & Htx & Hs). simpl in *.
    split; [constructor; [by repeat split | done]|].
    split; [constructor; [by repeat split | done]|].
    done.
Qed.

Lemma insertHistories_Ok histories s s' :
  insertHistories histories s = (Ok tt, s') →
  txAnnex s' = with_history (λ rows, rows ++ histories) (txAnnex s) ∧
  annexes s' = annexes s ∧
  tx (world s') = tx (world s) ∧ servers (world s') = servers (world s).
Proof.
  revert s. induction histories as [|r rest IH]; intros s; simpl.
  - intros [= <-]. destruct (txAnnex s). unfold with_history. simpl.
    by rewrite app_nil_r.
  - intros ([] & s1 & ->%txAnnexExec_Ok & Hrest)%bindS_Ok.
    destruct (IH _ Hrest) as (-> & -> & -> & ->). simpl.
    destruct (txAnnex s). unfold with_history. simpl. by rewrite <- app_assoc.
Qed.

Lemma with_user_presents_nil d : with_user_presents (λ rows, rows ++ []) d = d.
Proof. destruct d. unfold with_user_presents. simpl. by rewrite app_nil_r. Qed.

Lemma with_history_nil a : with_history (λ rows, rows ++ []) a = a.
Proof. destruct a. unfold with_history. simpl. by rewrite app_nil_r. Qed.

Lemma receivedAll_app userID id a histories :
  receivedAll userID id (with_history (λ rows, rows ++ histories) a)
  = receivedAll userID id a
    || existsb (λ r, (UserPresentAllReceivedHistory.UserID r =? userID)
                     && (UserPresentAllReceivedHistory.PresentAllID r =? id)) histories.
Proof. unfold receivedAll. simpl. apply existsb_app. Qed.

Lemma historyOf_received userID requestAt pending histories np :
  Forall2 (historyOf userID requestAt) pending histories →
  np ∈ pending →
  existsb (λ r, (UserPresentAllReceivedHistory.UserID r =? userID)
                && (UserPresentAllReceivedHistory.PresentAllID r =? PresentAllMaster.ID np))
          histories = true.
Proof.
  induction 1 as [|p r l l' (Hu & Hid & _) _ IH]; [by intros ?%elem_of_nil|].
  intros [->|Hin]%elem_of_cons; simpl.
  - by rewrite Hu, Hid, !Z.eqb_refl.
  - rewrite IH by done. by rewrite orb_true_r.
Qed.

(** What a run of [obtainPresent] that returned has done. *)
Lemma obtainPresent_Ok h userID requestAt s presents s' :
  obtainPresent h userID requestAt s = (Ok presents, s') →
  let pending := pendingPresentAll userID requestAt (txAnnex s) in
  Forall2 (presentOf userID requestAt) pending presents ∧
  tx (world s') = with_user_presents (λ rows, rows ++ presents) (tx (world s)) ∧
  (∃ histories,
     Forall2 (historyOf userID requestAt) pending histories ∧
     txAnnex s' = with_history (λ rows, rows ++ histories) (txAnnex s)) ∧
  servers (world s') = servers (world s) ∧ annexes s' = annexes s.
Proof.
  unfold obtainPresent.
  intros (normalPresents & s1 & [-> ->]%txAnnexSelect_Ok & Hrun)%bindS_Ok.
  cbv zeta. unfold pendingPresentAll.
  set (normalPresents := activePresentAll requestAt (txAnnex s)) in *.
  destruct (Nat.eqb_spec (length normalPresents) 0) as [Hnil|_].
  { injection Hrun as <- <-. apply nil_length_inv in Hnil. rewrite Hnil. simpl.
    rewrite with_user_presents_nil. split; [constructor|]. split; [done|].
    split; [|done]. exists []. split; [constructor|]. by rewrite with_history_nil. }
  cbv zeta in Hrun.
  apply bindS_Ok in Hrun as (receivedIDs & s2 & [-> ->]%txAnnexSelect_Ok & Hrun).
  apply bindS_Ok in Hrun as ([ups hs] & s3 & Hprep & Hrun).
  apply bindS_Ok in Hrun as ([] & s4 & Hins & [= <- <-]).
  apply preparePresents_Ok in Hprep as (Hups & Hhs & Ha3 & Ht3 & Htx3 & Hs3).
  cbv zeta in Hups, Hhs. simpl in Hups, Hhs, Ha3, Ht3, Htx3, Hs3, Hins.
  assert (Hfilter :
    List.filter (λ np, negb (default false
       (indexReceived (selectReceivedIDs userID (map PresentAllMaster.ID normalPresents)
                         (txAnnex s)) !! PresentAllMaster.ID np))) normalPresents
    = List.filter (λ np, negb (receivedAll userID (PresentAllMaster.ID np) (txAnnex s)))
                  normalPresents).
  { apply filter_ext_in. intros np Hnp. f_equal.
    rewrite indexReceived_lookup. apply inZ_selectReceivedIDs.
    apply inZ_elem_of, list_elem_of_fmap. exists np. split; [done|].
    by apply list_elem_of_In. }
  rewrite Hfilter in Hups, Hhs. split; [done|].
  destruct (0 <? length ups)%nat eqn:Hlen.
  - apply bindS_Ok in Hins as ([] & s5 & (w5 & Hp & ->)%lift_Ok & Hh).
    pose proof (insertPresents_Ok _ _ _ Hp) as Htx5.
    apply (run_frame servers) in Hp; [|by apply frame_insertPresents].
    apply insertHistories_Ok in Hh as (Ht4 & Ha4 & Htx4 & Hs4). simpl in *.
    rewrite Htx4, Htx5, Htx3, Hs4, Hp, Hs3, Ha4, Ha3, Ht4, Ht3.
    split; [done|]. split; [by exists hs | done].
  - injection Hins as <-. apply Nat.ltb_ge in Hlen.
    assert (ups = []) as -> by (destruct ups; [done | simpl in Hlen; lia]).
    apply Forall2_nil_inv_r in Hups. rewrite Hups in Hhs.
    apply Forall2_nil_inv_l in Hhs as ->.
    rewrite Htx3, Hs3, Ha3, Ht3, with_user_presents_nil.
    split; [done|]. split; [|done]. exists []. split; [by rewrite Hups|].
    by rewrite with_history_nil.
Qed.

(** [obtainPresent] hands every master out once.  A run that returns has
    made one present (unreceived, addressed to the user, carrying the
    master's item) and one history row for every master that is active at
    the request time and that the user has no history row for, in the
    order of the master table, and nothing else; after it no master active
    at that time is pending for the user, and whatever is pending at any
    other time was pending before and was not active at the request time. *)
Theorem obtainPresent_hands_out_once (h : Handler) (userID requestAt : Z)
  (s s' : System) (presents : list UserPresent.t) :
  obtainPresent h userID requestAt s = (Ok presents, s') →
  Forall2 (presentOf userID requestAt)
          (pendingPresentAll userID requestAt (txAnnex s)) presents ∧
  tx (world s') = with_user_presents (λ rows, rows ++ presents) (tx (world s)) ∧
  servers (world s') = servers (world s) ∧ annexes s' = annexes s ∧
  pendingPresentAll userID requestAt (txAnnex s') = [] ∧
  ∀ requestAt' np,
    np ∈ pendingPresentAll userID requestAt' (txAnnex s') →
    np ∈ pendingPresentAll userID requestAt' (txAnnex s) ∧
    np ∉ activePresentAll requestAt (txAnnex s).
Proof.
  intros Hrun.
  destruct (obtainPresent_Ok _ _ _ _ _ _ Hrun)
    as (Hups & Htx & (histories & Hhs & Ht) & Hs & Ha).
  cbv zeta in Hups, Hhs.
  split; [done|]. split; [done|]. split; [done|]. split; [done|].
  assert (Hmasters : ∀ t, activePresentAll t (txAnnex s') = activePresentAll t (txAnnex s)).
  { intros t. unfold activePresentAll. by rewrite Ht. }
  assert (Hstep : ∀ requestAt' np,
            np ∈ pendingPresentAll userID requestAt' (txAnnex s') →
            np ∈ pendingPresentAll userID requestAt' (txAnnex s) ∧
            np ∉ activePresentAll requestAt (txAnnex s)).
  { intros t' np. unfold pendingPresentAll. rewrite Hmasters.
    rewrite !list_elem_of_In, !filter_In, <- !list_elem_of_In.
    intros [Hact Hpend]. rewrite Ht, receivedAll_app in Hpend.
    apply negb_true_iff, orb_false_iff in Hpend as [Hold Hnew].
    split; [by rewrite Hold|].
    intros Hact0. rewrite (historyOf_received _ _ _ _ np Hhs) in Hnew; [done|].
    unfold pendingPresentAll. rewrite list_elem_of_In, filter_In, <- list_elem_of_In.
    by rewrite Hold. }
  split; [|exact Hstep].
  destruct (pendingPresentAll userID requestAt (txAnnex s')) as [|np l] eqn:Hpend; [done|].
  destruct (Hstep requestAt np) as [Hin Hout]; [rewrite Hpend; by left|].
  exfalso. apply Hout. unfold pendingPresentAll in Hin.
  apply list_elem_of_In, filter_In in Hin as [Hin _]. by apply list_elem_of_In.
Qed.

(** ** loginProcess: the user it returns is the row it leaves *)

(** The users table with the balances blanked out. *)
Lemma usersShape_addIsuCoin coinTotal userID d :
  map (User.with_IsuCoin 0) (users (addIsuCoin coinTotal userID d))
  = map (User.with_IsuCoin 0) (users d).
Proof.
  destruct d as [us ? ? ? ? ? ? ? ? ? ? ?]. simpl. rewrite map_map.
  apply map_ext. intros u. by destruct (User.ID u =? userID).
Qed.

Lemma frame_users_loop {E A} (m : M E A) :
  frame loopFootprint m → frame (λ w, (servers w, users (tx w), user_devices (tx w))) m.
Proof.
  apply frame_weaken. intros w w'. unfold loopFootprint.
  intros [= Hs Ht _ _ _ _ _ _]. by rewrite Hs, Ht.
Qed.

Lemma frame_users_cacheCardMasters itemMasters masterMap :
  frame (λ w, (servers w, users (tx w), user_devices (tx w))) (cacheCardMasters itemMasters masterMap).
Proof. apply frame_users_loop, frame_cacheCardMasters. Qed.

Lemma frame_users_buildCardInserts cardItems masterMap userID requestAt :
  frame (λ w, (servers w, users (tx w), user_devices (tx w))) (buildCardInserts cardItems masterMap userID requestAt).
Proof. apply frame_users_loop, frame_buildCardInserts. Qed.

Lemma frame_users_splitMaterials materials masterMap existingMap userID requestAt :
  frame (λ w, (servers w, users (tx w), user_devices (tx w))) (splitMaterials materials masterMap existingMap userID requestAt).
Proof. apply frame_users_loop, frame_splitMaterials. Qed.

Lemma frame_users_cacheRewards actualRewards rewardMap :
  frame (λ w, (servers w, users (tx w), user_devices (tx w))) (cacheRewards actualRewards rewardMap).
Proof. apply frame_users_loop, frame_cacheRewards. Qed.

Lemma frame_users_rewardPresents sendLoginBonuses rewardMap :
  frame (λ w, (servers w, users (tx w), user_devices (tx w))) (rewardPresents sendLoginBonuses rewardMap).
Proof. apply frame_users_loop, frame_rewardPresents. Qed.

#[export] Hint Resolve frame_users_cacheCardMasters frame_users_buildCardInserts
  frame_users_splitMaterials frame_users_cacheRewards frame_users_rewardPresents : frame_db.

Lemma frame_users_advanceLoginBonuses loginBonuses existingMap userID requestAt :
  frame (λ w, (servers w, users (tx w), user_devices (tx w))) (advanceLoginBonuses loginBonuses existingMap userID requestAt).
Proof.
  induction loginBonuses as [|bonus rest IH]; simpl; [frame_auto|].
  apply frame_bind; [frame_auto|]. intros start.
  destruct (advanceBonus bonus requestAt (fst start)); [|exact IH].
  apply frame_bind; [frame_auto|]. intros.
  apply frame_bind; [exact IH | intros; frame_auto].
Qed.

Lemma frame_usersShape_obtainItemsBatch h presents userID requestAt :
  frame (λ w, (servers w, map (User.with_IsuCoin 0) (users (tx w)), user_devices (tx w)))
        (obtainItemsBatch h presents userID requestAt).
Proof.
  unfold obtainItemsBatch.
  destruct (groupPresents presents) as [[coinTotal cardItems] materialItems].
  apply frame_bind.
  { unfold grantCoins. destruct (0 <? coinTotal); [|apply frame_ret].
    apply frame_txExec; [done|]. intros w. destruct w as [sv t ? ? ? ? ? ? ? ?]. cbn [with_tx servers tx].
    rewrite usersShape_addIsuCoin. by destruct t. }
  intros. eapply frame_weaken with (proj1 := λ w, (servers w, users (tx w), user_devices (tx w)));
    [by intros w w' [= -> -> ->]|].
  unfold grantCards, grantMaterials. frame_auto.
Qed.

Lemma frame_usersShape_obtainLoginBonus h userID requestAt :
  frame (λ w, (servers w, map (User.with_IsuCoin 0) (users (tx w)), user_devices (tx w)))
        (obtainLoginBonus h userID requestAt).
Proof.
  unfold obtainLoginBonus.
  apply frame_bind; [frame_auto|]. intros loginBonuses.
  destruct (length loginBonuses =? 0)%nat; [apply frame_ret|].
  cbv zeta. apply frame_bind; [frame_auto|]. intros.
  apply frame_bind.
  { eapply frame_weaken with (proj1 := λ w, (servers w, users (tx w), user_devices (tx w)));
      [by intros w w' [= -> -> ->]|].
    apply frame_users_advanceLoginBonuses. }
  intros advanced. apply frame_bind; [|intros; apply frame_ret].
  destruct (0 <? length (snd advanced))%nat; [|apply frame_ret].
  apply frame_bind; [apply frame_get|]. intros w0.
  destruct (lookupRewards _ _) as [rewardMap missingRewards].
  apply frame_bind.
  { eapply frame_weaken with (proj1 := λ w, (servers w, users (tx w), user_devices (tx w)));
      [by intros w w' [= -> -> ->]|].
    frame_auto. }
  intros. apply frame_bind.
  { eapply frame_weaken with (proj1 := λ w, (servers w, users (tx w), user_devices (tx w)));
      [by intros w w' [= -> -> ->]|].
    frame_auto. }
  intros presents. destruct (0 <? length presents)%nat; [|apply frame_ret].
  apply frame_usersShape_obtainItemsBatch.
Qed.

Lemma selectUser_shape userID us us' user :
  map (User.with_IsuCoin 0) us' = map (User.with_IsuCoin 0) us →
  List.find (λ u, User.ID u =? userID) us = Some user →
  ∃ user', List.find (λ u, User.ID u =? userID) us' = Some user' ∧
           user' = User.with_IsuCoin (User.IsuCoin user') user.
Proof.
  revert us'. induction us as [|u l IH]; intros [|u' l']; simpl; try done.
  intros [= HID HRew HAct HReg HCre HUpd HDel Hl].
  assert (u' = User.with_IsuCoin (User.IsuCoin u') u) as Hu'.
  { destruct u, u'. unfold User.with_IsuCoin. simpl in *. by subst. }
  assert (User.ID u' = User.ID u) as Hid by (by rewrite Hu').
  rewrite Hid. destruct (User.ID u =? userID).
  - intros [= <-]. by exists u'.
  - by apply IH.
Qed.

Lemma selectUser_touchUser requestAt userID d :
  selectUser userID (touchUser requestAt userID d)
  = activated requestAt <$> selectUser userID d.
Proof.
  unfold selectUser, touchUser. destruct d as [us ? ? ? ? ? ? ? ? ? ? ?]. simpl.
  induction us as [|u l IH]; simpl; [done|].
  destruct (Z.eqb_spec (User.ID u) userID) as [Hu|Hu]; simpl.
  - by rewrite Hu, Z.eqb_refl.
  - destruct (Z.eqb_spec (User.ID u) userID); [done|]. exact IH.
Qed.

Lemma txGet_Ok {A} (query : Database → option A) w row w' :
  txGet query w = (Ok row, w') → query (tx w) = Some row ∧ w' = with_storeCalls S w.
Proof.
  unfold txGet. intros (? & w1 & [_ ->]%storeCall_Ok & Hrest)%bind_Ok.
  apply bind_Ok in Hrest as (w2 & w3 & [= <- <-] & Hrest). simpl in Hrest.
  destruct (query (tx w)) as [r|]; [|discriminate]. by injection Hrest as <- <-.
Qed.

(** What a run of [loginProcess] that returned has done. *)
Lemma loginProcess_Ok h userID requestAt s user loginBonuses presents s' :
  loginProcess h userID requestAt s = (Ok (user, loginBonuses, presents), s') →
  ∃ before histories,
    selectUser userID (tx (world s)) = Some before ∧
    user = activated requestAt (User.with_IsuCoin (User.IsuCoin user) before) ∧
    selectUser userID (tx (world s')) = Some user ∧
    user_devices (tx (world s')) = user_devices (tx (world s)) ∧
    Forall2 (presentOf userID requestAt)
            (pendingPresentAll userID requestAt (txAnnex s)) presents ∧
    Forall2 (historyOf userID requestAt)
            (pendingPresentAll userID requestAt (txAnnex s)) histories ∧
    txAnnex s' = with_history (λ rows, rows ++ histories) (txAnnex s) ∧
    servers (world s') = servers (world s) ∧ annexes s' = annexes s.
Proof.
  unfold loginProcess.
  intros (user0 & s1 & (w1 & [Huser0 ->]%txGet_Ok & ->)%orReturnS_Ok%lift_Ok & Hrun)%bindS_Ok.
  apply bindS_Ok in Hrun as (bonuses & s2 & (w2 & Hbonus & ->)%lift_Ok & Hrun).
  apply bindS_Ok in Hrun as (allPresents & s3 & Hpresent & Hrun).
  apply bindS_Ok in Hrun
    as (isuCoin & s4 & (w4 & [Hcoin ->]%txGet_Ok & ->)%orReturnS_Ok%lift_Ok & Hrun).
  cbv zeta in Hrun.
  apply bindS_Ok in Hrun as ([] & s5 & (w5 & ->%txExec_Ok & ->)%lift_Ok & [= <- <- <- <-]).
  simpl in *.
  pose proof (run_frame _ _ _ _ _ (frame_usersShape_obtainLoginBonus _ _ _) Hbonus)
    as [= Hs2 Hshape Hdevices].
  simpl in Hs2, Hshape, Hdevices.
  apply obtainPresent_Ok in Hpresent as (Hups & Htx3 & (histories & Hhs & Ht3) & Hs3 & Ha3).
  cbv zeta in Hups, Hhs. simpl in Hups, Hhs, Htx3, Ht3, Hs3, Ha3.
  pose proof (selectUser_ID _ _ _ Huser0) as Hid.
  destruct (selectUser_shape userID _ _ _ Hshape Huser0) as (row & Hrow & Hrow').
  assert (selectUser userID (tx (world s3)) = Some row) as Hrow3.
  { rewrite Htx3. unfold selectUser. by destruct (tx w2). }
  unfold selectIsuCoin in Hcoin. rewrite Hid, Hrow3 in Hcoin. injection Hcoin as <-.
  exists user0, histories.
  rewrite selectUser_touchUser, Hrow3, Hs3, Hs2, Ha3, Ht3. simpl.
  split; [done|]. split; [done|]. split; [by rewrite <- Hrow'|].
  split; [|done]. rewrite Htx3, <- Hdevices. by destruct (tx w2).
Qed.

(** A login that went through returns the user as the transaction now
    holds it: the row of the caller, activated and updated at the request
    time, with the balance the grants of the login left; and it returns
    one present for every master that was pending for the user.  Nothing
    is committed by it. *)
Theorem loginProcess_returns_stored_user (h : Handler) (userID requestAt : Z)
  (s s' : System) (user : User.t) (loginBonuses : list UserLoginBonus.t)
  (presents : list UserPresent.t) :
  loginProcess h userID requestAt s = (Ok (user, loginBonuses, presents), s') →
  selectUser userID (tx (world s')) = Some user ∧
  User.ID user = userID ∧
  User.LastActivatedAt user = requestAt ∧ User.UpdatedAt user = requestAt ∧
  (∃ before, selectUser userID (tx (world s)) = Some before ∧
             user = activated requestAt (User.with_IsuCoin (User.IsuCoin user) before)) ∧
  Forall2 (presentOf userID requestAt)
          (pendingPresentAll userID requestAt (txAnnex s)) presents ∧
  servers (world s') = servers (world s) ∧ annexes s' = annexes s.
Proof.
  intros (before & histories & Hbefore & Huser & Hstored & _ & Hpresents & _ & _ & Hservers
          & Hannexes)%loginProcess_Ok.
  split; [done|]. split; [by eapply selectUser_ID|].
  split; [by rewrite Huser|]. split; [by rewrite Huser|].
  split; [by exists before|]. done.
Qed.

Lemma obtainPresent_hands_out_once_witness :
  fst bonusPresent = Ok [UserPresent.mk 1000 bob 50 1 1 20 "welcome" 50 50 None] ∧
  pendingPresentAll bob 50 (txAnnex bonusSystem) = [welcome 2 0 100 20] ∧
  pendingPresentAll bob 50 (txAnnex (snd bonusPresent)) = [] ∧
  servers (world (snd bonusPresent)) = servers (world bonusSystem).
Proof.
  split; [vm_compute; reflexivity|]. split; [vm_compute; reflexivity|].
  destruct (obtainPresent_hands_out_once oneShard bob 50 bonusSystem (snd bonusPresent)
              [UserPresent.mk 1000 bob 50 1 1 20 "welcome" 50 50 None])
    as (_ & _ & Hservers & _ & Hpending & _); [|by split].
  rewrite (surjective_pairing (obtainPresent oneShard bob 50 bonusSystem)) at 1.
  f_equal.
Defined.

Lemma loginProcess_returns_stored_user_witness :
  fst bonusLogin
  = Ok (User.mk bob 10 0 50 0 0 50 None,
        [UserLoginBonus.mk 1000 bob 1 1 1 50 50 None],
        [UserPresent.mk 1001 bob 50 1 1 20 "welcome" 50 50 None]) ∧
  selectUser bob (tx (world (snd bonusLogin))) = Some (User.mk bob 10 0 50 0 0 50 None) ∧
  servers (world (snd bonusLogin)) = servers (world bonusSystem).
Proof.
  split; [vm_compute; reflexivity|].
  destruct (loginProcess_returns_stored_user oneShard bob 50 bonusSystem (snd bonusLogin)
              (User.mk bob 10 0 50 0 0 50 None)
              [UserLoginBonus.mk 1000 bob 1 1 1 50 50 None]
              [UserPresent.mk 1001 bob 50 1 1 20 "welcome" 50 50 None])
    as (Huser & _ & _ & _ & _ & _ & Hservers & _); [|by split].
  rewrite (surjective_pairing (loginProcess oneShard bob 50 bonusSystem)) at 1.
  f_equal.
Defined.

(** ** Running the handlers of the extended state *)

Lemma storeCall_run w :
  storeCall w = (if faults w (storeCalls w) then Err ErrStore else Ok tt,
                 with_storeCalls S w).
Proof. unfold storeCall. by destruct (faults w (storeCalls w)). Qed.

Lemma annexGet_run {A} db (query : Annex → option A) s :
  annexGet db query s
  = (if faults (world s) (storeCalls (world s)) then Err ErrStore
     else match annexes s !! db with
          | Some a => match query a with Some row => Ok row | None => Err ErrNoRows end
          | None => Err ErrStore
          end,
     afterCall s).
Proof.
  unfold annexGet, bindS, lift, getS. rewrite storeCall_run. simpl.
  destruct (faults _ _); [done|]. simpl.
  destruct (annexes s !! db) as [a|]; [|done]. by destruct (query a).
Qed.

Lemma annexFind_run {A} db (query : Annex → option A) s :
  annexFind db query s
  = (if faults (world s) (storeCalls (world s)) then Err ErrStore
     else match annexes s !! db with
          | Some a => Ok (query a)
          | None => Err ErrStore
          end,
     afterCall s).
Proof.
  unfold annexFind, bindS, lift, getS. rewrite storeCall_run. simpl.
  destruct (faults _ _); [done|]. simpl.
  by destruct (annexes s !! db) as [a|].
Qed.

Lemma annexExec_run db stmt s :
  annexExec db stmt s
  = if faults (world s) (storeCalls (world s)) then (Err ErrStore, afterCall s)
    else match annexes s !! db with
         | Some a => (Ok tt, with_annexes (λ l, <[db := stmt a]> l) (afterCall s))
         | None => (Err ErrStore, afterCall s)
         end.
Proof.
  unfold annexExec, bindS, lift, getS. rewrite storeCall_run. simpl.
  destruct (faults _ _); [done|]. simpl.
  by destruct (annexes s !! db) as [a|].
Qed.

Lemma lift_dbForUserID {E} h userID (f : error → E) s :
  orReturnS (lift (dbForUserID h userID)) f s
  = match getDBForUserID h userID with
    | Some db => (Ok db, s)
    | None => (Err (f Panic), s)
    end.
Proof.
  unfold orReturnS, lift, dbForUserID.
  destruct (getDBForUserID h userID); simpl; by destruct s.
Qed.

Lemma with_world_id s : with_world (λ _, world s) s = s.
Proof. by destruct s. Qed.

(** *** Frames of the extended state *)

Section FrameS.
Context {T : Type} (proj : System → T).

Lemma frameS_ret {E A} (a : A) : frameS proj (@retS E A a).
Proof. by intros s. Qed.

Lemma frameS_throw {E A} (e : E) : frameS proj (@throwS E A e).
Proof. by intros s. Qed.

Lemma frameS_get {E} : frameS proj (@getS E).
Proof. by intros s. Qed.

Lemma frameS_bind {E A B} (m : MS E A) (k : A → MS E B) :
  frameS proj m → (∀ a, frameS proj (k a)) → frameS proj (bindS m k).
Proof.
  intros Hm Hk s. unfold bindS. specialize (Hm s).
  destruct (m s) as [[a|e] s1]; simpl in *; [|done].
  by rewrite Hk.
Qed.

Lemma frameS_orReturn {E E' A} (m : MS E A) (f : E → E') :
  frameS proj m → frameS proj (orReturnS m f).
Proof.
  intros Hm s. unfold orReturnS. specialize (Hm s). by destruct (m s) as [[a|e] s1].
Qed.

Lemma frameS_modify {E} (f : System → System) :
  (∀ s, proj (f s) = proj s) → frameS proj (@modifyS E f).
Proof. intros Hf s. apply Hf. Qed.

Lemma rollsBackS_frame {E A} (m : MS E A) : frameS proj m → rollsBackS proj m.
Proof. intros Hm s e s' Hr. specialize (Hm s). by rewrite Hr in Hm. Qed.

Lemma rollsBackS_bind {E A B} (m : MS E A) (k : A → MS E B) :
  frameS proj m → (∀ a, rollsBackS proj (k a)) → rollsBackS proj (bindS m k).
Proof.
  intros Hm Hk s e s'. unfold bindS. specialize (Hm s).
  destruct (m s) as [[a|e0] s1] eqn:Hms; simpl in Hm.
  - intros Hr. rewrite (Hk a _ _ _ Hr). exact Hm.
  - by intros [= _ <-].
Qed.

Lemma rollsBackS_last {E A B} (m : MS E A) (k : A → MS E B) :
  rollsBackS proj m → (∀ a, raisesS (λ _, False) (k a)) → rollsBackS proj (bindS m k).
Proof.
  intros Hm Hk s e s'. unfold bindS.
  destruct (m s) as [[a|e0] s1] eqn:Hms.
  - intros Hr. by destruct (Hk a _ _ _ Hr).
  - intros [= _ <-]. by eapply Hm.
Qed.

Lemma rollsBackS_orReturn {E E' A} (m : MS E A) (f : E → E') :
  rollsBackS proj m → rollsBackS proj (orReturnS m f).
Proof.
  intros Hm s e s'. unfold orReturnS.
  destruct (m s) as [[a|e0] s1] eqn:Hms; [discriminate|].
  intros [= _ <-]. by eapply Hm.
Qed.

End FrameS.

Lemma run_frameS {E A T} (proj : System → T) (m : MS E A) s r s' :
  frameS proj m → m s = (r, s') → proj s' = proj s.
Proof. intros Hm Hr. specialize (Hm s). by rewrite Hr in Hm. Qed.

Lemma raisesS_ret {E A} (X : E → Prop) (a : A) : raisesS X (@retS E A a).
Proof. by intros s e s'. Qed.

(** What the embedded code leaves of the committed state. *)
Lemma frameS_lift {E A} (m : M E A) : frame servers m → frameS committed (lift m).
Proof.
  intros Hm s. unfold lift, committed. simpl. f_equal. apply Hm.
Qed.

Lemma frameS_annexSelect {A} db (query : Annex → list A) :
  frameS committed (annexSelect db query).
Proof.
  intros s. unfold annexSelect, bindS, lift, getS. rewrite storeCall_run. simpl.
  destruct (faults _ _); [done|]. simpl. by destruct (annexes s !! db).
Qed.

Lemma frameS_annexGet {A} db (query : Annex → option A) :
  frameS committed (annexGet db query).
Proof. intros s. by rewrite annexGet_run. Qed.

Lemma frameS_annexFind {A} db (query : Annex → option A) :
  frameS committed (annexFind db query).
Proof. intros s. by rewrite annexFind_run. Qed.

Lemma rollsBackS_annexExec db stmt : rollsBackS committed (annexExec db stmt).
Proof.
  intros s e s'. rewrite annexExec_run. destruct (faults _ _); [by intros [= _ <-]|].
  destruct (annexes s !! db); [discriminate | by intros [= _ <-]].
Qed.

Lemma frameS_txAnnexSelect {A} (query : Annex → list A) :
  frameS committed (txAnnexSelect query).
Proof.
  intros s. unfold txAnnexSelect, bindS, lift, getS. rewrite storeCall_run. simpl.
  by destruct (faults _ _).
Qed.

Lemma frameS_txAnnexExec stmt : frameS committed (txAnnexExec stmt).
Proof.
  intros s. unfold txAnnexExec, bindS, lift, modifyS. rewrite storeCall_run. simpl.
  by destruct (faults _ _).
Qed.

Lemma frameS_BeginxS db : frameS committed (BeginxS db).
Proof.
  unfold BeginxS. apply frameS_bind.
  - apply frameS_lift. by apply frame_Beginx.
  - intros []. apply frameS_bind; [apply frameS_get|]. intros s0.
    destruct (annexes s0 !! db); [by apply frameS_modify | apply frameS_throw].
Qed.

Lemma rollsBackS_CommitS db : rollsBackS committed (CommitS db).
Proof.
  intros s e s'. unfold CommitS, bindS, lift, Commit, bind.
  rewrite storeCall_run. simpl.
  destruct (faults _ _); [by intros [= _ <-] | discriminate].
Qed.

(** ** The session check *)

Lemma selectSession_expireSession requestAt sessID a :
  selectSession sessID (expireSession requestAt sessID a) = None.
Proof.
  unfold selectSession, expireSession. destruct a as [? sessions ? ? ? ?]. simpl.
  induction sessions as [|k l IH]; simpl; [done|].
  destruct (String.eqb (Session.SessionID k) sessID) eqn:Hk; simpl.
  - by rewrite Hk.
  - by rewrite Hk.
Qed.

(** [checkSessionMiddleware] runs the handler exactly for a valid session.
    With a session id whose first live row on the user's shard belongs to
    the user and has not expired, and a store that answers, the request is
    handed to the handler after one round trip that changed nothing.  In
    every other case the handler is not run: the response is an error
    with status 401, 403 or 500 that does not depend on the handler, and
    no server is written, but for the session rows marked deleted when the
    answer is [ErrExpiredSession]. *)
Theorem checkSessionMiddleware_guards {A} (h : Handler) (sessID : string)
  (userID requestAt : Z) (s : System) :
  (validSession h sessID userID requestAt s ∧ storeAnswers s →
   ∀ next : MS (Response A) A,
     checkSessionMiddleware h next sessID (Ok userID) requestAt s = next (afterCall s)) ∧
  (¬ (validSession h sessID userID requestAt s ∧ storeAnswers s) →
   ∃ statusCode err s',
     (∀ next : MS (Response A) A,
        checkSessionMiddleware h next sessID (Ok userID) requestAt s
        = (Err (errorResponse statusCode err), s')) ∧
     statusCode ∈ [StatusUnauthorized; StatusForbidden; StatusInternalServerError] ∧
     servers (world s') = servers (world s) ∧ txAnnex s' = txAnnex s ∧
     (annexes s' = annexes s ∨
      statusCode = StatusUnauthorized ∧ err = ErrExpiredSession)).
Proof.
  unfold checkSessionMiddleware, validSession, storeAnswers. split.
  - intros [(Hid & db & a & sess & Hdb & Ha & Hsess & Huser & Hlive) Hanswers] next.
    destruct (String.eqb_spec sessID "") as [|_]; [done|].
    unfold bindS at 1. rewrite lift_dbForUserID, Hdb.
    unfold bindS, orReturnS. rewrite annexGet_run, Hanswers, Ha, Hsess, Huser.
    rewrite Z.eqb_refl. simpl. by destruct (Z.ltb_spec (Session.ExpiredAt sess) requestAt); [lia|].
  - intros Hno.
    destruct (String.eqb_spec sessID "") as [|Hid].
    { exists StatusUnauthorized, ErrUnauthorized, s. split; [done|]. set_solver. }
    unfold bindS at 1. rewrite lift_dbForUserID.
    destruct (getDBForUserID h userID) as [db|] eqn:Hdb.
    2:{ exists StatusInternalServerError, Panic, s. split; [done|]. set_solver. }
    unfold bindS, orReturnS. rewrite annexGet_run.
    destruct (faults (world s) (storeCalls (world s))) eqn:Hanswers.
    { exists StatusInternalServerError, ErrStore, (afterCall s). split; [done|]. set_solver. }
    destruct (annexes s !! db) as [a|] eqn:Ha.
    2:{ exists StatusInternalServerError, ErrStore, (afterCall s). split; [done|]. set_solver. }
    destruct (selectSession sessID a) as [sess|] eqn:Hsess.
    2:{ exists StatusUnauthorized, ErrUnauthorized, (afterCall s). split; [done|]. set_solver. }
    destruct (Z.eqb_spec (Session.UserID sess) userID) as [Huser|_]; simpl.
    2:{ exists StatusForbidden, ErrForbidden, (afterCall s). split; [done|]. set_solver. }
    destruct (Z.ltb_spec (Session.ExpiredAt sess) requestAt) as [Hexp|Hlive].
    2:{ destruct Hno. split; [|done]. split; [done|]. by exists db, a, sess. }
    rewrite annexExec_run. simpl.
    destruct (faults (world s) (S (storeCalls (world s)))).
    { exists StatusInternalServerError, ErrStore, (afterCall (afterCall s)).
      split; [done|]. set_solver. }
    rewrite Ha.
    exists StatusUnauthorized, ErrExpiredSession,
      (with_annexes (λ l, <[db := expireSession requestAt sessID a]> l)
         (afterCall (afterCall s))).
    split; [done|]. set_solver.
Qed.

(** An expired session is revoked by the request that finds it expired:
    the request is answered 401 [ErrExpiredSession] and marks the rows of
    that session id deleted on the user's shard, after which every request
    with that session id routed to that shard, for any user, at any time
    and whatever the handler, is answered 401 [ErrUnauthorized] as long as
    the store answers. *)
Theorem expired_session_is_revoked {A} (h : Handler) (sessID : string)
  (userID requestAt : Z) (s : System) (db : Host) (a : Annex) (sess : Session.t) :
  sessID ≠ ""%string →
  getDBForUserID h userID = Some db → annexes s !! db = Some a →
  selectSession sessID a = Some sess → Session.UserID sess = userID →
  Session.ExpiredAt sess < requestAt →
  storeAnswers s → storeAnswers (afterCall s) →
  ∃ s',
    (∀ next : MS (Response A) A,
       checkSessionMiddleware h next sessID (Ok userID) requestAt s
       = (Err (errorResponse StatusUnauthorized ErrExpiredSession), s')) ∧
    annexes s' = <[db := expireSession requestAt sessID a]> (annexes s) ∧
    servers (world s') = servers (world s) ∧
    ∀ (s'' : System) (userID' requestAt' : Z) (next : MS (Response A) A),
      annexes s'' = annexes s' → getDBForUserID h userID' = Some db → storeAnswers s'' →
      checkSessionMiddleware h next sessID (Ok userID') requestAt' s''
      = (Err (errorResponse StatusUnauthorized ErrUnauthorized), afterCall s'').
Proof.
  unfold storeAnswers. intros Hid Hdb Ha Hsess Huser Hexp Hanswers Hanswers'.
  exists (with_annexes (λ l, <[db := expireSession requestAt sessID a]> l)
            (afterCall (afterCall s))).
  split; [|split; [done|split; [done|]]].
  - intros next. unfold checkSessionMiddleware.
    destruct (String.eqb_spec sessID "") as [|_]; [done|].
    unfold bindS at 1. rewrite lift_dbForUserID, Hdb.
    unfold bindS, orReturnS. rewrite annexGet_run, Hanswers, Ha, Hsess, Huser.
    rewrite Z.eqb_refl. simpl.
    destruct (Z.ltb_spec (Session.ExpiredAt sess) requestAt); [|lia].
    rewrite annexExec_run. simpl in *. by rewrite Hanswers', Ha.
  - intros s'' userID' requestAt' next Hsame Hdb' Hanswers''.
    unfold checkSessionMiddleware.
    destruct (String.eqb_spec sessID "") as [|_]; [done|].
    unfold bindS at 1. rewrite lift_dbForUserID, Hdb'.
    unfold bindS, orReturnS. rewrite annexGet_run, Hanswers'', Hsame. simpl.
    rewrite list_lookup_insert_eq by (by eapply lookup_lt_Some).
    by rewrite selectSession_expireSession.
Qed.

(** ** The API middleware *)

(** [apiMiddleware] runs the handler only for a cleared request: then,
    unless a store round trip fails (500), the handler runs on a state
    with the same tables.  A request that is not cleared (no active
    master version, another version than the request's, a banned user)
    never reaches the handler: the response is an error with status 403,
    404, 422 or 500 that does not depend on the handler.  No table is
    written either way. *)
Theorem apiMiddleware_guards {A} (h : Handler) (masterVersion : string)
  (userID : result error Z) (s : System) :
  (cleared h masterVersion userID s →
   ∃ s1, committed s1 = committed s ∧ txAnnex s1 = txAnnex s ∧
     ((∀ next : MS (Response A) A,
         apiMiddleware h next masterVersion userID s = next s1) ∨
      (∀ next : MS (Response A) A,
         apiMiddleware h next masterVersion userID s
         = (Err (errorResponse StatusInternalServerError ErrStore), s1)))) ∧
  (¬ cleared h masterVersion userID s →
   ∃ statusCode err s',
     (∀ next : MS (Response A) A,
        apiMiddleware h next masterVersion userID s
        = (Err (errorResponse statusCode err), s')) ∧
     statusCode ∈ [StatusForbidden; StatusNotFound; StatusUnprocessableEntity;
                   StatusInternalServerError] ∧
     committed s' = committed s ∧ txAnnex s' = txAnnex s).
Proof.
  assert (Heval : ∀ next : MS (Response A) A,
    apiMiddleware h next masterVersion userID s
    = if faults (world s) (storeCalls (world s))
      then (Err (errorResponse StatusInternalServerError ErrStore), afterCall s)
      else match annexes s !! DB h with
      | None => (Err (errorResponse StatusInternalServerError ErrStore), afterCall s)
      | Some a =>
        match selectActiveVersion a with
        | None => (Err (errorResponse StatusNotFound
                          (Errorf "active master version is not found")), afterCall s)
        | Some v =>
          if negb (String.eqb (VersionMaster.MasterVersion v) masterVersion)
          then (Err (errorResponse StatusUnprocessableEntity ErrInvalidMasterVersion),
                afterCall s)
          else match userID with
          | Err _ => next (afterCall s)
          | Ok userID =>
            if userID =? 0 then next (afterCall s)
            else match getDBForUserID h userID with
            | None => (Err (errorResponse StatusInternalServerError Panic), afterCall s)
            | Some db =>
              if faults (world s) (S (storeCalls (world s)))
              then (Err (errorResponse StatusInternalServerError ErrStore),
                    afterCall (afterCall s))
              else match annexes s !! db with
              | None => (Err (errorResponse StatusInternalServerError ErrStore),
                         afterCall (afterCall s))
              | Some b =>
                match selectBan userID b with
                | Some _ => (Err (errorResponse StatusForbidden ErrForbidden),
                             afterCall (afterCall s))
                | None => next (afterCall (afterCall s))
                end
              end
            end
          end
        end
      end).
  { intros next. unfold apiMiddleware, bindS at 1. unfold orReturnS at 1.
    rewrite annexGet_run. destruct (faults (world s) (storeCalls (world s))); [done|].
    destruct (annexes s !! DB h) as [a|]; [|done].
    destruct (selectActiveVersion a) as [v|]; [|done].
    destruct (negb _); [done|]. destruct userID as [userID|e]; [|done].
    destruct (userID =? 0); simpl; [done|].
    unfold checkBan, bindS, orReturnS, lift, dbForUserID.
    destruct (getDBForUserID h userID) as [db|]; simpl; [|by destruct s].
    rewrite annexFind_run. simpl.
    destruct (faults (world s) (S (storeCalls (world s)))); [done|].
    destruct (annexes s !! db) as [b|]; [|done]. by destruct (selectBan userID b). }
  unfold cleared. split.
  - intros [(a & v & Ha & Hv & Hversion) Hban].
    destruct (faults (world s) (storeCalls (world s))) eqn:Hf1.
    { exists (afterCall s). split; [done|]. split; [done|]. right. intros next.
      by rewrite Heval. }
    rewrite Ha, Hv, Hversion, String.eqb_refl in Heval. simpl in Heval.
    destruct userID as [userID|e].
    2:{ exists (afterCall s). split; [done|]. split; [done|]. by left. }
    destruct (Z.eqb_spec userID 0) as [|Hnz].
    { exists (afterCall s). split; [done|]. split; [done|]. by left. }
    destruct Hban as [|(db & b & Hdb & Hb & Hfree)]; [done|].
    rewrite Hdb, Hb, Hfree in Heval.
    exists (afterCall (afterCall s)). split; [done|]. split; [done|].
    destruct (faults (world s) (S (storeCalls (world s)))); [by right | by left].
  - intros Hno.
    destruct (faults (world s) (storeCalls (world s))).
    { exists StatusInternalServerError, ErrStore, (afterCall s). split; [done|]. set_solver. }
    destruct (annexes s !! DB h) as [a|] eqn:Ha.
    2:{ exists StatusInternalServerError, ErrStore, (afterCall s). split; [done|]. set_solver. }
    destruct (selectActiveVersion a) as [v|] eqn:Hv.
    2:{ exists StatusNotFound, (Errorf "active master version is not found"), (afterCall s).
        split; [done|]. set_solver. }
    destruct (String.eqb_spec (VersionMaster.MasterVersion v) masterVersion)
      as [Hversion|_]; simpl in Heval.
    2:{ exists StatusUnprocessableEntity, ErrInvalidMasterVersion, (afterCall s).
        split; [done|]. set_solver. }
    destruct userID as [userID|e].
    2:{ destruct Hno. split; [by exists a, v | done]. }
    destruct (Z.eqb_spec userID 0) as [Hz|Hnz].
    { destruct Hno. split; [by exists a, v | by left]. }
    destruct (getDBForUserID h userID) as [db|] eqn:Hdb.
    2:{ exists StatusInternalServerError, Panic, (afterCall s). split; [done|]. set_solver. }
    destruct (faults (world s) (S (storeCalls (world s)))).
    { exists StatusInternalServerError, ErrStore, (afterCall (afterCall s)).
      split; [done|]. set_solver. }
    destruct (annexes s !! db) as [b|] eqn:Hb.
    2:{ exists StatusInternalServerError, ErrStore, (afterCall (afterCall s)).
        split; [done|]. set_solver. }
    destruct (selectBan userID b) as [ban|] eqn:Hban.
    + exists StatusForbidden, ErrForbidden, (afterCall (afterCall s)).
      split; [done|]. set_solver.
    + destruct Hno. split; [by exists a, v|]. right. by exists db, b.
Qed.

Lemma checkSessionMiddleware_guards_witness :
  validSession oneShard "sess-b" bob 100 deckSystem ∧
  checkSessionMiddleware oneShard (home oneShard bob 100) "sess-b" (Ok bob) 100 deckSystem
  = home oneShard bob 100 (afterCall deckSystem).
Proof.
  assert (validSession oneShard "sess-b" bob 100 deckSystem) as Hvalid.
  { split; [done|]. exists 0%nat, deckAnnex, (Session.mk 2 bob "sess-b" 1000 0 0 None).
    repeat split; [reflexivity.. | simpl; lia]. }
  split; [done|].
  apply (proj1 (checkSessionMiddleware_guards oneShard "sess-b" bob 100 deckSystem)).
  split; [done | reflexivity].
Defined.

Lemma expired_session_is_revoked_witness :
  ∃ s', checkSessionMiddleware oneShard (home oneShard bob 2000) "sess-b" (Ok bob) 2000
          deckSystem
        = (Err (errorResponse StatusUnauthorized ErrExpiredSession), s') ∧
        checkSessionMiddleware oneShard (home oneShard bob 100) "sess-b" (Ok bob) 100 s'
        = (Err (errorResponse StatusUnauthorized ErrUnauthorized), afterCall s').
Proof.
  destruct (expired_session_is_revoked (A := HomeResponse.t) oneShard "sess-b" bob 2000
              deckSystem 0%nat deckAnnex (Session.mk 2 bob "sess-b" 1000 0 0 None))
    as (s' & Hrun & Hannexes & _ & Hlater);
    [done | reflexivity | reflexivity | reflexivity | reflexivity | simpl; lia
    | reflexivity | reflexivity |].
  exists s'. split; [apply Hrun|].
  apply Hlater; [done | reflexivity |].
  unfold storeAnswers.
  specialize (Hrun (home oneShard bob 2000)). vm_compute in Hrun.
  by injection Hrun as <-.
Defined.

Lemma apiMiddleware_guards_witness :
  cleared oneShard "v1" (Ok bob) deckSystem ∧
  ¬ cleared oneShard "v1" (Ok 5) deckSystem ∧
  ¬ cleared oneShard "v0" (Ok bob) deckSystem ∧
  ∃ statusCode err s',
    ∀ next : MS (Response HomeResponse.t) HomeResponse.t,
      apiMiddleware oneShard next "v1" (Ok 5) deckSystem
      = (Err (errorResponse statusCode err), s').
Proof.
  assert (¬ cleared oneShard "v1" (Ok 5) deckSystem) as Hbanned.
  { intros [_ [|(db & b & [= <-] & [= <-] & [=])]]. done. }
  split; [|split; [done|split]].
  - split; [by exists deckAnnex, (VersionMaster.mk 1 1 "v1")|].
    right. by exists 0%nat, deckAnnex.
  - by intros [(a & v & [= <-] & [= <-] & [=]) _].
  - destruct (proj2 (apiMiddleware_guards (A := HomeResponse.t) oneShard "v1" (Ok 5)
                       deckSystem) Hbanned)
      as (statusCode & err & s' & Hrun & _).
    by exists statusCode, err, s'.
Defined.

(** ** Machine arithmetic modulo 2^64 *)

Lemma wrap64_mod z : wrap64 z mod 2 ^ 64 = z mod 2 ^ 64.
Proof.
  unfold wrap64. rewrite Zminus_mod_idemp_l. f_equal. lia.
Qed.

Lemma wrap64_congr a b : a mod 2 ^ 64 = b mod 2 ^ 64 → wrap64 a = wrap64 b.
Proof.
  unfold wrap64. intros H.
  rewrite <- (Zplus_mod_idemp_l a), H, Zplus_mod_idemp_l. done.
Qed.

Lemma wrap64_add_l a b : wrap64 (wrap64 a + b) = wrap64 (a + b).
Proof. apply wrap64_congr. by rewrite <- Zplus_mod_idemp_l, wrap64_mod, Zplus_mod_idemp_l. Qed.

Lemma wrap64_add_r a b : wrap64 (a + wrap64 b) = wrap64 (a + b).
Proof. apply wrap64_congr. by rewrite <- Zplus_mod_idemp_r, wrap64_mod, Zplus_mod_idemp_r. Qed.

Lemma wrap64_mul_l a b : wrap64 (wrap64 a * b) = wrap64 (a * b).
Proof. apply wrap64_congr. by rewrite <- Zmult_mod_idemp_l, wrap64_mod, Zmult_mod_idemp_l. Qed.

Lemma wrap64_mul_r a b : wrap64 (a * wrap64 b) = wrap64 (a * b).
Proof. apply wrap64_congr. by rewrite <- Zmult_mod_idemp_r, wrap64_mod, Zmult_mod_idemp_r. Qed.

Lemma wrap64_sub_l a b : wrap64 (wrap64 a - b) = wrap64 (a - b).
Proof. apply wrap64_congr. by rewrite <- Zminus_mod_idemp_l, wrap64_mod, Zminus_mod_idemp_l. Qed.

Lemma rewarded_twice isuCoin t0 t1 t2 amountPerSec :
  rewarded (rewarded isuCoin t0 t1 amountPerSec) t1 t2 amountPerSec
  = rewarded isuCoin t0 t2 amountPerSec.
Proof.
  unfold rewarded, add64.
  rewrite !wrap64_mul_l, wrap64_add_l, !wrap64_add_r.
  rewrite <- Z.add_assoc, (Z.add_comm isuCoin), <- Z.add_assoc, wrap64_add_l.
  f_equal. lia.
Qed.

Lemma sumAmountPerSec_three c1 c2 c3 :
  sumAmountPerSec [c1; c2; c3]
  = add64 (add64 (UserCard.AmountPerSec c1) (UserCard.AmountPerSec c2))
          (UserCard.AmountPerSec c3).
Proof. unfold sumAmountPerSec, add64. simpl. by rewrite (wrap64_add_l (0 + _)). Qed.

(** ** Inversion of the store primitives of the extended state *)

Lemma annexGet_Ok {A} db (query : Annex → option A) s row s' :
  annexGet db query s = (Ok row, s') →
  ∃ a, annexes s !! db = Some a ∧ query a = Some row ∧ s' = afterCall s.
Proof.
  rewrite annexGet_run. destruct (faults _ _); [discriminate|].
  destruct (annexes s !! db) as [a|]; [|discriminate].
  destruct (query a) as [r|] eqn:Hq; [|discriminate]. intros [= <- <-]. by exists a.
Qed.

Lemma annexFind_Ok {A} db (query : Annex → option A) s row s' :
  annexFind db query s = (Ok row, s') →
  ∃ a, annexes s !! db = Some a ∧ row = query a ∧ s' = afterCall s.
Proof.
  rewrite annexFind_run. destruct (faults _ _); [discriminate|].
  destruct (annexes s !! db) as [a|]; [|discriminate]. intros [= <- <-]. by exists a.
Qed.

Lemma BeginxS_Ok db s u s' :
  BeginxS db s = (Ok u, s') →
  ∃ d a, servers (world s) !! db = Some d ∧ annexes s !! db = Some a ∧
         s' = with_txAnnex (λ _, a)
                (with_world (λ w, with_tx (λ _, d) (with_storeCalls S w)) s).
Proof.
  unfold BeginxS.
  intros ([] & s1 & (w1 & (d & Hd & ->)%Beginx_Ok & ->)%lift_Ok & Hrun)%bindS_Ok.
  apply bindS_Ok in Hrun as (s2 & s3 & [= <- <-] & Hrun). simpl in Hrun.
  destruct (annexes s !! db) as [a|] eqn:Ha; [|discriminate].
  injection Hrun as <-. by exists d, a.
Qed.

Lemma CommitS_Ok db s u s' :
  CommitS db s = (Ok u, s') →
  s' = with_annexes (λ l, <[db := txAnnex s]> l)
         (with_world (λ w, with_servers (λ l, <[db := tx w]> l) (with_storeCalls S w)) s).
Proof.
  unfold CommitS, bindS, lift, Commit, bind. rewrite storeCall_run. simpl.
  destruct (faults _ _); [discriminate|]. simpl. by intros [= <-].
Qed.

Lemma liftOr_Ok {E E' A} (m : M E A) (f : E → E') s a s' :
  orReturnS (lift m) f s = (Ok a, s') →
  ∃ w', m (world s) = (Ok a, w') ∧ s' = with_world (λ _, w') s.
Proof. by intros ?%orReturnS_Ok%lift_Ok. Qed.

Lemma lift_generateID {E} s :
  lift (@generateID E) s
  = (Ok (snowflakeNode (world s)), with_world (with_snowflakeNode (λ n, n + 1)) s).
Proof. done. Qed.

Lemma bindS_lift_generateID {E A} (k : Z → MS E A) s :
  bindS (lift generateID) k s
  = k (snowflakeNode (world s)) (with_world (with_snowflakeNode (λ n, n + 1)) s).
Proof. done. Qed.

(** ** updateDeck *)

Lemma filter_retire_other requestAt userID userID' decks :
  userID' ≠ userID →
  List.filter (λ k, (UserDeck.UserID k =? userID') && isNil (UserDeck.DeletedAt k))
    (map (λ k, if (UserDeck.UserID k =? userID) && isNil (UserDeck.DeletedAt k)
               then UserDeck.with_deleted requestAt (Some requestAt) k else k) decks)
  = List.filter (λ k, (UserDeck.UserID k =? userID') && isNil (UserDeck.DeletedAt k)) decks.
Proof.
  intros Hne. induction decks as [|k l IH]; simpl; [done|].
  destruct (Z.eqb_spec (UserDeck.UserID k) userID) as [Hk|Hk]; simpl.
  - destruct (isNil (UserDeck.DeletedAt k)) eqn:Hlive; simpl.
    + destruct (Z.eqb_spec (UserDeck.UserID k) userID'); [congruence|]. simpl. exact IH.
    + rewrite Hlive, andb_false_r. exact IH.
  - by rewrite IH.
Qed.

Lemma filter_retire_own requestAt userID decks :
  List.filter (λ k, (UserDeck.UserID k =? userID) && isNil (UserDeck.DeletedAt k))
    (map (λ k, if (UserDeck.UserID k =? userID) && isNil (UserDeck.DeletedAt k)
               then UserDeck.with_deleted requestAt (Some requestAt) k else k) decks)
  = [].
Proof.
  induction decks as [|k l IH]; simpl; [done|].
  destruct ((UserDeck.UserID k =? userID) && isNil (UserDeck.DeletedAt k)) eqn:Hk; simpl.
  - by rewrite andb_false_r.
  - by rewrite Hk.
Qed.

Lemma liveDecks_update requestAt userID newDeck a userID' :
  UserDeck.UserID newDeck = userID → UserDeck.DeletedAt newDeck = None →
  liveDecks userID' (insertDeck newDeck (retireDecks requestAt userID a))
  = if decide (userID' = userID) then [newDeck] else liveDecks userID' a.
Proof.
  intros Hu Hl. unfold liveDecks, insertDeck, retireDecks. destruct a as [decks ? ? ? ? ?].
  simpl. rewrite List.filter_app. simpl. rewrite Hu, Hl.
  destruct (decide (userID' = userID)) as [->|Hne].
  - by rewrite filter_retire_own, Z.eqb_refl.
  - rewrite filter_retire_other by done.
    destruct (Z.eqb_spec userID userID'); [congruence|]. simpl. by rewrite app_nil_r.
Qed.

Lemma selectDeck_liveDecks userID a : selectDeck userID a = head (liveDecks userID a).
Proof.
  unfold selectDeck, liveDecks. induction (user_decks a) as [|k l IH]; simpl; [done|].
  by destruct (_ && _).
Qed.

(** What a run of [updateDeck] that answered with the new deck has done. *)
Lemma updateDeck_Ok h userID requestAt req s newDeck s' :
  updateDeck h userID requestAt req s = (Ok newDeck, s') →
  ∃ db d a cardID1 cardID2 cardID3,
    getDBForUserID h userID = Some db ∧
    servers (world s) !! db = Some d ∧ annexes s !! db = Some a ∧
    is_Some (selectDevice userID (UpdateDeckRequest.ViewerID req) d) ∧
    UpdateDeckRequest.CardIDs req = [cardID1; cardID2; cardID3] ∧
    length (selectCardsByID [cardID1; cardID2; cardID3] d) = 3%nat ∧
    newDeck = UserDeck.mk (snowflakeNode (world s)) userID cardID1 cardID2 cardID3
                requestAt requestAt None ∧
    servers (world s') = servers (world s) ∧
    annexes s' = <[db := insertDeck newDeck (retireDecks requestAt userID a)]> (annexes s).
Proof.
  unfold updateDeck.
  destruct (Nat.eqb_spec (length (UpdateDeckRequest.CardIDs req)) DeckCardNumber)
    as [Hlen|]; [|discriminate]. simpl.
  intros ([] & s1 & (w1 & Hviewer & ->)%liftOr_Ok & Hrun)%bindS_Ok.
  apply bindS_Ok in Hrun as (db & s2 & Hdb & Hrun).
  rewrite lift_dbForUserID in Hdb.
  destruct (getDBForUserID h userID) as [db'|] eqn:Hroute; [|discriminate].
  injection Hdb as -> <-.
  destruct (checkViewerID_Ok _ _ _ _ _ _ Hroute Hviewer) as (d & Hd & Hdevice & ->).
  apply bindS_Ok in Hrun as (cards & s3 & (w3 & Hcards & ->)%liftOr_Ok & Hrun).
  apply dbSelect_Ok in Hcards as (d' & Hd' & -> & ->). simpl in Hd'.
  rewrite Hd in Hd'. injection Hd' as <-.
  destruct (Nat.eqb_spec (length (selectCardsByID (UpdateDeckRequest.CardIDs req) d))
              DeckCardNumber) as [Hfound|]; [|discriminate]. simpl in Hrun.
  apply bindS_Ok in Hrun as ([] & s4 & (d4 & a & Hd4 & Ha & ->)%orReturnS_Ok%BeginxS_Ok & Hrun).
  simpl in Hd4, Ha. rewrite Hd in Hd4. injection Hd4 as <-.
  apply bindS_Ok in Hrun as ([] & s5 & ->%orReturnS_Ok%txAnnexExec_Ok & Hrun).
  rewrite bindS_lift_generateID in Hrun.
  destruct (UpdateDeckRequest.CardIDs req) as [|cardID1 [|cardID2 [|cardID3 [|]]]];
    try discriminate.
  apply bindS_Ok in Hrun as (c1 & s6 & (w6 & [= <- <-] & ->)%liftOr_Ok & Hrun).
  apply bindS_Ok in Hrun as (c2 & s7 & (w7 & [= <- <-] & ->)%liftOr_Ok & Hrun).
  apply bindS_Ok in Hrun as (c3 & s8 & (w8 & [= <- <-] & ->)%liftOr_Ok & Hrun).
  apply bindS_Ok in Hrun as ([] & s9 & ->%orReturnS_Ok%txAnnexExec_Ok & Hrun).
  apply bindS_Ok in Hrun as ([] & s10 & ->%orReturnS_Ok%CommitS_Ok & [= <- <-]).
  simpl.
  exists db, d, a, cardID1, cardID2, cardID3.
  split; [done|]. split; [done|]. split; [done|]. split; [done|]. split; [done|].
  split; [done|]. split; [done|]. split; [|done].
  by apply list_insert_id.
Qed.

(** ** reward and home *)

Lemma three_cards (cards : list UserCard.t) :
  length cards = 3%nat → ∃ c1 c2 c3, cards = [c1; c2; c3].
Proof. destruct cards as [|c1 [|c2 [|c3 [|]]]]; try done. intros _. by exists c1, c2, c3. Qed.

(** What a run of [reward] that answered with the user has done. *)
Lemma reward_Ok h userID requestAt viewerID s user s' :
  reward h userID requestAt viewerID s = (Ok user, s') →
  ∃ db d a before deck,
    getDBForUserID h userID = Some db ∧
    servers (world s) !! db = Some d ∧ annexes s !! db = Some a ∧
    is_Some (selectDevice userID viewerID d) ∧
    selectUser userID d = Some before ∧ selectDeck userID a = Some deck ∧
    length (selectCardsByID (deckCardIDs deck) d) = 3%nat ∧
    user = User.mk (User.ID before)
             (rewarded (User.IsuCoin before) (User.LastGetRewardAt before) requestAt
                (sumAmountPerSec (selectCardsByID (deckCardIDs deck) d)))
             requestAt (User.LastActivatedAt before) (User.RegisteredAt before)
             (User.CreatedAt before) (User.UpdatedAt before) (User.DeletedAt before) ∧
    servers (world s')
    = <[db := payReward (User.IsuCoin user) requestAt userID d]> (servers (world s)) ∧
    annexes s' = annexes s.
Proof.
  unfold reward.
  intros ([] & s1 & (w1 & Hviewer & ->)%liftOr_Ok & Hrun)%bindS_Ok.
  apply bindS_Ok in Hrun as (db & s2 & Hdb & Hrun).
  rewrite lift_dbForUserID in Hdb.
  destruct (getDBForUserID h userID) as [db'|] eqn:Hroute; [|discriminate].
  injection Hdb as -> <-.
  destruct (checkViewerID_Ok _ _ _ _ _ _ Hroute Hviewer) as (d & Hd & Hdevice & ->).
  apply bindS_Ok in Hrun as (before & s3 & (w3 & Huser & ->)%liftOr_Ok & Hrun).
  apply dbGet_Ok in Huser as (d' & Hd' & Hbefore & ->). simpl in Hd'.
  rewrite Hd in Hd'. injection Hd' as <-.
  apply bindS_Ok in Hrun as (deck & s4 & (a & Ha & Hdeck & ->)%orReturnS_Ok%annexGet_Ok & Hrun).
  simpl in Ha.
  apply bindS_Ok in Hrun as (cards & s5 & (w5 & Hcards & ->)%liftOr_Ok & Hrun).
  apply dbSelect_Ok in Hcards as (d' & Hd' & -> & ->). simpl in Hd'.
  rewrite Hd in Hd'. injection Hd' as <-.
  destruct (Nat.eqb_spec (length (selectCardsByID (deckCardIDs deck) d)) 3)
    as [Hlen|]; [|discriminate]. simpl in Hrun.
  destruct (three_cards _ Hlen) as (c1 & c2 & c3 & Hthree). rewrite Hthree in Hrun.
  apply bindS_Ok in Hrun as (a1 & s6 & (w6 & [= <- <-] & ->)%liftOr_Ok & Hrun).
  apply bindS_Ok in Hrun as (a2 & s7 & (w7 & [= <- <-] & ->)%liftOr_Ok & Hrun).
  apply bindS_Ok in Hrun as (a3 & s8 & (w8 & [= <- <-] & ->)%liftOr_Ok & Hrun).
  apply bindS_Ok in Hrun as ([] & s9 & (w9 & Hexec & ->)%liftOr_Ok & [= <- <-]).
  apply dbExec_Ok in Hexec as (d' & Hd' & ->). simpl in Hd'.
  rewrite Hd in Hd'. injection Hd' as <-.
  exists db, d, a, before, deck. rewrite Hthree, sumAmountPerSec_three. simpl.
  rewrite (selectUser_ID _ _ _ Hbefore).
  by repeat split.
Qed.

Lemma selectUser_payReward isuCoin requestAt userID userID' d :
  selectUser userID' (payReward isuCoin requestAt userID d)
  = (λ u, if User.ID u =? userID
          then User.mk (User.ID u) isuCoin requestAt (User.LastActivatedAt u)
                 (User.RegisteredAt u) (User.CreatedAt u) (User.UpdatedAt u)
                 (User.DeletedAt u)
          else u) <$> selectUser userID' d.
Proof.
  unfold selectUser, payReward. destruct d as [us ? ? ? ? ? ? ? ? ? ? ?]. simpl.
  induction us as [|u l IH]; simpl; [done|].
  destruct (Z.eqb_spec (User.ID u) userID) as [Hu|Hu]; simpl.
  - destruct (Z.eqb_spec (User.ID u) userID') as [Hu'|Hu']; simpl; [|exact IH].
    by rewrite Hu, Z.eqb_refl.
  - destruct (Z.eqb_spec (User.ID u) userID') as [Hu'|Hu']; simpl; [|exact IH].
    by destruct (Z.eqb_spec (User.ID u) userID).
Qed.

Lemma payReward_twice isuCoin requestAt isuCoin' requestAt' userID d :
  payReward isuCoin' requestAt' userID (payReward isuCoin requestAt userID d)
  = payReward isuCoin' requestAt' userID d.
Proof.
  unfold payReward. destruct d as [us ? ? ? ? ? ? ? ? ? ? ?]. unfold with_users. simpl.
  f_equal. rewrite map_map. apply map_ext. intros u.
  destruct (Z.eqb_spec (User.ID u) userID) as [Hu|Hu]; simpl.
  - by rewrite Hu, Z.eqb_refl.
  - by destruct (Z.eqb_spec (User.ID u) userID).
Qed.

(** What a run of [home] that answered has read. *)
Lemma home_Ok h userID requestAt s resp s' :
  home h userID requestAt s = (Ok resp, s') →
  ∃ db d a user,
    getDBForUserID h userID = Some db ∧
    servers (world s) !! db = Some d ∧ annexes s !! db = Some a ∧
    selectUser userID d = Some user ∧
    resp = HomeResponse.mk requestAt user (selectDeck userID a)
             (sumAmountPerSec
                (match selectDeck userID a with
                 | Some deck => selectCardsByID (deckCardIDs deck) d
                 | None => []
                 end))
             (wrap64 (requestAt - User.LastGetRewardAt user)).
Proof.
  unfold home. intros (db & s1 & Hdb & Hrun)%bindS_Ok.
  rewrite lift_dbForUserID in Hdb.
  destruct (getDBForUserID h userID) as [db'|] eqn:Hroute; [|discriminate].
  injection Hdb as -> <-.
  apply bindS_Ok in Hrun as (deck & s2 & (a & Ha & -> & ->)%orReturnS_Ok%annexFind_Ok & Hrun).
  apply bindS_Ok in Hrun as (cards & s3 & Hcards & Hrun).
  apply bindS_Ok in Hrun as (user & s4 & (w4 & Huser & ->)%liftOr_Ok & [= <- <-]).
  apply dbGet_Ok in Huser as (d & Hd & Huser & ->).
  exists db, d, a, user.
  destruct (selectDeck userID a) as [deck|].
  - apply liftOr_Ok in Hcards as (w3 & (d' & Hd' & -> & ->)%dbSelect_Ok & ->).
    simpl in Hd, Hd'. rewrite Hd in Hd'. by injection Hd' as <-.
  - injection Hcards as <- <-. done.
Qed.

Lemma frameS_home h userID requestAt : frameS committed (home h userID requestAt).
Proof.
  unfold home. apply frameS_bind.
  { apply frameS_orReturn, frameS_lift. unfold dbForUserID.
    destruct (getDBForUserID h userID); [apply frame_ret | apply frame_throw]. }
  intros db. apply frameS_bind; [apply frameS_orReturn, frameS_annexFind|].
  intros deck. apply frameS_bind.
  { destruct deck; [|apply frameS_ret].
    apply frameS_orReturn, frameS_lift. by apply frame_dbSelect. }
  intros cards. apply frameS_bind.
  { apply frameS_orReturn, frameS_lift. by apply frame_dbGet. }
  intros user. apply frameS_ret.
Qed.

(** [updateDeck] leaves the user with exactly one live deck.  A request
    that is answered named three card ids for which the user's shard
    holds exactly three card rows (whoever owns them); the deck returned
    carries those ids in the order of the request and a fresh id; after
    the commit it is the only live deck of the user on the shard, the
    live decks of every other user and all other tables are as before,
    and [home] shows it in any state with the same committed tables. *)
Theorem updateDeck_installs_one_deck (h : Handler) (userID requestAt : Z)
  (req : UpdateDeckRequest.t) (s s' : System) (newDeck : UserDeck.t) :
  updateDeck h userID requestAt req s = (Ok newDeck, s') →
  ∃ db d a,
    getDBForUserID h userID = Some db ∧
    servers (world s) !! db = Some d ∧ annexes s !! db = Some a ∧
    UserDeck.ID newDeck = snowflakeNode (world s) ∧
    UserDeck.UserID newDeck = userID ∧
    deckCardIDs newDeck = UpdateDeckRequest.CardIDs req ∧
    length (selectCardsByID (deckCardIDs newDeck) d) = 3%nat ∧
    annexes s' = <[db := insertDeck newDeck (retireDecks requestAt userID a)]> (annexes s) ∧
    servers (world s') = servers (world s) ∧
    (∀ userID',
       liveDecks userID' (insertDeck newDeck (retireDecks requestAt userID a))
       = if decide (userID' = userID) then [newDeck] else liveDecks userID' a) ∧
    ∀ (s1 s2 : System) (requestAt' : Z) (resp : HomeResponse.t),
      committed s1 = committed s' → home h userID requestAt' s1 = (Ok resp, s2) →
      HomeResponse.Deck resp = Some newDeck.
Proof.
  intros (db & d & a & cardID1 & cardID2 & cardID3 & Hdb & Hd & Ha & _ & Hreq & Hlen
          & -> & Hservers & Hannexes)%updateDeck_Ok.
  exists db, d, a. simpl.
  do 5 (split; [done|]). split; [done|]. split; [done|]. split; [done|]. split; [done|].
  split. { intros userID'. by apply liveDecks_update. }
  intros s1 s2 requestAt' resp [= _ Hsame] (db' & d' & a' & user & Hdb' & _ & Ha' & _ & ->)%home_Ok.
  simpl. rewrite Hdb in Hdb'. injection Hdb' as <-.
  rewrite Hsame, Hannexes, list_lookup_insert_eq in Ha' by (by eapply lookup_lt_Some).
  injection Ha' as <-.
  rewrite selectDeck_liveDecks, liveDecks_update by done.
  by rewrite decide_True.
Qed.

(** [reward] pays for the time since the last reward.  A request that is
    answered has credited the user with the seconds since
    [last_getreward_at] times the sum of the [amount_per_sec] of the three
    cards of the live deck (in wrapping 64-bit arithmetic), has set
    [last_getreward_at] to the request time and returns the user row as it
    is now stored; it has written only the [users] table of the user's
    shard, where every other user reads as before. *)
Theorem reward_pays_elapsed_time (h : Handler) (userID requestAt : Z) (viewerID : string)
  (s s' : System) (user : User.t) :
  reward h userID requestAt viewerID s = (Ok user, s') →
  ∃ db d d' a before deck,
    getDBForUserID h userID = Some db ∧
    servers (world s) !! db = Some d ∧ annexes s !! db = Some a ∧
    selectUser userID d = Some before ∧ selectDeck userID a = Some deck ∧
    User.IsuCoin user
    = rewarded (User.IsuCoin before) (User.LastGetRewardAt before) requestAt
        (sumAmountPerSec (selectCardsByID (deckCardIDs deck) d)) ∧
    User.LastGetRewardAt user = requestAt ∧
    servers (world s') = <[db := d']> (servers (world s)) ∧ annexes s' = annexes s ∧
    d' = with_users (λ _, users d') d ∧
    selectUser userID d' = Some user ∧
    ∀ userID', userID' ≠ userID → selectUser userID' d' = selectUser userID' d.
Proof.
  intros (db & d & a & before & deck & Hdb & Hd & Ha & _ & Hbefore & Hdeck & Hlen & -> & Hservers
          & Hannexes)%reward_Ok.
  simpl in Hservers.
  exists db, d, (payReward (rewarded (User.IsuCoin before) (User.LastGetRewardAt before)
                              requestAt (sumAmountPerSec (selectCardsByID (deckCardIDs deck) d)))
                   requestAt userID d), a, before, deck.
  simpl. do 9 (split; [done|]). split; [by destruct d|]. split.
  - rewrite selectUser_payReward, Hbefore. simpl.
    by rewrite (selectUser_ID _ _ _ Hbefore), Z.eqb_refl.
  - intros userID' Hne. rewrite selectUser_payReward.
    destruct (selectUser userID' d) as [u|] eqn:Hu; [|done]. simpl.
    rewrite (selectUser_ID _ _ _ Hu). by destruct (Z.eqb_spec userID' userID).
Qed.

Lemma selectCardsByID_payReward cardIDs isuCoin requestAt userID d :
  selectCardsByID cardIDs (payReward isuCoin requestAt userID d) = selectCardsByID cardIDs d.
Proof. by destruct d. Qed.

(** Collecting the reward in two steps pays what collecting it once pays:
    after a reward at [t1] and another at [t2], the user row and every
    table are what a single reward at [t2] would have left, whatever the
    two times are and even when the sums wrap around. *)
Theorem reward_in_two_steps (h : Handler) (userID t1 t2 : Z) (viewerID : string)
  (s s1 s2 s' : System) (user1 user2 user : User.t) :
  reward h userID t1 viewerID s = (Ok user1, s1) →
  reward h userID t2 viewerID s1 = (Ok user2, s2) →
  reward h userID t2 viewerID s = (Ok user, s') →
  user2 = user ∧ committed s2 = committed s'.
Proof.
  intros (db & d & a & before & deck & Hdb & Hd & Ha & _ & Hbefore & Hdeck & _ & -> & Hs1 & Ha1)%reward_Ok.
  intros (db1 & d1 & a1 & before1 & deck1 & Hdb1 & Hd1 & Ha1' & _ & Hbefore1 & Hdeck1 & _ & -> & Hs2 & Ha2)%reward_Ok.
  intros (db' & d' & a' & before' & deck' & Hdb' & Hd' & Ha' & _ & Hbefore' & Hdeck' & _ & -> & Hs' & Ha'')%reward_Ok.
  simpl in *.
  rewrite Hdb in Hdb1, Hdb'. injection Hdb1 as <-. injection Hdb' as <-.
  rewrite Hd in Hd'. injection Hd' as <-.
  rewrite Ha in Ha'. injection Ha' as <-.
  rewrite Hdeck in Hdeck'. injection Hdeck' as <-.
  rewrite Hbefore in Hbefore'. injection Hbefore' as <-.
  rewrite Ha1, Ha in Ha1'. injection Ha1' as <-.
  rewrite Hdeck in Hdeck1. injection Hdeck1 as <-.
  rewrite Hs1, list_lookup_insert_eq in Hd1 by (by eapply lookup_lt_Some).
  injection Hd1 as <-.
  rewrite selectUser_payReward, Hbefore in Hbefore1. simpl in Hbefore1.
  rewrite (selectUser_ID _ _ _ Hbefore), Z.eqb_refl in Hbefore1.
  injection Hbefore1 as <-. simpl in *.
  rewrite selectCardsByID_payReward in *. rewrite rewarded_twice in *.
  split; [by rewrite (selectUser_ID _ _ _ Hbefore)|]. unfold committed.
  by rewrite Hs2, Hs', Hs1, list_insert_insert_eq, payReward_twice, Ha2, Ha'', Ha1.
Qed.

(** [home] reads only, and shows what [reward] pays.  Whatever its
    outcome, a [home] request leaves every table as it was.  When it is
    answered, it shows the user's row and live deck (if any) on the
    user's shard, and a [reward] request made in the same state at the
    same time credits exactly [pastTime] times [totalAmountPerSec], in
    wrapping 64-bit arithmetic. *)
Theorem home_shows_what_reward_pays (h : Handler) (userID requestAt : Z) (s : System) :
  committed (snd (home h userID requestAt s)) = committed s ∧
  ∀ (resp : HomeResponse.t) (s1 : System),
    home h userID requestAt s = (Ok resp, s1) →
    HomeResponse.Now resp = requestAt ∧
    User.ID (HomeResponse.User resp) = userID ∧
    (∀ deck, HomeResponse.Deck resp = Some deck →
             UserDeck.UserID deck = userID ∧ UserDeck.DeletedAt deck = None) ∧
    (HomeResponse.Deck resp = None → HomeResponse.TotalAmountPerSec resp = 0) ∧
    ∀ (viewerID : string) (user : User.t) (s2 : System),
      reward h userID requestAt viewerID s = (Ok user, s2) →
      is_Some (HomeResponse.Deck resp) ∧
      User.IsuCoin user
      = add64 (User.IsuCoin (HomeResponse.User resp))
              (wrap64 (HomeResponse.PastTime resp * HomeResponse.TotalAmountPerSec resp)).
Proof.
  split; [apply frameS_home|].
  intros resp s1 (db & d & a & user & Hdb & Hd & Ha & Huser & ->)%home_Ok. simpl.
  split; [done|]. split; [by eapply selectUser_ID|]. split.
  { intros deck [Hin [Hu Hl]%andb_prop]%find_some. split; [by apply Z.eqb_eq|].
    by destruct (UserDeck.DeletedAt deck). }
  split; [by intros ->|].
  intros viewerID user' s2 (db' & d' & a' & before & deck & Hdb' & Hd' & Ha' & _ & Hbefore
                            & Hdeck & _ & -> & _)%reward_Ok.
  rewrite Hdb in Hdb'. injection Hdb' as <-.
  rewrite Hd in Hd'. injection Hd' as <-. rewrite Ha in Ha'. injection Ha' as <-.
  rewrite Huser in Hbefore. injection Hbefore as <-. rewrite Hdeck. simpl.
  split; [done|]. done.
Qed.

Lemma pair_run {A B} (p : A * B) (a : A) : fst p = a → p = (a, snd p).
Proof. intros <-. by destruct p. Qed.

Lemma updateDeck_installs_one_deck_witness :
  fst (updateDeck oneShard bob 50 deckRequest deckSystem)
  = Ok (UserDeck.mk 1000 bob 12 13 14 50 50 None) ∧
  (∀ a', annexes (snd (updateDeck oneShard bob 50 deckRequest deckSystem)) !! 0%nat
         = Some a' →
         liveDecks bob a' = [UserDeck.mk 1000 bob 12 13 14 50 50 None]) ∧
  servers (world (snd (updateDeck oneShard bob 50 deckRequest deckSystem)))
  = servers (world deckSystem).
Proof.
  assert (fst (updateDeck oneShard bob 50 deckRequest deckSystem)
          = Ok (UserDeck.mk 1000 bob 12 13 14 50 50 None)) as Hrun
    by (vm_compute; reflexivity).
  split; [exact Hrun|].
  apply pair_run in Hrun.
  pose proof (updateDeck_installs_one_deck _ _ _ _ _ _ _ Hrun) as H.
  destruct H as (db & d & a & Hdb & _ & Ha & _ & _ & _ & _ & Hannexes & Hservers & Hlive & _).
  injection Hdb as <-. injection Ha as <-.
  split; [|exact Hservers].
  intros a'. rewrite Hannexes. intros [= <-].
  rewrite Hlive. by rewrite decide_True.
Defined.

Lemma reward_pays_elapsed_time_witness :
  fst (reward oneShard bob 10 "bob-phone" deckSystem)
  = Ok (User.mk bob 60 10 0 0 0 0 None) ∧
  annexes (snd (reward oneShard bob 10 "bob-phone" deckSystem)) = annexes deckSystem ∧
  ∃ d', servers (world (snd (reward oneShard bob 10 "bob-phone" deckSystem))) = [d'] ∧
        selectUser bob d' = Some (User.mk bob 60 10 0 0 0 0 None).
Proof.
  assert (fst (reward oneShard bob 10 "bob-phone" deckSystem)
          = Ok (User.mk bob 60 10 0 0 0 0 None)) as Hrun
    by (vm_compute; reflexivity).
  split; [exact Hrun|].
  apply pair_run in Hrun.
  pose proof (reward_pays_elapsed_time _ _ _ _ _ _ _ Hrun) as H.
  destruct H as (db & d & d' & a & before & deck & Hdb & _ & _ & _ & _ & _ & _ & Hservers
                 & Hannexes & _ & Hstored & _).
  injection Hdb as <-.
  split; [exact Hannexes|]. exists d'. by split.
Defined.

Lemma reward_in_two_steps_witness :
  fst (reward oneShard bob 10 "bob-phone" deckSystem)
  = Ok (User.mk bob 60 10 0 0 0 0 None) ∧
  fst (reward oneShard bob 25 "bob-phone"
         (snd (reward oneShard bob 10 "bob-phone" deckSystem)))
  = Ok (User.mk bob 150 25 0 0 0 0 None) ∧
  fst (reward oneShard bob 25 "bob-phone" deckSystem)
  = Ok (User.mk bob 150 25 0 0 0 0 None) ∧
  committed (snd (reward oneShard bob 25 "bob-phone"
                    (snd (reward oneShard bob 10 "bob-phone" deckSystem))))
  = committed (snd (reward oneShard bob 25 "bob-phone" deckSystem)).
Proof.
  assert (fst (reward oneShard bob 10 "bob-phone" deckSystem)
          = Ok (User.mk bob 60 10 0 0 0 0 None)) as Hrun1
    by (vm_compute; reflexivity).
  assert (fst (reward oneShard bob 25 "bob-phone"
                 (snd (reward oneShard bob 10 "bob-phone" deckSystem)))
          = Ok (User.mk bob 150 25 0 0 0 0 None)) as Hrun2
    by (vm_compute; reflexivity).
  assert (fst (reward oneShard bob 25 "bob-phone" deckSystem)
          = Ok (User.mk bob 150 25 0 0 0 0 None)) as Hrun
    by (vm_compute; reflexivity).
  do 3 (split; [done|]).
  apply pair_run in Hrun1, Hrun2, Hrun.
  exact (proj2 (reward_in_two_steps _ _ _ _ _ _ _ _ _ _ _ _ Hrun1 Hrun2 Hrun)).
Defined.

Lemma home_shows_what_reward_pays_witness :
  fst (home oneShard bob 10 deckSystem)
  = Ok (HomeResponse.mk 10 (demoUser bob 0)
          (Some (UserDeck.mk 1 bob 11 12 13 0 0 None)) 6 10) ∧
  committed (snd (home oneShard bob 10 deckSystem)) = committed deckSystem ∧
  ∀ user s2, reward oneShard bob 10 "bob-phone" deckSystem = (Ok user, s2) →
             User.IsuCoin user = 60.
Proof.
  assert (fst (home oneShard bob 10 deckSystem)
          = Ok (HomeResponse.mk 10 (demoUser bob 0)
                  (Some (UserDeck.mk 1 bob 11 12 13 0 0 None)) 6 10)) as Hrun
    by (vm_compute; reflexivity).
  split; [exact Hrun|].
  apply pair_run in Hrun.
  destruct (home_shows_what_reward_pays oneShard bob 10 deckSystem) as [Hreads Hshows].
  split; [exact Hreads|].
  intros user s2 Hreward.
  destruct (Hshows _ _ Hrun) as (_ & _ & _ & _ & Hpays).
  by destruct (Hpays _ _ _ Hreward) as [_ ->].
Defined.

(** ** login *)

Lemma checkBan_Ok h userID db s isBan s' :
  getDBForUserID h userID = Some db →
  checkBan h userID s = (Ok isBan, s') →
  ∃ a, annexes s !! db = Some a ∧ isBan = negb (isNil (selectBan userID a)) ∧
       s' = afterCall s.
Proof.
  intros Hdb. unfold checkBan, bindS at 1, lift, dbForUserID. rewrite Hdb. simpl.
  rewrite with_world_id.
  intros (ban & s1 & (a & Ha & -> & ->)%annexFind_Ok & [= <- <-])%bindS_Ok.
  by exists a.
Qed.

Lemma pendingPresentAll_sessions userID requestAt f a :
  pendingPresentAll userID requestAt (with_user_sessions f a)
  = pendingPresentAll userID requestAt a.
Proof. by destruct a. Qed.

Lemma isCompleteTodayLogin_same date lastActivatedAt requestAt :
  date requestAt = date lastActivatedAt →
  isCompleteTodayLogin date lastActivatedAt requestAt = true.
Proof.
  unfold isCompleteTodayLogin. intros ->.
  destruct (date lastActivatedAt) as [[year month] day]. by rewrite !Z.eqb_refl.
Qed.

(** What a run of [login] that answered has done. *)
Lemma login_Ok date h requestAt req sessID s resp s' :
  login date h requestAt req sessID s = (Ok resp, s') →
  ∃ db d a stored d' a',
    getDBForUserID h (LoginRequest.UserID req) = Some db ∧
    servers (world s) !! db = Some d ∧ annexes s !! db = Some a ∧
    selectUser (LoginRequest.UserID req) d = Some stored ∧
    selectBan (LoginRequest.UserID req) a = None ∧
    is_Some (selectDevice (LoginRequest.UserID req) (LoginRequest.ViewerID req) d) ∧
    servers (world s') = <[db := d']> (servers (world s)) ∧
    annexes s' = <[db := a']> (annexes s) ∧
    user_sessions a'
    = user_sessions (revokeSessions requestAt (LoginRequest.UserID req) a)
      ++ [newSession (snowflakeNode (world s)) (LoginRequest.UserID req) sessID requestAt] ∧
    user_decks a' = user_decks a ∧ user_bans a' = user_bans a ∧
    LoginResponse.ViewerID resp = LoginRequest.ViewerID req ∧
    LoginResponse.SessionID resp = sessID ∧ LoginResponse.Now resp = requestAt ∧
    selectUser (LoginRequest.UserID req) d' = Some (LoginResponse.User resp) ∧
    user_devices d' = user_devices d ∧
    if isCompleteTodayLogin date (User.LastActivatedAt stored) requestAt
    then d' = touchUser requestAt (LoginRequest.UserID req) d ∧
         user_present_all_received_history a' = user_present_all_received_history a ∧
         LoginResponse.User resp = activated requestAt stored ∧
         LoginResponse.UserLoginBonuses resp = [] ∧ LoginResponse.UserPresents resp = []
    else LoginResponse.User resp
         = activated requestAt
             (User.with_IsuCoin (User.IsuCoin (LoginResponse.User resp)) stored) ∧
         Forall2 (presentOf (LoginRequest.UserID req) requestAt)
                 (pendingPresentAll (LoginRequest.UserID req) requestAt a)
                 (LoginResponse.UserPresents resp) ∧
         ∃ histories,
           Forall2 (historyOf (LoginRequest.UserID req) requestAt)
                   (pendingPresentAll (LoginRequest.UserID req) requestAt a) histories ∧
           user_present_all_received_history a'
           = user_present_all_received_history a ++ histories.
Proof.
  unfold login. intros (db & s1 & Hdb & Hrun)%bindS_Ok.
  rewrite lift_dbForUserID in Hdb.
  destruct (getDBForUserID h (LoginRequest.UserID req)) as [db'|] eqn:Hroute; [|discriminate].
  injection Hdb as -> <-.
  apply bindS_Ok in Hrun as (stored & s2 & (w2 & Hstored & ->)%liftOr_Ok & Hrun).
  apply dbGet_Ok in Hstored as (d & Hd & Hstored & ->).
  pose proof (selectUser_ID _ _ _ Hstored) as Hid. rewrite Hid in Hrun.
  apply bindS_Ok in Hrun as (isBan & s3 & Hban%orReturnS_Ok & Hrun).
  apply (checkBan_Ok _ _ _ _ _ _ Hroute) in Hban as (a & Ha & -> & ->). simpl in Ha.
  destruct (selectBan (LoginRequest.UserID req) a) as [ban|] eqn:Hfree; [discriminate|].
  simpl in Hrun.
  apply bindS_Ok in Hrun as ([] & s4 & (w4 & Hviewer & ->)%liftOr_Ok & Hrun).
  destruct (checkViewerID_Ok _ _ _ _ _ _ Hroute Hviewer) as (d' & Hd' & Hdevice & ->).
  simpl in Hd'. rewrite Hd in Hd'. injection Hd' as <-. clear Hviewer.
  apply bindS_Ok in Hrun as ([] & s5 & (d5 & a5 & Hd5 & Ha5 & ->)%orReturnS_Ok%BeginxS_Ok & Hrun).
  simpl in Hd5, Ha5. rewrite Hd in Hd5. injection Hd5 as <-.
  rewrite Ha in Ha5. injection Ha5 as <-.
  apply bindS_Ok in Hrun as ([] & s6 & ->%orReturnS_Ok%txAnnexExec_Ok & Hrun).
  rewrite bindS_lift_generateID in Hrun. cbv zeta in Hrun.
  apply bindS_Ok in Hrun as ([] & s7 & ->%orReturnS_Ok%txAnnexExec_Ok & Hrun).
  simpl in Hrun.
  fold (newSession (snowflakeNode (world s)) (LoginRequest.UserID req) sessID requestAt)
    in Hrun.
  exists db, d, a, stored.
  destruct (isCompleteTodayLogin date (User.LastActivatedAt stored) requestAt).
  - apply bindS_Ok in Hrun as ([] & s8 & (w8 & ->%txExec_Ok & ->)%liftOr_Ok & Hrun).
    apply bindS_Ok in Hrun as ([] & s9 & ->%orReturnS_Ok%CommitS_Ok & [= <- <-]).
    simpl.
    exists (touchUser requestAt (LoginRequest.UserID req) d),
      (insertSession (newSession (snowflakeNode (world s)) (LoginRequest.UserID req)
                        sessID requestAt)
         (revokeSessions requestAt (LoginRequest.UserID req) a)).
    rewrite selectUser_touchUser, Hstored. simpl.
    do 8 (split; [done|]). split; [by destruct a|]. split; [by destruct a|].
    split; [by destruct a|]. do 4 (split; [done|]). split; [by destruct d|].
    split; [done|]. split; [by destruct a|]. done.
  - apply bindS_Ok in Hrun as ([[user loginBonuses] presents] & s8 & Hprocess%orReturnS_Ok & Hrun).
    apply bindS_Ok in Hrun as ([] & s9 & ->%orReturnS_Ok%CommitS_Ok & [= <- <-]).
    apply loginProcess_Ok in Hprocess
      as (before & histories & Hbefore & Huser & Hstored' & Hdevices & Hpresents & Hhistories
          & Htx & Hservers & Hannexes).
    simpl in Hbefore, Hdevices, Hpresents, Hhistories, Htx, Hservers, Hannexes.
    rewrite Hstored in Hbefore. injection Hbefore as <-.
    unfold insertSession in Hpresents, Hhistories.
    unfold revokeSessions in Hpresents, Hhistories.
    rewrite !pendingPresentAll_sessions in Hpresents, Hhistories.
    simpl. exists (tx (world s8)), (txAnnex s8).
    rewrite Hservers, Hannexes, Htx. simpl.
    do 8 (split; [done|]). split; [by destruct a|]. split; [by destruct a|].
    split; [by destruct a|]. do 5 (split; [done|]). split; [done|]. split; [done|].
    exists histories. split; [done|]. by destruct a.
Qed.

Lemma liveSessions_rotate requestAt userID sess a a' userID' :
  user_sessions a' = user_sessions (revokeSessions requestAt userID a) ++ [sess] →
  Session.UserID sess = userID → Session.DeletedAt sess = None →
  liveSessions userID' a'
  = if decide (userID' = userID) then [sess] else liveSessions userID' a.
Proof.
  intros Hrows Hu Hl. unfold liveSessions. rewrite Hrows, List.filter_app. simpl.
  rewrite Hu, Hl. destruct a as [? sessions ? ? ? ?]. simpl. clear Hrows.
  destruct (decide (userID' = userID)) as [->|Hne].
  - rewrite Z.eqb_refl. simpl.
    induction sessions as [|k l IH]; simpl; [done|].
    destruct ((Session.UserID k =? userID) && isNil (Session.DeletedAt k)) eqn:Hk; simpl.
    + by rewrite andb_false_r.
    + by rewrite Hk.
  - destruct (Z.eqb_spec userID userID'); [congruence|]. simpl. rewrite app_nil_r.
    induction sessions as [|k l IH]; simpl; [done|].
    destruct (Z.eqb_spec (Session.UserID k) userID) as [Hk|Hk]; simpl.
    + destruct (isNil (Session.DeletedAt k)) eqn:Hlive; simpl.
      * destruct (Z.eqb_spec (Session.UserID k) userID'); [congruence|]. simpl. exact IH.
      * rewrite Hlive, andb_false_r. exact IH.
    + by rewrite IH.
Qed.

Lemma selectSession_live sessID a k :
  selectSession sessID a = Some k →
  Session.SessionID k = sessID ∧ k ∈ liveSessions (Session.UserID k) a.
Proof.
  unfold selectSession, liveSessions.
  intros [Hin [Hid Hlive]%andb_prop]%find_some. split; [by apply String.eqb_eq|].
  apply list_elem_of_In, filter_In. split; [done|]. by rewrite Z.eqb_refl.
Qed.

Lemma selectSession_rotate requestAt userID sessID sess a a' :
  user_sessions a' = user_sessions (revokeSessions requestAt userID a) ++ [sess] →
  Session.SessionID sess = sessID → Session.DeletedAt sess = None →
  (∀ k, k ∈ user_sessions a → Session.SessionID k = sessID →
        Session.DeletedAt k = None → Session.UserID k = userID) →
  selectSession sessID a' = Some sess.
Proof.
  intros Hrows Hid Hlive Hfresh. unfold selectSession. rewrite Hrows.
  destruct a as [? sessions ? ? ? ?]. simpl in *. clear Hrows.
  induction sessions as [|k l IH]; simpl.
  - by rewrite Hid, String.eqb_refl, Hlive.
  - assert (Hrest : ∀ k', k' ∈ l → Session.SessionID k' = sessID →
                          Session.DeletedAt k' = None → Session.UserID k' = userID).
    { intros k' Hk'. apply Hfresh. by right. }
    specialize (Hfresh k (list_elem_of_here _ _)).
    destruct (Z.eqb_spec (Session.UserID k) userID) as [Hu|Hu]; simpl.
    + destruct (Session.DeletedAt k) as [t|] eqn:Hdel; simpl.
      * rewrite Hdel, andb_false_r. by apply IH.
      * rewrite andb_false_r. by apply IH.
    + destruct (String.eqb_spec (Session.SessionID k) sessID) as [Hk|Hk]; simpl; [|by apply IH].
      destruct (Session.DeletedAt k) as [t|] eqn:Hdel; simpl; [by apply IH|].
      by destruct Hu, Hfresh.
Qed.

(** [login] rotates the session.  A login that is answered was made for
    a user who is not banned, from a registered device; it commits, on the
    user's shard, the new session (the returned session id, expiring 86400
    seconds after the request) as the only live session of the user, and
    leaves the live sessions of every other user as they were.  In the
    state it leaves no other session id lets a request of that user in,
    and the new one does until it expires, provided it is not empty and
    no other user holds a live session with the same id. *)
Theorem login_rotates_session (date : Z → Z * Z * Z) (h : Handler) (requestAt : Z)
  (req : LoginRequest.t) (sessID : string) (s s' : System) (resp : LoginResponse.t) :
  login date h requestAt req sessID s = (Ok resp, s') →
  ∃ db d a a',
    getDBForUserID h (LoginRequest.UserID req) = Some db ∧
    servers (world s) !! db = Some d ∧
    annexes s !! db = Some a ∧ annexes s' !! db = Some a' ∧
    selectBan (LoginRequest.UserID req) a = None ∧
    is_Some (selectDevice (LoginRequest.UserID req) (LoginRequest.ViewerID req) d) ∧
    LoginResponse.SessionID resp = sessID ∧
    (∀ userID',
       liveSessions userID' a'
       = if decide (userID' = LoginRequest.UserID req)
         then [newSession (snowflakeNode (world s)) (LoginRequest.UserID req) sessID
                 requestAt]
         else liveSessions userID' a) ∧
    (∀ sessID' requestAt',
       validSession h sessID' (LoginRequest.UserID req) requestAt' s' →
       sessID' = sessID ∧ requestAt' ≤ add64 requestAt 86400) ∧
    (sessID ≠ ""%string →
     (∀ k, k ∈ user_sessions a → Session.SessionID k = sessID →
           Session.DeletedAt k = None → Session.UserID k = LoginRequest.UserID req) →
     ∀ requestAt', requestAt' ≤ add64 requestAt 86400 →
                   validSession h sessID (LoginRequest.UserID req) requestAt' s').
Proof.
  intros (db & d & a & stored & d' & a' & Hdb & Hd & Ha & _ & Hfree & Hdevice & _ & Hannexes
          & Hsessions & _ & _ & _ & Hsess & _)%login_Ok.
  assert (annexes s' !! db = Some a') as Ha'.
  { rewrite Hannexes. apply list_lookup_insert_eq. by eapply lookup_lt_Some. }
  exists db, d, a, a'. do 7 (split; [done|]).
  assert (Hlive : ∀ userID',
    liveSessions userID' a'
    = if decide (userID' = LoginRequest.UserID req)
      then [newSession (snowflakeNode (world s)) (LoginRequest.UserID req) sessID requestAt]
      else liveSessions userID' a).
  { intros userID'. by eapply liveSessions_rotate. }
  split; [exact Hlive|]. split.
  - intros sessID' requestAt' (_ & db' & a'' & k & Hdb' & Ha'' & Hk & Hu & Hexp).
    rewrite Hdb in Hdb'. injection Hdb' as <-. rewrite Ha' in Ha''. injection Ha'' as <-.
    apply selectSession_live in Hk as [Hid Hin].
    rewrite Hu, Hlive, decide_True in Hin by done.
    apply list_elem_of_singleton in Hin. subst k. simpl in *. by split.
  - intros Hid Hfresh requestAt' Hexp. split; [done|].
    exists db, a', (newSession (snowflakeNode (world s)) (LoginRequest.UserID req) sessID
                      requestAt).
    do 2 (split; [done|]). split; [|done].
    by eapply selectSession_rotate.
Qed.

(** The login bonus is paid once a day.  When a login is answered and
    the user logs in again at a time of the same calendar day, the second
    login runs no login process: it returns no login bonus and no present,
    the balance it reports is the one the first login reported, and on the
    user's shard it only stamps the user row with the new time (and
    rotates the session): the history of received presents is as the
    first login left it. *)
Theorem login_bonus_once_a_day (date : Z → Z * Z * Z) (h : Handler) (t1 t2 : Z)
  (req : LoginRequest.t) (sessID1 sessID2 : string) (s s1 s2 : System)
  (resp1 resp2 : LoginResponse.t) :
  login date h t1 req sessID1 s = (Ok resp1, s1) →
  login date h t2 req sessID2 s1 = (Ok resp2, s2) →
  date t2 = date t1 →
  LoginResponse.UserLoginBonuses resp2 = [] ∧ LoginResponse.UserPresents resp2 = [] ∧
  LoginResponse.User resp2 = activated t2 (LoginResponse.User resp1) ∧
  User.IsuCoin (LoginResponse.User resp2) = User.IsuCoin (LoginResponse.User resp1) ∧
  ∃ db d1 a1 a2,
    getDBForUserID h (LoginRequest.UserID req) = Some db ∧
    servers (world s1) !! db = Some d1 ∧
    servers (world s2) = <[db := touchUser t2 (LoginRequest.UserID req) d1]> (servers (world s1)) ∧
    annexes s1 !! db = Some a1 ∧ annexes s2 !! db = Some a2 ∧
    user_present_all_received_history a2 = user_present_all_received_history a1.
Proof.
  intros (db & d & a & stored & d1 & a1 & Hdb & Hd & Ha & _ & _ & _ & Hservers1 & Hannexes1
          & _ & _ & _ & _ & _ & _ & Hstored1 & _ & Hbranch1)%login_Ok.
  intros (db' & d1' & a1' & stored2 & d2 & a2 & Hdb' & Hd1 & Ha1 & Hstored2 & _ & _ & Hservers2
          & Hannexes2 & _ & _ & _ & _ & _ & _ & _ & _ & Hbranch2)%login_Ok.
  intros Hday.
  rewrite Hdb in Hdb'. injection Hdb' as <-.
  rewrite Hservers1, list_lookup_insert_eq in Hd1 by (by eapply lookup_lt_Some).
  injection Hd1 as <-.
  rewrite Hannexes1, list_lookup_insert_eq in Ha1 by (by eapply lookup_lt_Some).
  injection Ha1 as <-.
  rewrite Hstored1 in Hstored2. injection Hstored2 as <-.
  assert (User.LastActivatedAt (LoginResponse.User resp1) = t1) as Hat.
  { destruct (isCompleteTodayLogin date (User.LastActivatedAt stored) t1).
    - destruct Hbranch1 as (_ & _ & -> & _). done.
    - destruct Hbranch1 as (-> & _). done. }
  rewrite Hat, isCompleteTodayLogin_same in Hbranch2 by done.
  destruct Hbranch2 as (-> & Hhistory & -> & -> & ->).
  do 4 (split; [done|]).
  exists db, d1, a1, a2. split; [done|]. split.
  { rewrite Hservers1. apply list_lookup_insert_eq. by eapply lookup_lt_Some. }
  split; [done|]. split.
  { rewrite Hannexes1. apply list_lookup_insert_eq. by eapply lookup_lt_Some. }
  split; [|done].
  rewrite Hannexes2. apply list_lookup_insert_eq.
  rewrite Hannexes1, length_insert. by eapply lookup_lt_Some.
Qed.

Lemma login_rotates_session_witness :
  fst (login localDate oneShard 50 bobLogin "sess-new" loginSystem)
  = Ok (LoginResponse.mk "bob-phone" "sess-new" 50 (User.mk bob 10 0 50 0 0 50 None)
          [UserLoginBonus.mk 1001 bob 1 1 1 50 50 None]
          [UserPresent.mk 1002 bob 50 1 1 20 "welcome" 50 50 None]) ∧
  (∀ a', annexes (snd (login localDate oneShard 50 bobLogin "sess-new" loginSystem)) !! 0%nat
         = Some a' →
         liveSessions bob a' = [newSession 1000 bob "sess-new" 50]) ∧
  validSession oneShard "sess-new" bob 86450
    (snd (login localDate oneShard 50 bobLogin "sess-new" loginSystem)) ∧
  ¬ validSession oneShard "sess-old" bob 60
      (snd (login localDate oneShard 50 bobLogin "sess-new" loginSystem)).
Proof.
  assert (fst (login localDate oneShard 50 bobLogin "sess-new" loginSystem)
          = Ok (LoginResponse.mk "bob-phone" "sess-new" 50 (User.mk bob 10 0 50 0 0 50 None)
                  [UserLoginBonus.mk 1001 bob 1 1 1 50 50 None]
                  [UserPresent.mk 1002 bob 50 1 1 20 "welcome" 50 50 None])) as Hrun
    by (vm_compute; reflexivity).
  split; [exact Hrun|].
  apply pair_run in Hrun.
  pose proof (login_rotates_session _ _ _ _ _ _ _ _ Hrun) as H.
  destruct H as (db & d & a & a' & Hdb & _ & Ha & Ha' & _ & _ & _ & Hlive & Honly & Hvalid).
  injection Hdb as <-. injection Ha as <-. clear Hrun.
  split; [|split].
  - intros a''. unfold Host in Ha'. rewrite Ha'. intros [= <-].
    by rewrite Hlive, decide_True.
  - apply Hvalid; [discriminate | | vm_compute; discriminate].
    intros k Hk Hid _. exfalso.
    repeat (apply elem_of_cons in Hk as [->|Hk]; [discriminate Hid|]).
    by apply elem_of_nil in Hk.
  - intros [[=] _]%Honly.
Defined.

Lemma login_bonus_once_a_day_witness :
  fst (login localDate oneShard 50 bobLogin "sess-new" loginSystem)
  = Ok (LoginResponse.mk "bob-phone" "sess-new" 50 (User.mk bob 10 0 50 0 0 50 None)
          [UserLoginBonus.mk 1001 bob 1 1 1 50 50 None]
          [UserPresent.mk 1002 bob 50 1 1 20 "welcome" 50 50 None]) ∧
  fst (login localDate oneShard 60 bobLogin "sess-newer"
         (snd (login localDate oneShard 50 bobLogin "sess-new" loginSystem)))
  = Ok (LoginResponse.mk "bob-phone" "sess-newer" 60 (User.mk bob 10 0 60 0 0 60 None)
          [] []) ∧
  localDate 60 = localDate 50 ∧
  ∃ d1,
    servers (world (snd (login localDate oneShard 50 bobLogin "sess-new" loginSystem)))
    !! 0%nat = Some d1 ∧
    servers (world (snd (login localDate oneShard 60 bobLogin "sess-newer"
                           (snd (login localDate oneShard 50 bobLogin "sess-new"
                                   loginSystem)))))
    = <[0%nat := touchUser 60 bob d1]>
        (servers (world (snd (login localDate oneShard 50 bobLogin "sess-new"
                                loginSystem)))).
Proof.
  assert (fst (login localDate oneShard 50 bobLogin "sess-new" loginSystem)
          = Ok (LoginResponse.mk "bob-phone" "sess-new" 50 (User.mk bob 10 0 50 0 0 50 None)
                  [UserLoginBonus.mk 1001 bob 1 1 1 50 50 None]
                  [UserPresent.mk 1002 bob 50 1 1 20 "welcome" 50 50 None])) as Hrun1
    by (vm_compute; reflexivity).
  assert (fst (login localDate oneShard 60 bobLogin "sess-newer"
                 (snd (login localDate oneShard 50 bobLogin "sess-new" loginSystem)))
          = Ok (LoginResponse.mk "bob-phone" "sess-newer" 60 (User.mk bob 10 0 60 0 0 60 None)
                  [] [])) as Hrun2
    by (vm_compute; reflexivity).
  do 3 (split; [done|]).
  apply pair_run in Hrun1, Hrun2.
  pose proof (login_bonus_once_a_day _ _ _ _ _ _ _ _ _ _ _ _ Hrun1 Hrun2 eq_refl) as H.
  destruct H as (_ & _ & _ & _ & db & d1 & a1 & a2 & Hdb & Hd1 & Hservers & _).
  injection Hdb as <-. unfold Host in *. exists d1. split; [exact Hd1 | exact Hservers].
Defined.

(** ** createUser *)

Lemma bind_generateID {E A} (k : Z → M E A) w :
  bind generateID k w = k (snowflakeNode w) (with_snowflakeNode (λ n, n + 1) w).
Proof. done. Qed.

Lemma insertCards_app cards cards' d :
  insertCards cards' (insertCards cards d) = insertCards (cards ++ cards') d.
Proof.
  destruct d. unfold insertCards, with_user_cards. simpl. by rewrite <- app_assoc.
Qed.

Lemma insertInitCards_three initCard userID requestAt w cards w' :
  insertInitCards 3 initCard userID requestAt w = (Ok cards, w') →
  ∃ amountPerSec,
    ItemMaster.AmountPerSec initCard = Some amountPerSec ∧
    cards = [initialCard (snowflakeNode w) userID requestAt initCard amountPerSec;
             initialCard (snowflakeNode w + 1) userID requestAt initCard amountPerSec;
             initialCard (snowflakeNode w + 1 + 1) userID requestAt initCard amountPerSec] ∧
    w' = with_tx (insertCards cards)
           (with_storeCalls (λ n, S (S (S n)))
              (with_snowflakeNode (λ n, n + 1 + 1 + 1) w)).
Proof.
  simpl. rewrite bind_generateID.
  destruct (ItemMaster.AmountPerSec initCard) as [amountPerSec|]; [|discriminate].
  intros ([] & w1 & ->%txExec_Ok & Hrun)%bind_Ok.
  apply bind_Ok in Hrun as (cards2 & w2 & Hrun & [= <- <-]).
  rewrite bind_generateID in Hrun.
  apply bind_Ok in Hrun as ([] & w3 & ->%txExec_Ok & Hrun).
  apply bind_Ok in Hrun as (cards3 & w4 & Hrun & [= <- <-]).
  rewrite bind_generateID in Hrun.
  apply bind_Ok in Hrun as ([] & w5 & ->%txExec_Ok & Hrun).
  apply bind_Ok in Hrun as (cards4 & w6 & [= <- <-] & [= <- <-]).
  exists amountPerSec. split; [reflexivity|]. split; [reflexivity|].
  pose proof insertCards_app as Happ. revert Happ. generalize insertCards.
  intros ins Happ. destruct w as [sv t c tc sn f sc r rc ro].
  cbv [with_tx with_storeCalls with_snowflakeNode servers tx Cache TokenCache
       snowflakeNode faults storeCalls random randCalls rangeOrder].
  by rewrite !Happ.
Qed.

Lemma cardAt_Ok initCards i w card w' :
  cardAt initCards i w = (Ok card, w') → initCards !! i = Some card ∧ w' = w.
Proof.
  unfold cardAt. destruct (initCards !! i); [|discriminate]. by intros [= -> ->].
Qed.

Lemma selectUser_insertUser userID user d :
  selectUser userID (insertUser user d)
  = match selectUser userID d with
    | Some row => Some row
    | None => if User.ID user =? userID then Some user else None
    end.
Proof.
  unfold selectUser, insertUser. destruct d as [us ? ? ? ? ? ? ? ? ? ? ?]. simpl.
  induction us as [|u l IH]; simpl; [done|]. by destruct (User.ID u =? userID).
Qed.

(** What a run of [createUser] that answered has done; [uID] is the id the
    generator hands out first. *)
Lemma createUser_Ok h requestAt req sessID s resp s' :
  createUser h requestAt req sessID s = (Ok resp, s') →
  let uID := snowflakeNode (world s) in
  let user := User.mk uID 0 requestAt requestAt requestAt requestAt requestAt None in
  let userDevice := UserDevice.mk (uID + 1) uID (CreateUserRequest.ViewerID req)
                      (CreateUserRequest.PlatformType req) requestAt requestAt None in
  let initDeck := UserDeck.mk (uID + 1 + 1 + 1 + 1 + 1) uID (uID + 1 + 1)
                    (uID + 1 + 1 + 1) (uID + 1 + 1 + 1 + 1) requestAt requestAt None in
  CreateUserRequest.ViewerID req ≠ ""%string ∧
  1 ≤ CreateUserRequest.PlatformType req ≤ 3 ∧
  ∃ db d a d' a' initCard amountPerSec sID,
    getDBForUserID h uID = Some db ∧
    servers (world s) !! db = Some d ∧ annexes s !! db = Some a ∧
    selectItemMasterByID 2 d = Some initCard ∧
    ItemMaster.AmountPerSec initCard = Some amountPerSec ∧
    servers (world s') = <[db := d']> (servers (world s)) ∧
    annexes s' = <[db := a']> (annexes s) ∧
    CreateUserResponse.UserID resp = uID ∧
    CreateUserResponse.ViewerID resp = CreateUserRequest.ViewerID req ∧
    CreateUserResponse.SessionID resp = sessID ∧
    CreateUserResponse.CreatedAt resp = requestAt ∧
    CreateUserResponse.UserDevice resp = userDevice ∧
    CreateUserResponse.UserCards resp
    = [initialCard (uID + 1 + 1) uID requestAt initCard amountPerSec;
       initialCard (uID + 1 + 1 + 1) uID requestAt initCard amountPerSec;
       initialCard (uID + 1 + 1 + 1 + 1) uID requestAt initCard amountPerSec] ∧
    CreateUserResponse.UserDecks resp = [initDeck] ∧
    selectUser uID d' = Some (CreateUserResponse.User resp) ∧
    (selectUser uID d = None →
     CreateUserResponse.User resp
     = activated requestAt
         (User.with_IsuCoin (User.IsuCoin (CreateUserResponse.User resp)) user)) ∧
    user_devices d' = user_devices d ++ [userDevice] ∧
    user_decks a' = user_decks a ++ [initDeck] ∧
    user_sessions a' = user_sessions a ++ [newSession sID uID sessID requestAt] ∧
    user_bans a' = user_bans a ∧
    Forall2 (presentOf uID requestAt) (pendingPresentAll uID requestAt a)
            (CreateUserResponse.UserPresents resp).
Proof.
  unfold createUser.
  destruct (_ || _) eqn:Hreq; [discriminate|].
  apply orb_false_elim in Hreq as [[Hviewer%String.eqb_neq Hlow%Z.ltb_ge]%orb_false_elim
                                   Hhigh%Z.ltb_ge].
  rewrite bindS_lift_generateID.
  intros (db & s1 & Hdb & Hrun)%bindS_Ok.
  rewrite lift_dbForUserID in Hdb.
  destruct (getDBForUserID h (snowflakeNode (world s))) as [db'|] eqn:Hroute; [|discriminate].
  injection Hdb as -> <-.
  apply bindS_Ok in Hrun as ([] & s2 & (d & a & Hd & Ha & ->)%orReturnS_Ok%BeginxS_Ok & Hrun).
  simpl in Hd, Ha. cbv zeta in Hrun.
  apply bindS_Ok in Hrun as ([] & s3 & (w3 & ->%txExec_Ok & ->)%liftOr_Ok & Hrun).
  rewrite bindS_lift_generateID in Hrun.
  apply bindS_Ok in Hrun as ([] & s4 & (w4 & ->%txExec_Ok & ->)%liftOr_Ok & Hrun).
  apply bindS_Ok in Hrun as (initCard & s5 & (w5 & [Hmaster ->]%txGet_Ok & ->)%liftOr_Ok & Hrun).
  apply bindS_Ok in Hrun as (initCards & s6 & (w6 & Hcards & ->)%liftOr_Ok & Hrun).
  apply insertInitCards_three in Hcards as (amountPerSec & Hamount & -> & ->).
  rewrite bindS_lift_generateID in Hrun.
  apply bindS_Ok in Hrun as (c1 & s7 & (w7 & [[= <-] ->]%cardAt_Ok & ->)%liftOr_Ok & Hrun).
  apply bindS_Ok in Hrun as (c2 & s8 & (w8 & [[= <-] ->]%cardAt_Ok & ->)%liftOr_Ok & Hrun).
  apply bindS_Ok in Hrun as (c3 & s9 & (w9 & [[= <-] ->]%cardAt_Ok & ->)%liftOr_Ok & Hrun).
  apply bindS_Ok in Hrun as ([] & s10 & ->%orReturnS_Ok%txAnnexExec_Ok & Hrun).
  apply bindS_Ok in Hrun as ([[user loginBonuses] presents] & s11 & Hprocess%orReturnS_Ok & Hrun).
  rewrite bindS_lift_generateID in Hrun.
  apply bindS_Ok in Hrun as ([] & s12 & ->%orReturnS_Ok%txAnnexExec_Ok & Hrun).
  apply bindS_Ok in Hrun as ([] & s13 & ->%orReturnS_Ok%CommitS_Ok & [= <- <-]).
  apply loginProcess_Ok in Hprocess
    as (before & histories & Hbefore & Huser & Hstored & Hdevices & Hpresents & _ & Htx
        & Hservers & Hannexes).
  simpl in Hmaster, Hbefore, Hdevices, Hpresents, Htx, Hservers, Hannexes.
  assert (selectItemMasterByID 2 d = Some initCard) as Hmaster'.
  { rewrite <- Hmaster. by destruct d. }
  assert (selectUser (snowflakeNode (world s)) (insertUser
            (User.mk (snowflakeNode (world s)) 0 requestAt requestAt requestAt requestAt
               requestAt None) d) = Some before) as Hbefore'.
  { rewrite <- Hbefore. generalize (insertUser
            (User.mk (snowflakeNode (world s)) 0 requestAt requestAt requestAt requestAt
               requestAt None) d). by intros []. }
  rewrite selectUser_insertUser in Hbefore'. simpl in Hbefore'.
  rewrite Z.eqb_refl in Hbefore'.
  cbv zeta. split; [done|]. split; [lia|].
  exists db, d, a, (tx (world s11)), (with_user_sessions (λ rows, rows ++
     [newSession (snowflakeNode (world s11)) (User.ID user) sessID requestAt]) (txAnnex s11)),
    initCard, amountPerSec, (snowflakeNode (world s11)).
  pose proof (selectUser_ID _ _ _ Hstored) as Hid.
  simpl. rewrite Hservers, Hannexes, Htx, Hid, Hdevices. simpl.
  do 7 (split; [done|]). do 7 (split; [done|]). split; [done|]. split.
  { intros Hfresh. rewrite Hfresh in Hbefore'. by injection Hbefore' as <-. }
  split; [by destruct d|]. split; [by destruct a|]. split; [by destruct a|].
  split; [by destruct a|].
  by destruct a.
Qed.

Lemma find_snoc_None {A} (f : A → bool) (l : list A) (x : A) :
  List.find f l = None → f x = true → List.find f (l ++ [x]) = Some x.
Proof.
  induction l as [|y l IH]; simpl; [by intros _ ->|].
  destruct (f y); [discriminate | exact IH].
Qed.

Lemma find_snoc_is_Some {A} (f : A → bool) (l : list A) (x : A) :
  f x = true → is_Some (List.find f (l ++ [x])).
Proof.
  intros Hx. induction l as [|y l IH]; simpl; [by rewrite Hx|].
  by destruct (f y).
Qed.

Lemma selectItemMasterByID_ID itemID d m :
  selectItemMasterByID itemID d = Some m → ItemMaster.ID m = itemID.
Proof. by intros [_ ?%Z.eqb_eq]%find_some. Qed.

(** [createUser] registers a player who can use the service at once.  A
    request that is answered had a viewer id and a platform type from 1 to
    3; it commits, on the shard the new user id is routed to, the user row
    it returns, the device of the request, a live deck holding the three
    initial cards it returns (made from item master 2, level 1, with the
    master's [amount_per_sec]) and a live session with the returned
    session id, expiring 86400 seconds after the request; the user's live
    decks and sessions are the ones there were followed by the new ones.
    The viewer id passes [checkViewerID] from then on, and the session
    passes [checkSessionMiddleware] until it expires when the session id
    is not empty and was not in use on the shard. *)
Theorem createUser_registers_player (h : Handler) (requestAt : Z)
  (req : CreateUserRequest.t) (sessID : string) (s s' : System)
  (resp : CreateUserResponse.t) :
  createUser h requestAt req sessID s = (Ok resp, s') →
  let uID := snowflakeNode (world s) in
  (CreateUserRequest.ViewerID req ≠ ""%string ∧
   1 ≤ CreateUserRequest.PlatformType req ≤ 3) ∧
  CreateUserResponse.UserID resp = uID ∧
  CreateUserResponse.SessionID resp = sessID ∧
  ∃ db d a d' a' initCard amountPerSec initDeck sID,
    getDBForUserID h uID = Some db ∧
    servers (world s) !! db = Some d ∧ annexes s !! db = Some a ∧
    servers (world s') = <[db := d']> (servers (world s)) ∧
    annexes s' = <[db := a']> (annexes s) ∧
    selectItemMasterByID 2 d = Some initCard ∧ ItemMaster.ID initCard = 2 ∧
    ItemMaster.AmountPerSec initCard = Some amountPerSec ∧
    CreateUserResponse.UserDecks resp = [initDeck] ∧
    UserDeck.UserID initDeck = uID ∧ UserDeck.DeletedAt initDeck = None ∧
    CreateUserResponse.UserCards resp
    = map (λ cID, initialCard cID uID requestAt initCard amountPerSec)
          (deckCardIDs initDeck) ∧
    selectUser uID d' = Some (CreateUserResponse.User resp) ∧
    is_Some (selectDevice uID (CreateUserRequest.ViewerID req) d') ∧
    liveDecks uID a' = liveDecks uID a ++ [initDeck] ∧
    liveSessions uID a' = liveSessions uID a ++ [newSession sID uID sessID requestAt] ∧
    (sessID ≠ ""%string → selectSession sessID a = None →
     ∀ requestAt', requestAt' ≤ add64 requestAt 86400 →
                   validSession h sessID uID requestAt' s').
Proof.
  intros (Hviewer & Htype & db & d & a & d' & a' & initCard & amountPerSec & sID & Hdb & Hd
          & Ha & Hmaster & Hamount & Hservers & Hannexes & Hid & _ & Hsess & _ & _ & Hcards
          & Hdecks & Hstored & _ & Hdevices & Hdecks' & Hsessions & _)%createUser_Ok.
  cbv zeta in *.
  split; [done|]. split; [done|]. split; [done|].
  eexists db, d, a, d', a', initCard, amountPerSec, _, sID.
  do 6 (split; [done|]). split; [by eapply selectItemMasterByID_ID|]. split; [done|].
  split; [exact Hdecks|]. split; [done|]. split; [done|]. split; [exact Hcards|].
  split; [done|]. split.
  { unfold selectDevice. rewrite Hdevices. apply find_snoc_is_Some. simpl.
    by rewrite Z.eqb_refl, String.eqb_refl. }
  split.
  { unfold liveDecks. rewrite Hdecks', List.filter_app. simpl. by rewrite Z.eqb_refl. }
  split.
  { unfold liveSessions. rewrite Hsessions, List.filter_app. simpl. by rewrite Z.eqb_refl. }
  intros Hsess' Hfresh requestAt' Hexp. split; [done|].
  exists db, a', (newSession sID (snowflakeNode (world s)) sessID requestAt).
  split; [done|]. split.
  { rewrite Hannexes. apply list_lookup_insert_eq. by eapply lookup_lt_Some. }
  split; [|done].
  unfold selectSession in *. rewrite Hsessions. apply find_snoc_None; [done|].
  simpl. by rewrite String.eqb_refl.
Qed.

Lemma createUser_registers_player_witness :
  (∃ user loginBonuses presents,
     fst (createUser oneShard 50 carolSignup "sess-carol" signupSystem)
     = Ok (CreateUserResponse.mk 1000 "carol-phone" "sess-carol" 50 user
             (UserDevice.mk 1001 1000 "carol-phone" 1 50 50 None)
             [initialCard 1002 1000 50 hammer 1; initialCard 1003 1000 50 hammer 1;
              initialCard 1004 1000 50 hammer 1]
             [UserDeck.mk 1005 1000 1002 1003 1004 50 50 None] loginBonuses presents)) ∧
  (∀ a', annexes (snd (createUser oneShard 50 carolSignup "sess-carol" signupSystem)) !! 0%nat
         = Some a' →
         liveDecks 1000 a' = [UserDeck.mk 1005 1000 1002 1003 1004 50 50 None]) ∧
  validSession oneShard "sess-carol" 1000 86450
    (snd (createUser oneShard 50 carolSignup "sess-carol" signupSystem)).
Proof.
  assert (fst (createUser oneShard 50 carolSignup "sess-carol" signupSystem)
          = Ok (CreateUserResponse.mk 1000 "carol-phone" "sess-carol" 50
                  (User.mk 1000 10 50 50 50 50 50 None)
                  (UserDevice.mk 1001 1000 "carol-phone" 1 50 50 None)
                  [initialCard 1002 1000 50 hammer 1; initialCard 1003 1000 50 hammer 1;
                   initialCard 1004 1000 50 hammer 1]
                  [UserDeck.mk 1005 1000 1002 1003 1004 50 50 None]
                  [UserLoginBonus.mk 1006 1000 1 1 1 50 50 None]
                  [UserPresent.mk 1007 1000 50 1 1 10 "welcome" 50 50 None;
                   UserPresent.mk 1009 1000 50 1 1 20 "welcome" 50 50 None])) as Hrun
    by (vm_compute; reflexivity).
  split; [by eexists _, _, _|].
  apply pair_run in Hrun.
  pose proof (createUser_registers_player _ _ _ _ _ _ _ Hrun) as H.
  cbv zeta in H.
  destruct H as (_ & _ & _ & db & d & a & d' & a' & initCard & amountPerSec & initDeck & sID
                 & Hdb & _ & Ha & _ & Hannexes & _ & _ & _ & Hdeck & _ & _ & _ & _ & _
                 & Hdecks & _ & Hvalid).
  injection Hdb as <-. injection Ha as <-. injection Hdeck as <-. clear Hrun.
  unfold Host in *. split.
  - intros a''. rewrite Hannexes. intros [= <-]. exact Hdecks.
  - apply Hvalid; [discriminate | reflexivity | vm_compute; discriminate].
Defined.

(** ** A request that fails commits nothing *)

Lemma frame_servers_storeCalls (f : nat → nat) w : servers (with_storeCalls f w) = servers w.
Proof. by destruct w. Qed.

Lemma frame_servers_tx (f : Database → Database) w : servers (with_tx f w) = servers w.
Proof. by destruct w. Qed.

Lemma frame_servers_generateID {E} : frame servers (@generateID E).
Proof. intros w. by destruct w. Qed.

Lemma frame_servers_dbForUserID h userID : frame servers (dbForUserID h userID).
Proof. unfold dbForUserID. destruct (getDBForUserID h userID); [apply frame_ret | apply frame_throw]. Qed.

Lemma frame_servers_txExec stmt : frame servers (txExec stmt).
Proof. apply frame_txExec; [apply frame_servers_storeCalls | intros; apply frame_servers_tx]. Qed.

Lemma frame_servers_txGet {A} (query : Database → option A) : frame servers (txGet query).
Proof. apply frame_txGet. apply frame_servers_storeCalls. Qed.

Lemma frame_servers_checkViewerID h userID viewerID :
  frame servers (checkViewerID h userID viewerID).
Proof. apply frame_checkViewerID. apply frame_servers_storeCalls. Qed.

Lemma frame_servers_obtainLoginBonus h userID requestAt :
  frame servers (obtainLoginBonus h userID requestAt).
Proof.
  eapply frame_weaken; [|apply frame_usersShape_obtainLoginBonus].
  by intros w w' [= -> _ _].
Qed.

Lemma frameS_preparePresents normalPresents receivedMap userID requestAt :
  frameS committed (preparePresents normalPresents receivedMap userID requestAt).
Proof.
  induction normalPresents as [|np rest IH]; simpl; [apply frameS_ret|].
  destruct (default false _); [exact IH|].
  apply frameS_bind; [apply frameS_lift, frame_servers_generateID|]. intros pID.
  apply frameS_bind; [apply frameS_lift, frame_servers_generateID|]. intros phID.
  apply frameS_bind; [exact IH|]. intros more. apply frameS_ret.
Qed.

Lemma frameS_insertHistories histories : frameS committed (insertHistories histories).
Proof.
  induction histories as [|history rest IH]; simpl; [apply frameS_ret|].
  apply frameS_bind; [apply frameS_txAnnexExec | by intros].
Qed.

Lemma frameS_obtainPresent h userID requestAt :
  frameS committed (obtainPresent h userID requestAt).
Proof.
  unfold obtainPresent.
  apply frameS_bind; [apply frameS_txAnnexSelect|]. intros normalPresents.
  destruct (_ =? _)%nat; [apply frameS_ret|].
  apply frameS_bind; [apply frameS_txAnnexSelect|]. intros receivedIDs.
  apply frameS_bind; [apply frameS_preparePresents|]. intros prepared. cbv zeta.
  apply frameS_bind; [|intros; apply frameS_ret].
  destruct (0 <? _)%nat; [|apply frameS_ret].
  apply frameS_bind; [|intros; apply frameS_insertHistories].
  apply frameS_lift, frame_insertPresents;
    [apply frame_servers_storeCalls | intros; apply frame_servers_tx].
Qed.

Lemma frameS_loginProcess h userID requestAt :
  frameS committed (loginProcess h userID requestAt).
Proof.
  unfold loginProcess.
  apply frameS_bind; [apply frameS_orReturn, frameS_lift, frame_servers_txGet|]. intros user.
  apply frameS_bind; [apply frameS_lift, frame_servers_obtainLoginBonus|]. intros loginBonuses.
  apply frameS_bind; [apply frameS_obtainPresent|]. intros allPresents.
  apply frameS_bind; [apply frameS_orReturn, frameS_lift, frame_servers_txGet|]. intros isuCoin.
  cbv zeta. apply frameS_bind; [apply frameS_lift, frame_servers_txExec|]. intros.
  apply frameS_ret.
Qed.

Lemma frameS_checkBan h userID : frameS committed (checkBan h userID).
Proof.
  unfold checkBan.
  apply frameS_bind; [apply frameS_lift, frame_servers_dbForUserID|]. intros db.
  apply frameS_bind; [apply frameS_annexFind|]. intros. apply frameS_ret.
Qed.

Lemma rollsBackS_commit {A} db (a : A) (f : error → Response A) :
  rollsBackS committed (orReturnS (CommitS db) f;;+ retS a).
Proof.
  apply rollsBackS_last; [apply rollsBackS_orReturn, rollsBackS_CommitS|].
  intros. apply raisesS_ret.
Qed.

Lemma rollsBackS_login date h requestAt req sessID :
  rollsBackS committed (login date h requestAt req sessID).
Proof.
  unfold login.
  apply rollsBackS_bind; [apply frameS_orReturn, frameS_lift, frame_servers_dbForUserID|].
  intros db.
  apply rollsBackS_bind.
  { apply frameS_orReturn, frameS_lift, frame_dbGet, frame_servers_storeCalls. }
  intros user.
  apply rollsBackS_bind; [apply frameS_orReturn, frameS_checkBan|]. intros isBan.
  destruct isBan; [apply rollsBackS_frame, frameS_throw|].
  apply rollsBackS_bind; [apply frameS_orReturn, frameS_lift, frame_servers_checkViewerID|].
  intros.
  apply rollsBackS_bind; [apply frameS_orReturn, frameS_BeginxS|]. intros.
  apply rollsBackS_bind; [apply frameS_orReturn, frameS_txAnnexExec|]. intros.
  apply rollsBackS_bind; [apply frameS_lift, frame_servers_generateID|]. intros sID.
  cbv zeta.
  apply rollsBackS_bind; [apply frameS_orReturn, frameS_txAnnexExec|]. intros.
  destruct (isCompleteTodayLogin _ _ _).
  - apply rollsBackS_bind; [apply frameS_orReturn, frameS_lift, frame_servers_txExec|].
    intros. apply rollsBackS_commit.
  - apply rollsBackS_bind; [apply frameS_orReturn, frameS_loginProcess|].
    intros [[user' loginBonuses] presents]. apply rollsBackS_commit.
Qed.

Lemma frame_servers_insertInitCards n initCard userID requestAt :
  frame servers (insertInitCards n initCard userID requestAt).
Proof.
  induction n as [|n IH]; simpl; [apply frame_ret|].
  apply frame_bind; [apply frame_servers_generateID|]. intros cID.
  destruct (ItemMaster.AmountPerSec initCard); [|apply frame_throw].
  apply frame_bind; [apply frame_servers_txExec|]. intros.
  apply frame_bind; [exact IH | intros; apply frame_ret].
Qed.

Lemma frame_servers_cardAt initCards i : frame servers (cardAt initCards i).
Proof. unfold cardAt. destruct (initCards !! i); [apply frame_ret | apply frame_throw]. Qed.

Lemma frame_servers_cardIDAt cardIDs i : frame servers (cardIDAt cardIDs i).
Proof. unfold cardIDAt. destruct (cardIDs !! i); [apply frame_ret | apply frame_throw]. Qed.

Lemma frame_servers_amountAt cards i : frame servers (amountAt cards i).
Proof. unfold amountAt. destruct (cards !! i); [apply frame_ret | apply frame_throw]. Qed.

Lemma rollsBackS_createUser h requestAt req sessID :
  rollsBackS committed (createUser h requestAt req sessID).
Proof.
  unfold createUser.
  destruct (_ || _); [apply rollsBackS_frame, frameS_throw|].
  apply rollsBackS_bind; [apply frameS_lift, frame_servers_generateID|]. intros uID.
  apply rollsBackS_bind; [apply frameS_orReturn, frameS_lift, frame_servers_dbForUserID|].
  intros db.
  apply rollsBackS_bind; [apply frameS_orReturn, frameS_BeginxS|]. intros. cbv zeta.
  apply rollsBackS_bind; [apply frameS_orReturn, frameS_lift, frame_servers_txExec|]. intros.
  apply rollsBackS_bind; [apply frameS_lift, frame_servers_generateID|]. intros udID.
  apply rollsBackS_bind; [apply frameS_orReturn, frameS_lift, frame_servers_txExec|]. intros.
  apply rollsBackS_bind; [apply frameS_orReturn, frameS_lift, frame_servers_txGet|].
  intros initCard.
  apply rollsBackS_bind.
  { apply frameS_orReturn, frameS_lift, frame_servers_insertInitCards. }
  intros initCards.
  apply rollsBackS_bind; [apply frameS_lift, frame_servers_generateID|]. intros deckID.
  apply rollsBackS_bind; [apply frameS_orReturn, frameS_lift, frame_servers_cardAt|].
  intros card1.
  apply rollsBackS_bind; [apply frameS_orReturn, frameS_lift, frame_servers_cardAt|].
  intros card2.
  apply rollsBackS_bind; [apply frameS_orReturn, frameS_lift, frame_servers_cardAt|].
  intros card3.
  apply rollsBackS_bind; [apply frameS_orReturn, frameS_txAnnexExec|]. intros.
  apply rollsBackS_bind; [apply frameS_orReturn, frameS_loginProcess|].
  intros [[user loginBonuses] presents].
  apply rollsBackS_bind; [apply frameS_lift, frame_servers_generateID|]. intros sID.
  apply rollsBackS_bind; [apply frameS_orReturn, frameS_txAnnexExec|]. intros.
  apply rollsBackS_commit.
Qed.

Lemma rollsBackS_updateDeck h userID requestAt req :
  rollsBackS committed (updateDeck h userID requestAt req).
Proof.
  unfold updateDeck.
  destruct (negb _); [apply rollsBackS_frame, frameS_throw|].
  apply rollsBackS_bind; [apply frameS_orReturn, frameS_lift, frame_servers_checkViewerID|].
  intros.
  apply rollsBackS_bind; [apply frameS_orReturn, frameS_lift, frame_servers_dbForUserID|].
  intros db.
  apply rollsBackS_bind.
  { apply frameS_orReturn, frameS_lift, frame_dbSelect, frame_servers_storeCalls. }
  intros cards.
  destruct (negb _); [apply rollsBackS_frame, frameS_throw|].
  apply rollsBackS_bind; [apply frameS_orReturn, frameS_BeginxS|]. intros.
  apply rollsBackS_bind; [apply frameS_orReturn, frameS_txAnnexExec|]. intros.
  apply rollsBackS_bind; [apply frameS_lift, frame_servers_generateID|]. intros udID.
  apply rollsBackS_bind; [apply frameS_orReturn, frameS_lift, frame_servers_cardIDAt|].
  intros cardID1.
  apply rollsBackS_bind; [apply frameS_orReturn, frameS_lift, frame_servers_cardIDAt|].
  intros cardID2.
  apply rollsBackS_bind; [apply frameS_orReturn, frameS_lift, frame_servers_cardIDAt|].
  intros cardID3. cbv zeta.
  apply rollsBackS_bind; [apply frameS_orReturn, frameS_txAnnexExec|]. intros.
  apply rollsBackS_commit.
Qed.

Lemma rollsBackS_dbExec {A} db stmt (a : A) (f : error → Response A) :
  rollsBackS committed (orReturnS (lift (dbExec db stmt)) f;;+ retS a).
Proof.
  apply rollsBackS_last; [|intros; apply raisesS_ret].
  apply rollsBackS_orReturn. intros s e s'. unfold lift.
  destruct (dbExec db stmt (world s)) as [[[]|e0] w'] eqn:Hrun; [discriminate|].
  intros [= _ <-]. unfold committed. simpl.
  revert Hrun. unfold dbExec, bind, storeCall, get, modify, throw, ret.
  destruct (faults (world s) (storeCalls (world s))); [intros [= _ <-]; by destruct s as [[]]|].
  simpl. destruct (servers (world s) !! db); [discriminate|].
  intros [= _ <-]. by destruct s as [[]].
Qed.

Lemma rollsBackS_reward h userID requestAt viewerID :
  rollsBackS committed (reward h userID requestAt viewerID).
Proof.
  unfold reward.
  apply rollsBackS_bind; [apply frameS_orReturn, frameS_lift, frame_servers_checkViewerID|].
  intros.
  apply rollsBackS_bind; [apply frameS_orReturn, frameS_lift, frame_servers_dbForUserID|].
  intros db.
  apply rollsBackS_bind.
  { apply frameS_orReturn, frameS_lift, frame_dbGet, frame_servers_storeCalls. }
  intros user.
  apply rollsBackS_bind; [apply frameS_orReturn, frameS_annexGet|]. intros deck.
  apply rollsBackS_bind.
  { apply frameS_orReturn, frameS_lift, frame_dbSelect, frame_servers_storeCalls. }
  intros cards.
  destruct (negb _); [apply rollsBackS_frame, frameS_throw|]. cbv zeta.
  apply rollsBackS_bind; [apply frameS_orReturn, frameS_lift, frame_servers_amountAt|].
  intros amount0.
  apply rollsBackS_bind; [apply frameS_orReturn, frameS_lift, frame_servers_amountAt|].
  intros amount1.
  apply rollsBackS_bind; [apply frameS_orReturn, frameS_lift, frame_servers_amountAt|].
  intros amount2.
  apply rollsBackS_dbExec.
Qed.

(** The handlers that write commit all or nothing.  Whenever [login],
    [createUser], [updateDeck] or [reward] ends with an error, whatever
    the error and however far the request got (rows inserted in the
    transaction, a failed round trip to the store, a failed commit), every
    table of every server is as it was before the request. *)
Theorem failure_commits_nothing (date : Z → Z * Z * Z) (h : Handler)
  (userID requestAt : Z) (sessID viewerID : string) (s s' : System) :
  (∀ (req : LoginRequest.t) (r : Response LoginResponse.t),
     login date h requestAt req sessID s = (Err r, s') → committed s' = committed s) ∧
  (∀ (req : CreateUserRequest.t) (r : Response CreateUserResponse.t),
     createUser h requestAt req sessID s = (Err r, s') → committed s' = committed s) ∧
  (∀ (req : UpdateDeckRequest.t) (r : Response UserDeck.t),
     updateDeck h userID requestAt req s = (Err r, s') → committed s' = committed s) ∧
  (∀ r : Response User.t,
     reward h userID requestAt viewerID s = (Err r, s') → committed s' = committed s).
Proof.
  split; [|split; [|split]].
  - intros req r Hrun. by eapply rollsBackS_login.
  - intros req r Hrun. by eapply rollsBackS_createUser.
  - intros req r Hrun. by eapply rollsBackS_updateDeck.
  - intros r Hrun. by eapply rollsBackS_reward.
Qed.

Lemma failure_commits_nothing_witness :
  fst (createUser oneShard 50 carolSignup "sess-carol" loginSystem)
  = Err (errorResponse StatusNotFound ErrItemNotFound) ∧
  length (users (tx (world (snd (createUser oneShard 50 carolSignup "sess-carol"
                                   loginSystem))))) = 2%nat ∧
  committed (snd (createUser oneShard 50 carolSignup "sess-carol" loginSystem))
  = committed loginSystem.
Proof.
  assert (fst (createUser oneShard 50 carolSignup "sess-carol" loginSystem)
          = Err (errorResponse StatusNotFound ErrItemNotFound)) as Hrun
    by (vm_compute; reflexivity).
  split; [exact Hrun|]. split; [vm_compute; reflexivity|].
  apply pair_run in Hrun.
  destruct (failure_commits_nothing localDate oneShard 0 50 "sess-carol" "" loginSystem
              (snd (createUser oneShard 50 carolSignup "sess-carol" loginSystem)))
    as (_ & Hcreate & _).
  exact (Hcreate _ _ Hrun).
Defined.
